(* ===== verification/_CoqProject ===== *)
-Q . S2P
Prelude.v
GoStrings.v
Sha256.v
Runtime.v
Quiet.v
GoFloat.v
FormatGo.v
Domain.v
GoJson.v
GoTime.v
Base64.v
Codec.v
Schema.v
ConsumerLoop.v
KafkaBus.v
KafkaWriters.v
RiskService.v
LedgerService.v
OutboxPublisher.v
Metrics.v
RedisLimiter.v
AppEnv.v
DeadLetter.v
Operations.v
Maintenance.v
QueryService.v
StoreOutbox.v
TransactionService.v
StoreTransaction.v
FundingService.v
StoreConsumer.v
StoreLedger.v
StoreFunding.v
StoreDeadLetter.v
HeaderCodec.v
StoreMaintenance.v
StoreMetrics.v
StoreQuery.v
Books.v
Footprints.v
HttpApi.v
HttpMetrics.v
Processes.v
Startup.v
Guarantees.v
System.v
Typing.v
Invariants.v
PaymentEvents.v
Progress.v
Provenance.v
LedgerLocks.v
Instances.v
Shutdown.v
SystemProperties.v
RequestProperties.v
ConsumerProperties.v
LifecycleProperties.v
OutboxProperties.v
LoopProperties.v
OperatorProperties.v
Closed.v
PipelineProperties.v
HttpProperties.v
MetricsProperties.v
QueryProperties.v
EdgeProperties.v
LockProperties.v
