(* ===== verification/Prelude.v ===== *)
(** * Clearance: a verification development

    Clearance ([src/], Go) authorizes payments asynchronously.  A payment is
    accepted over HTTP and stored with an event in one database transaction
    (the transactional outbox); a publisher sends the events to Kafka; the risk
    service scores the payment; the ledger service settles it in a double-entry
    ledger; deposits fund the accounts.  Consumers claim each event in the
    transaction of its effect (the inbox), retry, and park what they cannot
    handle in a dead-letter table, from which an operator replays it.

    This library models the Go code of the five processes and the SQL it runs,
    as executable definitions, and proves what the system promises.

    ** How the code is modelled

    - A Go function that can fail or that touches the outside is a program of
      the monad [M S A] of [Runtime.v]: it runs in a [World S], a store of type
      [S] together with the clock, the random draws, the messages Kafka
      accepted, the counters of Redis and the metrics reported so far.  A
      [(value, error)] result is an [outcome], an error the inductive [error],
      whose wrapping [errors.Is] and [errors.As] look through.
    - What the code does not decide is decided by the world's schedule
      ([w_sched]): for each round trip, what other sessions committed before it
      (an arbitrary function of the store), how much time passed, which rows
      they hold locked, and whether the call failed before or after taking
      effect.  Theorems quantify over all schedules, or over those whose other
      sessions are themselves processes of the system ([sched_rely]).
    - A database transaction ([transact]) keeps its body's effect or none; a
      commit whose answer is lost may have happened.  In this model
      transactions run one at a time.  [LedgerLocks.v] drops that
      simplification where the code relies on locks, and
      [LockProperties.interleavings_serialize] recovers it.
    - Tables are finite maps from primary key to row; an insert or update runs
      the CHECKs, the unique and the foreign keys of [migrations/*.sql] and
      answers with PostgreSQL's error codes.
    - [int64] and [integer] values are [Z] with their bounds written out where
      the code parses, scans or multiplies them; strings are byte sequences;
      times are nanoseconds since year 1; JSON is scanned and assigned to
      struct fields as [encoding/json] does.
    - A nil and an empty slice are told apart only where the code does: a nil
      [[]byte] is NULL for a [bytea] column ([Schema.bytea_not_null]).

    ** The files, in order, and the code they model

    Foundations: [Prelude] (outcomes, sums over maps, automation), [GoStrings]
    ([strings], [unicode/utf8], [strconv], the two regular expressions),
    [Sha256], [Base64], [GoFloat], [GoJson] and [GoTime] (JSON and RFC 3339),
    [Runtime] (world, monad, guarantees) and [Quiet] (undisturbed runs).

    Data: [Domain] and [Codec] ([internal/domain/domain.go]), [Schema]
    ([migrations/*.sql]), [HeaderCodec] (message headers through the database).

    Services, each written against its Go interface as a type class:
    - [TransactionService], [QueryService] ([internal/transaction]);
    - [FundingService] ([internal/funding/service.go]);
    - [RiskService], [LedgerService] ([internal/risk], [internal/ledger]);
    - [ConsumerLoop] ([internal/consumer/loop.go]);
    - [OutboxPublisher] ([internal/outbox/publisher.go]);
    - [DeadLetter] ([internal/deadletter/recorder.go]);
    - [Operations], [Maintenance] ([internal/operations],
      [internal/maintenance]);
    - [KafkaBus], [KafkaWriters] ([internal/kafkabus/bus.go]);
    - [RedisLimiter] ([internal/redislimiter/limiter.go]);
    - [AppEnv] ([internal/appenv/env.go]);
    - [Metrics] ([internal/metrics/metrics.go]);
    - [HttpApi], [HttpMetrics] ([internal/httpapi], [internal/health]).

    The PostgreSQL store ([internal/postgres]), which implements those
    interfaces: [StoreTransaction], [StoreFunding], [StoreConsumer],
    [StoreLedger], [StoreOutbox], [StoreDeadLetter], [StoreMaintenance],
    [StoreMetrics], [StoreQuery].  Method [X] of the store is named [X], or
    [PgX] where the interface's method has the same name; each file proves what
    its operations did when they returned ([X_ok], [X_inv]).

    Processes: [Processes] ([cmd/*/main.go]) wires the services from the
    environment; [Startup] is each [main] as what it opens, starts and
    releases; [Shutdown] is the end of the transaction service; [FormatGo] is
    the tool [scripts/format-go/main.go].

    The system: [Guarantees] is the interface between store and processes;
    [System] defines the abstract steps and proves that every process takes
    only those; [Typing] proves that every process preserves the schema;
    [Books], [Footprints] and [Invariants] prove invariants of the steps;
    [PaymentEvents] and [Progress] prepare the liveness of payments;
    [Provenance] and [Closed] follow what events, messages and dead letters say
    through a system nobody else writes to, for [PipelineProperties];
    [LedgerLocks] interleaves transactions; [Instances] runs a concrete system
    for the witnesses.

    ** How the parts interact, and what carries the proofs

    [StoreGuarantees R T] states that every committing operation of the store
    relates the database before and after by [R], given what the services pass
    to it and what the [trust] [T] says of the messages that come in;
    [guar_run_trusting] concludes that every process then does so under every
    schedule whose other sessions do, and [guar_run] is the case that trusts
    [anything].  It is discharged three times: at [R = steps], the transitive
    closure of [System.step] (a payment, a deposit, an evaluation, a
    settlement, a redelivery, the moves of an outbox row, of a dead letter, of
    a replay attempt, a prune, an audit record), at [R = typed], the
    preservation of [well_typed], and at the steps whose messages come from
    given [sources] ([step_from]), which is how the closed system works.
    Whatever is invariant under [step] therefore holds of every running system.  [TransactionStoreSpec] and
    [FundingStoreSpec] are the promises of a store that idempotency needs; the
    PostgreSQL store keeps them.

    ** What the theorems show

    - [SystemProperties]: processes refine steps and preserve the schema; the
      ledger balances, no customer account is overdrawn, entries match
      statuses, settlements are final, every transaction is announced by an
      event, history is never deleted or rewritten.
    - [PipelineProperties]: when the consumers are fed from the broker and
      nobody else writes to it, messages say what is so, and the risk policy
      alone decides how a payment is rated.
    - [LifecycleProperties]: a pending payment is settled once its two events
      are delivered, with the verdict its amount and balance determine.
    - [RequestProperties]: idempotency keys answer retries with the first
      response, for payments and deposits; deposit references are unique.
    - [ConsumerProperties]: deliveries are atomic and refine the abstract
      settlement; redeliveries have no effect; the ledger service accepts what
      the risk service writes.
    - [OutboxProperties]: published means sent; the publisher sends the oldest
      event, counts failures, keeps a claimed event from other publishers until
      its failure is recorded or the claim is stale, and drains the outbox.
    - [LoopProperties]: offsets are committed after the effect or a durable
      dead letter, and nothing else is committed; the loop works off whatever
      it fetches, with at most the configured number of attempts per message;
      and how a message that can be neither handled nor parked is lost.
    - [OperatorProperties]: replays are guarded and reproduce the message;
      prunes are safe; requeues are audited.
    - [HttpProperties], [MetricsProperties], [QueryProperties],
      [EdgeProperties]: authorization before effect, totality of answers, metric
      counts, complete pagination, the bound of the rate limit.
    - [Shutdown]: a stopping service cuts no database work off, because of what
      [Startup]'s [main] defers, but does cut requests off; [Startup]: what the processes open they release.
    - [LockProperties]: interleaved settlements are serializable with the
      advisory lock and overdraw an account without it.
    - [FormatGo]: formatting changes blanks only, and a passing check means
      formatted.

    ** Bounds and fuel

    - [Outbox.PublishAvailable] has fuel; [OutboxProperties.outbox_drains] shows
      that one more than the number of waiting events is enough when nobody
      else writes.  With other writers the Go loop need not end either.
    - The JSON scanner and the readers of rune sequences recurse with the length
      of their input as fuel; round-trip theorems show that this suffices.
    - [QueryProperties.list_all] (a client that follows cursors) has fuel;
      [pages_are_complete] bounds it by the number of rows.
    - [Consumer.RunLoop] has the monad's error result, which Go's loop does not
      have and no run takes ([LoopProperties.consumers_never_stop]).
    - The consumer loop and the sampler run over the finite script of what they
      fetch or how often they tick: a prefix of the endless run.

    ** Parameters

    Code that is not in the repository is a class or an argument, with the
    documented behaviour a theorem needs as named laws, and a concrete instance
    in [Instances]: [Jsonb] with [JsonbSpec] and [JsonbArraySpec] (a [jsonb]
    column gives back an equivalent text, the members of an object in any
    order), [Collation] with [CollationSpec] (the order of [text]),
    [UnicodeTables] (case mapping; no law), [hashtext] (no law: it may
    collide), [ParseAddr] ([netip.ParseAddr]), [ClientGolang] with
    [ClientGolangSpec] (metric vectors), [GoToolchain] with [GoToolchainSpec]
    ([go/format] and [go/scanner]), the metrics page, [getenv], offset commits
    and timers ([external]: they do not write the database), the pool's
    statistics, and what the pool answers when it is opened ([Pgxpool]).  No theorem assumes that SHA-256 has no collisions: where two
    requests hash alike, a collision is a named alternative.

    ** Not modelled

    - Connections and listening sockets themselves: input and output of
      libraries.  [Startup] and [Shutdown] model what is opened, in which order
      it is released, and what a process does when opening fails.
    - Log output, and the JSON that [clearance-admin] prints on success.
      Durations in metrics: the log of calls keeps labels only.
    - Cancellation of a context inside a database call, which is a failed call
      of the schedule.
    - PostgreSQL below its documented behaviour (MVCC is modelled for the
      settlement of payments only), Kafka's partitions and rebalancing (the
      consumer loop gets the script of what it fetches).
    - [frontend/], [deploy/], [docs/] and build files: not Go code.

    ** Possible extensions

    Offsets as part of the state of the closed system (its consumers may be fed
    anything the broker holds, in any order and any number of times, of which
    the offsets select one); interleaving at statement level for the outbox and
    the operator's transactions. *)

From stdpp Require Import base gmap strings list fin_maps.
From Stdlib Require Import ZArith Lia.

#[export] Set Default Goal Selector "!".

(** ** Outcomes of fallible Go functions

    A Go function returning [(A, error)] is modelled by [outcome E A]: the
    value when the error is nil, the error otherwise (every caller of the
    repository discards the value when the error is set). *)

Inductive outcome (E A : Type) : Type :=
| Ok (a : A)
| Err (e : E).

Arguments Ok {E A} a.
Arguments Err {E A} e.

Definition is_ok {E A} (o : outcome E A) : bool :=
  match o with Ok _ => true | Err _ => false end.

#[export] Instance outcome_eq_dec {E A} `{EqDecision E, EqDecision A} :
  EqDecision (outcome E A).
Proof. solve_decision. Defined.

(** [injection] that does not look inside the components. *)
Lemma Some_pair_inj {A B} (a a' : A) (b b' : B) :
  Some (a, b) = Some (a', b') -> a = a' /\ b = b'.
Proof. by intros [= -> ->]. Qed.

(** ** Sums over finite maps

    SQL aggregates ([sum(...)], [count( * )]) over a table, which is a finite
    map from primary key to row. *)

Section map_sum.
Context {K V : Type} `{Countable K}.
Implicit Types (m : gmap K V) (f g : K -> V -> Z) (p : V -> bool).
Local Open Scope Z_scope.

Definition map_sum f m : Z := map_fold (fun k v acc => f k v + acc) 0 m.

Lemma map_sum_empty f : map_sum f ∅ = 0.
Proof. apply map_fold_empty. Qed.

Lemma map_sum_insert f m k v :
  m !! k = None -> map_sum f (<[k := v]> m) = f k v + map_sum f m.
Proof.
  intros Hk. unfold map_sum. rewrite map_fold_insert_L; [done| |done].
  intros; lia.
Qed.

Lemma map_sum_delete f m k v :
  m !! k = Some v -> map_sum f m = f k v + map_sum f (delete k m).
Proof.
  intros Hk. rewrite <- (insert_delete_id m k v Hk) at 1.
  apply map_sum_insert, lookup_delete_eq.
Qed.

(** Overwriting a row moves the sum by the difference of the two values. *)
Lemma map_sum_update f m k v v' :
  m !! k = Some v -> map_sum f (<[k := v']> m) = map_sum f m - f k v + f k v'.
Proof.
  intros Hk. rewrite (map_sum_delete f m k v Hk).
  rewrite <- insert_delete_eq, map_sum_insert by apply lookup_delete_eq. lia.
Qed.

Lemma map_sum_ext f g m :
  (forall k v, m !! k = Some v -> f k v = g k v) -> map_sum f m = map_sum g m.
Proof.
  induction m as [|k v m Hk IH] using map_ind; intros Hfg.
  - by rewrite !map_sum_empty.
  - rewrite !map_sum_insert by done. f_equal.
    + apply (Hfg k). apply lookup_insert_eq.
    + apply IH. intros k' v' Hk'. apply (Hfg k').
      rewrite lookup_insert_ne; [done|]. congruence.
Qed.

Lemma map_sum_nonneg f m :
  (forall k v, m !! k = Some v -> 0 <= f k v) -> 0 <= map_sum f m.
Proof.
  induction m as [|k v m Hk IH] using map_ind; intros Hf.
  - by rewrite map_sum_empty.
  - rewrite map_sum_insert by done.
    assert (0 <= f k v) by apply Hf, lookup_insert_eq.
    assert (0 <= map_sum f m); [|lia].
    apply IH. intros k' v' Hk'. apply (Hf k').
    rewrite lookup_insert_ne; congruence.
Qed.

Lemma map_sum_zero f m :
  (forall k v, m !! k = Some v -> f k v = 0) -> map_sum f m = 0.
Proof.
  induction m as [|k v m Hk IH] using map_ind; intros Hf; [apply map_sum_empty|].
  rewrite map_sum_insert by done. rewrite (Hf k v) by apply lookup_insert_eq.
  rewrite IH; [done|]. intros k' v' Hk'. apply Hf. rewrite lookup_insert_ne; congruence.
Qed.

Lemma map_sum_single f m k v :
  m !! k = Some v -> (forall k' v', k' <> k -> m !! k' = Some v' -> f k' v' = 0) ->
  map_sum f m = f k v.
Proof.
  intros Hk Hz. rewrite (map_sum_delete f m k v Hk), map_sum_zero; [lia|].
  intros k' v' [Hne Hk']%lookup_delete_Some. by apply Hz.
Qed.

Lemma map_sum_add f g m :
  map_sum (fun k v => f k v + g k v) m = map_sum f m + map_sum g m.
Proof.
  induction m as [|k v m Hk IH] using map_ind; [by rewrite !map_sum_empty|].
  rewrite !map_sum_insert by done. lia.
Qed.

(** [sum(f) filter (where p)] and [count( * ) filter (where p)] *)
Definition sum_where p (f : V -> Z) m : Z :=
  map_sum (fun _ v => if p v then f v else 0) m.
Definition count_where p m : Z := sum_where p (fun _ => 1) m.

Lemma count_where_nonneg p m : 0 <= count_where p m.
Proof. apply map_sum_nonneg. intros k v _. by destruct (p v). Qed.

Lemma count_where_insert p m k v :
  m !! k = None ->
  count_where p (<[k := v]> m) = (if p v then 1 else 0) + count_where p m.
Proof. apply (map_sum_insert (fun _ v => if p v then 1 else 0)). Qed.

Lemma count_where_update p m k v v' :
  m !! k = Some v ->
  count_where p (<[k := v']> m)
  = count_where p m - (if p v then 1 else 0) + (if p v' then 1 else 0).
Proof. apply (map_sum_update (fun _ v => if p v then 1 else 0)). Qed.

Lemma count_where_pos p m k v :
  m !! k = Some v -> p v = true -> 0 < count_where p m.
Proof.
  intros Hk Hp. unfold count_where, sum_where.
  rewrite (map_sum_delete _ _ _ _ Hk), Hp.
  assert (0 <= count_where p (delete k m)) by apply count_where_nonneg.
  unfold count_where, sum_where in *. lia.
Qed.
End map_sum.

(** ** [exists (select ...)] over a table *)

Section map_existsb.
Context {K V : Type} `{Countable K}.
Implicit Types (m : gmap K V) (p : K -> V -> bool).

Definition map_existsb p m : bool := existsb (fun kv => p kv.1 kv.2) (map_to_list m).

Lemma map_existsb_true p m :
  map_existsb p m = true <-> exists k v, m !! k = Some v /\ p k v = true.
Proof.
  unfold map_existsb. rewrite existsb_exists. split.
  - intros ([k v] & Hin & Hp). apply list_elem_of_In, elem_of_map_to_list in Hin. eauto.
  - intros (k & v & Hk & Hp). exists (k, v). split; [|done].
    by apply list_elem_of_In, elem_of_map_to_list.
Qed.

Lemma map_existsb_false p m :
  map_existsb p m = false <-> forall k v, m !! k = Some v -> p k v = false.
Proof.
  split.
  - intros Hf k v Hk. destruct (p k v) eqn:Hp; [|done].
    rewrite (proj2 (map_existsb_true p m)) in Hf by eauto. done.
  - intros Hall. destruct (map_existsb p m) eqn:E; [|done].
    apply map_existsb_true in E as (k & v & Hk & Hp). rewrite (Hall k v Hk) in Hp. done.
Qed.
End map_existsb.

(** ** Tables that only evolve: rows stay, and change as [P] allows *)

Section keeps.
Context {K V : Type} `{Countable K} (P : V -> V -> Prop).
Implicit Types (m : gmap K V).

Definition keeps m m' : Prop :=
  forall k v, m !! k = Some v -> exists v', m' !! k = Some v' /\ P v v'.

#[export] Instance keeps_preorder `{!PreOrder P} : PreOrder keeps.
Proof.
  split.
  - intros m k v Hk. by exists v.
  - intros m1 m2 m3 H12 H23 k v1 Hk.
    destruct (H12 _ _ Hk) as (v2 & Hk2 & HP12). destruct (H23 _ _ Hk2) as (v3 & Hk3 & HP23).
    exists v3. split; [done|]. by etrans.
Qed.

Lemma keeps_fresh `{!Reflexive P} m k v : m !! k = None -> keeps m (<[k := v]> m).
Proof. intros Hk k' v' Hk'. exists v'. rewrite lookup_insert_ne; [done|]. congruence. Qed.

Lemma keeps_two_fresh `{!PreOrder P} m k1 v1 k2 v2 :
  m !! k1 = None -> m !! k2 = None -> k1 <> k2 -> keeps m (<[k2 := v2]> (<[k1 := v1]> m)).
Proof.
  intros H1 H2 Hne. etrans; [by apply (keeps_fresh _ k1 v1)|].
  apply keeps_fresh. by rewrite lookup_insert_ne.
Qed.

Lemma keeps_update `{!Reflexive P} m k v v' :
  m !! k = Some v -> P v v' -> keeps m (<[k := v']> m).
Proof.
  intros Hk HP k' w Hk'. destruct (decide (k' = k)) as [->|Hne].
  - rewrite Hk in Hk'. injection Hk' as <-. exists v'. by rewrite lookup_insert_eq.
  - exists w. by rewrite lookup_insert_ne.
Qed.
End keeps.

(** ** Boolean reflection helpers *)

Lemma bool_decide_eqb_string (a b : string) :
  String.eqb a b = bool_decide (a = b).
Proof.
  case_bool_decide as Hab; [subst; apply String.eqb_refl|].
  by apply String.eqb_neq.
Qed.

Lemma bool_decide_is_Some {A} (o : option A) :
  bool_decide (is_Some o) = match o with Some _ => true | None => false end.
Proof. case_bool_decide as Ho; destruct o; try done; by destruct Ho. Qed.

(** Splits conjunctions of booleans in hypotheses. *)
Ltac destruct_bools :=
  repeat match goal with
  | H : andb _ _ = true |- _ => apply andb_true_iff in H; destruct H
  | H : orb _ _ = false |- _ => apply orb_false_iff in H; destruct H
  | H : negb _ = true |- _ => apply negb_true_iff in H
  | H : negb _ = false |- _ => apply negb_false_iff in H
  end.

Ltac reflect_bools :=
  destruct_bools;
  repeat match goal with
  | H : String.eqb _ _ = true |- _ => apply String.eqb_eq in H
  | H : String.eqb _ _ = false |- _ => apply String.eqb_neq in H
  | H : Z.eqb _ _ = true |- _ => apply Z.eqb_eq in H
  | H : Z.eqb _ _ = false |- _ => apply Z.eqb_neq in H
  | H : Z.ltb _ _ = true |- _ => apply Z.ltb_lt in H
  | H : Z.ltb _ _ = false |- _ => apply Z.ltb_ge in H
  | H : Z.leb _ _ = true |- _ => apply Z.leb_le in H
  | H : Z.leb _ _ = false |- _ => apply Z.leb_gt in H
  | H : bool_decide _ = true |- _ => apply bool_decide_eq_true in H
  | H : bool_decide _ = false |- _ => apply bool_decide_eq_false in H
  end.

(** ** 64-bit integers: Go's [int64] (and [int] on the deployed platforms) *)

Definition int64_min : Z := - 2 ^ 63.
Definition int64_max : Z := 2 ^ 63 - 1.

Definition in_int64 (z : Z) : bool :=
  (int64_min <=? z)%Z && (z <=? int64_max)%Z.

(** Two's-complement wrap-around of a result computed over [Z]. *)
Definition wrap64 (z : Z) : Z := ((z + 2 ^ 63) mod 2 ^ 64 - 2 ^ 63)%Z.

Lemma in_int64_iff z : in_int64 z = true <-> (- 2 ^ 63 <= z <= 2 ^ 63 - 1)%Z.
Proof.
  unfold in_int64, int64_min, int64_max.
  rewrite andb_true_iff, !Z.leb_le. done.
Qed.

Lemma wrap64_id z : in_int64 z = true -> wrap64 z = z.
Proof.
  rewrite in_int64_iff. intros Hz. unfold wrap64.
  rewrite Z.mod_small by lia. lia.
Qed.

Lemma wrap64_range z : in_int64 (wrap64 z) = true.
Proof.
  rewrite in_int64_iff. unfold wrap64.
  pose proof (Z.mod_pos_bound (z + 2 ^ 63) (2 ^ 64) ltac:(lia)). lia.
Qed.

(** Linear arithmetic with divisions by constants. *)
Ltac divisions := Z.to_euclidean_division_equations; lia.

(** Proves an equation between closed terms by evaluating both sides. *)
Ltac evaluate :=
  match goal with |- _ = ?x => vm_cast_no_check (eq_refl x) end.
