(* ===== verification/GoStrings.v ===== *)
(** * The parts of Go's string packages the services use

    A Go [string] and a [[]byte] are both byte sequences: here [string], whose
    characters are the 256 bytes.  Runes are code points in [Z].  The packages
    modelled are [strings], [unicode/utf8], [unicode], [strconv] and the two
    regular expressions of the repository.  Unicode's case tables (data the
    toolchain generates) are the class [UnicodeTables]; no theorem depends on
    their content. *)

From stdpp Require Import base strings list.
From Stdlib Require Import ZArith Lia Ascii DecimalString DecimalZ DecimalPos DecimalNat.
From S2P Require Import Prelude.

Open Scope Z_scope.

(** ** Bytes *)

Definition byte_of (c : ascii) : Z := Z.of_N (N_of_ascii c).
Definition chr (b : Z) : ascii := ascii_of_N (Z.to_N b).

Definition within (lo b hi : Z) : bool := (lo <=? b) && (b <=? hi).

Fixpoint string_forall (p : ascii -> bool) (s : string) : bool :=
  match s with
  | EmptyString => true
  | String c s' => p c && string_forall p s'
  end.

Fixpoint string_of_bytes (l : list Z) : string :=
  match l with
  | [] => EmptyString
  | b :: l' => String (chr b) (string_of_bytes l')
  end.

Fixpoint bytes_of (s : string) : list Z :=
  match s with
  | EmptyString => []
  | String c s' => byte_of c :: bytes_of s'
  end.

(** [len(s)] *)
Definition len (s : string) : Z := Z.of_nat (String.length s).

(** ** UTF-8 ([unicode/utf8]) *)

Definition rune_error : Z := 0xFFFD.

Definition cont (b : Z) : bool := within 0x80 b 0xBF.

(** Second-byte ranges of [utf8.acceptRanges] for three- and four-byte forms. *)
Definition second3 (b0 b1 : Z) : bool :=
  if b0 =? 0xE0 then within 0xA0 b1 0xBF
  else if b0 =? 0xED then within 0x80 b1 0x9F
  else within 0xE1 b0 0xEF && cont b1.

Definition second4 (b0 b1 : Z) : bool :=
  if b0 =? 0xF0 then within 0x90 b1 0xBF
  else if b0 =? 0xF4 then within 0x80 b1 0x8F
  else within 0xF1 b0 0xF3 && cont b1.

Definition rune2 (b0 b1 : Z) : Z :=
  Z.lor (Z.shiftl (Z.land b0 0x1F) 6) (Z.land b1 0x3F).
Definition rune3 (b0 b1 b2 : Z) : Z :=
  Z.lor (Z.shiftl (Z.land b0 0x0F) 12)
    (Z.lor (Z.shiftl (Z.land b1 0x3F) 6) (Z.land b2 0x3F)).
Definition rune4 (b0 b1 b2 b3 : Z) : Z :=
  Z.lor (Z.shiftl (Z.land b0 0x07) 18)
    (Z.lor (Z.shiftl (Z.land b1 0x3F) 12)
      (Z.lor (Z.shiftl (Z.land b2 0x3F) 6) (Z.land b3 0x3F))).

(** Decodes a string into runes, each with whether its encoding was valid; an
    invalid byte yields [rune_error] and is consumed alone. *)
Fixpoint decode_runes (s : string) : list (Z * bool) :=
  match s with
  | EmptyString => []
  | String c0 s1 =>
    let b0 := byte_of c0 in
    if b0 <? 0x80 then (b0, true) :: decode_runes s1 else
    match s1 with
    | EmptyString => [(rune_error, false)]
    | String c1 s2 =>
      let b1 := byte_of c1 in
      if within 0xC2 b0 0xDF && cont b1 then (rune2 b0 b1, true) :: decode_runes s2 else
      match s2 with
      | EmptyString => (rune_error, false) :: decode_runes s1
      | String c2 s3 =>
        let b2 := byte_of c2 in
        if second3 b0 b1 && cont b2 then (rune3 b0 b1 b2, true) :: decode_runes s3 else
        match s3 with
        | EmptyString => (rune_error, false) :: decode_runes s1
        | String c3 s4 =>
          let b3 := byte_of c3 in
          if second4 b0 b1 && cont b2 && cont b3
          then (rune4 b0 b1 b2 b3, true) :: decode_runes s4
          else (rune_error, false) :: decode_runes s1
        end
      end
    end
  end.

(** The runes of [for _, r := range s] and of [[]rune(s)]. *)
Definition runes (s : string) : list Z := map fst (decode_runes s).

(** [utf8.AppendRune]: surrogates and out-of-range values become U+FFFD. *)
Definition encode_rune (r : Z) : list Z :=
  if within 0 r 0x7F then [r]
  else if within 0x80 r 0x7FF then
    [Z.lor 0xC0 (Z.shiftr r 6); Z.lor 0x80 (Z.land r 0x3F)]
  else if (r <? 0) || (0x10FFFF <? r) || within 0xD800 r 0xDFFF then
    [0xEF; 0xBF; 0xBD]
  else if r <=? 0xFFFF then
    [Z.lor 0xE0 (Z.shiftr r 12);
     Z.lor 0x80 (Z.land (Z.shiftr r 6) 0x3F); Z.lor 0x80 (Z.land r 0x3F)]
  else
    [Z.lor 0xF0 (Z.shiftr r 18); Z.lor 0x80 (Z.land (Z.shiftr r 12) 0x3F);
     Z.lor 0x80 (Z.land (Z.shiftr r 6) 0x3F); Z.lor 0x80 (Z.land r 0x3F)].

(** [string(runes)] *)
Fixpoint string_of_runes (rs : list Z) : string :=
  match rs with
  | [] => EmptyString
  | r :: rs' => string_of_bytes (encode_rune r) +:+ string_of_runes rs'
  end.

(** Replaces invalid UTF-8 by U+FFFD, as [strings.Map] and [encoding/json] do. *)
Definition to_valid_utf8 (s : string) : string := string_of_runes (runes s).

Definition valid_utf8 (s : string) : bool := String.eqb (to_valid_utf8 s) s.

(** ** [unicode] *)

(** [unicode.IsControl]: category Cc. *)
Definition is_control (r : Z) : bool := within 0 r 0x1F || within 0x7F r 0x9F.

Class UnicodeTables := {
  unicode_upper : Z -> Z;
  unicode_lower : Z -> Z;
}.

(** A table that maps no rune: the witnesses of this development use it. *)
Definition identity_tables : UnicodeTables :=
  {| unicode_upper := fun r => r; unicode_lower := fun r => r |}.

Section Case.
Context `{UnicodeTables}.

Definition rune_to_upper (r : Z) : Z :=
  if within 0x61 r 0x7A then r - 32
  else if r <? 0x80 then r else unicode_upper r.

Definition rune_to_lower (r : Z) : Z :=
  if within 0x41 r 0x5A then r + 32
  else if r <? 0x80 then r else unicode_lower r.

(** [strings.ToUpper] and [strings.ToLower] *)
Definition ToUpper (s : string) : string :=
  string_of_runes (map rune_to_upper (runes s)).
Definition ToLower (s : string) : string :=
  string_of_runes (map rune_to_lower (runes s)).
End Case.

(** ** [strings] *)

(** [strip_prefix p s] is the rest of [s] after [p], when [s] starts with [p]. *)
Fixpoint strip_prefix (p s : string) : option string :=
  match p, s with
  | EmptyString, _ => Some s
  | String a p', String b s' => if Ascii.eqb a b then strip_prefix p' s' else None
  | _, EmptyString => None
  end.

Definition HasPrefix (s p : string) : bool :=
  match strip_prefix p s with Some _ => true | None => false end.

Definition TrimPrefix (s p : string) : string :=
  match strip_prefix p s with Some r => r | None => s end.

Definition HasSuffix (s p : string) : bool :=
  HasPrefix (String.rev s) (String.rev p).

Definition TrimSuffix (s p : string) : string :=
  match strip_prefix (String.rev p) (String.rev s) with
  | Some r => String.rev r
  | None => s
  end.

Fixpoint Contains (s sub : string) : bool :=
  HasPrefix s sub ||
  match s with
  | EmptyString => false
  | String _ s' => Contains s' sub
  end.

(** [strings.Split(s, sep)] for a one-byte separator. *)
Fixpoint Split (s : string) (sep : ascii) : list string :=
  match s with
  | EmptyString => [EmptyString]
  | String c s' =>
    if Ascii.eqb c sep then EmptyString :: Split s' sep
    else match Split s' sep with
         | w :: ws => String c w :: ws
         | [] => [String c EmptyString]
         end
  end.

Fixpoint Join (ws : list string) (sep : string) : string :=
  match ws with
  | [] => EmptyString
  | [w] => w
  | w :: ws' => w +:+ sep +:+ Join ws' sep
  end.

(** The first component of [strings.Cut(s, sep)] for a one-byte separator. *)
Fixpoint cut_before (s : string) (sep : ascii) : string :=
  match s with
  | EmptyString => EmptyString
  | String c s' => if Ascii.eqb c sep then EmptyString else String c (cut_before s' sep)
  end.

(** The UTF-8 encodings of the runes for which [unicode.IsSpace] holds. *)
Definition space_runes : list Z :=
  [0x09; 0x0A; 0x0B; 0x0C; 0x0D; 0x20; 0x85; 0xA0; 0x1680;
   0x2000; 0x2001; 0x2002; 0x2003; 0x2004; 0x2005; 0x2006; 0x2007; 0x2008;
   0x2009; 0x200A; 0x2028; 0x2029; 0x202F; 0x205F; 0x3000].

Definition space_encodings : list string :=
  Eval vm_compute in map (fun r => string_of_bytes (encode_rune r)) space_runes.
Definition space_encodings_rev : list string :=
  Eval vm_compute in map String.rev space_encodings.

Fixpoint strip_any (ps : list string) (s : string) : option string :=
  match ps with
  | [] => None
  | p :: ps' =>
    match strip_prefix p s with Some r => Some r | None => strip_any ps' s end
  end.

(** Removes leading members of [ps]; [fuel] is the length of the string. *)
Fixpoint trim_left (fuel : nat) (ps : list string) (s : string) : string :=
  match fuel with
  | O => s
  | S fuel' =>
    match strip_any ps s with Some r => trim_left fuel' ps r | None => s end
  end.

(** [strings.TrimSpace]: a space rune ends (resp. starts) a valid encoding, so
    decoding from either end agrees with matching the encodings. *)
Definition TrimSpace (s : string) : string :=
  let l := trim_left (String.length s) space_encodings s in
  String.rev (trim_left (String.length l) space_encodings_rev (String.rev l)).

(** ** [strconv] *)

(** [strconv.FormatInt(z, 10)], [strconv.Itoa] and the verb [%d]. *)
Definition FormatInt (z : Z) : string := NilZero.string_of_int (Z.to_int z).

Definition is_digit (c : ascii) : bool := within 0x30 (byte_of c) 0x39.

Definition parse_digits (s : string) : option Z :=
  match s with
  | EmptyString => None
  | _ => if string_forall is_digit s
         then match NilEmpty.uint_of_string s with
              | Some u => Some (Z.of_uint u)
              | None => None
              end
         else None
  end.

(** [strconv.ParseInt(s, 10, 64)] and [strconv.Atoi]. *)
Definition ParseInt (s : string) : option Z :=
  let in_range z := if in_int64 z then Some z else None in
  match s with
  | String c s' =>
    if Ascii.eqb c "-" then
      match parse_digits s' with Some z => in_range (- z) | None => None end
    else if Ascii.eqb c "+" then
      match parse_digits s' with Some z => in_range z | None => None end
    else match parse_digits s with Some z => in_range z | None => None end
  | EmptyString => None
  end.

(** ** The regular expressions of the repository *)

Definition safe_char (c : ascii) : bool :=
  let b := byte_of c in
  within 0x41 b 0x5A || within 0x61 b 0x7A || within 0x30 b 0x39
  || (b =? 0x2E) || (b =? 0x5F) || (b =? 0x3A) || (b =? 0x2D).

(** [^[A-Za-z0-9._:-]{1,128}$], in Go and in the schema's CHECK constraints. *)
Definition safeTokenPattern (s : string) : bool :=
  within 1 (len s) 128 && string_forall safe_char s.

Definition upper_char (c : ascii) : bool := within 0x41 (byte_of c) 0x5A.

(** [^[A-Z]{3}$] *)
Definition currencyPattern (s : string) : bool :=
  (len s =? 3) && string_forall upper_char s.

(** [^[0-9a-f]{64}$] (schema) *)
Definition hex_char (c : ascii) : bool :=
  is_digit c || within 0x61 (byte_of c) 0x66.
Definition sha256HexPattern (s : string) : bool :=
  (len s =? 64) && string_forall hex_char s.

(** ** Lemmas *)

(** *** Byte predicates *)

Lemma app_cons_string c (s t : string) : String c s +:+ t = String c (s +:+ t).
Proof. done. Qed.

Lemma app_nil_l_string (s : string) : EmptyString +:+ s = s.
Proof. done. Qed.

Lemma string_forall_app p (s t : string) :
  string_forall p (s +:+ t) = string_forall p s && string_forall p t.
Proof.
  induction s as [|c s IH]; [done|]. rewrite app_cons_string. cbn.
  rewrite IH. by rewrite andb_assoc.
Qed.

Lemma string_forall_impl (p q : ascii -> bool) s :
  (forall c, p c = true -> q c = true) ->
  string_forall p s = true -> string_forall q s = true.
Proof.
  intros Hpq. induction s as [|c s IH]; [done|]. cbn.
  rewrite !andb_true_iff. intros [Hc Hs]. auto.
Qed.

Lemma string_length_app (s t : string) :
  String.length (s +:+ t) = (String.length s + String.length t)%nat.
Proof.
  induction s as [|c s IH]; [done|]. rewrite ?app_cons_string. cbn. by rewrite IH.
Qed.

Lemma len_app (s t : string) : len (s +:+ t) = len s + len t.
Proof. unfold len. rewrite string_length_app. lia. Qed.

Lemma app_nil_r_string (s : string) : s +:+ EmptyString = s.
Proof.
  induction s as [|c s IH]; [done|]. rewrite ?app_cons_string. cbn. by rewrite IH.
Qed.

Lemma app_assoc_string (s t u : string) : (s +:+ t) +:+ u = s +:+ (t +:+ u).
Proof.
  induction s as [|c s IH]; [done|]. rewrite ?app_cons_string. cbn. by rewrite IH.
Qed.

Lemma rev_app_spec (s t : string) : String.rev_app s t = String.rev s +:+ t.
Proof.
  revert t. induction s as [|c s IH]; intros t; [done|]. cbn.
  rewrite IH. unfold String.rev. cbn. rewrite (IH (String c EmptyString)).
  by rewrite app_assoc_string.
Qed.

Lemma rev_cons_string c (s : string) :
  String.rev (String c s) = String.rev s +:+ String c EmptyString.
Proof. unfold String.rev at 1. cbn. apply rev_app_spec. Qed.

Lemma rev_app_distr_string (s t : string) :
  String.rev (s +:+ t) = String.rev t +:+ String.rev s.
Proof.
  induction s as [|c s IH].
  - by rewrite app_nil_r_string.
  - rewrite app_cons_string, !rev_cons_string, IH. by rewrite app_assoc_string.
Qed.

Lemma rev_involutive_string (s : string) : String.rev (String.rev s) = s.
Proof.
  induction s as [|c s IH]; [done|].
  rewrite rev_cons_string, rev_app_distr_string, IH. done.
Qed.

Lemma string_forall_rev p (s : string) :
  string_forall p (String.rev s) = string_forall p s.
Proof.
  induction s as [|c s IH]; [done|].
  rewrite rev_cons_string, (string_forall_app p), IH. cbn.
  rewrite andb_true_r. apply andb_comm.
Qed.

(** *** ASCII text is untouched by the UTF-8 machinery *)

Definition is_ascii (c : ascii) : bool := byte_of c <? 0x80.

Lemma chr_byte_of c : chr (byte_of c) = c.
Proof. unfold chr, byte_of. rewrite N2Z.id. apply ascii_N_embedding. Qed.

Lemma byte_of_range c : 0 <= byte_of c < 256.
Proof.
  unfold byte_of. pose proof (N_ascii_bounded c). lia.
Qed.

Lemma runes_ascii s : string_forall is_ascii s = true -> runes s = bytes_of s.
Proof.
  induction s as [|c s IH]; [done|]. cbn [string_forall].
  rewrite andb_true_iff. intros [Hc Hs]. unfold is_ascii in Hc.
  unfold runes. cbn [decode_runes bytes_of]. rewrite Hc. cbn [map fst]. f_equal. auto.
Qed.

Lemma encode_rune_ascii b : within 0 b 0x7F = true -> encode_rune b = [b].
Proof. intros Hb. unfold encode_rune. by rewrite Hb. Qed.

Lemma within_iff lo b hi : within lo b hi = true <-> lo <= b <= hi.
Proof. unfold within. rewrite andb_true_iff, !Z.leb_le. done. Qed.

Lemma string_of_ascii_runes s :
  string_forall is_ascii s = true -> string_of_runes (bytes_of s) = s.
Proof.
  induction s as [|c s IH]; [done|]. cbn [string_forall].
  rewrite andb_true_iff. unfold is_ascii at 1. rewrite Z.ltb_lt. intros [Hc Hs].
  cbn [bytes_of string_of_runes]. rewrite encode_rune_ascii.
  - cbn. rewrite chr_byte_of. f_equal. auto.
  - apply within_iff. pose proof (byte_of_range c). lia.
Qed.

Lemma valid_utf8_ascii s : string_forall is_ascii s = true -> valid_utf8 s = true.
Proof.
  intros Hs. unfold valid_utf8, to_valid_utf8.
  rewrite runes_ascii, string_of_ascii_runes by done. apply String.eqb_refl.
Qed.

(** Facts about one byte, checked over the 256 values. *)
Definition all_bytes : list ascii := map chr (map Z.of_nat (List.seq 0 256)).

Lemma all_bytes_complete c : In c all_bytes.
Proof.
  unfold all_bytes. rewrite in_map_iff. exists (byte_of c).
  split; [apply chr_byte_of|]. rewrite in_map_iff.
  exists (Z.to_nat (byte_of c)). pose proof (byte_of_range c).
  split; [lia|]. apply in_seq. lia.
Qed.

Lemma by_bytes (p : ascii -> bool) : forallb p all_bytes = true -> forall c, p c = true.
Proof. rewrite forallb_forall. intros Hp c. apply Hp, all_bytes_complete. Qed.

Lemma implb_bytes (p q : ascii -> bool) :
  forallb (fun c => implb (p c) (q c)) all_bytes = true ->
  forall c, p c = true -> q c = true.
Proof.
  intros Hall c Hp. pose proof (by_bytes _ Hall c) as Hc. cbn in Hc.
  rewrite Hp in Hc. exact Hc.
Qed.

Lemma safe_char_ascii c : safe_char c = true -> is_ascii c = true.
Proof. revert c. apply implb_bytes. vm_compute. done. Qed.

Lemma upper_char_safe c : upper_char c = true -> safe_char c = true.
Proof. revert c. apply implb_bytes. vm_compute. done. Qed.

Lemma safeToken_chars s : safeTokenPattern s = true -> string_forall safe_char s = true.
Proof. unfold safeTokenPattern. rewrite andb_true_iff. by intros []. Qed.

Lemma safeToken_ascii s : safeTokenPattern s = true -> string_forall is_ascii s = true.
Proof.
  intros Hs%safeToken_chars. revert Hs. apply string_forall_impl, safe_char_ascii.
Qed.

Lemma safeToken_nonempty s : safeTokenPattern s = true -> s <> EmptyString.
Proof. intros Hs ->. done. Qed.

Lemma currency_chars s : currencyPattern s = true -> string_forall upper_char s = true.
Proof. unfold currencyPattern. rewrite andb_true_iff. by intros []. Qed.

Lemma currency_safe_chars s : currencyPattern s = true -> string_forall safe_char s = true.
Proof.
  intros Hs%currency_chars. revert Hs. apply string_forall_impl, upper_char_safe.
Qed.

(** *** [TrimSpace] *)

Definition head_unsafe (p : string) : bool :=
  match p with EmptyString => false | String a _ => negb (safe_char a) end.

Lemma strip_any_safe ps s :
  forallb head_unsafe ps = true -> string_forall safe_char s = true ->
  strip_any ps s = None.
Proof.
  intros Hps Hs. induction ps as [|p ps IH]; [done|].
  cbn in Hps. apply andb_true_iff in Hps as [Hp Hps]. cbn.
  destruct p as [|a p]; [done|]. destruct s as [|c s]; cbn; [auto|].
  cbn in Hs. apply andb_true_iff in Hs as [Hc Hs].
  destruct (Ascii.eqb_spec a c) as [->|]; [|auto].
  cbn in Hp. by rewrite Hc in Hp.
Qed.

Lemma trim_left_safe fuel ps s :
  forallb head_unsafe ps = true -> string_forall safe_char s = true ->
  trim_left fuel ps s = s.
Proof.
  intros Hps Hs. destruct fuel; [done|]. cbn. by rewrite strip_any_safe.
Qed.

Lemma TrimSpace_safe s : string_forall safe_char s = true -> TrimSpace s = s.
Proof.
  intros Hs. unfold TrimSpace.
  rewrite (trim_left_safe _ space_encodings) by done.
  rewrite trim_left_safe; [apply rev_involutive_string|done|].
  by rewrite string_forall_rev.
Qed.

(** *** [ToUpper] *)

Lemma ToUpper_upper `{UnicodeTables} s :
  string_forall upper_char s = true -> ToUpper s = s.
Proof.
  intros Hs. unfold ToUpper.
  assert (Ha : string_forall is_ascii s = true).
  { revert Hs. apply string_forall_impl. intros c Hc.
    by apply safe_char_ascii, upper_char_safe. }
  rewrite runes_ascii by done.
  assert (map rune_to_upper (bytes_of s) = bytes_of s) as ->.
  { clear Ha. induction s as [|c s IH]; [done|]. cbn in *.
    apply andb_true_iff in Hs as [Hc Hs]. rewrite IH by done. f_equal.
    unfold upper_char in Hc. apply within_iff in Hc. unfold rune_to_upper.
    assert (within 97 (byte_of c) 122 = false) as ->.
    { apply not_true_iff_false. rewrite within_iff. lia. }
    by rewrite (proj2 (Z.ltb_lt _ _)) by lia. }
  by apply string_of_ascii_runes.
Qed.

(** *** Decimal integers *)

Lemma uint_of_string_digits s u :
  NilEmpty.uint_of_string s = Some u -> string_forall is_digit s = true.
Proof.
  revert u. induction s as [|c s IH]; intros u; [done|]. cbn.
  destruct (NilEmpty.uint_of_string s) as [d|] eqn:Hs.
  - rewrite (IH d) by done. rewrite andb_true_r. unfold uint_of_char.
    intros Hc. destruct c as [[] [] [] [] [] [] [] []]; done.
  - cbn. destruct c as [[] [] [] [] [] [] [] []]; done.
Qed.

Lemma string_of_uint_digits u : string_forall is_digit (NilEmpty.string_of_uint u) = true.
Proof. apply (uint_of_string_digits _ u), NilEmpty.usu. Qed.

Lemma parse_digits_string_of_uint u :
  u <> Decimal.Nil -> parse_digits (NilEmpty.string_of_uint u) = Some (Z.of_uint u).
Proof.
  intros Hu. unfold parse_digits.
  pose proof (string_of_uint_digits u) as Hd. pose proof (NilEmpty.usu u) as Hus.
  destruct (NilEmpty.string_of_uint u) as [|c s] eqn:Hs.
  - by destruct u.
  - by rewrite Hd, Hus.
Qed.

Lemma digit_not_sign c : is_digit c = true -> Ascii.eqb c "-" = false /\ Ascii.eqb c "+" = false.
Proof.
  intros Hc. split; destruct (Ascii.eqb_spec c "-"), (Ascii.eqb_spec c "+"); subst; done.
Qed.

Lemma pos_to_uint_nonnil p : Pos.to_uint p <> Decimal.Nil.
Proof. apply DecimalPos.Unsigned.to_uint_nonnil. Qed.

Lemma FormatInt_nonneg p : FormatInt (Z.pos p) = NilEmpty.string_of_uint (Pos.to_uint p).
Proof.
  unfold FormatInt. cbn. unfold NilZero.string_of_uint.
  pose proof (pos_to_uint_nonnil p). by destruct (Pos.to_uint p).
Qed.

Lemma FormatInt_neg p :
  FormatInt (Z.neg p) = String "-" (NilEmpty.string_of_uint (Pos.to_uint p)).
Proof.
  unfold FormatInt. cbn. unfold NilZero.string_of_uint.
  pose proof (pos_to_uint_nonnil p). by destruct (Pos.to_uint p).
Qed.

(** [strconv.ParseInt] reads back what [strconv.FormatInt] wrote. *)
Lemma ParseInt_FormatInt z : in_int64 z = true -> ParseInt (FormatInt z) = Some z.
Proof.
  intros Hz. destruct z as [|p|p]; [done| |].
  - rewrite FormatInt_nonneg. unfold ParseInt.
    pose proof (string_of_uint_digits (Pos.to_uint p)) as Hd.
    pose proof (parse_digits_string_of_uint _ (pos_to_uint_nonnil p)) as Hp.
    destruct (NilEmpty.string_of_uint (Pos.to_uint p)) as [|c s] eqn:Hs; [done|].
    cbn [string_forall] in Hd. apply andb_true_iff in Hd as [Hc _].
    destruct (digit_not_sign c Hc) as [-> ->]. rewrite Hp.
    rewrite (DecimalZ.of_to (Z.pos p) : Z.of_uint (Pos.to_uint p) = Z.pos p).
    by rewrite Hz.
  - rewrite FormatInt_neg. cbn [ParseInt]. cbn [Ascii.eqb].
    rewrite parse_digits_string_of_uint by apply pos_to_uint_nonnil.
    rewrite (DecimalZ.of_to (Z.neg p) : - Z.of_uint (Pos.to_uint p) = Z.neg p).
    by rewrite Hz.
Qed.

Lemma ParseInt_range s z : ParseInt s = Some z -> in_int64 z = true.
Proof.
  unfold ParseInt. intros Hp. repeat case_match; try done; by injection Hp as <-.
Qed.

Lemma to_int_nonnil z : Z.to_int z <> Decimal.Pos Decimal.Nil /\ Z.to_int z <> Decimal.Neg Decimal.Nil.
Proof.
  destruct z as [|p|p]; cbn; [done|..];
    pose proof (pos_to_uint_nonnil p); split; congruence.
Qed.

Lemma FormatInt_inj z1 z2 : FormatInt z1 = FormatInt z2 -> z1 = z2.
Proof.
  unfold FormatInt. intros Heq%(f_equal NilZero.int_of_string).
  destruct (to_int_nonnil z1), (to_int_nonnil z2).
  rewrite !NilZero.isi in Heq by done. apply DecimalZ.to_int_inj. congruence.
Qed.

Lemma digit_safe c : is_digit c = true -> safe_char c = true.
Proof. revert c. by apply implb_bytes. Qed.

Lemma FormatInt_safe z : string_forall safe_char (FormatInt z) = true.
Proof.
  assert (Hd : forall u, string_forall safe_char (NilEmpty.string_of_uint u) = true).
  { intros u. eapply string_forall_impl; [apply digit_safe|apply string_of_uint_digits]. }
  destruct z as [|p|p]; [done|rewrite FormatInt_nonneg; apply Hd|].
  rewrite FormatInt_neg. cbn. apply Hd.
Qed.

(** *** Texts made of fields between separators *)

(** The field before the first separator is determined by the text. *)
Lemma field_split p sep (a b x y : string) :
  p sep = false -> string_forall p a = true -> string_forall p b = true ->
  a +:+ String sep x = b +:+ String sep y -> a = b /\ x = y.
Proof.
  intros Hsep. revert b.
  induction a as [|c a IH]; intros [|d b] Ha Hb; rewrite ?app_cons_string, ?app_nil_l_string;
    cbn in Ha, Hb; destruct_bools; intros Heq; inversion Heq; subst; try congruence; [done|].
  destruct (IH b) as [-> ->]; done.
Qed.

Lemma bar_split (a b x y : string) :
  string_forall safe_char a = true -> string_forall safe_char b = true ->
  a +:+ "|" +:+ x = b +:+ "|" +:+ y -> a = b /\ x = y.
Proof. by apply (field_split safe_char "|"%char). Qed.
