(* ===== verification/Sha256.v ===== *)
(** * [crypto/sha256] and [encoding/hex]

    SHA-256 (FIPS 180-4) on byte lists, executable, so that the hashes the
    services store are computed by the model; the examples at the end are the
    standard's test vectors.  No collision-freeness is assumed anywhere:
    theorems about hashed requests name the collision as an alternative. *)

From stdpp Require Import base strings list.
From Stdlib Require Import ZArith Lia Ascii.
From S2P Require Import Prelude GoStrings.

Open Scope Z_scope.

Definition mask32 (z : Z) : Z := z mod 2 ^ 32.
Definition add32 (a b : Z) : Z := mask32 (a + b).
Definition rotr32 (n x : Z) : Z := mask32 (Z.lor (Z.shiftr x n) (Z.shiftl x (32 - n))).
Definition not32 (x : Z) : Z := 2 ^ 32 - 1 - x.

Definition big_sigma0 x := Z.lxor (rotr32 2 x) (Z.lxor (rotr32 13 x) (rotr32 22 x)).
Definition big_sigma1 x := Z.lxor (rotr32 6 x) (Z.lxor (rotr32 11 x) (rotr32 25 x)).
Definition small_sigma0 x := Z.lxor (rotr32 7 x) (Z.lxor (rotr32 18 x) (Z.shiftr x 3)).
Definition small_sigma1 x := Z.lxor (rotr32 17 x) (Z.lxor (rotr32 19 x) (Z.shiftr x 10)).
Definition choose e f g := Z.lxor (Z.land e f) (Z.land (not32 e) g).
Definition majority a b c := Z.lxor (Z.land a b) (Z.lxor (Z.land a c) (Z.land b c)).

(** The standard's constants: the first 32 bits of the fractional parts of the
    cube roots, and for the initial state the square roots, of the primes. *)

(** The largest [r], of the bits below [n] added to [acc], with [r ^ 3 <= x]. *)
Fixpoint cube_root (n : nat) (acc x : Z) : Z :=
  match n with
  | O => acc
  | S n' =>
    let r := acc + 2 ^ Z.of_nat n' in
    cube_root n' (if r ^ 3 <=? x then r else acc) x
  end.

Definition is_prime (n : Z) : bool :=
  (1 <? n) && forallb (fun d => negb (n mod d =? 0)) (seqZ 2 (n - 2)).
Definition primes : list Z :=
  Eval vm_compute in List.filter is_prime (seqZ 0 312).

Definition round_constants : list Z :=
  Eval vm_compute in map (fun p => mask32 (cube_root 36 0 (p * 2 ^ 96))) primes.

Record hash_state := mk_hash_state {
  h_a : Z; h_b : Z; h_c : Z; h_d : Z; h_e : Z; h_f : Z; h_g : Z; h_h : Z;
}.

Definition initial_state : hash_state :=
  Eval vm_compute in
    match map (fun p => mask32 (Z.sqrt (p * 2 ^ 64))) (take 8 primes) with
    | [a; b; c; d; e; f; g; h] => mk_hash_state a b c d e f g h
    | _ => mk_hash_state 0 0 0 0 0 0 0 0
    end.

Definition sha_round (s : hash_state) (kw : Z * Z) : hash_state :=
  let '(k, w) := kw in
  let t1 := h_h s + big_sigma1 (h_e s) + choose (h_e s) (h_f s) (h_g s) + k + w in
  let t2 := big_sigma0 (h_a s) + majority (h_a s) (h_b s) (h_c s) in
  mk_hash_state (mask32 (t1 + t2)) (h_a s) (h_b s) (h_c s)
                (add32 (h_d s) t1) (h_e s) (h_f s) (h_g s).

(** The message schedule, newest word first. *)
Fixpoint extend_schedule (n : nat) (ws : list Z) : list Z :=
  match n with
  | O => ws
  | S n' =>
    let w i := nth i ws 0 in
    extend_schedule n'
      (mask32 (small_sigma1 (w 1%nat) + w 6%nat + small_sigma0 (w 14%nat) + w 15%nat) :: ws)
  end.

Definition schedule (block : list Z) : list Z := rev (extend_schedule 48 (rev block)).

Definition add_state (s t : hash_state) : hash_state :=
  mk_hash_state (add32 (h_a s) (h_a t)) (add32 (h_b s) (h_b t))
    (add32 (h_c s) (h_c t)) (add32 (h_d s) (h_d t))
    (add32 (h_e s) (h_e t)) (add32 (h_f s) (h_f t))
    (add32 (h_g s) (h_g t)) (add32 (h_h s) (h_h t)).

Definition compress (s : hash_state) (block : list Z) : hash_state :=
  add_state s (fold_left sha_round (combine round_constants (schedule block)) s).

Fixpoint be_bytes (n : nat) (z : Z) : list Z :=
  match n with
  | O => []
  | S n' => Z.land (Z.shiftr z (8 * Z.of_nat n')) 0xFF :: be_bytes n' z
  end.

(** Padding: a 1 bit, zeros to 56 mod 64 bytes, the bit length on 64 bits. *)
Definition pad (msg : list Z) : list Z :=
  let n := Z.of_nat (length msg) in
  msg ++ [0x80] ++ repeat 0 (Z.to_nat ((55 - n) mod 64)) ++ be_bytes 8 (8 * n).

Fixpoint be_words (bs : list Z) : list Z :=
  match bs with
  | a :: b :: c :: d :: bs' =>
    (Z.shiftl a 24 + Z.shiftl b 16 + Z.shiftl c 8 + d) :: be_words bs'
  | _ => []
  end.

Fixpoint compress_blocks (fuel : nat) (s : hash_state) (ws : list Z) : hash_state :=
  match fuel, ws with
  | S fuel', _ :: _ =>
    compress_blocks fuel' (compress s (firstn 16 ws)) (skipn 16 ws)
  | _, _ => s
  end.

Definition digest (s : hash_state) : list Z :=
  flat_map (be_bytes 4) [h_a s; h_b s; h_c s; h_d s; h_e s; h_f s; h_g s; h_h s].

(** [sha256.Sum256] *)
Definition Sum256 (msg : string) : list Z :=
  let ws := be_words (pad (bytes_of msg)) in
  digest (compress_blocks (length ws) initial_state ws).

(** [hex.EncodeToString] *)
Definition hex_digit (n : Z) : ascii := chr (if n <? 10 then 0x30 + n else 0x57 + n).

Fixpoint EncodeToString (bs : list Z) : string :=
  match bs with
  | [] => EmptyString
  | b :: bs' =>
    String (hex_digit (Z.shiftr b 4)) (String (hex_digit (Z.land b 0xF)) (EncodeToString bs'))
  end.

(** [sum := sha256.Sum256(payload); hex.EncodeToString(sum[:])] *)
Definition sha256_hex (msg : string) : string := EncodeToString (Sum256 msg).

(** ** Facts *)

Definition is_byte (b : Z) : Prop := 0 <= b < 256.

Lemma land_mask_range a n : 0 <= n -> 0 <= Z.land a (Z.ones n) < 2 ^ n.
Proof.
  intros Hn. rewrite Z.land_ones by done. apply Z.mod_pos_bound. lia.
Qed.

Lemma be_bytes_bytes n z : Forall is_byte (be_bytes n z).
Proof.
  induction n as [|n IH]; cbn [be_bytes]; constructor; [|done].
  apply (land_mask_range _ 8). lia.
Qed.

Lemma length_be_bytes n z : length (be_bytes n z) = n.
Proof. induction n as [|n IH]; cbn; [done|]. by rewrite IH. Qed.

Lemma Sum256_bytes msg : Forall is_byte (Sum256 msg).
Proof.
  unfold Sum256, digest. cbn [flat_map]. repeat apply Forall_app_2;
    try apply be_bytes_bytes. constructor.
Qed.

Lemma length_Sum256 msg : length (Sum256 msg) = 32%nat.
Proof.
  unfold Sum256, digest. cbn [flat_map].
  rewrite !length_app, !length_be_bytes. done.
Qed.

Lemma hex_digit_hex n : 0 <= n < 16 -> hex_char (hex_digit n) = true.
Proof.
  intros Hn.
  assert (Hall : forallb (fun i => hex_char (hex_digit (Z.of_nat i))) (seq 0 16) = true)
    by (vm_compute; reflexivity).
  rewrite forallb_forall in Hall. rewrite <- (Z2Nat.id n) by lia.
  apply Hall, in_seq. lia.
Qed.

Lemma EncodeToString_hex bs :
  Forall is_byte bs -> string_forall hex_char (EncodeToString bs) = true.
Proof.
  induction 1 as [|b bs [Hb1 Hb2] _ IH]; [done|]. cbn [EncodeToString string_forall].
  rewrite IH, !hex_digit_hex; [done| |].
  - apply (land_mask_range b 4). lia.
  - rewrite Z.shiftr_div_pow2 by lia. change (2 ^ 4) with 16.
    split; [apply Z.div_pos; lia|apply Z.div_lt_upper_bound; lia].
Qed.

Lemma len_EncodeToString bs : len (EncodeToString bs) = 2 * Z.of_nat (length bs).
Proof.
  unfold len. induction bs as [|b bs IH]; [done|]. cbn [EncodeToString String.length length].
  lia.
Qed.

(** Every stored hash satisfies the schema's [^[0-9a-f]{64}$]. *)
Lemma sha256_hex_pattern msg : sha256HexPattern (sha256_hex msg) = true.
Proof.
  unfold sha256HexPattern, sha256_hex.
  rewrite len_EncodeToString, length_Sum256, EncodeToString_hex by apply Sum256_bytes.
  done.
Qed.

Lemma hex_char_safe c : hex_char c = true -> safe_char c = true.
Proof. revert c. apply implb_bytes. vm_compute. done. Qed.

(** FIPS 180-4 test vectors: one block, the empty message, two blocks. *)
Example sha256_abc :
  sha256_hex "abc" = "ba7816bf8f01cfea414140de5dae2223b00361a396177a9cb410ff61f20015ad".
Proof. vm_compute. reflexivity. Qed.

Example sha256_empty :
  sha256_hex EmptyString = "e3b0c44298fc1c149afbf4c8996fb92427ae41e4649b934ca495991b7852b855".
Proof. vm_compute. reflexivity. Qed.

Example sha256_two_blocks :
  sha256_hex "abcdbcdecdefdefgefghfghighijhijkijkljklmklmnlmnomnopnopq"
  = "248d6a61d20638b8e5c026930c3e6039a33ce45964ff2167f6ecedd419db06c1".
Proof. vm_compute. reflexivity. Qed.

(** Conversion never needs to look inside a hash; [vm_compute] still does. *)
#[global] Opaque Sum256.
