(* ===== verification/Runtime.v ===== *)
(** * Errors, the outside world, and the monad the services run in

    A service call reads the clock, draws random identifiers, talks to
    PostgreSQL, Kafka and Redis, and may fail at every such point.  [World S]
    is that environment around a shared store of type [S] (the database of
    [Schema.v] in the deployed system); [M S A] is a Go function that runs in
    it.  What the environment decides, the schedule [w_sched] decides: for each
    round trip, which transactions of other sessions committed before it, how
    much time passed, and whether the call failed before or after taking
    effect.  Theorems quantify over every schedule. *)

From stdpp Require Import base strings list gmap.
From Stdlib Require Import ZArith Lia SpecFloat.
From S2P Require Import Prelude GoStrings Sha256.

Open Scope Z_scope.

(** ** Errors *)

(** The package-level error values ([errors.New]) compared with [errors.Is]. *)
Inductive sentinel :=
| domain_ErrInsufficientFunds
| domain_ErrEventIdentityConflict
| transaction_ErrInvalidRequest
| transaction_ErrIdempotencyConflict
| transaction_ErrInvalidQuery
| transaction_ErrNotFound
| funding_ErrInvalidRequest
| funding_ErrIdempotencyConflict
| funding_ErrExternalReferenceConflict
| operations_ErrNotFound
| operations_ErrAlreadyProcessed
| operations_ErrReplayWindowExpired
| operations_ErrInvalidState
| operations_ErrInvalidReason
| maintenance_ErrUnsafeRetention
| pgx_ErrNoRows
| context_Canceled.

#[export] Instance sentinel_eq_dec : EqDecision sentinel.
Proof. solve_decision. Defined.

Definition sentinel_message (s : sentinel) : string :=
  match s with
  | domain_ErrInsufficientFunds => "insufficient funds"
  | domain_ErrEventIdentityConflict => "event id reused with different payload"
  | transaction_ErrInvalidRequest => "invalid transaction request"
  | transaction_ErrIdempotencyConflict => "idempotency key reused with different payload"
  | transaction_ErrInvalidQuery => "invalid transaction query"
  | transaction_ErrNotFound => "transaction not found"
  | funding_ErrInvalidRequest => "invalid deposit request"
  | funding_ErrIdempotencyConflict => "deposit idempotency key reused with different payload"
  | funding_ErrExternalReferenceConflict => "deposit external reference already used"
  | operations_ErrNotFound => "operation target not found"
  | operations_ErrAlreadyProcessed => "event was already processed"
  | operations_ErrReplayWindowExpired => "replay window expired"
  | operations_ErrInvalidState => "operation target is in an invalid state"
  | operations_ErrInvalidReason => "operator reason is invalid"
  | maintenance_ErrUnsafeRetention => "processed-event retention is shorter than replay window"
  | pgx_ErrNoRows => "no rows in result set"
  | context_Canceled => "context canceled"
  end.

(** [EText]: an error with no wrapped cause; [EWrap]: [fmt.Errorf("ctx: %w", e)];
    [EPg]: a [*pgconn.PgError]; [EJoin]: [errors.Join]. *)
Inductive error :=
| ESentinel (s : sentinel)
| EText (message : string)
| EWrap (context : string) (cause : error)
| EPg (code constraint message : string)
| EJoin (e1 e2 : error).

#[export] Instance error_eq_dec : EqDecision error.
Proof. solve_decision. Defined.

(** [err.Error()] *)
Fixpoint Error (e : error) : string :=
  match e with
  | ESentinel s => sentinel_message s
  | EText msg => msg
  | EWrap ctx e' => ctx +:+ ": " +:+ Error e'
  | EPg code _ msg => "ERROR: " +:+ msg +:+ " (SQLSTATE " +:+ code +:+ ")"
  | EJoin e1 e2 => Error e1 +:+ String (chr 10) (Error e2)
  end.

(** [errors.Is(err, target)] *)
Fixpoint errors_Is (e : error) (target : sentinel) : bool :=
  match e with
  | ESentinel s => bool_decide (s = target)
  | EText _ | EPg _ _ _ => false
  | EWrap _ e' => errors_Is e' target
  | EJoin e1 e2 => errors_Is e1 target || errors_Is e2 target
  end.

(** The first [*pgconn.PgError] of the chain ([errors.As]). *)
Fixpoint as_pg_error (e : error) : option (string * string) :=
  match e with
  | EPg code constraint _ => Some (code, constraint)
  | EWrap _ e' => as_pg_error e'
  | EJoin e1 e2 => match as_pg_error e1 with Some p => Some p | None => as_pg_error e2 end
  | ESentinel _ | EText _ => None
  end.

(** ** Kafka messages (the fields of [kafka.Message] the code uses) *)

Record Header := mk_header { hdr_Key : string; hdr_Value : string }.

Record Message := mk_message {
  msg_Topic : string;
  msg_Partition : Z;
  msg_Offset : Z;
  msg_Key : string;
  msg_Value : string;
  msg_Headers : list Header;
}.

#[export] Instance Header_eq_dec : EqDecision Header.
Proof. solve_decision. Defined.
#[export] Instance Message_eq_dec : EqDecision Message.
Proof. solve_decision. Defined.

(** ** Metrics: the calls into [internal/metrics], durations left out

    [Metrics.v] gives their meaning.  Go's [float64] is the IEEE format of
    [SpecFloat]. *)

Definition float64 : Set := spec_float.
#[export] Instance spec_float_eq_dec : EqDecision spec_float.
Proof. solve_decision. Defined.

Record OperationalSnapshot := mk_OperationalSnapshot {
  os_OutboxPending : float64;
  os_OutboxDeadLettered : float64;
  os_OutboxOldestPendingAgeSeconds : float64;
  os_DeadLettersOpen : float64;
  os_ProcessedEvents : float64;
  os_PostgresPoolOpen : float64;
  os_PostgresPoolIdle : float64;
  os_PostgresPoolInUse : float64;
}.

#[export] Instance OperationalSnapshot_eq_dec : EqDecision OperationalSnapshot.
Proof. solve_decision. Defined.

Inductive metric :=
| ObserveHTTPRequest (method path status : string)
| SetOperationalSnapshot (snapshot : OperationalSnapshot)
| KafkaPublish (topic result : string)
| OutboxPublish (result : string)
| ObserveConsumerMessage (consumer topic result : string)
| IncConsumerRetry (consumer topic : string)
| IncOffsetCommitFailure (consumer topic : string).

#[export] Instance metric_eq_dec : EqDecision metric.
Proof. solve_decision. Defined.

(** ** The world *)

(** [FailBefore]: the call failed and had no effect; [FailAfter]: it took
    effect but its acknowledgement was lost. *)
Inductive fault := NoFault | FailBefore | FailAfter.

(** A row that [for update skip locked] may find locked by another session. *)
Inductive row_key :=
| outbox_row_key (id : string)
| processed_row_key (consumer event : string).

Record slot (S : Type) := mk_slot {
  sl_env : S -> S;
  sl_elapsed : N;
  sl_fault : fault;
  sl_locked : row_key -> bool;
}.
Arguments mk_slot {S} _ _ _ _.
Arguments sl_env {S} _ _.
Arguments sl_elapsed {S} _.
Arguments sl_fault {S} _.
Arguments sl_locked {S} _ _.

(** A round trip nothing interferes with; also what an exhausted schedule yields. *)
Definition quiet {S} : slot S := mk_slot (fun s => s) 0%N NoFault (fun _ => false).

Record World (S : Type) := mk_world {
  w_store : S;
  w_clock : Z;                           (* nanoseconds since 0001-01-01 UTC *)
  w_entropy : nat -> Z;                  (* the n-th 128-bit draw of crypto/rand *)
  w_drawn : nat;
  w_sched : list (slot S);
  w_broker : list (string * Message);    (* accepted by Kafka, oldest first *)
  w_redis : gmap string (Z * Z);         (* counter and expiry instant *)
  w_metrics : list metric;               (* oldest first *)
}.
Arguments mk_world {S} _ _ _ _ _ _ _ _.
Arguments w_store {S} _.
Arguments w_clock {S} _.
Arguments w_entropy {S} _ _.
Arguments w_drawn {S} _.
Arguments w_sched {S} _.
Arguments w_broker {S} _.
Arguments w_redis {S} _.
Arguments w_metrics {S} _.

Section Setters.
Context {S : Type}.
Implicit Types (w : World S).

Definition set_store (s : S) w : World S :=
  mk_world s (w_clock w) (w_entropy w) (w_drawn w) (w_sched w) (w_broker w)
    (w_redis w) (w_metrics w).
Definition set_drawn (n : nat) w : World S :=
  mk_world (w_store w) (w_clock w) (w_entropy w) n (w_sched w) (w_broker w)
    (w_redis w) (w_metrics w).
Definition set_broker (b : list (string * Message)) w : World S :=
  mk_world (w_store w) (w_clock w) (w_entropy w) (w_drawn w) (w_sched w) b
    (w_redis w) (w_metrics w).
Definition set_redis (r : gmap string (Z * Z)) w : World S :=
  mk_world (w_store w) (w_clock w) (w_entropy w) (w_drawn w) (w_sched w)
    (w_broker w) r (w_metrics w).
Definition set_metrics (ms : list metric) w : World S :=
  mk_world (w_store w) (w_clock w) (w_entropy w) (w_drawn w) (w_sched w)
    (w_broker w) (w_redis w) ms.

Definition next_slot w : slot S :=
  match w_sched w with sl :: _ => sl | [] => quiet end.

(** Time passes; with [env] the commits of other sessions become visible. *)
Definition pop (env : bool) w : World S :=
  let sl := next_slot w in
  mk_world (if env then sl_env sl (w_store w) else w_store w)
    (w_clock w + Z.of_N (sl_elapsed sl)) (w_entropy w) (w_drawn w)
    (tail (w_sched w)) (w_broker w) (w_redis w) (w_metrics w).
End Setters.

(** ** The monad *)

Definition M (S A : Type) : Type := World S -> outcome error A * World S.

Section Monad.
Context {S : Type}.

Definition ret {A} (a : A) : M S A := fun w => (Ok a, w).
Definition fail {A} (e : error) : M S A := fun w => (Err e, w).
Definition bind {A B} (m : M S A) (k : A -> M S B) : M S B :=
  fun w => match m w with
           | (Ok a, w') => k a w'
           | (Err e, w') => (Err e, w')
           end.
(** Runs [m] and continues with its result, error or not. *)
Definition attempt {A B} (m : M S A) (k : outcome error A -> M S B) : M S B :=
  fun w => let '(o, w') := m w in k o w'.
(** [fmt.Errorf(ctx + ": %w", err)] around a failing call. *)
Definition wrapf {A} (ctx : string) (m : M S A) : M S A :=
  fun w => match m w with
           | (Err e, w') => (Err (EWrap ctx e), w')
           | r => r
           end.
Definition lift {A} (o : outcome error A) : M S A := fun w => (o, w).
End Monad.

Declare Scope go_scope.
Delimit Scope go_scope with go.
Open Scope go_scope.

Notation "'let!' x := m 'in' k" := (bind m (fun x => k))
  (at level 10, x pattern, m at level 100, k at level 200) : go_scope.
Notation "'try!' x := m 'in' k" := (attempt m (fun x => k))
  (at level 10, x pattern, m at level 100, k at level 200) : go_scope.
Notation "m ;;; k" := (bind m (fun _ => k))
  (at level 100, right associativity) : go_scope.

Section Effects.
Context {S : Type}.

(** [time.Now().UTC()] *)
Definition Now : M S Z := fun w => (Ok (w_clock w), w).

(** [rand.Read(bytes[:])] of 16 bytes (it never fails). *)
Definition draw : M S (list Z) :=
  fun w => (Ok (be_bytes 16 (w_entropy w (w_drawn w))),
            set_drawn (Datatypes.S (w_drawn w)) w).

Definition emit (m : metric) : M S unit :=
  fun w => (Ok tt, set_metrics (w_metrics w ++ [m]) w).

Definition connection_lost : error := EText "connection lost".

(** One round trip to the store, outside any transaction: it reads and
    updates the store atomically ([f] gets the rows other sessions hold
    locked and the statement's [now()]). *)
Definition round_trip {A} (f : (row_key -> bool) -> Z -> S -> outcome error A * S) : M S A :=
  fun w =>
    let sl := next_slot w in
    let w1 := pop true w in
    match sl_fault sl with
    | FailBefore => (Err connection_lost, w1)
    | NoFault =>
      let '(o, s') := f (sl_locked sl) (w_clock w1) (w_store w1) in (o, set_store s' w1)
    | FailAfter =>
      let '(_, s') := f (sl_locked sl) (w_clock w1) (w_store w1) in
      (Err connection_lost, set_store s' w1)
    end.

(** A statement inside a transaction: no other session's commit is seen. *)
Definition statement {A} (f : (row_key -> bool) -> S -> outcome error A * S) : M S A :=
  fun w =>
    let sl := next_slot w in
    let w1 := pop false w in
    match sl_fault sl with
    | NoFault => let '(o, s') := f (sl_locked sl) (w_store w1) in (o, set_store s' w1)
    | _ => (Err connection_lost, w1)
    end.

(** [BeginTx ... Commit] with the deferred [Rollback]: an error of the body
    restores the store; a commit whose acknowledgement is lost is applied
    although the caller sees an error.  The body gets the transaction's
    [now()].  [commit_ctx] annotates the commit's error. *)
Definition transact {A} (begin_ctx : string) (commit_ctx : A -> string)
  (body : Z -> M S A) : M S A :=
  fun w =>
    let w1 := pop true w in
    match sl_fault (next_slot w) with
    | NoFault =>
      match body (w_clock w1) w1 with
      | (Err e, w2) => (Err e, set_store (w_store w1) w2)
      | (Ok a, w2) =>
        let w3 := pop false w2 in
        let lost := EWrap (commit_ctx a) connection_lost in
        match sl_fault (next_slot w2) with
        | NoFault => (Ok a, w3)
        | FailBefore => (Err lost, set_store (w_store w1) w3)
        | FailAfter => (Err lost, w3)
        end
      end
    | _ => (Err (EWrap begin_ctx connection_lost), w1)
    end.
End Effects.

(** ** What a step leaves alone *)

Section Frame.
Context {S : Type}.
Implicit Types (w : World S).

(** Store programs touch neither the broker, nor Redis, nor the metrics; the
    clock does not go back and the schedule is consumed from its front. *)
Record frame w w' : Prop := mk_frame {
  fr_clock : w_clock w <= w_clock w';
  fr_entropy : w_entropy w' = w_entropy w;
  fr_drawn : (w_drawn w <= w_drawn w')%nat;
  fr_sched : exists n, w_sched w' = drop n (w_sched w);
  fr_broker : w_broker w' = w_broker w;
  fr_redis : w_redis w' = w_redis w;
  fr_metrics : w_metrics w' = w_metrics w;
}.

#[export] Instance frame_refl : Reflexive frame.
Proof. intros w. split; try done. by exists 0%nat. Qed.

#[export] Instance frame_trans : Transitive frame.
Proof.
  intros w1 w2 w3 [? ? ? [n Hn] ? ? ?] [? ? ? [m Hm] ? ? ?].
  split; try lia; try congruence.
  exists (n + m)%nat. rewrite Hm, Hn. by rewrite drop_drop.
Qed.

Lemma frame_set_store s w w' : frame w w' -> frame w (set_store s w').
Proof. by intros []. Qed.

Lemma frame_pop env w : frame w (pop env w).
Proof.
  split; cbn; try done; [lia|]. exists 1%nat. by destruct (w_sched w).
Qed.

(** A predicate on programs: whatever they return, the frame is kept. *)
Definition framed {A} (m : M S A) : Prop :=
  forall w r w', m w = (r, w') -> frame w w'.

Lemma framed_ret A (a : A) : framed (ret a).
Proof. by intros w r w' [= <- <-]. Qed.
Lemma framed_fail A e : framed (fail (A := A) e).
Proof. by intros w r w' [= <- <-]. Qed.
Lemma framed_lift A (o : outcome error A) : framed (lift o).
Proof. by intros w r w' [= <- <-]. Qed.
Lemma framed_Now : framed Now.
Proof. by intros w r w' [= <- <-]. Qed.
Lemma framed_draw : framed draw.
Proof.
  intros w r w' [= <- <-]. split; cbn; try done; [lia|]. by exists 0%nat.
Qed.
Lemma framed_bind A B (m : M S A) (k : A -> M S B) :
  framed m -> (forall a, framed (k a)) -> framed (bind m k).
Proof.
  intros Hm Hk w r w'. unfold bind. destruct (m w) as [[a|e] w1] eqn:E.
  - intros H. etrans; [eapply Hm|eapply Hk]; done.
  - intros [= <- <-]. by eapply Hm.
Qed.
Lemma framed_attempt A B (m : M S A) (k : outcome error A -> M S B) :
  framed m -> (forall o, framed (k o)) -> framed (attempt m k).
Proof.
  intros Hm Hk w r w'. unfold attempt. destruct (m w) as [o w1] eqn:E.
  intros H. etrans; [eapply Hm|eapply Hk]; done.
Qed.
Lemma framed_wrapf A c (m : M S A) : framed m -> framed (wrapf c m).
Proof.
  intros Hm w r w'. unfold wrapf. destruct (m w) as [[a|e] w1] eqn:E;
    intros [= <- <-]; by eapply Hm.
Qed.
Lemma framed_round_trip A f : framed (round_trip (A := A) f).
Proof.
  intros w r w'. unfold round_trip. pose proof (frame_pop true w) as Hp.
  destruct (sl_fault _); [|intros [= <- <-]; done|];
    destruct (f _ _ _) as [o s']; intros [= <- <-]; by apply frame_set_store.
Qed.
Lemma framed_statement A f : framed (statement (A := A) f).
Proof.
  intros w r w'. unfold statement. pose proof (frame_pop false w) as Hp.
  destruct (sl_fault _); [|intros [= <- <-]; done|intros [= <- <-]; done].
  destruct (f _ _) as [o s']; intros [= <- <-]; by apply frame_set_store.
Qed.
Lemma framed_transact A bc cc (body : Z -> M S A) :
  (forall now, framed (body now)) -> framed (transact bc cc body).
Proof.
  intros Hb w r w'. unfold transact. pose proof (frame_pop true w) as Hp.
  destruct (sl_fault (next_slot w)); [|intros [= <- <-]; done|intros [= <- <-]; done].
  destruct (body _ _) as [[a|e] w2] eqn:E; apply Hb in E.
  - pose proof (frame_pop false w2) as Hp2.
    assert (frame w (pop false w2)) by (etrans; [done|]; etrans; done).
    destruct (sl_fault (next_slot w2)); intros [= <- <-]; try done.
    by apply frame_set_store.
  - intros [= <- <-]. apply frame_set_store. by etrans.
Qed.
End Frame.

Create HintDb framed.
#[export] Hint Resolve framed_ret framed_fail framed_lift framed_Now framed_draw
  framed_bind framed_attempt framed_wrapf framed_round_trip framed_statement
  framed_transact : framed.

(** Proves [framed m] for a program built from the combinators. *)
Ltac solve_framed :=
  repeat first
    [ progress intros
    | solve [auto with framed]
    | apply framed_bind | apply framed_attempt | apply framed_wrapf | apply framed_transact
    | case_match ].

(** ** Inversion of runs *)

Section Inversion.
Context {S : Type}.
Implicit Types (w : World S).

Lemma bind_ok A B (m : M S A) (k : A -> M S B) w b w' :
  bind m k w = (Ok b, w') -> exists a w1, m w = (Ok a, w1) /\ k a w1 = (Ok b, w').
Proof. unfold bind. destruct (m w) as [[a|e] w1]; naive_solver. Qed.

Lemma bind_inv A B (m : M S A) (k : A -> M S B) w r w' :
  bind m k w = (r, w') ->
  (exists a w1, m w = (Ok a, w1) /\ k a w1 = (r, w'))
  \/ (exists e, m w = (Err e, w') /\ r = Err e).
Proof. unfold bind. destruct (m w) as [[a|e] w1]; naive_solver. Qed.

Lemma attempt_inv A B (m : M S A) (k : outcome error A -> M S B) w r w' :
  attempt m k w = (r, w') -> exists o w1, m w = (o, w1) /\ k o w1 = (r, w').
Proof. unfold attempt. destruct (m w) as [o w1]; naive_solver. Qed.

Lemma wrapf_ok A c (m : M S A) w a w' :
  wrapf c m w = (Ok a, w') <-> m w = (Ok a, w').
Proof. unfold wrapf. destruct (m w) as [[?|?] ?]; naive_solver. Qed.

Lemma wrapf_inv A c (m : M S A) w r w' :
  wrapf c m w = (r, w') ->
  exists o, m w = (o, w')
    /\ r = match o with Ok a => Ok a | Err e => Err (EWrap c e) end.
Proof. unfold wrapf. destruct (m w) as [[?|?] ?]; naive_solver. Qed.

Lemma statement_ok A f w (a : A) w' :
  statement f w = (Ok a, w') ->
  exists lk, f lk (w_store w) = (Ok a, w_store w').
Proof.
  unfold statement. destruct (sl_fault _); [|naive_solver..].
  cbn. destruct (f _ (w_store w)) as [o s'] eqn:E. intros [= -> <-].
  eexists. cbn. done.
Qed.

Lemma statement_inv A f w (r : outcome error A) w' :
  statement f w = (r, w') ->
  (exists lk, f lk (w_store w) = (r, w_store w'))
  \/ (r = Err connection_lost /\ w_store w' = w_store w).
Proof.
  unfold statement. destruct (sl_fault _); cbn; [|naive_solver..].
  destruct (f _ (w_store w)) as [o s'] eqn:E. intros [= -> <-]. left. by eexists.
Qed.

(** What other sessions made of the store before this round trip. *)
Definition arrived w : S := sl_env (next_slot w) (w_store w).

Lemma round_trip_inv A f w (r : outcome error A) w' :
  round_trip f w = (r, w') ->
  exists lk now, w_clock w <= now /\
  ((f lk now (arrived w) = (r, w_store w'))
   \/ (r = Err connection_lost /\
       (w_store w' = arrived w \/ w_store w' = snd (f lk now (arrived w))))).
Proof.
  unfold round_trip, arrived. exists (sl_locked (next_slot w)), (w_clock (pop true w)).
  split; [cbn; lia|]. cbn in *.
  destruct (sl_fault (next_slot w)); [|naive_solver|];
    destruct (f _ _ _) as [o s'] eqn:E; naive_solver.
Qed.

(** Atomicity: a transaction leaves the store as it found it, or as its
    whole body made it; in the second case the caller got the result, or an
    error that says the commit's fate is unknown. *)
Lemma transact_inv A bc cc (body : Z -> M S A) w r w' :
  transact bc cc body w = (r, w') ->
  (exists e, r = Err e /\ w_store w' = arrived w)
  \/ (exists a w2, body (w_clock (pop true w)) (pop true w) = (Ok a, w2)
       /\ w_store w' = w_store w2
       /\ (r = Ok a \/ r = Err (EWrap (cc a) connection_lost))).
Proof.
  unfold transact, arrived.
  destruct (sl_fault (next_slot w)); [|intros [= <- <-]; left; by eexists..].
  destruct (body _ _) as [[a|e] w2] eqn:E.
  - destruct (sl_fault (next_slot w2)); intros [= <- <-].
    + right. exists a, w2. auto.
    + left. eexists. split; done.
    + right. exists a, w2. auto.
  - intros [= <- <-]. left. eexists. split; done.
Qed.

(** The same for a failed call, with the cause. *)
Lemma transact_err A bc cc (body : Z -> M S A) w e w' :
  transact bc cc body w = (Err e, w') ->
  (e = EWrap bc connection_lost /\ w_store w' = arrived w)
  \/ (exists w2, body (w_clock (pop true w)) (pop true w) = (Err e, w2)
       /\ w_store w' = arrived w)
  \/ (exists a w2, body (w_clock (pop true w)) (pop true w) = (Ok a, w2)
       /\ e = EWrap (cc a) connection_lost
       /\ (w_store w' = arrived w \/ w_store w' = w_store w2)).
Proof.
  unfold transact, arrived.
  destruct (sl_fault (next_slot w)); [|intros [= <- <-]; by left..].
  destruct (body _ _) as [[a|e'] w2] eqn:E; [|naive_solver].
  destruct (sl_fault (next_slot w2)); intros [= <- <-]; right; right; eauto 8.
Qed.

Lemma transact_ok A bc cc (body : Z -> M S A) w a w' :
  transact bc cc body w = (Ok a, w') ->
  exists w2, body (w_clock (pop true w)) (pop true w) = (Ok a, w2)
    /\ w_store w' = w_store w2.
Proof. intros [(e & [=] & _)|(a' & w2 & ? & ? & [[= ->]|[=]])]%transact_inv. eauto. Qed.
End Inversion.

(** ** Rely: what the other sessions of a schedule may do *)

Section Rely.
Context {S : Type} (R : S -> S -> Prop).
Implicit Types (w : World S).

(** Every other session's commit is related by [R]. *)
Definition sched_rely w : Prop :=
  Forall (fun sl => forall s, R s (sl_env sl s)) (w_sched w).

Lemma sched_rely_frame w w' : frame w w' -> sched_rely w -> sched_rely w'.
Proof.
  unfold sched_rely. intros [_ _ _ [n Hn] _ _ _]. rewrite Hn. apply Forall_drop.
Qed.

Lemma arrived_rely `{!Reflexive R} w : sched_rely w -> R (w_store w) (arrived w).
Proof.
  unfold sched_rely, arrived, next_slot. intros Hs.
  destruct (w_sched w) as [|sl l]; [done|]. by inversion_clear Hs.
Qed.
End Rely.

(** A schedule of careful sessions is one of less careful ones. *)
Lemma sched_rely_mono {S} (R Q : S -> S -> Prop) (w : World S) :
  (forall a b, R a b -> Q a b) -> sched_rely R w -> sched_rely Q w.
Proof. unfold sched_rely. intros HR Hs. eapply Forall_impl; [exact Hs|]. auto. Qed.

(** ** Errors that are no sentinel *)

Definition plain_error (e : error) : Prop := forall s, errors_Is e s = false.

Definition plain_outcome {A} (o : outcome error A) : Prop :=
  match o with Ok _ => True | Err e => plain_error e end.

Section PlainErrors.
Context {S : Type}.
Implicit Types (w : World S).

(** Every error of [m] comes from below: no package-level sentinel. *)
Definition plain_errors {A} (m : M S A) : Prop :=
  forall w e w', m w = (Err e, w') -> plain_error e.

Lemma plain_errors_ret A (a : A) : plain_errors (ret a).
Proof. by intros w e w' [=]. Qed.
Lemma plain_errors_bind A B (m : M S A) (k : A -> M S B) :
  plain_errors m -> (forall a, plain_errors (k a)) -> plain_errors (bind m k).
Proof.
  intros Hm Hk w e w' [(a & w1 & _ & H2)|(e' & H1 & [= <-])]%bind_inv; [by eapply Hk|by eapply Hm].
Qed.
Lemma plain_errors_wrapf A c (m : M S A) : plain_errors m -> plain_errors (wrapf c m).
Proof.
  intros Hm w e w' ([|e'] & H1 & [= ->])%wrapf_inv s. cbn. by eapply Hm.
Qed.
Lemma plain_errors_statement A f :
  (forall lk s, plain_outcome (f lk s).1) -> plain_errors (statement (A := A) f).
Proof.
  intros Hf w e w' [(lk & Hrun)|[[= ->] _]]%statement_inv; [|done].
  specialize (Hf lk (w_store w)). by rewrite Hrun in Hf.
Qed.
Lemma plain_errors_round_trip A f :
  (forall lk now s, plain_outcome (f lk now s).1) -> plain_errors (round_trip (A := A) f).
Proof.
  intros Hf w e w' (lk & now & _ & [Hrun|[[= ->] _]])%round_trip_inv; [|done].
  specialize (Hf lk now (arrived w)). by rewrite Hrun in Hf.
Qed.
End PlainErrors.

Create HintDb plain.
#[export] Hint Resolve plain_errors_ret : plain.

(** ** What a program returns *)

Section Returns.
Context {S : Type}.
Implicit Types (w : World S).

Definition returns {A} (P : A -> Prop) (m : M S A) : Prop :=
  forall w a w', m w = (Ok a, w') -> P a.

Lemma returns_lift A (o : outcome error A) : returns (fun a => o = Ok a) (lift o).
Proof. by intros w a w' [= ->]. Qed.
Lemma returns_wrapf A (P : A -> Prop) c (m : M S A) : returns P m -> returns P (wrapf c m).
Proof. intros Hm w a w' Hrun%wrapf_ok. by eapply Hm. Qed.
Lemma returns_any A (m : M S A) : returns (fun _ => True) m.
Proof. done. Qed.
End Returns.

(** ** Guarantees of the store under every schedule *)

Section Guarantee.
Context {S : Type} (R : S -> S -> Prop) `{!PreOrder R}.
Implicit Types (w : World S).

(** Whatever [m] returns, it relates the store it found to the one it
    leaves, provided the other sessions do so as well. *)
Definition guar {A} (m : M S A) : Prop :=
  forall w r w', sched_rely R w -> m w = (r, w') ->
    R (w_store w) (w_store w') /\ sched_rely R w'.

Lemma guar_same_store A (m : M S A) :
  framed m -> (forall w r w', m w = (r, w') -> w_store w' = w_store w) -> guar m.
Proof.
  intros Hf Hst w r w' Hs Hrun. rewrite (Hst _ _ _ Hrun).
  split; [done|]. eapply sched_rely_frame, Hs. by eapply Hf.
Qed.

Lemma guar_ret A (a : A) : guar (ret a).
Proof. apply guar_same_store; [apply framed_ret|]. by intros ??? [= <- <-]. Qed.
Lemma guar_fail A e : guar (fail (A := A) e).
Proof. apply guar_same_store; [apply framed_fail|]. by intros ??? [= <- <-]. Qed.
Lemma guar_lift A (o : outcome error A) : guar (lift o).
Proof. apply guar_same_store; [apply framed_lift|]. by intros ??? [= <- <-]. Qed.
Lemma guar_Now : guar Now.
Proof. apply guar_same_store; [apply framed_Now|]. by intros ??? [= <- <-]. Qed.
Lemma guar_draw : guar draw.
Proof. apply guar_same_store; [apply framed_draw|]. by intros ??? [= <- <-]. Qed.
Lemma guar_emit mt : guar (emit mt).
Proof. intros w r w' Hs [= <- <-]. done. Qed.

Lemma guar_bind A B (m : M S A) (k : A -> M S B) :
  guar m -> (forall a, guar (k a)) -> guar (bind m k).
Proof.
  intros Hm Hk w r w' Hs [(a & w1 & H1 & H2)|(e & H1 & ->)]%bind_inv.
  - destruct (Hm _ _ _ Hs H1) as [HR1 Hs1]. destruct (Hk _ _ _ _ Hs1 H2) as [HR2 Hs2].
    split; [by etrans|done].
  - by eapply Hm.
Qed.
(** When the rest only has to guarantee for the results [m] can return. *)
Lemma guar_bind_returns A B (P : A -> Prop) (m : M S A) (k : A -> M S B) :
  returns P m -> guar m -> (forall a, P a -> guar (k a)) -> guar (bind m k).
Proof.
  intros HP Hm Hk w r w' Hs [(a & w1 & H1 & H2)|(e & H1 & ->)]%bind_inv.
  - destruct (Hm _ _ _ Hs H1) as [HR1 Hs1].
    destruct (Hk _ (HP _ _ _ H1) _ _ _ Hs1 H2) as [HR2 Hs2]. split; [by etrans|done].
  - by eapply Hm.
Qed.
Lemma guar_attempt A B (m : M S A) (k : outcome error A -> M S B) :
  guar m -> (forall o, guar (k o)) -> guar (attempt m k).
Proof.
  intros Hm Hk w r w' Hs (o & w1 & H1 & H2)%attempt_inv.
  destruct (Hm _ _ _ Hs H1) as [HR1 Hs1]. destruct (Hk _ _ _ _ Hs1 H2) as [HR2 Hs2].
  split; [by etrans|done].
Qed.
Lemma guar_wrapf A c (m : M S A) : guar m -> guar (wrapf c m).
Proof. intros Hm w r w' Hs (o & H1 & _)%wrapf_inv. by eapply Hm. Qed.

Lemma guar_round_trip A f :
  (forall lk now s, R s (f lk now s).2) -> guar (round_trip (A := A) f).
Proof.
  intros Hf w r w' Hs Hrun. pose proof (arrived_rely R w Hs) as Ha.
  split; [|by eapply sched_rely_frame, Hs; eapply framed_round_trip].
  etrans; [exact Ha|].
  apply round_trip_inv in Hrun as (lk & now & _ & [Heq|(_ & [->| ->])]); [|done|apply Hf].
  specialize (Hf lk now (arrived w)). by rewrite Heq in Hf.
Qed.

(** Inside the transaction [R] may be broken: only the body's whole effect
    counts. *)
Lemma guar_transact A bc cc (body : Z -> M S A) :
  (forall now, framed (body now)) ->
  (forall now w a w', body now w = (Ok a, w') -> R (w_store w) (w_store w')) ->
  guar (transact bc cc body).
Proof.
  intros Hf Hb w r w' Hs Hrun. pose proof (arrived_rely R w Hs) as Ha.
  split; [|eapply sched_rely_frame, Hs; by eapply framed_transact].
  etrans; [exact Ha|].
  apply transact_inv in Hrun as [(e & _ & ->)|(a & w2 & Hrun & -> & _)]; [done|].
  exact (Hb _ _ _ _ Hrun).
Qed.
End Guarantee.

(** Only the extension of the relation matters. *)
Lemma guar_iff {S} (R Q : S -> S -> Prop) A (m : M S A) :
  (forall s s', R s s' <-> Q s s') -> guar R m -> guar Q m.
Proof.
  intros Hiff Hm w r w' Hs Hrun.
  destruct (Hm w r w') as [HR Hs']; [|done|].
  - eapply sched_rely_mono; [|exact Hs]. intros. by apply Hiff.
  - split; [by apply Hiff|]. eapply sched_rely_mono; [|exact Hs']. intros. by apply Hiff.
Qed.

(** [P] is an invariant: it holds after whatever it held before. *)
Definition stable {S} (P : S -> Prop) (s s' : S) : Prop := P s -> P s'.
#[export] Instance stable_preorder {S} (P : S -> Prop) : PreOrder (stable P).
Proof. unfold stable. split; [by intros s|]. intros s1 s2 s3 ??; auto. Qed.

Create HintDb guar.
#[export] Hint Resolve guar_ret guar_fail guar_lift guar_Now guar_draw guar_emit : guar.

(** Reduces [guar R m] to the store calls of [m]. *)
Ltac solve_guar :=
  repeat first
    [ progress intros
    | solve [auto with guar]
    | lazymatch goal with
      | |- guar _ (bind _ _) => apply guar_bind; [apply _|..]
      | |- guar _ (attempt _ _) => apply guar_attempt; [apply _|..]
      | |- guar _ (wrapf _ _) => apply guar_wrapf
      | |- guar _ (match _ with _ => _ end) => case_match
      end ].

(** Peels the [Ok] run [H] of a chain of calls into the runs of the calls. *)
Ltac peel H :=
  lazymatch type of H with
  | bind _ _ _ = (Ok _, _) =>
    let a := fresh "a" in let w := fresh "w" in let H1 := fresh "Hrun" in
    apply bind_ok in H as (a & w & H1 & H); cbn beta iota in H; peel H1; peel H
  | wrapf _ _ _ = (Ok _, _) => apply wrapf_ok in H; peel H
  | ret _ _ = (Ok _, _) => unfold ret in H; simplify_eq H || injection H as; subst
  | fail _ _ = (Ok _, _) => discriminate H
  | _ => idtac
  end.
