(* ===== verification/Quiet.v ===== *)
(** * Undisturbed runs, for the theorems that say a call succeeds

    A quiet world has nothing left on its schedule: no other session commits
    in between, no call fails, no time passes.  In it every combinator of
    [Runtime.v] computes, so that a run is found by rewriting with the runs of
    its calls. *)

From stdpp Require Import base list.
From Stdlib Require Import ZArith Lia.
From S2P Require Import Prelude GoStrings Runtime.

Open Scope Z_scope.

Section Quiet.
Context {S : Type}.
Implicit Types (w : World S).

Lemma pop_quiet env w : w_sched w = [] -> pop env w = w.
Proof.
  destruct w as [s c e d sch b r m]. cbn. intros ->. unfold pop. cbn. rewrite Z.add_0_r.
  by destruct env.
Qed.

Lemma next_slot_quiet w : w_sched w = [] -> next_slot w = quiet.
Proof. unfold next_slot. by intros ->. Qed.

Lemma arrived_quiet w : w_sched w = [] -> arrived w = w_store w.
Proof. intros Hq. unfold arrived. by rewrite next_slot_quiet. Qed.

Lemma round_trip_quiet A (f : (row_key -> bool) -> Z -> S -> outcome error A * S) w :
  w_sched w = [] ->
  round_trip f w = (let '(o, s) := f (fun _ => false) (w_clock w) (w_store w) in (o, set_store s w)).
Proof.
  intros Hq. unfold round_trip. rewrite (next_slot_quiet _ Hq), (pop_quiet true _ Hq). done.
Qed.

Lemma statement_quiet A (f : (row_key -> bool) -> S -> outcome error A * S) w o s :
  w_sched w = [] -> f (fun _ => false) (w_store w) = (o, s) ->
  statement f w = (o, set_store s w).
Proof.
  intros Hq Hf. unfold statement. rewrite (next_slot_quiet _ Hq), (pop_quiet false _ Hq).
  cbn. by rewrite Hf.
Qed.

(** A transaction whose body succeeds commits. *)
Lemma transact_quiet A bc cc (body : Z -> M S A) w a w' :
  w_sched w = [] -> body (w_clock w) w = (Ok a, w') -> w_sched w' = [] ->
  transact bc cc body w = (Ok a, w').
Proof.
  intros Hq Hb Hq'. unfold transact. rewrite (next_slot_quiet _ Hq), (pop_quiet true _ Hq).
  cbn. rewrite Hb. by rewrite (next_slot_quiet _ Hq'), (pop_quiet false _ Hq').
Qed.

(** Runs of the combinators, from the runs of their parts. *)
Lemma bind_run A B (m : M S A) (k : A -> M S B) w a w1 :
  m w = (Ok a, w1) -> bind m k w = k a w1.
Proof. unfold bind. by intros ->. Qed.
Lemma attempt_run A B (m : M S A) (k : outcome error A -> M S B) w o w1 :
  m w = (o, w1) -> attempt m k w = k o w1.
Proof. unfold attempt. by intros ->. Qed.
Lemma wrapf_run A c (m : M S A) w o w1 :
  m w = (o, w1) ->
  wrapf c m w = (match o with Ok a => Ok a | Err e => Err (EWrap c e) end, w1).
Proof. unfold wrapf. intros ->. by destruct o. Qed.

Lemma set_store_same w : set_store (w_store w) w = w.
Proof. by destruct w. Qed.
Lemma sched_set_store s w : w_sched (set_store s w) = w_sched w.
Proof. done. Qed.
Lemma sched_set_drawn n w : w_sched (set_drawn n w) = w_sched w.
Proof. done. Qed.
End Quiet.

(** The run [H] of the next call of a chain. *)
Ltac run H :=
  first
    [ erewrite (bind_run _ _ _ _ _ _ _ H)
    | erewrite (bind_run _ _ _ _ _ _ _ (wrapf_run _ _ _ _ _ _ H))
    | erewrite (attempt_run _ _ _ _ _ _ _ H)
    | erewrite (wrapf_run _ _ _ _ _ _ H) ];
  cbn beta iota.
