(* ===== verification/GoFloat.v ===== *)
(** * Go's [float64]: IEEE double precision, rounding to nearest even

    Conversions and the two operations [time.Duration.Seconds] needs, over
    the executable floats of [SpecFloat]. *)

From Stdlib Require Import ZArith SpecFloat.
From S2P Require Import Prelude Runtime.

Open Scope Z_scope.

Definition float_prec : Z := 53.
Definition float_emax : Z := 1024.

(** [float64(n)] of an integer *)
Definition float64_of_int (n : Z) : float64 := binary_normalize float_prec float_emax n 0 false.

Definition float_add (x y : float64) : float64 := SFadd float_prec float_emax x y.
Definition float_div (x y : float64) : float64 := SFdiv float_prec float_emax x y.

(** [time.Duration.Seconds]: whole seconds and the rest are converted apart. *)
Definition Seconds (d : Z) : float64 :=
  let sec := Z.quot d 1000000000 in
  let nsec := Z.rem d 1000000000 in
  float_add (float64_of_int sec) (float_div (float64_of_int nsec) (float64_of_int 1000000000)).

(** Two and a half seconds are 2.5; an integer beyond 53 bits is rounded. *)
Example Seconds_half : Seconds 2500000000 = S754_finite false (5 * 2 ^ 50) (-51).
Proof. reflexivity. Qed.
Example float64_of_int_rounds : float64_of_int (2 ^ 53 + 1) = float64_of_int (2 ^ 53).
Proof. reflexivity. Qed.
