(* ===== verification/FormatGo.v ===== *)
(** * [scripts/format-go/main.go]: Go formatting without column alignment

    [go/format] and [go/scanner] are the class [GoToolchain]; of the scanner
    the tool relies on where tokens start, which [GoToolchainSpec] states.
    The files of a walk come with what each system call answers. *)

From stdpp Require Import base strings list.
From Stdlib Require Import ZArith Lia Ascii.
From S2P Require Import Prelude GoStrings Runtime.

Module FormatGo.

(** A [[]byte] that is indexed and sliced. *)
Definition bytes : Type := list ascii.

(** A token of [Scan] before EOF: where it starts, and whether it is the
    semicolon the scanner inserts at the end of a line. *)
Record token := mk_token { tk_offset : nat; tk_inserted : bool }.

Class GoToolchain := {
  format_Source : bytes -> outcome error bytes;
  scan : bytes -> list token;
}.

Definition blank (c : ascii) : bool := Ascii.eqb c " " || Ascii.eqb c (chr 9).
Definition newline (c : ascii) : bool := Ascii.eqb c (chr 10).

(** ** [formatSource] *)

(** [for start > 0 && blank(formatted[start-1]) { start-- }] *)
Fixpoint skip_back (formatted : bytes) (start : nat) : nat :=
  match start with
  | O => O
  | S before =>
    match formatted !! before with
    | Some c => if blank c then skip_back formatted before else start
    | None => start
    end
  end.

(** [formatted[from:to]]; [None] is a panic. *)
Definition slice (formatted : bytes) (from to : nat) : option bytes :=
  if (from <=? to)%nat && (to <=? length formatted)%nat
  then Some (take (to - from) (drop from formatted)) else None.

(** Only a gap before a real token on the same line is collapsed. *)
Fixpoint collapse (formatted : bytes) (tokens : list token) (copied : nat) (output : bytes)
  : option bytes :=
  match tokens with
  | [] => match slice formatted copied (length formatted) with
          | Some rest => Some (output ++ rest)
          | None => None
          end
  | t :: tokens =>
    if tk_inserted t then collapse formatted tokens copied output else
    let end_ := tk_offset t in
    let start := skip_back formatted end_ in
    let at_line_start := match formatted !! pred start with
                         | Some c => newline c | None => false end in
    if (start =? end_)%nat || (start =? 0)%nat || at_line_start
    then collapse formatted tokens copied output
    else match slice formatted copied start with
         | Some part => collapse formatted tokens end_ (output ++ part ++ [" "%char])
         | None => None
         end
  end.

Section Tool.
Context `{GoToolchain}.

(** [None]: a slice out of range. *)
Definition formatSource (source : bytes) : option (outcome error bytes) :=
  match format_Source source with
  | Err err => Some (Err err)
  | Ok formatted =>
    match collapse formatted (scan formatted) 0 [] with
    | Some output => Some (Ok output)
    | None => None
    end
  end.

(** ** [run] *)

(** An entry [WalkDir] visits, with the answers of the system. *)
Record entry := mk_entry {
  en_path : string;
  en_walkErr : option error;
  en_regular : bool;
  en_ReadFile : outcome error bytes;
  en_Info : option error;
  en_WriteFile : option error;
  en_Fprintln : option error;
}.

(** [filepath.Ext]: from the last dot of the last element. *)
Fixpoint ext_rev (rev_path : string) (seen : string) : string :=
  match rev_path with
  | EmptyString => EmptyString
  | String c rest =>
    if Ascii.eqb c "/" then EmptyString
    else if Ascii.eqb c "." then String c seen
    else ext_rev rest (String c seen)
  end.
Definition Ext (path : string) : string := ext_rev (String.rev path) EmptyString.

(** [changed], the files written, the paths printed. *)
Record progress := mk_progress {
  pr_changed : bool;
  pr_written : list (string * bytes);
  pr_printed : list string;
}.

Definition visit (write : bool) (e : entry) (p : progress) : option (option error * progress) :=
  match en_walkErr e with
  | Some err => Some (Some err, p)
  | None =>
    if negb (en_regular e) || negb (String.eqb (Ext (en_path e)) ".go") then Some (None, p) else
    match en_ReadFile e with
    | Err err => Some (Some (EWrap ("read " +:+ en_path e) err), p)
    | Ok source =>
      match formatSource source with
      | None => None
      | Some (Err err) => Some (Some (EWrap ("format " +:+ en_path e) err), p)
      | Some (Ok formatted) =>
        if bool_decide (source = formatted) then Some (None, p) else
        let p := mk_progress true (pr_written p) (pr_printed p) in
        let finish (p : progress) :=
          Some (en_Fprintln e,
                mk_progress (pr_changed p) (pr_written p) (pr_printed p ++ [en_path e])) in
        if write then
          match en_Info e with
          | Some err => Some (Some (EWrap ("stat " +:+ en_path e) err), p)
          | None =>
            match en_WriteFile e with
            | Some err => Some (Some (EWrap ("write " +:+ en_path e) err), p)
            | None => finish (mk_progress (pr_changed p)
                                (pr_written p ++ [(en_path e, formatted)]) (pr_printed p))
            end
          end
        else finish p
      end
    end
  end.

(** The first error ends the walk, and the run. *)
Fixpoint walk (write : bool) (entries : list entry) (p : progress)
  : option (option error * progress) :=
  match entries with
  | [] => Some (None, p)
  | e :: entries =>
    match visit write e p with
    | Some (None, p) => walk write entries p
    | result => result
    end
  end.

Fixpoint run (roots : list (list entry)) (write : bool) (p : progress)
  : option (option error * progress) :=
  match roots with
  | [] => Some (None, p)
  | entries :: roots =>
    match walk write entries p with
    | Some (None, p) => run roots write p
    | result => result
    end
  end.

(** The exit status of [main]: 2 on misuse, 1 on an error or, when only
    checking, on a file that is not formatted. *)
Definition main (roots : list (list entry)) (write : bool) : option (Z * progress) :=
  let fresh := mk_progress false [] [] in
  match roots with
  | [] => Some (2%Z, fresh)
  | _ =>
    match run roots write fresh with
    | None => None
    | Some (Some _, p) => Some (1%Z, p)
    | Some (None, p) => Some (if pr_changed p && negb write then 1%Z else 0%Z, p)
    end
  end.
End Tool.

(** Every real token starts on a character that is no blank, and further on
    than the one before. *)
Fixpoint starts_ok (formatted : bytes) (low : nat) (tokens : list token) : bool :=
  match tokens with
  | [] => true
  | t :: tokens =>
    if tk_inserted t then starts_ok formatted low tokens else
    (low <=? tk_offset t)%nat
    && match formatted !! tk_offset t with Some c => negb (blank c) | None => false end
    && starts_ok formatted (S (tk_offset t)) tokens
  end.

Class GoToolchainSpec `{GoToolchain} := {
  scan_spec formatted : starts_ok formatted 0 (scan formatted) = true;
}.

(** What is left without the blanks. *)
Definition deblank (b : bytes) : bytes := List.filter (fun c => negb (blank c)) b.

Lemma deblank_app a b : deblank (a ++ b) = deblank a ++ deblank b.
Proof. apply List.filter_app. Qed.

(** A segment without the blanks at its end, and with one space for them. *)
Fixpoint rtrim (b : bytes) : bytes :=
  match b with
  | [] => []
  | c :: rest => match rtrim rest with
                 | [] => if blank c then [] else [c]
                 | core => c :: core
                 end
  end.

Definition collapse_gap (segment : bytes) : bytes :=
  let core := rtrim segment in
  if (length core =? length segment)%nat || match core with [] => true | _ => false end
     || match last core with Some c => newline c | None => false end
  then segment else core ++ [" "%char].

Lemma rtrim_blank b : deblank b = [] -> rtrim b = [].
Proof.
  induction b as [|c b IH]; [done|]. cbn. destruct (blank c); [|done].
  intros Hb. by rewrite IH.
Qed.

Lemma rtrim_app_blank a b : deblank b = [] -> rtrim (a ++ b) = rtrim a.
Proof.
  intros Hb. induction a as [|c a IH]; cbn; [by apply rtrim_blank|]. by rewrite IH.
Qed.

Lemma rtrim_id b c : last b = Some c -> blank c = false -> rtrim b = b.
Proof.
  induction b as [|c' b IH]; [done|]. intros Hl Hc. destruct b as [|c2 b].
  - injection Hl as <-. cbn. by rewrite Hc.
  - change (rtrim (c' :: c2 :: b)) with
      (match rtrim (c2 :: b) with [] => if blank c' then [] else [c'] | core => c' :: core end).
    rewrite IH by done. done.
Qed.

(** ** What [formatSource] keeps *)

Section Collapse.
Context (formatted : bytes).

(** What is skipped is blank, and the scan stops at anything else. *)
Lemma skip_back_spec e :
  (e <= length formatted)%nat ->
  (skip_back formatted e <= e)%nat
  /\ deblank (take (e - skip_back formatted e) (drop (skip_back formatted e) formatted)) = [].
Proof.
  induction e as [|e IH]; intros Hl; cbn [skip_back]; [done|].
  destruct (formatted !! e) as [c|] eqn:Hc.
  2: { apply lookup_ge_None in Hc. lia. }
  destruct (blank c) eqn:Hb.
  - destruct IH as [Hle Hbl]; [lia|]. split; [lia|].
    replace (S e - skip_back formatted e)%nat with (S (e - skip_back formatted e)) by lia.
    erewrite take_S_r; [|rewrite lookup_drop; replace (_ + _)%nat with e by lia; exact Hc].
    rewrite deblank_app, Hbl. cbn. by rewrite Hb.
  - split; [lia|]. by rewrite Nat.sub_diag.
Qed.

Lemma skip_back_stops e k c :
  (k < e)%nat -> formatted !! k = Some c -> blank c = false -> (k < skip_back formatted e)%nat.
Proof.
  induction e as [|e IH]; intros Hk Hc Hb; [lia|]. cbn [skip_back].
  destruct (formatted !! e) as [c'|] eqn:He; [|lia]. destruct (blank c') eqn:Hb'; [|lia].
  apply IH; [|done..]. destruct (decide (k = e)) as [->|]; [congruence|lia].
Qed.

Lemma take_slice a b :
  (a <= b)%nat -> take b formatted = take a formatted ++ take (b - a) (drop a formatted).
Proof. intros Hab. rewrite take_take_drop. f_equal. lia. Qed.

Lemma collapse_spec tokens : forall low copied output,
  starts_ok formatted low tokens = true -> (copied <= low)%nat -> (copied <= length formatted)%nat ->
  (copied = 0%nat \/ exists c, formatted !! copied = Some c /\ blank c = false /\ (copied < low)%nat) ->
  deblank output = deblank (take copied formatted) -> (length output <= copied)%nat ->
  exists result, collapse formatted tokens copied output = Some result
  /\ deblank result = deblank formatted /\ (length result <= length formatted)%nat.
Proof.
  induction tokens as [|t tokens IH]; intros low copied output Hst Hlow Hlen Hcop Hde Hout;
    cbn [collapse].
  - unfold slice. rewrite (proj2 (Nat.leb_le _ _)) by done. rewrite Nat.leb_refl. cbn [andb].
    eexists. split; [done|]. rewrite deblank_app, Hde, <- deblank_app, <- take_slice, firstn_all by done.
    split; [done|]. rewrite length_app, length_take, length_drop. lia.
  - cbn [starts_ok] in Hst. destruct (tk_inserted t); [by eapply IH|].
    apply andb_true_iff in Hst as [[Hle Hc]%andb_true_iff Hst]. apply Nat.leb_le in Hle.
    destruct (formatted !! tk_offset t) as [c|] eqn:Hat; [|done]. apply negb_true_iff in Hc.
    assert (Hin : (tk_offset t < length formatted)%nat) by by eapply lookup_lt_Some.
    destruct (skip_back_spec (tk_offset t)) as [Hback Hblank]; [lia|].
    destruct (_ || _) eqn:Hskip.
    { eapply IH; [done|lia|done| |done|done].
      destruct Hcop as [?|(c' & ? & ? & ?)]; [by left|right]. exists c'. split_and!; [done..|lia]. }
    apply orb_false_iff in Hskip as [[Hne H0]%orb_false_iff _].
    apply Nat.eqb_neq in Hne, H0.
    assert (Hstart : (copied <= skip_back formatted (tk_offset t))%nat).
    { destruct Hcop as [->|(c' & Hc' & Hb' & Hlt)]; [lia|].
      apply Nat.lt_le_incl, (skip_back_stops (tk_offset t) copied c'); [lia|done..]. }
    unfold slice. rewrite (proj2 (Nat.leb_le _ _) Hstart), (proj2 (Nat.leb_le _ _)) by lia.
    cbn [andb]. eapply IH; [done|lia|lia| | |].
    + right. exists c. split_and!; [done|done|lia].
    + rewrite !deblank_app, Hde. change (deblank [" "%char]) with (@nil ascii).
      rewrite app_nil_r, <- deblank_app, <- take_slice by done.
      rewrite (take_slice (skip_back formatted (tk_offset t)) (tk_offset t)) by done.
      by rewrite deblank_app, Hblank, app_nil_r.
    + rewrite !length_app, length_take, length_drop. cbn. lia.
Qed.

(** ** The output, segment by segment

    The source falls into segments, each up to the next real token; the blanks
    a segment ends with become one space, unless they are all of it or follow
    a line break. *)

Definition range (a b : nat) : bytes := take (b - a) (drop a formatted).

Fixpoint reference (tokens : list token) (low : nat) : bytes :=
  match tokens with
  | [] => drop low formatted
  | t :: tokens =>
    if tk_inserted t then reference tokens low
    else collapse_gap (range low (tk_offset t)) ++ reference tokens (tk_offset t)
  end.

Lemma range_app a b c : (a <= b)%nat -> (b <= c)%nat -> range a b ++ range b c = range a c.
Proof.
  intros Hab Hbc. unfold range.
  replace (drop b formatted) with (drop (b - a) (drop a formatted))
    by (rewrite drop_drop; f_equal; lia).
  rewrite take_take_drop. f_equal. lia.
Qed.

Lemma range_end a : range a (length formatted) = drop a formatted.
Proof. unfold range. rewrite <- length_drop. apply firstn_all. Qed.

Lemma range_last a b : (a < b)%nat -> (b <= length formatted)%nat ->
  last (range a b) = formatted !! pred b.
Proof.
  intros Hab Hb. unfold range. rewrite last_lookup, length_take, length_drop.
  rewrite lookup_take_lt by lia. rewrite lookup_drop. f_equal. lia.
Qed.

(** The character before the blanks is none. *)
Lemma skip_back_nonblank e c :
  (e <= length formatted)%nat -> formatted !! pred (skip_back formatted e) = Some c ->
  (0 < skip_back formatted e)%nat -> blank c = false.
Proof.
  induction e as [|e IH]; cbn [skip_back]; intros Hl Hc Hpos; [lia|].
  destruct (formatted !! e) as [c'|] eqn:He.
  - destruct (blank c') eqn:Hb; [apply IH; [lia|done..]|]. cbn [pred] in Hc. congruence.
  - apply lookup_ge_None in He. lia.
Qed.

(** The tool's test on a gap is the reference's on the segment before it. *)
Lemma gap_agrees low off :
  (off < length formatted)%nat ->
  (low <= skip_back formatted off)%nat -> (low < skip_back formatted off \/ low = 0)%nat ->
  collapse_gap (range low off)
  = if (skip_back formatted off =? off)%nat || (skip_back formatted off =? 0)%nat
       || match formatted !! pred (skip_back formatted off) with
          | Some c => newline c | None => false end
    then range low off else range low (skip_back formatted off) ++ [" "%char].
Proof.
  intros Hoff Hlow Hpos. destruct (skip_back_spec off) as [Hle Hblank]; [lia|].
  set (start := skip_back formatted off) in *.
  rewrite <- (range_app low start off) by done. fold (range start off) in Hblank.
  destruct (decide (start = 0%nat)) as [H0|H0].
  { assert (low = 0%nat) as -> by lia. rewrite H0 in *. rewrite (Nat.eqb_refl 0), orb_true_r. cbn [orb].
    unfold collapse_gap. rewrite rtrim_app_blank by exact Hblank.
    change (range 0 0) with (@nil ascii). cbn [rtrim]. by rewrite orb_true_r. }
  assert (Hlt : (low < start)%nat) by lia.
  destruct (formatted !! pred start) as [c|] eqn:Hc.
  2: { apply lookup_ge_None in Hc. lia. }
  pose proof (skip_back_nonblank off c ltac:(lia) Hc ltac:(lia)) as Hb. fold start in Hb.
  unfold collapse_gap. rewrite rtrim_app_blank by done.
  assert (Hlast : last (range low start) = Some c) by (rewrite range_last by lia; done).
  rewrite (rtrim_id _ c) by done. rewrite Hlast, (proj2 (Nat.eqb_neq start 0) H0), orb_false_r.
  assert (Hcore : match range low start with [] => true | _ => false end = false)
    by (by destruct (range low start)).
  destruct (Nat.eqb_spec start off) as [Heq|Hne]; cbn [orb].
  - assert (range start off = []) as -> by (unfold range; by rewrite Heq, Nat.sub_diag).
    by rewrite app_nil_r, Nat.eqb_refl.
  - rewrite Hcore. rewrite (proj2 (Nat.eqb_neq _ _)); [done|].
    rewrite length_app. unfold range. rewrite !length_take, !length_drop. lia.
Qed.

Lemma collapse_reference tokens : forall low copied output,
  starts_ok formatted low tokens = true ->
  forall prev, (copied <= prev)%nat -> (prev <= length formatted)%nat ->
  (prev = 0%nat \/ (prev < low)%nat) ->
  (prev = 0%nat \/ exists c, formatted !! prev = Some c /\ blank c = false) ->
  collapse formatted tokens copied output
  = Some (output ++ range copied prev ++ reference tokens prev).
Proof.
  induction tokens as [|t tokens IH]; intros low copied output Hst prev Hcop Hlen Hlow Hprev;
    cbn [collapse reference].
  - unfold slice. rewrite (proj2 (Nat.leb_le _ _)) by lia. rewrite Nat.leb_refl. cbn [andb].
    fold (range copied (length formatted)).
    by rewrite <- (range_app copied prev (length formatted)), range_end by done.
  - cbn [starts_ok] in Hst. destruct (tk_inserted t); [by eapply IH|].
    apply andb_true_iff in Hst as [[Hle Hc]%andb_true_iff Hst]. apply Nat.leb_le in Hle.
    destruct (formatted !! tk_offset t) as [c|] eqn:Hat; [|done]. apply negb_true_iff in Hc.
    assert (Hin : (tk_offset t < length formatted)%nat) by by eapply lookup_lt_Some.
    destruct (skip_back_spec (tk_offset t)) as [Hback _]; [lia|].
    assert (Hpos : (prev < skip_back formatted (tk_offset t) \/ prev = 0)%nat).
    { destruct Hlow as [->|Hlow]; [by right|]. destruct Hprev as [->|(c' & Hc' & Hb')]; [by right|].
      left. apply (skip_back_stops _ _ c'); [lia|done..]. }
    rewrite (gap_agrees prev (tk_offset t)) by lia.
    destruct (_ || _).
    + rewrite (IH _ _ _ Hst (tk_offset t)); [|lia|lia|right; lia|right; by exists c].
      by rewrite (app_assoc (range copied prev)), range_app by lia.
    + unfold slice. rewrite (proj2 (Nat.leb_le copied _)), (proj2 (Nat.leb_le _ (length _))) by lia.
      cbn [andb]. fold (range copied (skip_back formatted (tk_offset t))).
      rewrite (IH _ _ _ Hst (tk_offset t)); [|lia|lia|right; lia|right; by exists c].
      rewrite <- (range_app copied prev) by lia.
      unfold range at 3. rewrite Nat.sub_diag. cbn [take app]. by rewrite <- !app_assoc.
Qed.
End Collapse.

(** ** Runs *)

Section Runs.
Context `{GoToolchainSpec}.

Lemma formatSource_total source :
  (exists err, formatSource source = Some (Err err) /\ format_Source source = Err err)
  \/ exists formatted output, format_Source source = Ok formatted
     /\ formatSource source = Some (Ok output)
     /\ output = reference formatted (scan formatted) 0
     /\ deblank output = deblank formatted /\ (length output <= length formatted)%nat.
Proof.
  unfold formatSource. destruct (format_Source source) as [formatted|err] eqn:Hf; [right|left; eauto].
  destruct (collapse_spec formatted (scan formatted) 0 0 []) as (out & Hout & Hde & Hlen);
    [apply scan_spec|lia|lia|by left|done|done|].
  exists formatted, out. rewrite Hout. split_and!; [done..| |done|done].
  rewrite (collapse_reference formatted (scan formatted) 0 0 [] (scan_spec _) 0) in Hout
    by (lia || by left). by injection Hout as <-.
Qed.

(** The entries a run formats. *)
Definition go_file (e : entry) : bool := en_regular e && String.eqb (Ext (en_path e)) ".go".

(** A file that is as it should be. *)
Definition formatted_file (e : entry) : Prop :=
  go_file e = true ->
  exists source, en_ReadFile e = Ok source /\ formatSource source = Some (Ok source).

Lemma visit_spec write e p :
  exists o p', visit write e p = Some (o, p')
  /\ (write = false -> pr_written p' = pr_written p)
  /\ (pr_changed p = true -> pr_changed p' = true)
  /\ (o = None -> pr_changed p' = false -> formatted_file e).
Proof.
  unfold visit, formatted_file, go_file. destruct (en_walkErr e); [by eexists _, _|].
  destruct (en_regular e); cbn [negb orb andb]; [|by eexists _, _].
  destruct (String.eqb (Ext (en_path e)) ".go"); cbn [negb]; [|by eexists _, _].
  destruct (en_ReadFile e) as [source|err]; [|by eexists _, _].
  destruct (formatSource_total source) as [(err & -> & _)|(formatted & out & _ & Hs & _ & _)];
    [by eexists _, _|]. rewrite Hs. case_bool_decide as Heq.
  { eexists _, _. split_and!; [done..|]. intros _ _ _. exists source. by rewrite Hs, <- Heq. }
  destruct write; [|by eexists _, _].
  destruct (en_Info e); [by eexists _, _|]. by destruct (en_WriteFile e); eexists _, _.
Qed.

Lemma walk_spec write entries : forall p,
  exists o p', walk write entries p = Some (o, p')
  /\ (write = false -> pr_written p' = pr_written p)
  /\ (pr_changed p = true -> pr_changed p' = true)
  /\ (o = None -> pr_changed p' = false -> Forall formatted_file entries).
Proof.
  induction entries as [|e entries IH]; intros p; [by eexists _, _|]. cbn [walk].
  destruct (visit_spec write e p) as (o & p1 & -> & Hw & Hc & Hf).
  destruct o as [err|]; [by eexists _, _|].
  destruct (IH p1) as (o' & p' & -> & Hw' & Hc' & Hf'). eexists _, _. split; [done|].
  split_and!; [intros Hn; by rewrite Hw', Hw|auto|].
  intros -> Hno. constructor; [|by apply Hf']. apply Hf; [done|].
  destruct (pr_changed p1); [|done]. by rewrite Hc' in Hno.
Qed.

Lemma run_spec write roots : forall p,
  exists o p', run roots write p = Some (o, p')
  /\ (write = false -> pr_written p' = pr_written p)
  /\ (pr_changed p = true -> pr_changed p' = true)
  /\ (o = None -> pr_changed p' = false -> Forall (Forall formatted_file) roots).
Proof.
  induction roots as [|entries roots IH]; intros p; [by eexists _, _|]. cbn [run].
  destruct (walk_spec write entries p) as (o & p1 & -> & Hw & Hc & Hf).
  destruct o as [err|]; [by eexists _, _|].
  destruct (IH p1) as (o' & p' & -> & Hw' & Hc' & Hf'). eexists _, _. split; [done|].
  split_and!; [intros Hn; by rewrite Hw', Hw|auto|].
  intros -> Hno. constructor; [|by apply Hf']. apply Hf; [done|].
  destruct (pr_changed p1); [|done]. by rewrite Hc' in Hno.
Qed.

(** ** The properties *)

(** C39. Formatting keeps the code: the tool never slices out of range; what it
    makes of a formatted source is that source segment by segment, with the
    blanks before a token on its line replaced by one space, and differs from
    it in blanks only. *)
Theorem formatting_keeps_code source :
  (exists err, format_Source source = Err err /\ formatSource source = Some (Err err))
  \/ exists formatted output,
       format_Source source = Ok formatted /\ formatSource source = Some (Ok output)
       /\ output = reference formatted (scan formatted) 0
       /\ deblank output = deblank formatted /\ (length output <= length formatted)%nat.
Proof. destruct (formatSource_total source) as [(err & ? & ?)|]; [left; by exists err|by right]. Qed.

(** C40. A check that passes means formatted files: without [-w] the tool ends
    and writes nothing; it exits with 0 only if it visited every entry and
    every Go file among them is left as it is by [formatSource]. *)
Theorem passing_check_means_formatted roots :
  exists status p, main roots false = Some (status, p) /\ pr_written p = []
  /\ (status = 0%Z -> roots <> [] /\ Forall (Forall formatted_file) roots).
Proof.
  unfold main. destruct roots as [|entries roots]; [by eexists _, _|].
  destruct (run_spec false (entries :: roots) (mk_progress false [] []))
    as (o & p & -> & Hw & _ & Hf).
  destruct o as [err|]; eexists _, _; (split; [done|]); (split; [by apply Hw|]); [done|].
  rewrite andb_true_r. destruct (pr_changed p) eqn:Hc; [done|]. intros _.
  split; [done|]. by apply Hf.
Qed.
End Runs.

(** ** A toolchain to compute with *)

Module DemoToolchain.

(** Every character that is no blank is a token. *)
Fixpoint tokens_from (i : nat) (b : bytes) : list token :=
  match b with
  | [] => []
  | c :: rest => if blank c then tokens_from (S i) rest else mk_token i false :: tokens_from (S i) rest
  end.

#[export] Instance toolchain : GoToolchain := {
  format_Source := Ok;
  scan := tokens_from 0;
}.

Lemma tokens_ok (formatted b : bytes) : forall i low,
  drop i formatted = b -> (low <= i)%nat -> starts_ok formatted low (tokens_from i b) = true.
Proof.
  induction b as [|c b IH]; intros i low Hd Hl; [done|]. cbn [tokens_from].
  assert (Hc : formatted !! i = Some c).
  { pose proof (lookup_drop formatted i 0) as Hi. by rewrite Hd, Nat.add_0_r in Hi. }
  assert (Hrest : drop (S i) formatted = b).
  { rewrite <- Nat.add_1_r, <- drop_drop, Hd. done. }
  destruct (blank c) eqn:Hb; [apply IH; [done|lia]|].
  cbn [starts_ok tk_inserted tk_offset]. rewrite Hc, Hb, (proj2 (Nat.leb_le _ _) Hl).
  cbn [andb negb]. by apply IH.
Qed.

#[export] Instance toolchain_spec : GoToolchainSpec.
Proof. split. intros formatted. by apply tokens_ok. Defined.
End DemoToolchain.

#[local] Existing Instances DemoToolchain.toolchain DemoToolchain.toolchain_spec.

Definition aligned : bytes := String.list_ascii_of_string "x   int".

Lemma formatting_keeps_code_witness :
  exists output, formatSource aligned = Some (Ok output)
  /\ output = String.list_ascii_of_string "x int" /\ deblank output = deblank aligned.
Proof.
  destruct (formatting_keeps_code aligned) as [(err & Hf & _)|(formatted & output & [= <-] & Hs & Ho & Hd & _)];
    [discriminate Hf|].
  exists output. split; [exact Hs|]. split; [rewrite Ho; reflexivity|exact Hd].
Defined.

(** One Go file that is formatted, and one that is not. *)
Definition demo_entry (path : string) (source : bytes) : entry :=
  mk_entry path None true (Ok source) None None None.

Lemma passing_check_means_formatted_witness :
  (exists p, main [[demo_entry "a.go" (String.list_ascii_of_string "x int")]] false = Some (0%Z, p)
             /\ formatted_file (demo_entry "a.go" (String.list_ascii_of_string "x int")))
  /\ exists p, main [[demo_entry "b.go" aligned]] false = Some (1%Z, p).
Proof.
  split.
  - destruct (passing_check_means_formatted
      [[demo_entry "a.go" (String.list_ascii_of_string "x int")]]) as (st & p & Hm & _ & Hf).
    assert (st = 0%Z) as -> by (vm_compute in Hm; congruence).
    exists p. split; [exact Hm|]. destruct (Hf eq_refl) as [_ Hall].
    apply Forall_inv in Hall. by apply Forall_inv in Hall.
  - eexists. vm_compute. reflexivity.
Defined.
End FormatGo.
