(* ===== verification/Domain.v ===== *)
(** * [internal/domain/domain.go]: the data every component shares *)

From stdpp Require Import base strings list.
From Stdlib Require Import ZArith Lia.
From S2P Require Import Prelude GoStrings Sha256 Runtime.

Open Scope Z_scope.

(** ** String enumerations: open types in Go, closed by the schema's CHECKs *)

Definition TransactionPending : string := "PENDING".
Definition TransactionAuthorized : string := "AUTHORIZED".
Definition TransactionFailed : string := "FAILED".

Definition TransactionPayment : string := "PAYMENT".
Definition TransactionDeposit : string := "DEPOSIT".

Definition RiskLow : string := "LOW".
Definition RiskHigh : string := "HIGH".

Definition EventTransactionCreated : string := "TransactionCreated".
Definition EventRiskEvaluated : string := "RiskEvaluated".
Definition EventTransactionAuthorized : string := "TransactionAuthorized".
Definition EventTransactionFailed : string := "TransactionFailed".
Definition EventFundsDeposited : string := "FundsDeposited".

Definition OutboxPending : string := "PENDING".
Definition OutboxProcessing : string := "PROCESSING".
Definition OutboxPublished : string := "PUBLISHED".
Definition OutboxDeadLettered : string := "DEAD_LETTERED".

(** ** Risk *)

Record RiskEvaluation := mk_RiskEvaluation {
  re_Level : string;
  re_Approved : bool;
  re_Reason : string;
}.

Definition EvaluateRisk (amountCents : Z) : RiskEvaluation :=
  if 50000 <? amountCents
  then mk_RiskEvaluation RiskHigh false "amount is greater than 500.00"
  else mk_RiskEvaluation RiskLow true "amount is at or below 500.00".

(** ** Records *)

Record Transaction := mk_Transaction {
  tx_ID : string;
  tx_Kind : string;
  tx_AccountID : string;
  tx_MerchantID : string;
  tx_FundingSource : string;
  tx_ExternalRef : string;
  tx_AmountCents : Z;
  tx_Currency : string;
  tx_Status : string;
  tx_RiskLevel : string;
  tx_RiskReason : string;
  tx_CorrelationID : string;
  tx_CreatedAt : Z;
  tx_UpdatedAt : Z;
}.

Record OutboxEvent := mk_OutboxEvent {
  ev_ID : string;
  ev_Type : string;
  ev_AggregateID : string;
  ev_PartitionKey : string;
  ev_CorrelationID : string;
  ev_Payload : string;
  ev_Status : string;
  ev_Attempts : Z;
  ev_LastError : string;
  ev_CreatedAt : Z;
}.

Record RiskEvaluated := mk_RiskEvaluated {
  rk_TransactionID : string;
  rk_AccountID : string;
  rk_AmountCents : Z;
  rk_Currency : string;
  rk_RiskLevel : string;
  rk_Approved : bool;
  rk_Reason : string;
  rk_CorrelationID : string;
}.

Record FundsDeposited := mk_FundsDeposited {
  fd_DepositID : string;
  fd_AccountID : string;
  fd_AmountCents : Z;
  fd_Currency : string;
  fd_FundingSource : string;
  fd_ExternalReference : string;
  fd_CorrelationID : string;
}.

#[export] Instance Transaction_eq_dec : EqDecision Transaction.
Proof. solve_decision. Defined.
#[export] Instance OutboxEvent_eq_dec : EqDecision OutboxEvent.
Proof. solve_decision. Defined.
#[export] Instance RiskEvaluated_eq_dec : EqDecision RiskEvaluated.
Proof. solve_decision. Defined.

(** ** Identifiers and events *)

Definition NewID {S} (prefix : string) : M S string :=
  let! bytes := draw in
  ret (prefix +:+ "_" +:+ EncodeToString bytes).

(** The payload is copied in Go; values of this model are never shared. *)
Definition NewOutboxEvent {S} (eventType aggregateID partitionKey correlationID payload : string)
  : M S OutboxEvent :=
  let! id := NewID "evt" in
  let! now := Now in
  ret (mk_OutboxEvent id eventType aggregateID partitionKey correlationID payload
         OutboxPending 0 EmptyString now).

(** ** Lemmas *)

(** The text of the identifier drawn in [w] after [prefix]. *)
Definition id_of (prefix : string) (entropy : Z) : string :=
  prefix +:+ "_" +:+ EncodeToString (be_bytes 16 entropy).

Lemma NewID_run {S} prefix (w : World S) :
  NewID prefix w
  = (Ok (id_of prefix (w_entropy w (w_drawn w))), set_drawn (Datatypes.S (w_drawn w)) w).
Proof. done. Qed.

Lemma NewOutboxEvent_run {S} ty agg key corr payload (w : World S) :
  NewOutboxEvent ty agg key corr payload w
  = (Ok (mk_OutboxEvent (id_of "evt" (w_entropy w (w_drawn w))) ty agg key corr payload
           OutboxPending 0 EmptyString (w_clock w)),
     set_drawn (Datatypes.S (w_drawn w)) w).
Proof. done. Qed.

Lemma framed_NewID S prefix : framed (S := S) (NewID prefix).
Proof. unfold NewID. solve_framed. Qed.
Lemma framed_NewOutboxEvent S ty agg key corr payload :
  framed (S := S) (NewOutboxEvent ty agg key corr payload).
Proof. unfold NewOutboxEvent, NewID. solve_framed. Qed.
#[export] Hint Resolve framed_NewID framed_NewOutboxEvent : framed.

(** Identifiers satisfy the schema's token pattern. *)
Lemma id_of_safe prefix e :
  string_forall safe_char prefix = true -> len prefix <= 95 ->
  safeTokenPattern (id_of prefix e) = true.
Proof.
  intros Hp Hl. unfold safeTokenPattern, id_of.
  rewrite !len_app, !string_forall_app, len_EncodeToString, length_be_bytes, Hp.
  assert (string_forall safe_char (EncodeToString (be_bytes 16 e)) = true) as ->.
  { eapply string_forall_impl; [apply hex_char_safe|].
    apply EncodeToString_hex, be_bytes_bytes. }
  rewrite andb_true_iff, within_iff. split; [|done].
  change (len "_") with 1. assert (0 <= len prefix) by (unfold len; lia). lia.
Qed.

Lemma EvaluateRisk_level amount :
  re_Level (EvaluateRisk amount) = (if re_Approved (EvaluateRisk amount) then RiskLow else RiskHigh).
Proof. unfold EvaluateRisk. by destruct (50000 <? amount). Qed.
