(* ===== verification/GoJson.v ===== *)
(** * [encoding/json] and [time]'s RFC 3339 texts

    A JSON text is scanned into [json] exactly where Go's scanner accepts it
    (string bodies and number literals stay raw, as in Go, and are interpreted
    when they are assigned to a field); [Unmarshal] into a struct is a fold of
    field decoders over the members, with Go's exact-then-folded name match,
    last-duplicate-wins, no-op [null] and error on a type mismatch. *)

From stdpp Require Import base strings list.
From Stdlib Require Import ZArith Lia Ascii DecimalString DecimalFacts DecimalPos DecimalN.
From S2P Require Import Prelude GoStrings.

Open Scope Z_scope.

(** ** Syntax *)

#[warnings="-register-all"] Inductive json :=
| JNull
| JBool (b : bool)
| JNum (literal : string)
| JStr (raw : string)
| JArr (items : list json)
| JObj (members : list (string * json)).

Definition dquote : ascii := chr 0x22.
Definition backslash : ascii := chr 0x5C.

Definition is_ws (c : ascii) : bool :=
  let b := byte_of c in (b =? 0x20) || (b =? 0x09) || (b =? 0x0A) || (b =? 0x0D).

Fixpoint skip_ws (s : string) : string :=
  match s with
  | String c s' => if is_ws c then skip_ws s' else s
  | EmptyString => s
  end.

Definition cons_fst (c : ascii) (o : option (string * string)) : option (string * string) :=
  match o with Some (a, r) => Some (String c a, r) | None => None end.

Definition hex_value (c : ascii) : option Z :=
  let b := byte_of c in
  if within 0x30 b 0x39 then Some (b - 0x30)
  else if within 0x61 b 0x66 then Some (b - 0x57)
  else if within 0x41 b 0x46 then Some (b - 0x37)
  else None.

Definition is_hex (c : ascii) : bool :=
  match hex_value c with Some _ => true | None => false end.

Definition simple_escape (c : ascii) : option Z :=
  let b := byte_of c in
  if b =? 0x22 then Some 0x22 else if b =? 0x5C then Some 0x5C
  else if b =? 0x2F then Some 0x2F else if b =? 0x62 then Some 0x08
  else if b =? 0x66 then Some 0x0C else if b =? 0x6E then Some 0x0A
  else if b =? 0x72 then Some 0x0D else if b =? 0x74 then Some 0x09
  else None.

(** The raw body of a string literal (after the opening quote) and the rest. *)
Fixpoint scan_string (s : string) : option (string * string) :=
  match s with
  | EmptyString => None
  | String c s1 =>
    if Ascii.eqb c dquote then Some (EmptyString, s1)
    else if Ascii.eqb c backslash then
      match s1 with
      | String e s2 =>
        match simple_escape e with
        | Some _ => cons_fst c (cons_fst e (scan_string s2))
        | None =>
          if Ascii.eqb e "u" then
            match s2 with
            | String h1 (String h2 (String h3 (String h4 s3))) =>
              if is_hex h1 && is_hex h2 && is_hex h3 && is_hex h4
              then cons_fst c (cons_fst e (cons_fst h1 (cons_fst h2
                     (cons_fst h3 (cons_fst h4 (scan_string s3))))))
              else None
            | _ => None
            end
          else None
        end
      | EmptyString => None
      end
    else if byte_of c <? 0x20 then None
    else cons_fst c (scan_string s1)
  end.

Definition hex4 (h1 h2 h3 h4 : ascii) : option Z :=
  match hex_value h1, hex_value h2, hex_value h3, hex_value h4 with
  | Some a, Some b, Some c, Some d => Some (4096 * a + 256 * b + 16 * c + d)
  | _, _, _, _ => None
  end.

(** Bytes of a raw body with its escapes resolved; a lone surrogate is U+FFFD. *)
Fixpoint unescape (s : string) : string :=
  match s with
  | EmptyString => EmptyString
  | String c s1 =>
    if Ascii.eqb c backslash then
      match s1 with
      | String e s2 =>
        match simple_escape e with
        | Some b => String (chr b) (unescape s2)
        | None =>
          match s2 with
          | String h1 (String h2 (String h3 (String h4 s3))) =>
            match hex4 h1 h2 h3 h4 with
            | Some r =>
              if within 0xD800 r 0xDFFF then
                match s3 with
                | String b (String u (String g1 (String g2 (String g3 (String g4 s4))))) =>
                  match hex4 g1 g2 g3 g4 with
                  | Some r2 =>
                    if Ascii.eqb b backslash && Ascii.eqb u "u"
                       && within 0xD800 r 0xDBFF && within 0xDC00 r2 0xDFFF
                    then string_of_bytes
                           (encode_rune ((r - 0xD800) * 1024 + (r2 - 0xDC00) + 0x10000))
                         +:+ unescape s4
                    else string_of_bytes (encode_rune rune_error) +:+ unescape s3
                  | None => string_of_bytes (encode_rune rune_error) +:+ unescape s3
                  end
                | _ => string_of_bytes (encode_rune rune_error) +:+ unescape s3
                end
              else string_of_bytes (encode_rune r) +:+ unescape s3
            | None => EmptyString
            end
          | _ => EmptyString
          end
        end
      | EmptyString => EmptyString
      end
    else String c (unescape s1)
  end.

(** The Go string a raw body denotes: invalid UTF-8 is replaced. *)
Definition unquote (raw : string) : string := to_valid_utf8 (unescape raw).

Fixpoint take_digits (s : string) : string * string :=
  match s with
  | String c s' =>
    if is_digit c then let '(d, r) := take_digits s' in (String c d, r)
    else (EmptyString, s)
  | EmptyString => (EmptyString, s)
  end.

Definition nonempty (s : string) : bool :=
  match s with EmptyString => false | _ => true end.

(** The exponent part, when there is one. *)
Definition scan_exponent (s : string) : option (string * string) :=
  match s with
  | String e s1 =>
    if Ascii.eqb e "e" || Ascii.eqb e "E" then
      let '(sign, s2) :=
        match s1 with
        | String c s2 =>
          if Ascii.eqb c "+" || Ascii.eqb c "-" then (String c EmptyString, s2)
          else (EmptyString, s1)
        | EmptyString => (EmptyString, s1)
        end in
      let '(d, r) := take_digits s2 in
      if nonempty d then Some (String e (sign +:+ d), r) else None
    else Some (EmptyString, s)
  | EmptyString => Some (EmptyString, s)
  end.

Definition scan_fraction (s : string) : option (string * string) :=
  match s with
  | String p s1 =>
    if Ascii.eqb p "." then
      let '(d, r) := take_digits s1 in
      if nonempty d then Some (String p d, r) else None
    else Some (EmptyString, s)
  | EmptyString => Some (EmptyString, s)
  end.

(** [0] or a nonempty digit run without a leading zero. *)
Definition scan_int (s : string) : option (string * string) :=
  match s with
  | String c s1 =>
    if Ascii.eqb c "0" then Some (String c EmptyString, s1)
    else let '(d, r) := take_digits s in if nonempty d then Some (d, r) else None
  | EmptyString => None
  end.

Definition scan_number (s : string) : option (string * string) :=
  let '(sign, s1) :=
    match s with
    | String c s1 => if Ascii.eqb c "-" then (String c EmptyString, s1) else (EmptyString, s)
    | EmptyString => (EmptyString, s)
    end in
  match scan_int s1 with
  | Some (i, s2) =>
    match scan_fraction s2 with
    | Some (f, s3) =>
      match scan_exponent s3 with
      | Some (e, s4) => Some (sign +:+ i +:+ f +:+ e, s4)
      | None => None
      end
    | None => None
    end
  | None => None
  end.

Definition maxNestingDepth : Z := 10000.

(** [fuel] bounds the number of values and members; the length of the text is
    enough, since each consumes a byte. *)
Fixpoint scan_value (fuel : nat) (depth : Z) (s : string) {struct fuel}
  : option (json * string) :=
  match fuel with
  | O => None
  | S fuel' =>
    match skip_ws s with
    | EmptyString => None
    | String c s1 as s0 =>
      if Ascii.eqb c "{" then
        if maxNestingDepth <=? depth then None else
        match skip_ws s1 with
        | String d s2 =>
          if Ascii.eqb d "}" then Some (JObj [], s2)
          else match scan_members fuel' (depth + 1) (skip_ws s1) with
               | Some (ms, r) => Some (JObj ms, r)
               | None => None
               end
        | EmptyString => None
        end
      else if Ascii.eqb c "[" then
        if maxNestingDepth <=? depth then None else
        match skip_ws s1 with
        | String d s2 =>
          if Ascii.eqb d "]" then Some (JArr [], s2)
          else match scan_items fuel' (depth + 1) (skip_ws s1) with
               | Some (vs, r) => Some (JArr vs, r)
               | None => None
               end
        | EmptyString => None
        end
      else if Ascii.eqb c dquote then
        match scan_string s1 with Some (raw, r) => Some (JStr raw, r) | None => None end
      else match strip_prefix "true" s0 with Some r => Some (JBool true, r) | None =>
           match strip_prefix "false" s0 with Some r => Some (JBool false, r) | None =>
           match strip_prefix "null" s0 with Some r => Some (JNull, r) | None =>
           match scan_number s0 with Some (n, r) => Some (JNum n, r) | None => None end
           end end end
    end
  end
with scan_members (fuel : nat) (depth : Z) (s : string) {struct fuel}
  : option (list (string * json) * string) :=
  match fuel with
  | O => None
  | S fuel' =>
    match s with
    | String q s1 =>
      if Ascii.eqb q dquote then
        match scan_string s1 with
        | Some (key, r) =>
          match skip_ws r with
          | String col r1 =>
            if Ascii.eqb col ":" then
              match scan_value fuel' depth r1 with
              | Some (v, r2) =>
                match skip_ws r2 with
                | String e r3 =>
                  if Ascii.eqb e "}" then Some ([(key, v)], r3)
                  else if Ascii.eqb e "," then
                    match scan_members fuel' depth (skip_ws r3) with
                    | Some (ms, r4) => Some ((key, v) :: ms, r4)
                    | None => None
                    end
                  else None
                | EmptyString => None
                end
              | None => None
              end
            else None
          | EmptyString => None
          end
        | None => None
        end
      else None
    | EmptyString => None
    end
  end
with scan_items (fuel : nat) (depth : Z) (s : string) {struct fuel}
  : option (list json * string) :=
  match fuel with
  | O => None
  | S fuel' =>
    match scan_value fuel' depth s with
    | Some (v, r) =>
      match skip_ws r with
      | String e r1 =>
        if Ascii.eqb e "]" then Some ([v], r1)
        else if Ascii.eqb e "," then
          match scan_items fuel' depth r1 with
          | Some (vs, r2) => Some (v :: vs, r2)
          | None => None
          end
        else None
      | EmptyString => None
      end
    | None => None
    end
  end.

Definition scan_fuel (s : string) : nat := S (String.length s).

(** A whole text, as [json.Unmarshal] requires. *)
Definition parse (s : string) : option json :=
  match scan_value (scan_fuel s) 0 s with
  | Some (v, r) => if nonempty (skip_ws r) then None else Some v
  | None => None
  end.

(** The first value of a stream, as [json.Decoder.Decode] reads it; what
    follows the value is not looked at. *)
Definition parse_first (s : string) : option json :=
  match scan_value (scan_fuel s) 0 s with Some (v, _) => Some v | None => None end.

(** ** RFC 3339 times: nanoseconds since 0001-01-01T00:00:00Z *)

Definition ns_per_second : Z := 1000000000.
Definition seconds_per_day : Z := 86400.

Definition days_of_civil (y m d : Z) : Z :=
  let y' := if m <=? 2 then y - 1 else y in
  let era := y' / 400 in
  let yoe := y' mod 400 in
  let doy := (153 * (if 2 <? m then m - 3 else m + 9) + 2) / 5 + d - 1 in
  let doe := yoe * 365 + yoe / 4 - yoe / 100 + doy in
  era * 146097 + doe - 306.

Definition civil_of_days (n : Z) : Z * Z * Z :=
  let z := n + 306 in
  let era := z / 146097 in
  let doe := z mod 146097 in
  let yoe := (doe - doe / 1460 + doe / 36524 - doe / 146096) / 365 in
  let doy := doe - (365 * yoe + yoe / 4 - yoe / 100) in
  let mp := (5 * doy + 2) / 153 in
  let d := doy - (153 * mp + 2) / 5 + 1 in
  let m := if mp <? 10 then mp + 3 else mp - 9 in
  ((yoe + era * 400) + (if m <=? 2 then 1 else 0), m, d).

(** [n] decimal digits of [z], most significant first. *)
Fixpoint fixed_digits (n : nat) (z : Z) : string :=
  match n with
  | O => EmptyString
  | S n' => fixed_digits n' (z / 10) +:+ String (chr (0x30 + z mod 10)) EmptyString
  end.

Fixpoint trim_zeros_right (s : string) : string :=
  match s with
  | EmptyString => EmptyString
  | String c s' =>
    match trim_zeros_right s' with
    | EmptyString => if Ascii.eqb c "0" then EmptyString else String c EmptyString
    | r => String c r
    end
  end.

(** [t.Format("...") ] in UTC, with the [seconds] layout's fraction dropped. *)
Definition format_seconds (t : Z) : string :=
  let secs := t / ns_per_second in
  let '(y, m, d) := civil_of_days (secs / seconds_per_day) in
  let sod := secs mod seconds_per_day in
  fixed_digits 4 y +:+ "-" +:+ fixed_digits 2 m +:+ "-" +:+ fixed_digits 2 d +:+ "T"
  +:+ fixed_digits 2 (sod / 3600) +:+ ":" +:+ fixed_digits 2 (sod / 60 mod 60)
  +:+ ":" +:+ fixed_digits 2 (sod mod 60).

(** [time.RFC3339] *)
Definition format_rfc3339 (t : Z) : string := format_seconds t +:+ "Z".

(** [time.RFC3339Nano]: trailing zeros of the fraction are dropped. *)
Definition format_rfc3339_nano (t : Z) : string :=
  let frac := trim_zeros_right (fixed_digits 9 (t mod ns_per_second)) in
  format_seconds t +:+ (if nonempty frac then "." +:+ frac else EmptyString) +:+ "Z".

Definition year_of (t : Z) : Z := (civil_of_days (t / ns_per_second / seconds_per_day)).1.1.

Definition is_leap (y : Z) : bool :=
  (y mod 4 =? 0) && (negb (y mod 100 =? 0) || (y mod 400 =? 0)).

Definition days_in (y m : Z) : Z :=
  if m =? 2 then if is_leap y then 29 else 28
  else if (m =? 4) || (m =? 6) || (m =? 9) || (m =? 11) then 30 else 31.

(** [n] digits forming a number within [lo, hi], and the rest. *)
Fixpoint read_digits (n : nat) (acc : Z) (s : string) : option (Z * string) :=
  match n, s with
  | O, _ => Some (acc, s)
  | S n', String c s' =>
    if is_digit c then read_digits n' (10 * acc + (byte_of c - 0x30)) s' else None
  | S _, EmptyString => None
  end.

Definition read_range (n : nat) (lo hi : Z) (s : string) : option (Z * string) :=
  match read_digits n 0 s with
  | Some (v, r) => if within lo v hi then Some (v, r) else None
  | None => None
  end.

(** Digits after the point; the tenth and later are dropped. *)
Fixpoint read_fraction (scale : Z) (s : string) : Z * string :=
  match s with
  | String c s' =>
    if is_digit c then
      let '(v, r) := read_fraction (scale / 10) s' in
      ((byte_of c - 0x30) * scale + v, r)
    else (0, s)
  | EmptyString => (0, s)
  end.

Definition read_zone (s : string) : option Z :=
  match s with
  | String c s1 =>
    if Ascii.eqb c "Z" then if nonempty s1 then None else Some 0
    else if Ascii.eqb c "+" || Ascii.eqb c "-" then
      match read_range 2 0 23 s1 with
      | Some (hh, r) =>
        match strip_prefix ":" r with
        | Some r1 =>
          match read_range 2 0 59 r1 with
          | Some (mm, EmptyString) =>
            let off := (hh * 60 + mm) * 60 in
            Some (if Ascii.eqb c "-" then - off else off)
          | _ => None
          end
        | None => None
        end
      | None => None
      end
    else None
  | EmptyString => None
  end.

Definition obind {A B} (o : option A) (f : A -> option B) : option B :=
  match o with Some a => f a | None => None end.

(** [time.Time.UnmarshalJSON] on the raw text within the quotes. *)
Definition parse_rfc3339 (s : string) : option Z :=
  obind (read_range 4 0 9999 s) (fun '(y, s) =>
  obind (strip_prefix "-" s) (fun s =>
  obind (read_range 2 1 12 s) (fun '(m, s) =>
  obind (strip_prefix "-" s) (fun s =>
  obind (read_range 2 1 (days_in y m) s) (fun '(d, s) =>
  obind (strip_prefix "T" s) (fun s =>
  obind (read_range 2 0 23 s) (fun '(hh, s) =>
  obind (strip_prefix ":" s) (fun s =>
  obind (read_range 2 0 59 s) (fun '(mi, s) =>
  obind (strip_prefix ":" s) (fun s =>
  obind (read_range 2 0 59 s) (fun '(ss, s) =>
  let '(ns, s) :=
    match s with
    | String p (String c _ as s1) =>
      if Ascii.eqb p "." && is_digit c then read_fraction 100000000 s1 else (0, s)
    | _ => (0, s)
    end in
  obind (read_zone s) (fun off =>
  Some ((days_of_civil y m d * seconds_per_day + hh * 3600 + mi * 60 + ss - off)
        * ns_per_second + ns))))))))))))).

(** ** Decoding into structs *)

Definition fold_byte (b : Z) : Z := if within 0x61 b 0x7A then b - 32 else b.

(** [foldName] as far as ASCII field names can tell: letters fold to upper
    case, and so do U+017F (long s) and U+212A (Kelvin). *)
Definition fold_rune (r : Z) : Z :=
  if r =? 0x17F then 0x53 else if r =? 0x212A then 0x4B else fold_byte r.

Definition same_folded (a b : string) : bool :=
  bool_decide (map fold_rune (runes a) = map fold_rune (runes b)).

Definition set_string (cur : string) (v : json) : option string :=
  match v with JStr raw => Some (unquote raw) | JNull => Some cur | _ => None end.
Definition set_int64 (cur : Z) (v : json) : option Z :=
  match v with JNum lit => ParseInt lit | JNull => Some cur | _ => None end.
Lemma set_int64_range cur v z :
  in_int64 cur = true -> set_int64 cur v = Some z -> in_int64 z = true.
Proof. destruct v; cbn; intros Hc Hz; try done; [by injection Hz as <-|by eapply ParseInt_range]. Qed.

Definition set_bool (cur : bool) (v : json) : option bool :=
  match v with JBool b => Some b | JNull => Some cur | _ => None end.
Definition set_time (cur : Z) (v : json) : option Z :=
  match v with JStr raw => parse_rfc3339 raw | JNull => Some cur | _ => None end.

Section Struct.
Context {A : Type}.

(** A struct type: its JSON field names with the assignment of each. *)
Definition struct := list (string * (A -> json -> option A)).

Fixpoint find_exact (fs : struct) (key : string) : option (A -> json -> option A) :=
  match fs with
  | [] => None
  | (n, f) :: fs' => if String.eqb n key then Some f else find_exact fs' key
  end.

Fixpoint find_folded (fs : struct) (key : string) : option (A -> json -> option A) :=
  match fs with
  | [] => None
  | (n, f) :: fs' => if same_folded n key then Some f else find_folded fs' key
  end.

Definition find_field (fs : struct) (key : string) : option (A -> json -> option A) :=
  match find_exact fs key with Some f => Some f | None => find_folded fs key end.

(** [strict]: [DisallowUnknownFields]. *)
Fixpoint assign_members (fs : struct) (strict : bool) (a : A) (ms : list (string * json))
  : option A :=
  match ms with
  | [] => Some a
  | (k, v) :: ms' =>
    match find_field fs (unquote k) with
    | Some f =>
      match f a v with Some a' => assign_members fs strict a' ms' | None => None end
    | None => if strict then None else assign_members fs strict a ms'
    end
  end.

Definition decode_struct (fs : struct) (strict : bool) (zero : A) (v : json) : option A :=
  match v with
  | JObj ms => assign_members fs strict zero ms
  | JNull => Some zero
  | _ => None
  end.

(** What every assignment keeps, decoding keeps. *)
Section Kept.
Context (P : A -> Prop) (fs : struct).
Hypothesis fields_keep : Forall (fun f => forall a v a', P a -> f.2 a v = Some a' -> P a') fs.

Lemma find_field_keeps key f a v a' :
  find_field fs key = Some f -> P a -> f a v = Some a' -> P a'.
Proof using fields_keep.
  unfold find_field. intros Hf Ha Hv.
  assert (Hin : exists n, In (n, f) fs).
  { clear fields_keep. destruct (find_exact fs key) as [g|] eqn:He.
    - injection Hf as ->. revert He. induction fs as [|[n g] fs' IH]; cbn; [done|].
      case_match; [intros [= ->]; eauto|]. intros [m ?]%IH. eauto.
    - clear He. revert Hf. induction fs as [|[n g] fs' IH]; cbn; [done|].
      case_match; [intros [= ->]; eauto|]. intros [m ?]%IH. eauto. }
  destruct Hin as [n Hin]. rewrite List.Forall_forall in fields_keep.
  by apply (fields_keep _ Hin a v).
Qed.

Lemma decode_struct_keeps strict zero v a :
  P zero -> decode_struct fs strict zero v = Some a -> P a.
Proof using fields_keep.
  destruct v as [| | | | |ms]; cbn; try done; [by intros ? [= <-]|].
  revert zero. induction ms as [|[k v] ms IH]; intros a0 Ha0; cbn; [by intros [= <-]|].
  destruct (find_field fs (unquote k)) as [f|] eqn:Hf.
  - destruct (f a0 v) as [a1|] eqn:Hv; [|done]. apply IH. by eapply find_field_keeps.
  - case_match; [done|]. by apply IH.
Qed.
End Kept.
End Struct.
Arguments struct A : clear implicits.

(** ** Encoding *)

Definition hex_lower (n : Z) : ascii := chr (if n <? 10 then 0x30 + n else 0x57 + n).

Definition unicode_escape (r : Z) : string :=
  String backslash (String "u"
    (String (hex_lower (Z.land (Z.shiftr r 12) 15)) (String (hex_lower (Z.land (Z.shiftr r 8) 15))
      (String (hex_lower (Z.land (Z.shiftr r 4) 15)) (String (hex_lower (Z.land r 15)) EmptyString))))).

(** One rune of [appendString] with HTML escaping on. *)
Definition escape_rune (rv : Z * bool) : string :=
  let '(r, valid) := rv in
  let esc c := String backslash (String c EmptyString) in
  if negb valid then unicode_escape rune_error
  else if r =? 0x22 then esc dquote
  else if r =? 0x5C then esc backslash
  else if r =? 0x08 then esc "b"%char else if r =? 0x0C then esc "f"%char
  else if r =? 0x0A then esc "n"%char else if r =? 0x0D then esc "r"%char
  else if r =? 0x09 then esc "t"%char
  else if (r <? 0x20) || (r =? 0x3C) || (r =? 0x3E) || (r =? 0x26)
          || (r =? 0x2028) || (r =? 0x2029) then unicode_escape r
  else string_of_bytes (encode_rune r).

Definition quote (body : string) : string := String dquote (body +:+ String dquote EmptyString).

Definition escape (s : string) : string := fold_right (fun rv t => escape_rune rv +:+ t) EmptyString (decode_runes s).

Definition encode_string (s : string) : string := quote (escape s).
Definition encode_bool (b : bool) : string := if b then "true" else "false".

(** A member [name:value] whose value is already encoded. *)
Definition encode_member (nv : string * string) : string :=
  quote (nv.1) +:+ ":" +:+ nv.2.

Definition encode_object (ms : list (string * string)) : string :=
  "{" +:+ Join (map encode_member ms) "," +:+ "}".

Definition encode_array (texts : list string) : string := "[" +:+ Join texts "," +:+ "]".

(** A field with [omitempty]. *)
Definition omitempty (name value : string) : list (string * string) :=
  if nonempty value then [(name, encode_string value)] else [].

(** ** Round trips

    Identifiers, currencies, statuses and the fixed reasons are [plain]: Go
    writes them between quotes unchanged and reads them back unchanged. *)

Definition plain_char (c : ascii) : bool :=
  let b := byte_of c in
  within 0x20 b 0x7E && negb (b =? 0x22) && negb (b =? 0x5C)
  && negb (b =? 0x3C) && negb (b =? 0x3E) && negb (b =? 0x26).

Definition plain (s : string) : bool := string_forall plain_char s.

Lemma safe_char_plain c : safe_char c = true -> plain_char c = true.
Proof. revert c. apply implb_bytes. vm_compute. done. Qed.

Lemma plain_char_ascii c : plain_char c = true -> is_ascii c = true.
Proof. revert c. apply implb_bytes. vm_compute. done. Qed.

Definition ordinary_char (c : ascii) : bool :=
  negb (Ascii.eqb c dquote) && negb (Ascii.eqb c backslash) && negb (byte_of c <? 0x20).

Lemma plain_char_ordinary c : plain_char c = true -> ordinary_char c = true.
Proof. revert c. apply implb_bytes. vm_compute. done. Qed.

Lemma plain_char_escape c :
  plain_char c = true -> escape_rune (byte_of c, true) = String c EmptyString.
Proof.
  intros Hc. apply String.eqb_eq. revert c Hc. apply implb_bytes. vm_compute. done.
Qed.

Lemma safe_plain s : string_forall safe_char s = true -> plain s = true.
Proof. apply string_forall_impl, safe_char_plain. Qed.

Lemma safeToken_plain s : safeTokenPattern s = true -> plain s = true.
Proof. intros Hs. by apply safe_plain, safeToken_chars. Qed.

Lemma currency_plain s : currencyPattern s = true -> plain s = true.
Proof. intros Hs. by apply safe_plain, currency_safe_chars. Qed.

Lemma plain_ascii s : plain s = true -> string_forall is_ascii s = true.
Proof. apply string_forall_impl, plain_char_ascii. Qed.

Lemma plain_app s t : plain (s +:+ t) = plain s && plain t.
Proof. apply string_forall_app. Qed.

Lemma escape_plain s : plain s = true -> escape s = s.
Proof.
  unfold plain, escape. induction s as [|c s IH]; [done|].
  cbn [string_forall]. rewrite andb_true_iff. intros [Hc Hs].
  cbn [decode_runes]. pose proof (plain_char_ascii c Hc) as Ha.
  unfold is_ascii in Ha. rewrite Ha. cbn [fold_right].
  rewrite plain_char_escape, IH by done. done.
Qed.

Lemma scan_string_plain s rest :
  plain s = true -> scan_string (s +:+ String dquote rest) = Some (s, rest).
Proof.
  unfold plain. induction s as [|c s IH]; [done|].
  cbn [string_forall]. rewrite andb_true_iff. intros [Hc Hs].
  rewrite app_cons_string. cbn [scan_string].
  apply plain_char_ordinary in Hc. unfold ordinary_char in Hc. destruct_bools.
  rewrite H, H1, H0, IH by done. done.
Qed.

Lemma unescape_plain s : plain s = true -> unescape s = s.
Proof.
  unfold plain. induction s as [|c s IH]; [done|].
  cbn [string_forall]. rewrite andb_true_iff. intros [Hc Hs]. cbn [unescape].
  apply plain_char_ordinary in Hc. unfold ordinary_char in Hc. destruct_bools.
  rewrite H1, IH by done. done.
Qed.

Lemma unquote_plain s : plain s = true -> unquote s = s.
Proof.
  intros Hs. unfold unquote. rewrite unescape_plain by done.
  apply String.eqb_eq. apply (valid_utf8_ascii s), plain_ascii, Hs.
Qed.

(** *** Scalars before a comma, a closing brace or bracket *)

Definition closes (rest : string) : bool :=
  match rest with
  | String c _ => Ascii.eqb c "," || Ascii.eqb c "}" || Ascii.eqb c "]"
  | EmptyString => false
  end.

(** [text] is scanned as the value [v], whatever closes it. *)
Definition scans (text : string) (v : json) : Prop :=
  forall fuel depth rest, closes rest = true ->
  scan_value (S fuel) depth (text +:+ rest) = Some (v, rest).

Lemma scans_string s : plain s = true -> scans (encode_string s) (JStr s).
Proof.
  intros Hs fuel depth rest _. unfold encode_string, quote. rewrite escape_plain by done.
  rewrite app_cons_string, app_assoc_string. cbn [scan_value].
  change (skip_ws (String dquote ?t)) with (String dquote t).
  change (Ascii.eqb dquote "{") with false. change (Ascii.eqb dquote "[") with false.
  change (Ascii.eqb dquote dquote) with true. cbn iota.
  rewrite app_cons_string, app_nil_l_string, scan_string_plain by done. done.
Qed.

Lemma scans_null : scans "null" JNull.
Proof. intros fuel depth rest Hrest. cbn. destruct rest; done. Qed.

Lemma scans_bool b : scans (encode_bool b) (JBool b).
Proof.
  intros fuel depth rest Hrest. destruct b; cbn; destruct rest; done.
Qed.

Lemma take_digits_app d rest :
  string_forall is_digit d = true ->
  match rest with String c _ => negb (is_digit c) | EmptyString => true end = true ->
  take_digits (d +:+ rest) = (d, rest).
Proof.
  intros Hd Hr. induction d as [|c d IH].
  - rewrite app_nil_l_string. destruct rest as [|c r]; [done|]. cbn.
    apply negb_true_iff in Hr. by rewrite Hr.
  - cbn [string_forall] in Hd. apply andb_true_iff in Hd as [Hc Hd].
    rewrite app_cons_string. cbn [take_digits]. rewrite Hc, IH by done. done.
Qed.

Lemma closes_head rest :
  closes rest = true ->
  exists c r, rest = String c r /\ is_digit c = false /\ Ascii.eqb c "." = false
    /\ Ascii.eqb c "e" = false /\ Ascii.eqb c "E" = false.
Proof.
  destruct rest as [|c r]; [done|]. cbn. rewrite !orb_true_iff, !Ascii.eqb_eq.
  intros [[->| ->]| ->]; eauto 10.
Qed.

(** The digits of a positive number do not start with a zero. *)
Lemma pos_digits p :
  exists c s, NilEmpty.string_of_uint (Pos.to_uint p) = String c s
    /\ is_digit c = true /\ Ascii.eqb c "0" = false /\ string_forall is_digit s = true.
Proof.
  pose proof (string_of_uint_digits (Pos.to_uint p)) as Hd.
  assert (Hnz : forall u, Pos.to_uint p <> Decimal.D0 u).
  { intros u Hu.
    pose proof (DecimalN.Unsigned.of_to (N.pos p)) as Hof.
    change (N.to_uint (N.pos p)) with (Pos.to_uint p) in Hof.
    pose proof (DecimalN.Unsigned.to_of (Pos.to_uint p)) as Hto.
    rewrite Hof in Hto. change (N.to_uint (N.pos p)) with (Pos.to_uint p) in Hto.
    rewrite Hu in Hto, Hof.
    unfold Decimal.unorm in Hto. cbn in Hto.
    destruct (Decimal.nzhead u) eqn:E; simplify_eq; try done.
    by eapply DecimalFacts.nzhead_nonzero. }
  pose proof (pos_to_uint_nonnil p) as Hnil.
  destruct (Pos.to_uint p) as [|u|u|u|u|u|u|u|u|u|u] eqn:E; [done|by destruct (Hnz u)|..];
    cbn in Hd |- *; eexists _, _; (split; [reflexivity|]); done.
Qed.

Lemma scan_fraction_closes rest :
  closes rest = true -> scan_fraction rest = Some (EmptyString, rest).
Proof.
  intros (c & r & -> & _ & Hp & _)%closes_head. cbn. by rewrite Hp.
Qed.

Lemma scan_exponent_closes rest :
  closes rest = true -> scan_exponent rest = Some (EmptyString, rest).
Proof.
  intros (c & r & -> & _ & _ & He & HE)%closes_head. cbn. by rewrite He, HE.
Qed.

Lemma scan_int_pos p rest :
  closes rest = true ->
  scan_int (NilEmpty.string_of_uint (Pos.to_uint p) +:+ rest)
  = Some (NilEmpty.string_of_uint (Pos.to_uint p), rest).
Proof.
  intros Hr. destruct (pos_digits p) as (c & s & -> & Hc & H0 & Hs).
  rewrite app_cons_string. cbn [scan_int]. rewrite H0, <- app_cons_string.
  rewrite take_digits_app; [done| |].
  - cbn. by rewrite Hc.
  - destruct (closes_head _ Hr) as (c' & r & -> & Hd & _). by rewrite Hd.
Qed.

Lemma scan_number_int z rest :
  closes rest = true -> scan_number (FormatInt z +:+ rest) = Some (FormatInt z, rest).
Proof.
  intros Hr. destruct z as [|p|p].
  - change (FormatInt 0) with (String "0" EmptyString).
    rewrite app_cons_string, app_nil_l_string. unfold scan_number. cbn.
    by rewrite scan_fraction_closes, scan_exponent_closes by done.
  - rewrite FormatInt_nonneg. unfold scan_number.
    pose proof (scan_int_pos p rest Hr) as Hi.
    destruct (pos_digits p) as (c & s & Hps & Hc & _). rewrite Hps in *.
    rewrite app_cons_string in *. destruct (digit_not_sign c Hc) as [-> _].
    rewrite Hi, scan_fraction_closes, scan_exponent_closes by done.
    by rewrite !app_nil_r_string.
  - rewrite FormatInt_neg. unfold scan_number. rewrite app_cons_string.
    change (Ascii.eqb "-" "-") with true. cbn iota beta.
    rewrite scan_int_pos, scan_fraction_closes, scan_exponent_closes by done.
    by rewrite !app_nil_r_string.
Qed.

Definition numeric_head (c : ascii) : bool := is_digit c || Ascii.eqb c "-".

Lemma numeric_head_cases c :
  numeric_head c = true ->
  is_ws c = false /\ Ascii.eqb c "{" = false /\ Ascii.eqb c "[" = false
  /\ Ascii.eqb c dquote = false /\ Ascii.eqb "t" c = false /\ Ascii.eqb "f" c = false
  /\ Ascii.eqb "n" c = false.
Proof.
  intros Hc.
  assert (Hall : implb (numeric_head c)
    (negb (is_ws c) && negb (Ascii.eqb c "{") && negb (Ascii.eqb c "[")
     && negb (Ascii.eqb c dquote) && negb (Ascii.eqb "t" c) && negb (Ascii.eqb "f" c)
     && negb (Ascii.eqb "n" c)) = true).
  { revert c Hc. intros c _. revert c. apply by_bytes. vm_compute. done. }
  rewrite Hc in Hall. cbn in Hall. by destruct_bools.
Qed.

Lemma FormatInt_head z : exists c s, FormatInt z = String c s /\ numeric_head c = true.
Proof.
  destruct z as [|p|p]; [by eexists _, _| |].
  - rewrite FormatInt_nonneg. destruct (pos_digits p) as (c & s & -> & Hc & _).
    eexists _, _. split; [done|]. unfold numeric_head. by rewrite Hc.
  - rewrite FormatInt_neg. by eexists _, _.
Qed.

Lemma scans_int z : scans (FormatInt z) (JNum (FormatInt z)).
Proof.
  intros fuel depth rest Hr. pose proof (scan_number_int z rest Hr) as Hn.
  destruct (FormatInt_head z) as (c & s & Hz & Hc). rewrite Hz in *.
  destruct (numeric_head_cases c Hc) as (Hw & H1 & H2 & H3 & H4 & H5 & H6).
  rewrite app_cons_string in *. cbn [scan_value skip_ws]. rewrite Hw, H1, H2, H3.
  cbn [strip_prefix]. rewrite H4, H5, H6, Hn. done.
Qed.

(** *** Objects *)

(** Members with their encoded and scanned values. *)
Definition member := (string * string * json)%type.
Definition member_text (m : member) : string * string := m.1.
Definition member_json (m : member) : string * json := (m.1.1, m.2).
Definition member_ok (m : member) : Prop := plain m.1.1 = true /\ scans m.1.2 m.2.

Lemma scan_members_encode ms fuel depth rest :
  ms <> [] -> Forall member_ok ms -> (length ms < fuel)%nat ->
  scan_members fuel depth
    (Join (map (fun m => encode_member (member_text m)) ms) "," +:+ "}" +:+ rest)
  = Some (map member_json ms, rest).
Proof.
  intros Hne Hok. revert fuel. induction Hok as [|[[k t] v] ms [Hk Hv] Hok IH]; [done|].
  intros fuel Hf. destruct fuel as [|fuel]; [lia|]. destruct fuel as [|fuel]; [cbn in Hf; lia|].
  assert (Hstep : forall tl, closes tl = true ->
    scan_members (S (S fuel)) depth (encode_member (k, t) +:+ tl)
    = match skip_ws tl with
      | String e r3 =>
        if Ascii.eqb e "}" then Some ([(k, v)], r3)
        else if Ascii.eqb e "," then
          match scan_members (S fuel) depth (skip_ws r3) with
          | Some (l, r4) => Some ((k, v) :: l, r4)
          | None => None
          end
        else None
      | EmptyString => None
      end).
  { intros tl Htl. unfold encode_member, quote, fst, snd.
    cbn in Hk, Hv. rewrite !app_cons_string, !app_assoc_string.
    cbn [scan_members]. change (Ascii.eqb dquote dquote) with true. cbn iota.
    rewrite app_cons_string, scan_string_plain by done.
    rewrite app_nil_l_string. rewrite !app_cons_string, app_nil_l_string.
    change (skip_ws (String ":" ?t)) with (String ":" t). cbn iota beta.
    change (Ascii.eqb ":" ":") with true. cbn iota.
    rewrite Hv by done. done. }
  destruct ms as [|m ms].
  - cbn [map Join]. unfold member_text at 1, fst at 1. rewrite Hstep by done. done.
  - cbn [map]. cbn [Join]. rewrite !app_assoc_string. unfold member_text at 1, fst at 1.
    rewrite Hstep by done.
    change (skip_ws ("," +:+ ?t)) with (String "," t). cbn iota beta.
    change (Ascii.eqb "," "}") with false. change (Ascii.eqb "," ",") with true. cbn iota.
    assert (Hws : forall m' tl, skip_ws (encode_member m' +:+ tl) = encode_member m' +:+ tl) by done.
    assert (Hj : forall tl, skip_ws (Join (map (fun m => encode_member (member_text m)) (m :: ms)) "," +:+ tl)
      = Join (map (fun m => encode_member (member_text m)) (m :: ms)) "," +:+ tl).
    { intros tl. cbn [map Join]. destruct ms; cbn [map]; rewrite ?app_assoc_string; apply Hws. }
    rewrite Hj. cbn [length] in Hf. rewrite IH; [done|done|cbn; lia].
Qed.

Lemma length_Join_members (l : list (string * string)) :
  (length l <= String.length (Join (map encode_member l) ","))%nat.
Proof.
  induction l as [|m l IH]; [cbn; lia|].
  assert (1 <= String.length (encode_member m))%nat.
  { unfold encode_member, quote. rewrite !app_cons_string. cbn [String.length]. lia. }
  destruct l as [|m' l]; [cbn [length map Join] in *; lia|].
  cbn [map Join] in *. rewrite !string_length_app. cbn [length] in *.
  change (String.length ",") with 1%nat. lia.
Qed.

Lemma scan_value_object fuel depth tl r :
  (maxNestingDepth <=? depth) = false -> tl = String dquote r ->
  scan_value (S fuel) depth (String "{" tl)
  = match scan_members fuel (depth + 1) tl with
    | Some (ms, rest) => Some (JObj ms, rest)
    | None => None
    end.
Proof. intros Hd ->. cbn [scan_value]. by rewrite Hd. Qed.

(** What [json.Unmarshal] scans from a marshalled flat object. *)
Lemma parse_encode_object ms :
  ms <> [] -> Forall member_ok ms ->
  parse (encode_object (map member_text ms)) = Some (JObj (map member_json ms)).
Proof.
  intros Hne Hok. unfold parse, encode_object.
  set (body := Join (map encode_member (map member_text ms)) ",").
  assert (Hlen : (length ms <= String.length body)%nat).
  { unfold body. rewrite <- (length_map member_text ms). apply length_Join_members. }
  assert (Hhead : forall tl, exists r, body +:+ tl = String dquote r).
  { intros tl. unfold body. destruct ms as [|m ms]; [done|]. cbn [map Join].
    destruct ms; cbn [map]; eexists; rewrite ?app_assoc_string; done. }
  destruct (Hhead "}") as [r Hr].
  unfold scan_fuel. rewrite app_cons_string, app_nil_l_string. cbn [String.length].
  rewrite string_length_app, (scan_value_object _ _ _ r) by done.
  pose proof (scan_members_encode ms (S (String.length body + 1)) (0 + 1) EmptyString Hne Hok) as Hs.
  rewrite app_nil_r_string in Hs. change (String.length "}") with 1%nat.
  unfold body in *. rewrite map_map in *. rewrite Hs by lia. done.
Qed.

(** *** Arrays of objects *)

Definition members_text (ms : list member) : string := encode_object (map member_text ms).
Definition members_json (ms : list member) : json := JObj (map member_json ms).
Definition object_ok (ms : list member) : Prop := ms <> [] /\ Forall member_ok ms.

Lemma members_head ms tl :
  ms <> [] -> exists r, Join (map encode_member (map member_text ms)) "," +:+ tl = String dquote r.
Proof.
  destruct ms as [|m ms]; [done|]. intros _. cbn [map Join].
  destruct ms; cbn [map]; eexists; rewrite ?app_assoc_string; done.
Qed.

Lemma scan_object ms fuel depth rest :
  object_ok ms -> (length ms < fuel)%nat -> (maxNestingDepth <=? depth) = false ->
  scan_value (S fuel) depth (members_text ms +:+ rest) = Some (members_json ms, rest).
Proof.
  intros [Hne Hok] Hf Hd. unfold members_text, encode_object.
  rewrite !app_assoc_string, app_cons_string, app_nil_l_string.
  destruct (members_head ms ("}" +:+ rest) Hne) as [r Hr].
  rewrite (scan_value_object _ _ _ r) by done. rewrite map_map.
  by rewrite scan_members_encode.
Qed.

Lemma scan_items_step fuel depth s v r :
  scan_value fuel depth s = Some (v, r) ->
  scan_items (S fuel) depth s
  = match skip_ws r with
    | String e r1 =>
      if Ascii.eqb e "]" then Some ([v], r1)
      else if Ascii.eqb e "," then
        match scan_items fuel depth r1 with
        | Some (vs, r2) => Some (v :: vs, r2)
        | None => None
        end
      else None
    | EmptyString => None
    end.
Proof. intros Hv. cbn [scan_items]. by rewrite Hv. Qed.

Lemma scan_items_encode n objs fuel depth rest :
  objs <> [] -> Forall object_ok objs -> Forall (fun ms => (length ms <= n)%nat) objs ->
  (S n + length objs < fuel)%nat -> (maxNestingDepth <=? depth) = false ->
  scan_items fuel depth (Join (map members_text objs) "," +:+ "]" +:+ rest)
  = Some (map members_json objs, rest).
Proof.
  intros Hne Hok Hlen Hf Hd. revert fuel Hf Hlen Hne.
  induction Hok as [|ms objs Hms Hok IH]; intros fuel Hf Hlen Hne; [done|].
  inversion_clear Hlen as [|? ? Hn Hlen']. destruct fuel as [|[|fuel]]; cbn [length] in Hf; [lia..|].
  destruct objs as [|ms' objs].
  - cbn [map Join]. erewrite scan_items_step by (apply scan_object; done || lia). done.
  - cbn [map]. cbn [Join]. rewrite !app_assoc_string.
    erewrite scan_items_step by (apply scan_object; done || lia).
    change (skip_ws ("," +:+ ?t)) with (String "," t). cbn iota beta.
    change (Ascii.eqb "," "]") with false. change (Ascii.eqb "," ",") with true. cbn iota.
    cbn [map] in IH. rewrite IH by (done || cbn [length] in *; lia). done.
Qed.

Lemma length_members_text ms : (length ms < String.length (members_text ms))%nat.
Proof.
  unfold members_text, encode_object. rewrite app_cons_string, app_nil_l_string. cbn [String.length].
  rewrite string_length_app. pose proof (length_Join_members (map member_text ms)) as Hl.
  rewrite length_map in Hl. lia.
Qed.

Lemma longest {A} (l : list (list A)) :
  l <> [] -> exists o, o ∈ l /\ Forall (fun x => (length x <= length o)%nat) l.
Proof.
  induction l as [|x [|y l] IH]; [done| |]; intros _.
  - exists x. split; [left|]. by repeat constructor.
  - destruct IH as (o & Ho & Hmax); [done|]. destruct (decide (length o <= length x)%nat).
    + exists x. split; [left|]. constructor; [done|]. eapply Forall_impl; [exact Hmax|]. cbn. lia.
    + exists o. split; [by right|]. constructor; [lia|done].
Qed.

Lemma length_Join_objects objs ms :
  ms ∈ objs -> (length ms + length objs <= String.length (Join (map members_text objs) ","))%nat.
Proof.
  intros Hin. induction objs as [|o objs IH]; [by apply elem_of_nil in Hin|].
  pose proof (length_members_text o) as Ho.
  assert (Hl : (length objs <= String.length (Join (map members_text objs) ","))%nat).
  { clear. induction objs as [|o' objs IH]; [cbn; lia|]. pose proof (length_members_text o') as Ho'.
    cbn [map Join length]. destruct objs as [|o'' objs]; [cbn [map Join length] in *; lia|].
    cbn [map] in *. rewrite !string_length_app. cbn [length] in *. lia. }
  destruct objs as [|o' objs].
  - apply list_elem_of_singleton in Hin as ->. cbn [map Join length]. lia.
  - change (Join (map members_text (o :: o' :: objs)) ",")
      with (members_text o +:+ ("," +:+ Join (map members_text (o' :: objs)) ",")).
    rewrite !string_length_app. change (String.length ",") with 1%nat. cbn [length] in *.
    apply elem_of_cons in Hin as [->|Hin]; [lia|]. specialize (IH Hin). lia.
Qed.

(** What [json.Unmarshal] scans from a marshalled slice of flat objects. *)
Lemma parse_encode_array objs :
  Forall object_ok objs ->
  parse (encode_array (map members_text objs)) = Some (JArr (map members_json objs)).
Proof.
  intros Hok. unfold parse, encode_array. rewrite app_cons_string, app_nil_l_string.
  destruct objs as [|ms objs]; [done|].
  set (body := Join (map members_text (ms :: objs)) ",").
  assert (Hhead : exists r, body +:+ "]" = String "{" r).
  { unfold body. cbn [map Join]. destruct objs; cbn [map]; eexists; rewrite ?app_assoc_string; done. }
  destruct Hhead as [r Hr]. unfold scan_fuel. cbn [String.length]. rewrite string_length_app.
  change (String.length "]") with 1%nat.
  destruct (longest (ms :: objs)) as (o & Ho & Hn); [done|]. set (n := length o) in *.
  assert (Hlen : (n + length (ms :: objs) <= String.length body)%nat) by by apply length_Join_objects.
  cbn [scan_value]. change (skip_ws (String "[" ?t)) with (String "[" t). cbn iota beta.
  change (Ascii.eqb "[" "{") with false. change (Ascii.eqb "[" "[") with true. cbn iota.
  change (maxNestingDepth <=? 0) with false. cbn iota. rewrite Hr.
  change (skip_ws (String "{" ?t)) with (String "{" t). cbn iota beta.
  change (Ascii.eqb "{" "]") with false. cbn iota. rewrite <- Hr.
  pose proof (scan_items_encode n (ms :: objs) (S (String.length body + 1)) (0 + 1) EmptyString) as Hs.
  rewrite app_nil_r_string in Hs. unfold body in *. rewrite Hs; try done. lia.
Qed.
