(* ===== verification/GoTime.v ===== *)
(** * RFC 3339 times survive formatting and parsing

    [Time.MarshalJSON] and [Time.UnmarshalJSON] are inverse on the years their
    format can write; cursors, stored responses and event payloads rely on it. *)

From stdpp Require Import base strings list.
From Stdlib Require Import ZArith Lia Ascii.
From S2P Require Import Prelude GoStrings GoJson.

Open Scope Z_scope.

(** ** The calendar *)

(** Year of the 400-year era that holds its day [doe], and that year's first day. *)
Definition yoe_of (doe : Z) : Z := (doe - doe / 1460 + doe / 36524 - doe / 146096) / 365.
Definition year_start (yoe : Z) : Z := 365 * yoe + yoe / 4 - yoe / 100.

Lemma yoe_range doe : 0 <= doe < 146097 -> 0 <= yoe_of doe < 400.
Proof. intros H. unfold yoe_of. divisions. Qed.

Lemma day_of_year_range doe :
  0 <= doe < 146097 -> 0 <= doe - year_start (yoe_of doe) <= 365.
Proof. intros H. unfold year_start, yoe_of. divisions. Qed.

(** A 366th day only exists in a leap year. *)
Lemma last_day_leap doe y :
  0 <= doe < 146097 -> y = yoe_of doe -> doe - year_start y = 365 ->
  (y + 1) mod 4 = 0 /\ ((y + 1) mod 100 <> 0 \/ (y + 1) mod 400 = 0).
Proof. intros H. unfold year_start, yoe_of. intros Hy Hd. split; divisions. Qed.

(** Month and day of a day counted from 1 March. *)
Definition month_of (doy : Z) : Z :=
  let mp := (5 * doy + 2) / 153 in if mp <? 10 then mp + 3 else mp - 9.
Definition day_of (doy : Z) : Z := doy - (153 * ((5 * doy + 2) / 153) + 2) / 5 + 1.

Definition month_ok (doy : Z) : bool :=
  let m := month_of doy in
  let d := day_of doy in
  within 1 m 12 && (1 <=? d)
  && ((153 * (if 2 <? m then m - 3 else m + 9) + 2) / 5 + d - 1 =? doy)
  && (if m =? 2 then (d <=? 28) || ((d =? 29) && (doy =? 365)) else d <=? days_in 1 m).

Lemma month_ok_all doy : 0 <= doy <= 365 -> month_ok doy = true.
Proof.
  intros H.
  assert (Hall : forallb (fun n => month_ok (Z.of_nat n)) (seq 0 366) = true) by by vm_compute.
  rewrite forallb_forall in Hall. specialize (Hall (Z.to_nat doy)).
  rewrite Z2Nat.id in Hall by lia. apply Hall, in_seq. lia.
Qed.

Lemma civil_of_days_eq n :
  let doe := (n + 306) mod 146097 in
  let doy := doe - year_start (yoe_of doe) in
  civil_of_days n
  = (yoe_of doe + (n + 306) / 146097 * 400 + (if month_of doy <=? 2 then 1 else 0),
     month_of doy, day_of doy).
Proof. done. Qed.

Lemma days_in_year y m : m <> 2 -> days_in y m = days_in 1 m.
Proof. intros Hm. unfold days_in. by rewrite (proj2 (Z.eqb_neq m 2) Hm). Qed.

Lemma is_leap_shift yoe era : is_leap (yoe + era * 400) = is_leap yoe.
Proof.
  unfold is_leap. replace (era * 400) with (era * 100 * 4) at 1 by lia.
  rewrite Z.mod_add by lia. replace (era * 400) with (era * 4 * 100) at 1 by lia.
  rewrite !Z.mod_add by lia. done.
Qed.

Lemma civil_spec n y m d :
  civil_of_days n = (y, m, d) ->
  1 <= m <= 12 /\ 1 <= d <= days_in y m /\ days_of_civil y m d = n.
Proof.
  rewrite civil_of_days_eq. set (doe := (n + 306) mod 146097).
  set (doy := doe - year_start (yoe_of doe)). set (era := (n + 306) / 146097).
  assert (Hdoe : 0 <= doe < 146097) by (apply Z.mod_pos_bound; lia).
  pose proof (yoe_range _ Hdoe) as Hyoe. pose proof (day_of_year_range _ Hdoe) as Hdoy.
  fold doy in Hdoy. pose proof (month_ok_all _ Hdoy) as Hok. unfold month_ok in Hok.
  set (mm := month_of doy) in *. set (dd := day_of doy) in *. clearbody mm dd.
  intros Heq. injection Heq as <- <- <-. destruct_bools.
  rewrite within_iff in *. reflect_bools. split; [done|]. split; [split; [done|]|].
  - destruct (Z.eqb_spec mm 2) as [->|Hne].
    + unfold days_in. cbn [Z.eqb Pos.eqb Z.leb Z.compare Pos.compare Pos.compare_cont].
      destruct (is_leap _) eqn:El; [destruct (dd <=? 28) eqn:Ed; cbn in *; reflect_bools; lia|].
      destruct (dd <=? 28) eqn:Ed; [reflect_bools; lia|].
      cbn in *. reflect_bools. exfalso.
      replace (yoe_of doe + era * 400 + 1) with (yoe_of doe + 1 + era * 400) in El by lia.
      rewrite is_leap_shift in El. unfold is_leap in El.
      destruct (last_day_leap doe _ Hdoe eq_refl) as [H4 Hc]; [done|].
      rewrite H4 in El. cbn in El. reflect_bools. tauto.
    + rewrite days_in_year by done. lia.
  - unfold days_of_civil.
    assert (Hy' : (if mm <=? 2 then yoe_of doe + era * 400 + (if mm <=? 2 then 1 else 0) - 1
      else yoe_of doe + era * 400 + (if mm <=? 2 then 1 else 0)) = yoe_of doe + era * 400).
    { destruct (mm <=? 2); lia. }
    rewrite Hy'. rewrite Z.div_add, Z.mod_add by lia.
    rewrite Z.div_small, Z.mod_small by lia.
    assert (Hn : n + 306 = era * 146097 + doe) by (subst era doe; rewrite Z.mul_comm; apply Z.div_mod; lia).
    unfold doy, year_start in *. lia.
Qed.

(** ** Digits *)

Lemma digit_chr d : 0 <= d < 10 -> is_digit (chr (0x30 + d)) = true /\ byte_of (chr (0x30 + d)) - 0x30 = d.
Proof.
  intros Hd. assert (Hb : byte_of (chr (0x30 + d)) = 0x30 + d).
  { unfold byte_of, chr. rewrite N_ascii_embedding by lia. lia. }
  unfold is_digit. rewrite Hb, within_iff. lia.
Qed.

Lemma fixed_digits_S n z :
  fixed_digits (S n) z = fixed_digits n (z / 10) +:+ String (chr (0x30 + z mod 10)) EmptyString.
Proof. done. Qed.

Lemma read_digits_S n acc c s :
  read_digits (S n) acc (String c s)
  = if is_digit c then read_digits n (10 * acc + (byte_of c - 0x30)) s else None.
Proof. done. Qed.

Lemma read_digits_app n1 n2 acc s1 s2 v :
  read_digits n1 acc s1 = Some (v, EmptyString) ->
  read_digits (n1 + n2) acc (s1 +:+ s2) = read_digits n2 v s2.
Proof.
  revert acc s1. induction n1 as [|n1 IH]; intros acc s1.
  - cbn. by intros [= -> ->].
  - destruct s1 as [|c s1]; [done|]. rewrite app_cons_string. cbn.
    destruct (is_digit c); [|done]. apply IH.
Qed.

Lemma read_fixed_digits n z acc rest :
  0 <= z < 10 ^ Z.of_nat n ->
  read_digits n acc (fixed_digits n z +:+ rest) = Some (acc * 10 ^ Z.of_nat n + z, rest).
Proof.
  enough (Hend : forall n z acc, 0 <= z < 10 ^ Z.of_nat n ->
    read_digits n acc (fixed_digits n z) = Some (acc * 10 ^ Z.of_nat n + z, EmptyString)).
  { intros Hz. pose proof (read_digits_app n 0 acc _ rest _ (Hend n z acc Hz)) as Happ.
    rewrite Nat.add_0_r in Happ. by rewrite Happ. }
  clear. induction n as [|n IH]; intros z acc Hz.
  - cbn. do 2 f_equal. cbn in Hz. lia.
  - rewrite Nat2Z.inj_succ, Z.pow_succ_r in Hz |- * by lia.
    rewrite fixed_digits_S. replace (S n) with (n + 1)%nat by lia.
    destruct (digit_chr (z mod 10)) as [Hd Hv]; [apply Z.mod_pos_bound; lia|].
    erewrite read_digits_app; [|apply IH; divisions].
    cbn [read_digits]. rewrite Hd, Hv. do 2 f_equal.
    pose proof (Z.div_mod z 10). lia.
Qed.

Lemma read_range_fixed n z lo hi rest :
  0 <= z < 10 ^ Z.of_nat n -> lo <= z <= hi ->
  read_range n lo hi (fixed_digits n z +:+ rest) = Some (z, rest).
Proof.
  intros Hz Hr. unfold read_range. rewrite read_fixed_digits by done.
  rewrite Z.mul_0_l, Z.add_0_l. by rewrite (proj2 (within_iff _ _ _) Hr).
Qed.

(** ** The fraction *)

Fixpoint fraction_value (scale : Z) (s : string) : Z :=
  match s with
  | EmptyString => 0
  | String c s' => (byte_of c - 0x30) * scale + fraction_value (scale / 10) s'
  end.

Definition no_digit_head (s : string) : bool :=
  match s with EmptyString => true | String c _ => negb (is_digit c) end.

Lemma read_fraction_value scale s rest :
  string_forall is_digit s = true -> no_digit_head rest = true ->
  read_fraction scale (s +:+ rest) = (fraction_value scale s, rest).
Proof.
  intros Hs Hrest. revert scale Hs. induction s as [|c s IH]; intros scale Hs.
  - rewrite app_nil_l_string. destruct rest as [|c rest]; [done|]. cbn in *.
    apply negb_true_iff in Hrest. by rewrite Hrest.
  - rewrite app_cons_string. cbn in *. destruct_bools. rewrite H. by rewrite IH.
Qed.

Lemma fraction_value_app k s t :
  fraction_value (10 ^ (Z.of_nat (String.length s) + k)) (s +:+ t)
  = fraction_value (10 ^ (Z.of_nat (String.length s) + k)) s + fraction_value (10 ^ k) t
  \/ k < 0.
Proof.
  destruct (Z.ltb_spec k 0) as [|Hk]; [by right|left].
  induction s as [|c s IH]; [done|]. rewrite app_cons_string. cbn [fraction_value String.length].
  rewrite Nat2Z.inj_succ.
  replace (10 ^ (Z.succ (Z.of_nat (String.length s)) + k) / 10)
    with (10 ^ (Z.of_nat (String.length s) + k)).
  - rewrite IH. lia.
  - rewrite Z.add_succ_l, Z.pow_succ_r by lia. rewrite Z.mul_comm, Z.div_mul by lia. done.
Qed.

Lemma length_fixed_digits n z : String.length (fixed_digits n z) = n.
Proof.
  revert z. induction n as [|n IH]; intros z; [done|].
  rewrite fixed_digits_S, string_length_app, IH. cbn. lia.
Qed.

Lemma fixed_digits_digits n z : string_forall is_digit (fixed_digits n z) = true.
Proof.
  revert z. induction n as [|n IH]; intros z; [done|].
  rewrite fixed_digits_S, string_forall_app, IH. cbn.
  destruct (digit_chr (z mod 10)) as [-> _]; [|done]. apply Z.mod_pos_bound. lia.
Qed.

(** The scale of the first of [n + 1] digits whose last has scale 1. *)
Lemma fraction_fixed n k z :
  0 <= k -> 0 <= z < 10 ^ Z.of_nat n ->
  fraction_value (10 ^ (Z.of_nat n + k)) (fixed_digits n z) = z * 10 ^ (k + 1).
Proof.
  revert k z. induction n as [|n IH]; intros k z Hk Hz.
  - cbn in *. lia.
  - rewrite fixed_digits_S.
    rewrite Nat2Z.inj_succ in Hz |- *. rewrite Z.pow_succ_r in Hz by lia.
    replace (Z.succ (Z.of_nat n) + k)
      with (Z.of_nat (String.length (fixed_digits n (z / 10))) + (k + 1))
      by (rewrite length_fixed_digits; lia).
    destruct (fraction_value_app (k + 1) (fixed_digits n (z / 10))
      (String (chr (48 + z mod 10)) EmptyString)) as [Heq|]; [|lia].
    rewrite Heq, length_fixed_digits, IH by (first [lia|divisions]).
    cbn [fraction_value]. destruct (digit_chr (z mod 10)) as [_ ->]; [apply Z.mod_pos_bound; lia|].
    rewrite (Z.div_mod z 10) at 3 by lia.
    replace (k + 1 + 1) with (Z.succ (k + 1)) by lia. rewrite Z.pow_succ_r by lia. ring.
Qed.

Lemma fraction_nine z :
  0 <= z < ns_per_second -> fraction_value 100000000 (fixed_digits 9 z) = z.
Proof.
  intros Hz. rewrite (fixed_digits_S 8).
  destruct (fraction_value_app 0 (fixed_digits 8 (z / 10))
    (String (chr (48 + z mod 10)) EmptyString)) as [Heq|]; [|lia].
  rewrite length_fixed_digits in Heq. change (10 ^ (Z.of_nat 8 + 0)) with 100000000 in Heq.
  rewrite Heq. change 100000000 with (10 ^ (Z.of_nat 8 + 0)).
  unfold ns_per_second in Hz.
  rewrite fraction_fixed by (first [lia|change (10 ^ Z.of_nat 8) with 100000000; divisions]).
  cbn [fraction_value]. destruct (digit_chr (z mod 10)) as [_ ->]; [apply Z.mod_pos_bound; lia|].
  pose proof (Z.div_mod z 10). change (10 ^ (0 + 1)) with 10. change (10 ^ 0) with 1. lia.
Qed.

Lemma fraction_trim scale s :
  fraction_value scale (trim_zeros_right s) = fraction_value scale s.
Proof.
  revert scale. induction s as [|c s IH]; intros scale; [done|]. cbn.
  rewrite <- IH. destruct (trim_zeros_right s) as [|c' s'] eqn:Ht; [|done].
  destruct (Ascii.eqb_spec c "0") as [->|]; [|done]. change (byte_of "0") with 0x30. cbn. lia.
Qed.

Lemma trim_digits s :
  string_forall is_digit s = true -> string_forall is_digit (trim_zeros_right s) = true.
Proof.
  induction s as [|c s IH]; [done|]. cbn. intros Hs. destruct_bools.
  specialize (IH H0). destruct (trim_zeros_right s) as [|c' s'].
  - destruct (Ascii.eqb c "0"); [done|]. cbn. by rewrite H.
  - cbn in *. by rewrite H.
Qed.

(** ** The round trip *)

Lemma obind_Some {A B} (a : A) (f : A -> option B) : obind (Some a) f = f a.
Proof. done. Qed.

Lemma strip_char c s : strip_prefix (String c EmptyString) (String c s) = Some s.
Proof. cbn. by rewrite Ascii.eqb_refl. Qed.

Local Ltac read_two :=
  rewrite read_range_fixed, obind_Some
    by first [lia | change (10 ^ Z.of_nat 4) with 10000; lia | change (10 ^ Z.of_nat 2) with 100; lia];
  cbn beta iota.
Local Ltac read_char c :=
  change (String c EmptyString +:+ ?x) with (String c x); rewrite strip_char, obind_Some.

(** The seconds of a formatted time, followed by a fraction and the zone. *)
Lemma parse_seconds t frac rest ns :
  0 <= year_of t <= 9999 ->
  (match frac +:+ "Z" with
   | String p (String c _ as s1) =>
     if Ascii.eqb p "." && is_digit c then read_fraction 100000000 s1 else (0, frac +:+ "Z")
   | _ => (0, frac +:+ "Z")
   end) = (ns, rest) -> read_zone rest = Some 0 ->
  parse_rfc3339 (format_seconds t +:+ frac +:+ "Z") = Some (t / ns_per_second * ns_per_second + ns).
Proof.
  unfold year_of, format_seconds. intros Hy Hfrac Hzone.
  set (secs := t / ns_per_second) in *. set (sod := secs mod seconds_per_day).
  destruct (civil_of_days (secs / seconds_per_day)) as [[y m] d] eqn:Hciv. cbn [fst] in Hy.
  apply civil_spec in Hciv as (Hm & Hd & Hdays).
  assert (Hsod : 0 <= sod < 86400) by (apply Z.mod_pos_bound; done).
  assert (Hdi : days_in y m <= 31) by (unfold days_in; repeat case_match; lia).
  unfold parse_rfc3339. rewrite !app_assoc_string.
  assert (Hh : 0 <= sod / 3600 <= 23 /\ 0 <= sod / 60 mod 60 <= 59 /\ 0 <= sod mod 60 <= 59)
    by divisions.
  destruct Hh as (Hh & Hmi & Hs).
  do 2 (read_two; read_char "-"%char). read_two. read_char "T"%char.
  do 2 (read_two; read_char ":"%char). read_two.
  match goal with |- (let '(_, _) := ?m in _) = _ => change m with (match frac +:+ "Z" with
     | String p (String c _ as s1) =>
       if Ascii.eqb p "." && is_digit c then read_fraction 100000000 s1 else (0, frac +:+ "Z")
     | _ => (0, frac +:+ "Z")
     end) end.
  rewrite Hfrac, Hzone, obind_Some, Hdays. f_equal.
  assert (Hsplit : sod / 3600 * 3600 + sod / 60 mod 60 * 60 + sod mod 60 = sod) by divisions.
  pose proof (Z.div_mod secs seconds_per_day) as Hdm.
  unfold ns_per_second, seconds_per_day in *. fold secs sod in Hdm. lia.
Qed.

Theorem parse_format_rfc3339_nano t :
  0 <= year_of t <= 9999 -> parse_rfc3339 (format_rfc3339_nano t) = Some t.
Proof.
  intros Hy. unfold format_rfc3339_nano.
  set (f := trim_zeros_right (fixed_digits 9 (t mod ns_per_second))).
  assert (Hf : string_forall is_digit f = true) by apply trim_digits, fixed_digits_digits.
  assert (Hv : fraction_value 100000000 f = t mod ns_per_second).
  { unfold f. rewrite fraction_trim, fraction_nine; [done|]. by apply Z.mod_pos_bound. }
  assert (Ht : t = t / ns_per_second * ns_per_second + t mod ns_per_second).
  { pose proof (Z.div_mod t ns_per_second). unfold ns_per_second in *. lia. }
  rewrite Ht at 2. rewrite <- Hv.
  apply (parse_seconds t _ "Z"); [done| |done].
  destruct f as [|c f']; [done|]. cbn [nonempty].
  change ("." +:+ String c f') with (String "." (String c f')).
  rewrite !app_cons_string. cbn [string_forall] in Hf. apply andb_true_iff in Hf as [Hc Hf].
  rewrite Ascii.eqb_refl, Hc. cbn [andb].
  change (String c (f' +:+ "Z")) with (String c f' +:+ "Z").
  rewrite read_fraction_value; [done| |done]. cbn [string_forall]. by rewrite Hc, Hf.
Qed.

Lemma format_seconds_plain t : plain (format_seconds t) = true.
Proof.
  unfold format_seconds. destruct (civil_of_days _) as [[y m] d].
  assert (Hd : forall n z, plain (fixed_digits n z) = true).
  { intros n z. unfold plain. eapply string_forall_impl; [|apply fixed_digits_digits].
    intros c Hc. by apply safe_char_plain, digit_safe. }
  rewrite !plain_app, !Hd. done.
Qed.

Lemma format_rfc3339_nano_plain t : plain (format_rfc3339_nano t) = true.
Proof.
  unfold format_rfc3339_nano. rewrite !plain_app, format_seconds_plain.
  set (f := trim_zeros_right _).
  assert (Hf : plain f = true).
  { unfold plain, f. eapply string_forall_impl; [|apply trim_digits, fixed_digits_digits].
    intros c Hc. by apply safe_char_plain, digit_safe. }
  destruct (nonempty f); [|done]. by rewrite plain_app, Hf.
Qed.
