(* ===== verification/Base64.v ===== *)
(** * [encoding/base64]: [StdEncoding] (headers as JSON) and [RawURLEncoding] (cursors) *)

From stdpp Require Import base strings list.
From Stdlib Require Import ZArith Lia Ascii.
From S2P Require Import Prelude GoStrings GoJson Sha256.

Open Scope Z_scope.

(** The 64 characters: the last two differ between the alphabets. *)
Record alphabet := mk_alphabet { char62 : ascii; char63 : ascii }.

Definition std_alphabet : alphabet := mk_alphabet "+" "/".
Definition url_alphabet : alphabet := mk_alphabet "-" "_".

Definition enc6 (a : alphabet) (v : Z) : ascii :=
  if v <? 26 then chr (0x41 + v)
  else if v <? 52 then chr (0x61 + (v - 26))
  else if v <? 62 then chr (0x30 + (v - 52))
  else if v =? 62 then char62 a else char63 a.

Definition dec6 (a : alphabet) (c : ascii) : option Z :=
  let b := byte_of c in
  if within 0x41 b 0x5A then Some (b - 0x41)
  else if within 0x61 b 0x7A then Some (b - 0x61 + 26)
  else if within 0x30 b 0x39 then Some (b - 0x30 + 52)
  else if Ascii.eqb c (char62 a) then Some 62
  else if Ascii.eqb c (char63 a) then Some 63 else None.

Definition pad_char : ascii := "=".

Fixpoint encode (a : alphabet) (padded : bool) (s : string) : string :=
  let padding n := if padded then n else EmptyString in
  match s with
  | EmptyString => EmptyString
  | String c0 EmptyString =>
    let b0 := byte_of c0 in
    String (enc6 a (b0 / 4)) (String (enc6 a (b0 mod 4 * 16)) (padding "=="%string))
  | String c0 (String c1 EmptyString) =>
    let b0 := byte_of c0 in let b1 := byte_of c1 in
    String (enc6 a (b0 / 4)) (String (enc6 a (b0 mod 4 * 16 + b1 / 16))
      (String (enc6 a (b1 mod 16 * 4)) (padding "="%string)))
  | String c0 (String c1 (String c2 s')) =>
    let b0 := byte_of c0 in let b1 := byte_of c1 in let b2 := byte_of c2 in
    String (enc6 a (b0 / 4)) (String (enc6 a (b0 mod 4 * 16 + b1 / 16))
      (String (enc6 a (b1 mod 16 * 4 + b2 / 64)) (String (enc6 a (b2 mod 64))
        (encode a padded s'))))
  end.

(** Decoding skips line breaks; the final group's spare bits are not checked. *)
Fixpoint strip_newlines (s : string) : string :=
  match s with
  | EmptyString => EmptyString
  | String c s' =>
    if (byte_of c =? 10) || (byte_of c =? 13) then strip_newlines s' else String c (strip_newlines s')
  end.

Definition byte1 (v0 v1 : Z) : ascii := chr (v0 * 4 + v1 / 16).
Definition byte2 (v1 v2 : Z) : ascii := chr (v1 mod 16 * 16 + v2 / 4).
Definition byte3 (v2 v3 : Z) : ascii := chr (v2 mod 4 * 64 + v3).

Fixpoint decode_groups (a : alphabet) (padded : bool) (s : string) : option string :=
  match s with
  | EmptyString => Some EmptyString
  | String c0 (String c1 EmptyString) =>
    if padded then None else
    obind (dec6 a c0) (fun v0 => obind (dec6 a c1) (fun v1 =>
      Some (String (byte1 v0 v1) EmptyString)))
  | String c0 (String c1 (String c2 EmptyString)) =>
    if padded then None else
    obind (dec6 a c0) (fun v0 => obind (dec6 a c1) (fun v1 => obind (dec6 a c2) (fun v2 =>
      Some (String (byte1 v0 v1) (String (byte2 v1 v2) EmptyString)))))
  | String c0 (String c1 (String c2 (String c3 s'))) =>
    obind (dec6 a c0) (fun v0 => obind (dec6 a c1) (fun v1 =>
      if padded && Ascii.eqb c2 pad_char then
        if Ascii.eqb c3 pad_char && negb (nonempty s')
        then Some (String (byte1 v0 v1) EmptyString) else None
      else obind (dec6 a c2) (fun v2 =>
        if padded && Ascii.eqb c3 pad_char then
          if nonempty s' then None
          else Some (String (byte1 v0 v1) (String (byte2 v1 v2) EmptyString))
        else obind (dec6 a c3) (fun v3 => obind (decode_groups a padded s') (fun r =>
          Some (String (byte1 v0 v1) (String (byte2 v1 v2) (String (byte3 v2 v3) r))))))))
  | _ => None
  end.

Definition decode (a : alphabet) (padded : bool) (s : string) : option string :=
  decode_groups a padded (strip_newlines s).

Definition RawURLEncode : string -> string := encode url_alphabet false.
Definition RawURLDecode : string -> option string := decode url_alphabet false.
Definition StdEncode : string -> string := encode std_alphabet true.
Definition StdDecode : string -> option string := decode std_alphabet true.

(** ** Round trip *)

Definition known (a : alphabet) : Prop := a = std_alphabet \/ a = url_alphabet.

Definition sextet_ok (a : alphabet) (v : Z) : bool :=
  match dec6 a (enc6 a v) with Some v' => v' =? v | None => false end
  && negb (Ascii.eqb (enc6 a v) pad_char)
  && negb ((byte_of (enc6 a v) =? 10) || (byte_of (enc6 a v) =? 13)).

Lemma sextet_ok_all a v : known a -> 0 <= v < 64 -> sextet_ok a v = true.
Proof.
  intros Ha Hv.
  assert (Hall : forallb (fun n => sextet_ok a (Z.of_nat n)) (seq 0 64) = true)
    by (destruct Ha as [->| ->]; by vm_compute).
  rewrite forallb_forall in Hall. specialize (Hall (Z.to_nat v)).
  rewrite Z2Nat.id in Hall by lia. apply Hall, in_seq. lia.
Qed.

Lemma sextet a v :
  known a -> 0 <= v < 64 ->
  dec6 a (enc6 a v) = Some v /\ Ascii.eqb (enc6 a v) pad_char = false
  /\ (byte_of (enc6 a v) =? 10) || (byte_of (enc6 a v) =? 13) = false.
Proof.
  intros Ha Hv. pose proof (sextet_ok_all a v Ha Hv) as Hok. unfold sextet_ok in Hok.
  apply andb_true_iff in Hok as [[Hd Hp]%andb_true_iff Hn].
  destruct (dec6 a (enc6 a v)); [|done]. apply Z.eqb_eq in Hd as ->.
  apply negb_true_iff in Hp, Hn. auto.
Qed.

Lemma three_chars (P : string -> Prop) :
  P EmptyString -> (forall c0, P (String c0 EmptyString)) ->
  (forall c0 c1, P (String c0 (String c1 EmptyString))) ->
  (forall c0 c1 c2 s, P s -> P (String c0 (String c1 (String c2 s)))) ->
  forall s, P s.
Proof.
  intros H0 H1 H2 H3 s. remember (String.length s) as n eqn:Hn. revert s Hn.
  induction (lt_wf n) as [n _ IH]. intros s ->.
  destruct s as [|c0 [|c1 [|c2 s]]]; auto.
  apply H3. eapply IH; [|done]. cbn. lia.
Qed.

Lemma byte_sextets b0 b1 b2 :
  0 <= b0 < 256 -> 0 <= b1 < 256 -> 0 <= b2 < 256 ->
  let v0 := b0 / 4 in let v1 := b0 mod 4 * 16 + b1 / 16 in
  let v2 := b1 mod 16 * 4 + b2 / 64 in let v3 := b2 mod 64 in
  (0 <= v0 < 64 /\ 0 <= v1 < 64 /\ 0 <= v2 < 64 /\ 0 <= v3 < 64)
  /\ v0 * 4 + v1 / 16 = b0 /\ v1 mod 16 * 16 + v2 / 4 = b1 /\ v2 mod 4 * 64 + v3 = b2.
Proof. intros H0 H1 H2. cbv zeta. divisions. Qed.

Section RoundTrip.
Context (a : alphabet) (Ha : known a).

(** Everything [encode] writes is free of line breaks. *)
Lemma strip_newlines_encode padded s : strip_newlines (encode a padded s) = encode a padded s.
Proof using Ha.
  assert (Hstep : forall v t, 0 <= v < 64 -> strip_newlines t = t ->
    strip_newlines (String (enc6 a v) t) = String (enc6 a v) t).
  { intros v t Hv Ht. cbn. destruct (sextet a v Ha Hv) as (_ & _ & ->). by rewrite Ht. }
  induction s as [|c0|c0 c1|c0 c1 c2 s IH] using three_chars; [done|..];
    cbn [encode]; pose proof (byte_of_range c0).
  - repeat (apply Hstep; [divisions|]). by destruct padded.
  - pose proof (byte_of_range c1). repeat (apply Hstep; [divisions|]). by destruct padded.
  - pose proof (byte_of_range c1). pose proof (byte_of_range c2).
    repeat (apply Hstep; [divisions|]). done.
Qed.

Theorem decode_encode padded s : decode a padded (encode a padded s) = Some s.
Proof using Ha.
  unfold decode. rewrite strip_newlines_encode.
  induction s as [|c0|c0 c1|c0 c1 c2 s IH] using three_chars; [done|..];
    cbn [encode]; pose proof (byte_of_range c0) as H0.
  - destruct (byte_sextets (byte_of c0) 0 0) as [(Hv0 & Hv1 & _) (E0 & _)]; try lia.
    rewrite Z.div_0_l, Z.add_0_r in * by lia.
    destruct (sextet a _ Ha Hv0) as (D0 & _), (sextet a _ Ha Hv1) as (D1 & _).
    destruct padded; cbn [decode_groups]; rewrite D0, D1; cbn [obind];
      change (Ascii.eqb "=" pad_char) with true; cbn [andb negb nonempty];
      unfold byte1; by rewrite E0, chr_byte_of.
  - pose proof (byte_of_range c1) as H1.
    destruct (byte_sextets (byte_of c0) (byte_of c1) 0)
      as [(Hv0 & Hv1 & Hv2 & _) (E0 & E1 & _)]; try lia.
    rewrite Z.div_0_l, Z.add_0_r in * by lia.
    destruct (sextet a _ Ha Hv0) as (D0 & _), (sextet a _ Ha Hv1) as (D1 & _),
      (sextet a _ Ha Hv2) as (D2 & P2 & _).
    destruct padded; cbn [decode_groups]; rewrite D0, D1, ?P2, D2; cbn [obind];
      change (Ascii.eqb "=" pad_char) with true; cbn [andb negb nonempty];
      unfold byte1, byte2; by rewrite E0, E1, !chr_byte_of.
  - pose proof (byte_of_range c1) as H1. pose proof (byte_of_range c2) as H2.
    destruct (byte_sextets (byte_of c0) (byte_of c1) (byte_of c2) H0 H1 H2)
      as [(Hv0 & Hv1 & Hv2 & Hv3) (E0 & E1 & E2)].
    destruct (sextet a _ Ha Hv0) as (D0 & _), (sextet a _ Ha Hv1) as (D1 & _),
      (sextet a _ Ha Hv2) as (D2 & P2 & _), (sextet a _ Ha Hv3) as (D3 & P3 & _).
    cbn [decode_groups]. rewrite D0, D1, P2, D2, P3, D3, !andb_false_r. cbn [obind].
    rewrite IH. cbn [obind]. unfold byte1, byte2, byte3. by rewrite E0, E1, E2, !chr_byte_of.
Qed.
End RoundTrip.

Lemma RawURL_roundtrip s : RawURLDecode (RawURLEncode s) = Some s.
Proof. apply decode_encode. by right. Qed.
Lemma Std_roundtrip s : StdDecode (StdEncode s) = Some s.
Proof. apply decode_encode. by left. Qed.
