(* ===== verification/Codec.v ===== *)
(** * JSON encodings of the domain events (struct tags of [domain.go]) *)

From stdpp Require Import base strings list sets.
From Stdlib Require Import ZArith Lia.
From S2P Require Import Prelude GoStrings Runtime Domain GoJson GoTime.

Open Scope Z_scope.

Definition string_field (name value : string) : string * string := (name, encode_string value).
Definition int_field (name : string) (value : Z) : string * string := (name, FormatInt value).
Definition bool_field (name : string) (value : bool) : string * string := (name, encode_bool value).
Definition time_field (name : string) (t : Z) : string * string :=
  (name, quote (format_rfc3339_nano t)).

(** [Time.MarshalJSON] fails on years its format cannot write. *)
Definition marshalable_time (t : Z) : bool := within 0 (year_of t) 9999.

(** ** [domain.Transaction] *)

Definition marshal_Transaction (t : Transaction) : outcome error string :=
  if marshalable_time (tx_CreatedAt t) && marshalable_time (tx_UpdatedAt t) then
    Ok (encode_object (
      [string_field "id" (tx_ID t); string_field "kind" (tx_Kind t);
       string_field "account_id" (tx_AccountID t)]
      ++ omitempty "merchant_id" (tx_MerchantID t)
      ++ omitempty "funding_source" (tx_FundingSource t)
      ++ omitempty "external_reference" (tx_ExternalRef t)
      ++ [int_field "amount_cents" (tx_AmountCents t); string_field "currency" (tx_Currency t);
          string_field "status" (tx_Status t)]
      ++ omitempty "risk_level" (tx_RiskLevel t)
      ++ omitempty "risk_reason" (tx_RiskReason t)
      ++ [string_field "correlation_id" (tx_CorrelationID t);
          time_field "created_at" (tx_CreatedAt t); time_field "updated_at" (tx_UpdatedAt t)]))
  else Err (EText "json: error calling MarshalJSON for type time.Time").

Lemma marshal_Transaction_error t e :
  marshal_Transaction t = Err e ->
  e = EText "json: error calling MarshalJSON for type time.Time".
Proof. unfold marshal_Transaction. case_match; congruence. Qed.

Definition zero_Transaction : Transaction :=
  mk_Transaction EmptyString EmptyString EmptyString EmptyString EmptyString EmptyString 0
    EmptyString EmptyString EmptyString EmptyString EmptyString 0 0.

Definition Transaction_struct : struct Transaction :=
  let mk := mk_Transaction in
  [("id", fun '(mk_Transaction a b c d e f g h i j k l m n) v =>
      obind (set_string a v) (fun a => Some (mk a b c d e f g h i j k l m n)));
   ("kind", fun '(mk_Transaction a b c d e f g h i j k l m n) v =>
      obind (set_string b v) (fun b => Some (mk a b c d e f g h i j k l m n)));
   ("account_id", fun '(mk_Transaction a b c d e f g h i j k l m n) v =>
      obind (set_string c v) (fun c => Some (mk a b c d e f g h i j k l m n)));
   ("merchant_id", fun '(mk_Transaction a b c d e f g h i j k l m n) v =>
      obind (set_string d v) (fun d => Some (mk a b c d e f g h i j k l m n)));
   ("funding_source", fun '(mk_Transaction a b c d e f g h i j k l m n) v =>
      obind (set_string e v) (fun e => Some (mk a b c d e f g h i j k l m n)));
   ("external_reference", fun '(mk_Transaction a b c d e f g h i j k l m n) v =>
      obind (set_string f v) (fun f => Some (mk a b c d e f g h i j k l m n)));
   ("amount_cents", fun '(mk_Transaction a b c d e f g h i j k l m n) v =>
      obind (set_int64 g v) (fun g => Some (mk a b c d e f g h i j k l m n)));
   ("currency", fun '(mk_Transaction a b c d e f g h i j k l m n) v =>
      obind (set_string h v) (fun h => Some (mk a b c d e f g h i j k l m n)));
   ("status", fun '(mk_Transaction a b c d e f g h i j k l m n) v =>
      obind (set_string i v) (fun i => Some (mk a b c d e f g h i j k l m n)));
   ("risk_level", fun '(mk_Transaction a b c d e f g h i j k l m n) v =>
      obind (set_string j v) (fun j => Some (mk a b c d e f g h i j k l m n)));
   ("risk_reason", fun '(mk_Transaction a b c d e f g h i j k l m n) v =>
      obind (set_string k v) (fun k => Some (mk a b c d e f g h i j k l m n)));
   ("correlation_id", fun '(mk_Transaction a b c d e f g h i j k l m n) v =>
      obind (set_string l v) (fun l => Some (mk a b c d e f g h i j k l m n)));
   ("created_at", fun '(mk_Transaction a b c d e f g h i j k l m n) v =>
      obind (set_time m v) (fun m => Some (mk a b c d e f g h i j k l m n)));
   ("updated_at", fun '(mk_Transaction a b c d e f g h i j k l m n) v =>
      obind (set_time n v) (fun n => Some (mk a b c d e f g h i j k l m n)))].

(** [json.Unmarshal(payload, &transaction)] *)
Definition unmarshal_Transaction (payload : string) : option Transaction :=
  obind (parse payload) (decode_struct Transaction_struct false zero_Transaction).

(** ** [domain.RiskEvaluated] *)

Definition marshal_RiskEvaluated (r : RiskEvaluated) : string :=
  encode_object
    [string_field "transaction_id" (rk_TransactionID r);
     string_field "account_id" (rk_AccountID r);
     int_field "amount_cents" (rk_AmountCents r);
     string_field "currency" (rk_Currency r);
     string_field "risk_level" (rk_RiskLevel r);
     bool_field "approved" (rk_Approved r);
     string_field "reason" (rk_Reason r);
     string_field "correlation_id" (rk_CorrelationID r)].

Definition zero_RiskEvaluated : RiskEvaluated :=
  mk_RiskEvaluated EmptyString EmptyString 0 EmptyString EmptyString false EmptyString EmptyString.

Definition RiskEvaluated_struct : struct RiskEvaluated :=
  let mk := mk_RiskEvaluated in
  [("transaction_id", fun '(mk_RiskEvaluated a b c d e f g h) v =>
      obind (set_string a v) (fun a => Some (mk a b c d e f g h)));
   ("account_id", fun '(mk_RiskEvaluated a b c d e f g h) v =>
      obind (set_string b v) (fun b => Some (mk a b c d e f g h)));
   ("amount_cents", fun '(mk_RiskEvaluated a b c d e f g h) v =>
      obind (set_int64 c v) (fun c => Some (mk a b c d e f g h)));
   ("currency", fun '(mk_RiskEvaluated a b c d e f g h) v =>
      obind (set_string d v) (fun d => Some (mk a b c d e f g h)));
   ("risk_level", fun '(mk_RiskEvaluated a b c d e f g h) v =>
      obind (set_string e v) (fun e => Some (mk a b c d e f g h)));
   ("approved", fun '(mk_RiskEvaluated a b c d e f g h) v =>
      obind (set_bool f v) (fun f => Some (mk a b c d e f g h)));
   ("reason", fun '(mk_RiskEvaluated a b c d e f g h) v =>
      obind (set_string g v) (fun g => Some (mk a b c d e f g h)));
   ("correlation_id", fun '(mk_RiskEvaluated a b c d e f g h) v =>
      obind (set_string h v) (fun h => Some (mk a b c d e f g h)))].

(** [json.Unmarshal(payload, &event)] *)
Definition unmarshal_RiskEvaluated (payload : string) : option RiskEvaluated :=
  obind (parse payload) (decode_struct RiskEvaluated_struct false zero_RiskEvaluated).

(** ** [domain.FundsDeposited] (only marshalled) *)

Definition marshal_FundsDeposited (f : FundsDeposited) : string :=
  encode_object
    [string_field "deposit_id" (fd_DepositID f);
     string_field "account_id" (fd_AccountID f);
     int_field "amount_cents" (fd_AmountCents f);
     string_field "currency" (fd_Currency f);
     string_field "funding_source" (fd_FundingSource f);
     string_field "external_reference" (fd_ExternalReference f);
     string_field "correlation_id" (fd_CorrelationID f)].

(** ** Round trip of a marshalled flat object *)

Lemma string_field_ok k s :
  plain k = true -> plain s = true -> member_ok (string_field k s, JStr s).
Proof. intros Hk Hs. split; [done|]. by apply scans_string. Qed.
Lemma int_field_ok k z : plain k = true -> member_ok (int_field k z, JNum (FormatInt z)).
Proof. intros Hk. split; [done|]. apply scans_int. Qed.
Lemma bool_field_ok k b : plain k = true -> member_ok (bool_field k b, JBool b).
Proof. intros Hk. split; [done|]. apply scans_bool. Qed.

Create HintDb json.
#[export] Hint Resolve string_field_ok int_field_ok bool_field_ok : json.
#[export] Hint Extern 1 (plain _ = true) => reflexivity : json.

(** Proves [Forall member_ok ms] for a literal list of members. *)
Ltac solve_members :=
  repeat (apply Forall_cons_2; [solve [auto with json]|]); apply Forall_nil_2.

Lemma assign_members_cons {A} (fs : struct A) strict a k v ms :
  plain k = true ->
  assign_members fs strict a ((k, v) :: ms)
  = match find_field fs k with
    | Some f => match f a v with Some a' => assign_members fs strict a' ms | None => None end
    | None => if strict then None else assign_members fs strict a ms
    end.
Proof. intros Hk. cbn [assign_members]. by rewrite unquote_plain. Qed.

(** The texts a consumer decodes to [r]: every string field plain, the amount
    a 64-bit integer. *)
Definition plain_RiskEvaluated (r : RiskEvaluated) : bool :=
  plain (rk_TransactionID r) && plain (rk_AccountID r) && in_int64 (rk_AmountCents r)
  && plain (rk_Currency r) && plain (rk_RiskLevel r) && plain (rk_Reason r)
  && plain (rk_CorrelationID r).

Definition RiskEvaluated_members (r : RiskEvaluated) : list member :=
  [(string_field "transaction_id" (rk_TransactionID r), JStr (rk_TransactionID r));
   (string_field "account_id" (rk_AccountID r), JStr (rk_AccountID r));
   (int_field "amount_cents" (rk_AmountCents r), JNum (FormatInt (rk_AmountCents r)));
   (string_field "currency" (rk_Currency r), JStr (rk_Currency r));
   (string_field "risk_level" (rk_RiskLevel r), JStr (rk_RiskLevel r));
   (bool_field "approved" (rk_Approved r), JBool (rk_Approved r));
   (string_field "reason" (rk_Reason r), JStr (rk_Reason r));
   (string_field "correlation_id" (rk_CorrelationID r), JStr (rk_CorrelationID r))].

Lemma parse_marshal_RiskEvaluated r :
  plain_RiskEvaluated r = true ->
  parse (marshal_RiskEvaluated r) = Some (JObj (map member_json (RiskEvaluated_members r))).
Proof.
  unfold plain_RiskEvaluated. intros Hr. destruct_bools.
  apply (parse_encode_object (RiskEvaluated_members r)); [done|].
  solve_members.
Qed.

Lemma set_string_plain cur s : plain s = true -> set_string cur (JStr s) = Some s.
Proof. intros Hs. cbn. by rewrite unquote_plain. Qed.
Lemma set_int64_format cur z : in_int64 z = true -> set_int64 cur (JNum (FormatInt z)) = Some z.
Proof. intros Hz. cbn. by rewrite ParseInt_FormatInt. Qed.

Lemma time_string_field k t : time_field k t = string_field k (format_rfc3339_nano t).
Proof.
  unfold time_field, string_field, encode_string. by rewrite escape_plain by apply format_rfc3339_nano_plain.
Qed.

Lemma set_time_format cur t :
  marshalable_time t = true -> set_time cur (JStr (format_rfc3339_nano t)) = Some t.
Proof. intros Ht%within_iff. cbn [set_time]. by apply parse_format_rfc3339_nano. Qed.

Ltac unfold_members :=
  unfold member_json, string_field, int_field, bool_field; cbn [fst snd].

(** Decodes one member of a struct with known keys. *)
Ltac decode_step :=
  rewrite assign_members_cons by reflexivity;
  match goal with
  | |- context [find_field ?fs ?k] =>
    let f := eval cbv -[set_string set_int64 set_bool set_time obind] in (find_field fs k) in
    change (find_field fs k) with f
  end;
  cbn beta iota;
  rewrite ?set_string_plain, ?set_int64_format by assumption;
  cbn [obind set_bool].

Lemma unmarshal_marshal_RiskEvaluated r :
  plain_RiskEvaluated r = true ->
  unmarshal_RiskEvaluated (marshal_RiskEvaluated r) = Some r.
Proof.
  intros Hr. unfold unmarshal_RiskEvaluated.
  rewrite parse_marshal_RiskEvaluated by done.
  unfold plain_RiskEvaluated in Hr. destruct_bools.
  cbn [obind decode_struct map RiskEvaluated_members]. unfold_members.
  unfold zero_RiskEvaluated. do 8 decode_step. by destruct r.
Qed.

(** ** Decoding does not depend on the order of the members *)

Section Permuted.
Context {A : Type} (fs : struct A).
Implicit Types (a : A) (ms : list (string * json)).

Definition assign_step (kv : string * json) a : option A :=
  match find_field fs (unquote kv.1) with Some f => f a kv.2 | None => Some a end.

Lemma assign_members_step kv ms a :
  assign_members fs false a (kv :: ms)
  = obind (assign_step kv a) (fun a => assign_members fs false a ms).
Proof.
  destruct kv as [k v]. unfold assign_step. cbn [fst snd assign_members].
  destruct (find_field fs (unquote k)) as [f|]; cbn [obind]; [|done]. by destruct (f a v).
Qed.

Definition steps_commute x y : Prop :=
  forall a, obind (assign_step x a) (assign_step y) = obind (assign_step y a) (assign_step x).

Lemma assign_members_perm ms ms' :
  ms ≡ₚ ms' -> (forall x y, x ∈ ms -> y ∈ ms -> steps_commute x y) ->
  forall a, assign_members fs false a ms = assign_members fs false a ms'.
Proof.
  induction 1 as [|x ms ms' Hp IH|x y ms|ms1 ms2 ms3 Hp1 IH1 Hp2 IH2]; intros Hc a.
  - done.
  - rewrite !assign_members_step. destruct (assign_step x a); cbn; [|done].
    apply IH. intros; apply Hc; set_solver.
  - assert (Htwo : forall u v, assign_members fs false a (u :: v :: ms)
      = obind (obind (assign_step u a) (assign_step v)) (fun a => assign_members fs false a ms)).
    { intros u v. rewrite assign_members_step. destruct (assign_step u a); [|done].
      apply assign_members_step. }
    rewrite !Htwo. f_equal. apply Hc; set_solver.
  - rewrite IH1 by done. apply IH2. intros x y Hx Hy. apply Hc; by rewrite Hp1.
Qed.
End Permuted.

(** [json.Unmarshal] of a stored object, whatever the order [jsonb] gave its
    members: every member [m] performs its update [g]. *)
Definition performs {A} (fs : struct A) (m : member) (g : A -> A) : Prop :=
  forall a, assign_step fs (member_json m) a = Some (g a).

Lemma decode_permuted {A} (fs : struct A) zero (ms ms' : list member) (gs : list (A -> A)) :
  ms' ≡ₚ ms -> Forall2 (performs fs) ms gs ->
  (forall g h, g ∈ gs -> h ∈ gs -> forall a, g (h a) = h (g a)) ->
  decode_struct fs false zero (JObj (map member_json ms'))
  = Some (fold_left (fun a g => g a) gs zero).
Proof.
  intros Hp Hall Hc. cbn [decode_struct].
  rewrite <- (assign_members_perm fs (map member_json ms)).
  - clear Hp Hc. revert zero. induction Hall as [|m g ms gs Hm _ IH]; intros zero; [done|].
    cbn [map fold_left]. rewrite assign_members_step, Hm. apply IH.
  - by rewrite Hp.
  - assert (Hin : forall x, x ∈ map member_json ms ->
      exists g, g ∈ gs /\ forall a, assign_step fs x a = Some (g a)).
    { intros x Hx. apply list_elem_of_fmap in Hx as (m & -> & Hm).
      apply list_elem_of_lookup in Hm as [i Hi].
      destruct (Forall2_lookup_l _ _ _ _ _ Hall Hi) as (g & Hg & Hmg).
      exists g. split; [by eapply list_elem_of_lookup_2|done]. }
    intros x y (g & Hg & Hxg)%Hin (h & Hh & Hyh)%Hin a.
    rewrite Hxg, Hyh. cbn. rewrite Hxg, Hyh. f_equal. by apply Hc.
Qed.

(** Proves [performs fs m g] for a member with a known key. *)
Ltac solve_performs :=
  intros []; unfold assign_step; rewrite ?time_string_field; unfold_members;
  rewrite unquote_plain by reflexivity;
  match goal with
  | |- context [find_field ?fs ?k] =>
    let f := eval cbv -[set_string set_int64 set_bool set_time obind] in (find_field fs k) in
    change (find_field fs k) with f
  end;
  cbn beta iota;
  rewrite ?set_string_plain, ?set_int64_format, ?set_time_format by assumption;
  cbn [obind set_bool]; reflexivity.

(** Proves [Forall2 (performs fs) ms gs] for lists written out. *)
Ltac solve_performs_all :=
  repeat (apply Forall2_cons_2; [solve_performs|]); apply Forall2_nil_2.

(** Proves that updates of different fields commute; [updates] lists them. *)
Ltac solve_commute updates :=
  intros g h; unfold updates; rewrite !elem_of_cons, !elem_of_nil;
  intros Hg Hh; repeat destruct Hg as [->|Hg]; try done;
    repeat destruct Hh as [->|Hh]; try done; by intros [].
