(* ===== verification/Schema.v ===== *)
(** * [migrations/*.sql]: the PostgreSQL database the services share

    A table is a finite map from primary key to row; [insert_*] and [update_*]
    run the table's CHECK, PRIMARY KEY, UNIQUE and FOREIGN KEY constraints and
    answer with PostgreSQL's error codes.  What PostgreSQL decides on its own
    is a parameter: [Jsonb] (how a [jsonb] column gives a text back) and
    [Collation] (the order of [text]). *)

From stdpp Require Import base strings list gmap sorting.
From Stdlib Require Import ZArith Lia Ascii.
From S2P Require Import Prelude GoStrings Sha256 Runtime GoJson GoTime Codec.

Open Scope Z_scope.

(** ** Column types *)

(** Text arguments must be UTF-8 without NUL. *)
Definition text_ok (s : string) : bool :=
  valid_utf8 s && string_forall (fun c => negb (byte_of c =? 0)) s.

Definition with_texts {A} (params : list string) (k : outcome error A) : outcome error A :=
  if forallb text_ok params then k
  else Err (EPg "22021" EmptyString "invalid byte sequence for encoding").

(** [char_length(s)] *)
Definition char_length (s : string) : Z := Z.of_nat (length (runes s)).

Definition is_space (c : ascii) : bool := Ascii.eqb c " ".

Fixpoint drop_spaces (s : string) : string :=
  match s with
  | EmptyString => EmptyString
  | String c s' => if is_space c then drop_spaces s' else s
  end.
Definition rtrim (s : string) : string := String.rev (drop_spaces (String.rev s)).

Fixpoint spaces (n : nat) : string :=
  match n with O => EmptyString | S n' => String " " (spaces n') end.

(** A value stored in a [char(n)] column: blank-padded, excess blanks dropped. *)
Definition bpchar (n : Z) (s : string) : outcome error string :=
  let t := rtrim s in
  if char_length t <=? n then Ok (t +:+ spaces (Z.to_nat (n - char_length t)))
  else Err (EPg "22001" EmptyString "value too long for type character").

(** [=] on [char(n)] ignores trailing blanks. *)
Definition bpchar_eq (a b : string) : bool := String.eqb (rtrim a) (rtrim b).

Definition int4_min : Z := - 2 ^ 31.
Definition int4_max : Z := 2 ^ 31 - 1.

(** pgx encodes an argument for an [integer] only when it fits. *)
Definition with_int4 {A} (z : Z) (k : outcome error A) : outcome error A :=
  if within int4_min z int4_max then k
  else Err (EText "is greater than maximum value for int4").

(** A result computed in [integer]. *)
Definition int4_result {A} (z : Z) (k : outcome error A) : outcome error A :=
  if z <=? int4_max then k else Err (EPg "22003" EmptyString "integer out of range").

(** [timestamptz] keeps microseconds; the clock counts nanoseconds. *)
Definition timestamptz (t : Z) : Z := t / 1000 * 1000.

Definition minutes (n : Z) : Z := n * 60 * ns_per_second.

(** [nullif(s, '')] and [coalesce(o, '')] *)
Definition nullif_empty (s : string) : option string :=
  if String.eqb s EmptyString then None else Some s.
Definition coalesce_text (o : option string) : string :=
  match o with Some s => s | None => EmptyString end.

(** A [numeric] aggregate scanned into an [int64]. *)
Definition scan_int64 (z : Z) : outcome error Z :=
  if in_int64 z then Ok z else Err (EText "cannot scan numeric into *int64").

(** ** Parameters *)

(** [jsonb t] is the text read back from a [jsonb] column given [t]; [None]
    when [t] is not valid JSON. *)
Class Jsonb := jsonb : string -> option string.

Definition jsonb_in `{Jsonb} {A} (t : string) (k : string -> outcome error A) : outcome error A :=
  match jsonb t with
  | Some v => k v
  | None => Err (EPg "22P02" EmptyString "invalid input syntax for type json")
  end.

(** A [bytea not null] parameter of the dead-letter store: its slices are
    copies made by [append([]byte(nil), ...)], nil when empty, and a nil slice is
    sent as NULL. *)
Definition bytea_not_null {A} (column value : string) (k : outcome error A) : outcome error A :=
  if String.eqb value EmptyString
  then Err (EPg "23502" EmptyString ("null value in column " +:+ column))
  else k.

(** Members [jsonb] keeps as they are: plain strings, integers, booleans. *)
Inductive flat_member : member -> Prop :=
| flat_string k s : plain k = true -> plain s = true -> flat_member (string_field k s, JStr s)
| flat_int k z : plain k = true -> flat_member (int_field k z, JNum (FormatInt z))
| flat_bool k b : plain k = true -> flat_member (bool_field k b, JBool b)
| flat_null k : plain k = true -> flat_member (k, "null"%string, JNull).

(** Documented behaviour: [jsonb] keeps the members of an object with distinct
    keys, in an order of its own. *)
Class JsonbSpec `{Jsonb} : Prop :=
  jsonb_object : forall ms : list member,
    Forall flat_member ms -> NoDup (map (fun m => m.1.1) ms) ->
    exists out ms', jsonb (encode_object (map member_text ms)) = Some out
      /\ ms' ≡ₚ ms /\ parse out = Some (JObj (map member_json ms')).

Definition flat_object (ms : list member) : Prop :=
  ms <> [] /\ Forall flat_member ms /\ NoDup (map (fun m => m.1.1) ms).

(** The same for an array of objects: its elements keep their order. *)
Class JsonbArraySpec `{Jsonb} : Prop :=
  jsonb_array : forall objs : list (list member),
    Forall flat_object objs ->
    exists out objs', jsonb (encode_array (map members_text objs)) = Some out
      /\ Forall2 Permutation objs' objs
      /\ parse out = Some (JArr (map members_json objs')).

(** The order of [text] under the database's collation. *)
Class Collation := text_ltb : string -> string -> bool.

Class CollationSpec `{Collation} : Prop := {
  text_ltb_irrefl a : text_ltb a a = false;
  text_ltb_trans a b c : text_ltb a b = true -> text_ltb b c = true -> text_ltb a c = true;
  text_ltb_total a b : a <> b -> text_ltb a b = true \/ text_ltb b a = true;
}.

(** ** Tables *)

Record transaction_row := mk_transaction_row {
  t_kind : string;
  t_account_id : string;
  t_merchant_id : option string;
  t_funding_source : option string;
  t_external_reference : option string;
  t_amount_cents : Z;
  t_currency : string;
  t_status : string;
  t_risk_level : option string;
  t_risk_reason : option string;
  t_correlation_id : string;
  t_created_at : Z;
  t_updated_at : Z;
}.

(** [idempotency_keys] and [deposit_idempotency_keys] *)
Record idempotency_row := mk_idempotency_row {
  i_request_hash : string;
  i_transaction_id : string;
  i_response_json : string;
  i_created_at : Z;
}.

Record outbox_row := mk_outbox_row {
  o_event_type : string;
  o_aggregate_id : string;
  o_partition_key : string;
  o_correlation_id : string;
  o_payload : string;
  o_status : string;
  o_attempts : Z;
  o_last_error : option string;
  o_published_at : option Z;
  o_created_at : Z;
  o_updated_at : Z;
}.

Record ledger_row := mk_ledger_row {
  l_transaction_id : string;
  l_account_id : string;
  l_amount_cents : Z;
  l_currency : string;
  l_created_at : Z;
}.

Record processed_row := mk_processed_row {
  p_payload_sha256 : string;
  p_processed_at : Z;
  p_source_topic : option string;
  p_source_partition : Z;
  p_source_offset : Z;
  p_last_seen_at : Z;
}.

Record action_row := mk_action_row {
  a_action_type : string;
  a_target_id : string;
  a_reason : string;
  a_created_at : Z;
}.

Record dead_letter_row := mk_dead_letter_row {
  d_consumer_name : string;
  d_event_id : option string;
  d_source_topic : string;
  d_source_partition : Z;
  d_source_offset : Z;
  d_message_key : string;
  d_headers : string;
  d_payload : string;
  d_payload_sha256 : string;
  d_error_class : string;
  d_error_message : string;
  d_state : string;
  d_first_failed_at : Z;
  d_last_failed_at : Z;
  d_kafka_published_at : option Z;
  d_replay_count : Z;
  d_version : Z;
}.

Record replay_row := mk_replay_row {
  r_dead_letter_id : string;
  r_reason : string;
  r_result : string;
  r_error_message : option string;
  r_created_at : Z;
  r_completed_at : option Z;
}.

Record DB := mk_DB {
  db_transactions : gmap string transaction_row;
  db_idempotency_keys : gmap string idempotency_row;
  db_deposit_idempotency_keys : gmap string idempotency_row;
  db_outbox_events : gmap string outbox_row;
  db_ledger_entries : gmap string ledger_row;
  db_processed_events : gmap (string * string) processed_row;
  db_operator_actions : gmap string action_row;
  db_dead_letters : gmap string dead_letter_row;
  db_replay_attempts : gmap string replay_row;
}.

Definition empty_DB : DB := mk_DB ∅ ∅ ∅ ∅ ∅ ∅ ∅ ∅ ∅.

Definition set_transactions t db :=
  mk_DB t (db_idempotency_keys db) (db_deposit_idempotency_keys db) (db_outbox_events db)
    (db_ledger_entries db) (db_processed_events db) (db_operator_actions db)
    (db_dead_letters db) (db_replay_attempts db).
Definition set_idempotency_keys t db :=
  mk_DB (db_transactions db) t (db_deposit_idempotency_keys db) (db_outbox_events db)
    (db_ledger_entries db) (db_processed_events db) (db_operator_actions db)
    (db_dead_letters db) (db_replay_attempts db).
Definition set_deposit_idempotency_keys t db :=
  mk_DB (db_transactions db) (db_idempotency_keys db) t (db_outbox_events db)
    (db_ledger_entries db) (db_processed_events db) (db_operator_actions db)
    (db_dead_letters db) (db_replay_attempts db).
Definition set_outbox_events t db :=
  mk_DB (db_transactions db) (db_idempotency_keys db) (db_deposit_idempotency_keys db) t
    (db_ledger_entries db) (db_processed_events db) (db_operator_actions db)
    (db_dead_letters db) (db_replay_attempts db).
Definition set_ledger_entries t db :=
  mk_DB (db_transactions db) (db_idempotency_keys db) (db_deposit_idempotency_keys db)
    (db_outbox_events db) t (db_processed_events db) (db_operator_actions db)
    (db_dead_letters db) (db_replay_attempts db).
Definition set_processed_events t db :=
  mk_DB (db_transactions db) (db_idempotency_keys db) (db_deposit_idempotency_keys db)
    (db_outbox_events db) (db_ledger_entries db) t (db_operator_actions db)
    (db_dead_letters db) (db_replay_attempts db).
Definition set_operator_actions t db :=
  mk_DB (db_transactions db) (db_idempotency_keys db) (db_deposit_idempotency_keys db)
    (db_outbox_events db) (db_ledger_entries db) (db_processed_events db) t
    (db_dead_letters db) (db_replay_attempts db).
Definition set_dead_letters t db :=
  mk_DB (db_transactions db) (db_idempotency_keys db) (db_deposit_idempotency_keys db)
    (db_outbox_events db) (db_ledger_entries db) (db_processed_events db)
    (db_operator_actions db) t (db_replay_attempts db).
Definition set_replay_attempts t db :=
  mk_DB (db_transactions db) (db_idempotency_keys db) (db_deposit_idempotency_keys db)
    (db_outbox_events db) (db_ledger_entries db) (db_processed_events db)
    (db_operator_actions db) (db_dead_letters db) t.

(** ** Constraints *)

Fixpoint first_violation (checks : list (string * bool)) : option string :=
  match checks with
  | [] => None
  | (name, true) :: checks' => first_violation checks'
  | (name, false) :: _ => Some name
  end.

Definition checked {A} (checks : list (string * bool)) (k : outcome error A) : outcome error A :=
  match first_violation checks with
  | Some name => Err (EPg "23514" name "new row violates check constraint")
  | None => k
  end.

Definition unique_violation {A} (name : string) : outcome error A :=
  Err (EPg "23505" name "duplicate key value violates unique constraint").
Definition foreign_key_violation {A} (name : string) : outcome error A :=
  Err (EPg "23503" name "insert or update violates foreign key constraint").

(** Inserts a row whose checks passed: primary key, then what [k] adds. *)
Definition fresh_key {K V A} `{Countable K} (name : string) (t : gmap K V) (key : K)
  (k : outcome error A) : outcome error A :=
  match t !! key with Some _ => unique_violation name | None => k end.

Definition references {V A} (name : string) (t : gmap string V) (key : string)
  (k : outcome error A) : outcome error A :=
  match t !! key with Some _ => k | None => foreign_key_violation name end.

Definition one_of (s : string) (l : list string) : bool := existsb (String.eqb s) l.
Definition opt_forall {A} (p : A -> bool) (o : option A) : bool :=
  match o with Some a => p a | None => true end.
Definition is_null {A} (o : option A) : bool := match o with Some _ => false | None => true end.

(** *** [transactions] *)

Definition transaction_checks (r : transaction_row) : list (string * bool) :=
  [("transactions_account_id_check", safeTokenPattern (t_account_id r));
   ("transactions_amount_cents_check", 0 <? t_amount_cents r);
   ("transactions_correlation_id_check", safeTokenPattern (t_correlation_id r));
   ("transactions_currency_check", currencyPattern (t_currency r));
   ("transactions_external_account_check",
     negb (one_of (t_account_id r) ["clearing"; "external-settlement"]));
   ("transactions_kind_check", one_of (t_kind r) ["PAYMENT"; "DEPOSIT"]);
   ("transactions_kind_fields_check",
     (String.eqb (t_kind r) "PAYMENT" && negb (is_null (t_merchant_id r))
      && is_null (t_funding_source r) && is_null (t_external_reference r))
     || (String.eqb (t_kind r) "DEPOSIT" && is_null (t_merchant_id r)
         && negb (is_null (t_funding_source r)) && negb (is_null (t_external_reference r))));
   ("transactions_merchant_id_check", opt_forall safeTokenPattern (t_merchant_id r));
   ("transactions_risk_level_check", opt_forall (fun l => one_of l ["LOW"; "HIGH"]) (t_risk_level r));
   ("transactions_status_check", one_of (t_status r) ["PENDING"; "AUTHORIZED"; "FAILED"])].

(** The key of [ux_transactions_deposit_source_reference], a partial index. *)
Definition same_deposit_reference (r r' : transaction_row) : bool :=
  String.eqb (t_kind r) "DEPOSIT" && String.eqb (t_kind r') "DEPOSIT"
  && bool_decide (t_funding_source r = t_funding_source r')
  && bool_decide (t_external_reference r = t_external_reference r')
  && String.eqb (t_currency r) (t_currency r').

Definition insert_transaction (id : string) (r : transaction_row) (db : DB) : outcome error DB :=
  checked (transaction_checks r)
    (fresh_key "transactions_pkey" (db_transactions db) id
      (if map_existsb (fun _ r' => same_deposit_reference r r') (db_transactions db)
       then unique_violation "ux_transactions_deposit_source_reference"
       else Ok (set_transactions (<[id := r]> (db_transactions db)) db))).

(** Overwrites a row found by primary key; the deposit reference is kept. *)
Definition update_transaction (id : string) (r : transaction_row) (db : DB) : outcome error DB :=
  checked (transaction_checks r) (Ok (set_transactions (<[id := r]> (db_transactions db)) db)).

(** *** [idempotency_keys], [deposit_idempotency_keys] *)

Definition key_checks (key : string) : list (string * bool) :=
  [("idempotency_keys_key_check", safeTokenPattern key)].

Definition insert_idempotency_key (key : string) (r : idempotency_row) (db : DB) : outcome error DB :=
  checked (key_checks key)
    (fresh_key "idempotency_keys_pkey" (db_idempotency_keys db) key
      (references "idempotency_keys_transaction_id_fkey" (db_transactions db) (i_transaction_id r)
        (Ok (set_idempotency_keys (<[key := r]> (db_idempotency_keys db)) db)))).

Definition deposit_key_checks (key : string) (r : idempotency_row) : list (string * bool) :=
  [("deposit_idempotency_keys_key_check", safeTokenPattern key);
   ("deposit_idempotency_keys_request_hash_check", sha256HexPattern (i_request_hash r))].

Definition insert_deposit_idempotency_key (key : string) (r : idempotency_row) (db : DB)
  : outcome error DB :=
  checked (deposit_key_checks key r)
    (fresh_key "deposit_idempotency_keys_pkey" (db_deposit_idempotency_keys db) key
      (references "deposit_idempotency_keys_transaction_id_fkey" (db_transactions db)
        (i_transaction_id r)
        (Ok (set_deposit_idempotency_keys (<[key := r]> (db_deposit_idempotency_keys db)) db)))).

(** *** [outbox_events] *)

Definition outbox_checks (r : outbox_row) : list (string * bool) :=
  [("outbox_events_attempts_check", 0 <=? o_attempts r);
   ("outbox_events_correlation_id_check", safeTokenPattern (o_correlation_id r));
   ("outbox_events_event_type_check",
     one_of (o_event_type r)
       ["TransactionCreated"; "RiskEvaluated"; "TransactionAuthorized"; "TransactionFailed";
        "FundsDeposited"]);
   ("outbox_events_status_check",
     one_of (o_status r) ["PENDING"; "PROCESSING"; "PUBLISHED"; "DEAD_LETTERED"])].

Definition insert_outbox_event (id : string) (r : outbox_row) (db : DB) : outcome error DB :=
  checked (outbox_checks r)
    (fresh_key "outbox_events_pkey" (db_outbox_events db) id
      (Ok (set_outbox_events (<[id := r]> (db_outbox_events db)) db))).

Definition update_outbox_event (id : string) (r : outbox_row) (db : DB) : outcome error DB :=
  checked (outbox_checks r) (Ok (set_outbox_events (<[id := r]> (db_outbox_events db)) db)).

(** *** [ledger_entries]: insert only (a trigger refuses update and delete) *)

Definition ledger_checks (r : ledger_row) : list (string * bool) :=
  [("ledger_entries_account_id_check", safeTokenPattern (l_account_id r));
   ("ledger_entries_amount_cents_check", negb (l_amount_cents r =? 0));
   ("ledger_entries_currency_check", currencyPattern (l_currency r))].

Definition insert_ledger_entry (id : string) (r : ledger_row) (db : DB) : outcome error DB :=
  checked (ledger_checks r)
    (fresh_key "ledger_entries_pkey" (db_ledger_entries db) id
      (if map_existsb (fun _ r' => String.eqb (l_transaction_id r) (l_transaction_id r')
                                   && String.eqb (l_account_id r) (l_account_id r'))
            (db_ledger_entries db)
       then unique_violation "ledger_entries_transaction_id_account_id_key"
       else references "ledger_entries_transaction_id_fkey" (db_transactions db)
              (l_transaction_id r)
              (Ok (set_ledger_entries (<[id := r]> (db_ledger_entries db)) db)))).

(** *** [processed_events] *)

Definition processed_checks (key : string * string) (r : processed_row) : list (string * bool) :=
  [("processed_events_consumer_name_check", safeTokenPattern key.1);
   ("processed_events_event_id_check", safeTokenPattern key.2);
   ("processed_events_payload_sha256_check", sha256HexPattern (p_payload_sha256 r))].

(** *** [operator_actions] *)

Definition action_checks (r : action_row) : list (string * bool) :=
  [("operator_actions_action_type_check",
     one_of (a_action_type r)
       ["DEPOSIT"; "DLQ_REPLAY"; "DLQ_DISCARD"; "OUTBOX_REQUEUE"; "PROCESSED_PRUNE"]);
   ("operator_actions_reason_check", within 1 (char_length (a_reason r)) 256)].

Definition insert_operator_action (id : string) (r : action_row) (db : DB) : outcome error DB :=
  checked (action_checks r)
    (fresh_key "operator_actions_pkey" (db_operator_actions db) id
      (Ok (set_operator_actions (<[id := r]> (db_operator_actions db)) db))).

(** *** [dead_letter_messages], [dead_letter_replay_attempts] *)

Definition topic_char (c : ascii) : bool := safe_char c && negb (Ascii.eqb c ":").
Definition topicPattern (s : string) : bool :=
  within 1 (len s) 249 && string_forall topic_char s.

Definition dead_letter_checks (id : string) (r : dead_letter_row) : list (string * bool) :=
  [("dead_letter_messages_consumer_name_check", safeTokenPattern (d_consumer_name r));
   ("dead_letter_messages_error_class_check",
     one_of (d_error_class r) ["decode_error"; "validation_error"; "handler_error"]);
   ("dead_letter_messages_error_message_check", within 1 (char_length (d_error_message r)) 512);
   ("dead_letter_messages_event_id_check", opt_forall safeTokenPattern (d_event_id r));
   ("dead_letter_messages_id_check", safeTokenPattern id);
   ("dead_letter_messages_payload_sha256_check", sha256HexPattern (d_payload_sha256 r));
   ("dead_letter_messages_replay_count_check", 0 <=? d_replay_count r);
   ("dead_letter_messages_source_offset_check", 0 <=? d_source_offset r);
   ("dead_letter_messages_source_partition_check", 0 <=? d_source_partition r);
   ("dead_letter_messages_source_topic_check", topicPattern (d_source_topic r));
   ("dead_letter_messages_state_check", one_of (d_state r) ["OPEN"; "REPUBLISHED"; "DISCARDED"]);
   ("dead_letter_messages_version_check", 0 <? d_version r)].

Definition replay_checks (r : replay_row) : list (string * bool) :=
  [("dead_letter_replay_attempts_error_message_check",
     opt_forall (fun m => char_length m <=? 512) (r_error_message r));
   ("dead_letter_replay_attempts_reason_check", within 1 (char_length (r_reason r)) 256);
   ("dead_letter_replay_attempts_result_check",
     one_of (r_result r) ["PENDING"; "PUBLISHED"; "FAILED"])].

(** The partial unique index: one pending attempt per dead letter. *)
Definition pending_attempt (dead_letter_id : string) (r : replay_row) : bool :=
  String.eqb (r_dead_letter_id r) dead_letter_id && String.eqb (r_result r) "PENDING".

(** ** Running SQL from Go *)

(** A statement that changes the database or fails and changes nothing. *)
Definition exec {A} (db : DB) (o : outcome error (A * DB)) : outcome error A * DB :=
  match o with
  | Ok (a, db') => (Ok a, db')
  | Err e => (Err e, db)
  end.
Definition exec_ (db : DB) (o : outcome error DB) : outcome error unit * DB :=
  match o with
  | Ok db' => (Ok tt, db')
  | Err e => (Err e, db)
  end.

(** Sequencing inside one SQL statement. *)
Definition obind_ok {A B} (o : outcome error A) (k : A -> outcome error B) : outcome error B :=
  match o with Ok a => k a | Err e => Err e end.

(** ** Rows in [created_at, id] order *)

Section Ordering.
Context `{Collation}.

(** [(t1, id1) < (t2, id2)] *)
Definition row_ltb (a b : Z * string) : bool :=
  (a.1 <? b.1) || ((a.1 =? b.1) && text_ltb a.2 b.2).

Definition row_le (a b : Z * string) : Prop := row_ltb b a = false.
#[export] Instance row_le_dec a b : Decision (row_le a b).
Proof. unfold row_le. solve_decision. Defined.

(** [order by stamp, id] (ascending) and [... desc] over the rows of a table. *)
Definition asc {V} (stamp : V -> Z) (x y : string * V) : Prop :=
  row_le (stamp x.2, x.1) (stamp y.2, y.1).
Definition desc {V} (stamp : V -> Z) (x y : string * V) : Prop := asc stamp y x.
#[export] Instance asc_dec {V} (stamp : V -> Z) x y : Decision (asc stamp x y).
Proof. unfold asc. apply _. Defined.
#[export] Instance desc_dec {V} (stamp : V -> Z) x y : Decision (desc stamp x y).
Proof. unfold desc. apply _. Defined.
End Ordering.

(** ** Lemmas *)

Lemma checked_ok {A} checks (k : outcome error A) a :
  checked checks k = Ok a -> Forall (fun c => c.2 = true) checks /\ k = Ok a.
Proof.
  unfold checked. induction checks as [|[name []] checks IH]; cbn; [auto| |].
  - intros [? ?]%IH. auto.
  - congruence.
Qed.

Lemma fresh_key_ok {K V A} `{Countable K} name (t : gmap K V) key (k : outcome error A) a :
  fresh_key name t key k = Ok a -> t !! key = None /\ k = Ok a.
Proof. unfold fresh_key. destruct (t !! key); [done|auto]. Qed.

Lemma references_ok {V A} name (t : gmap string V) key (k : outcome error A) a :
  references name t key k = Ok a -> is_Some (t !! key) /\ k = Ok a.
Proof. unfold references. destruct (t !! key); [eauto|done]. Qed.

Lemma with_texts_ok {A} params (k : outcome error A) a :
  with_texts params k = Ok a -> k = Ok a.
Proof. unfold with_texts. by destruct (forallb _ _). Qed.

Lemma with_int4_ok {A} z (k : outcome error A) a :
  with_int4 z k = Ok a -> int4_min <= z <= int4_max /\ k = Ok a.
Proof. unfold with_int4. destruct (within _ _ _) eqn:E; [|done]. apply within_iff in E. auto. Qed.

Lemma int4_result_ok {A} z (k : outcome error A) a : int4_result z k = Ok a -> k = Ok a.
Proof. unfold int4_result. by destruct (_ <=? _). Qed.

Lemma bytea_not_null_ok {A} column value (k : outcome error A) a :
  bytea_not_null column value k = Ok a -> value <> EmptyString /\ k = Ok a.
Proof. unfold bytea_not_null. destruct (String.eqb _ _) eqn:E; [done|]. by reflect_bools. Qed.
Lemma jsonb_in_ok `{Jsonb} {A} t (k : string -> outcome error A) a :
  jsonb_in t k = Ok a -> exists v, jsonb t = Some v /\ k v = Ok a.
Proof. unfold jsonb_in. destruct (jsonb t); [eauto|done]. Qed.

Lemma obind_ok_ok {A B} (o : outcome error A) (k : A -> outcome error B) b :
  obind_ok o k = Ok b -> exists a, o = Ok a /\ k a = Ok b.
Proof. destruct o; cbn; [eauto|done]. Qed.

Lemma exec__inv db o (r : outcome error unit) db' :
  exec_ db o = (r, db') -> (o = Ok db' /\ r = Ok tt) \/ (exists e, o = Err e /\ r = Err e /\ db' = db).
Proof. unfold exec_. destruct o; naive_solver. Qed.

Lemma exec__ok db o db' : exec_ db o = (Ok tt, db') -> o = Ok db'.
Proof. unfold exec_. destruct o; naive_solver. Qed.

Lemma exec_ok {A} db (o : outcome error (A * DB)) a db' :
  exec db o = (Ok a, db') -> o = Ok (a, db').
Proof. unfold exec. destruct o as [[]|]; naive_solver. Qed.

Lemma exec_err {A} db (o : outcome error (A * DB)) e db' :
  exec db o = (Err e, db') -> o = Err e /\ db' = db.
Proof. unfold exec. destruct o as [[]|]; naive_solver. Qed.

Lemma insert_transaction_ok id r db db' :
  insert_transaction id r db = Ok db' ->
  Forall (fun c => c.2 = true) (transaction_checks r)
  /\ db_transactions db !! id = None
  /\ (forall id' r', db_transactions db !! id' = Some r' -> same_deposit_reference r r' = false)
  /\ db' = set_transactions (<[id := r]> (db_transactions db)) db.
Proof.
  unfold insert_transaction. intros [? [? Hk]%fresh_key_ok]%checked_ok.
  destruct (map_existsb _ _) eqn:E; [done|]. injection Hk as <-.
  rewrite map_existsb_false in E. auto.
Qed.

Lemma insert_ledger_entry_ok id r db db' :
  insert_ledger_entry id r db = Ok db' ->
  Forall (fun c => c.2 = true) (ledger_checks r)
  /\ db_ledger_entries db !! id = None
  /\ (forall id' r', db_ledger_entries db !! id' = Some r' ->
        l_transaction_id r <> l_transaction_id r' \/ l_account_id r <> l_account_id r')
  /\ is_Some (db_transactions db !! l_transaction_id r)
  /\ db' = set_ledger_entries (<[id := r]> (db_ledger_entries db)) db.
Proof.
  unfold insert_ledger_entry. intros [? [? Hk]%fresh_key_ok]%checked_ok.
  destruct (map_existsb _ _) eqn:E; [done|]. apply references_ok in Hk as [? Hk].
  injection Hk as <-. rewrite map_existsb_false in E. repeat split; auto.
  intros id' r' Hr'. specialize (E id' r' Hr'). apply andb_false_iff in E as [E|E]; reflect_bools; auto.
Qed.

(** What the CHECKs of [transactions] leave possible. *)
Lemma transaction_checks_inv r :
  Forall (fun c => c.2 = true) (transaction_checks r) ->
  safeTokenPattern (t_account_id r) = true /\ 0 < t_amount_cents r
  /\ safeTokenPattern (t_correlation_id r) = true /\ currencyPattern (t_currency r) = true
  /\ t_account_id r <> "clearing" /\ t_account_id r <> "external-settlement"
  /\ one_of (t_status r) ["PENDING"; "AUTHORIZED"; "FAILED"] = true.
Proof.
  unfold transaction_checks. rewrite !Forall_cons. cbn [snd].
  intros (? & ? & ? & ? & He & _ & _ & _ & _ & ? & _).
  cbn in He. rewrite orb_false_r in He. reflect_bools. split_and!; try done; lia.
Qed.

(** *** SQL errors are no sentinels *)

Lemma plain_with_texts {A} ps (k : outcome error A) :
  plain_outcome k -> plain_outcome (with_texts ps k).
Proof. unfold with_texts. by destruct (forallb _ _). Qed.
Lemma plain_with_int4 {A} z (k : outcome error A) :
  plain_outcome k -> plain_outcome (with_int4 z k).
Proof. unfold with_int4. by destruct (within _ _ _). Qed.
Lemma plain_int4_result {A} z (k : outcome error A) :
  plain_outcome k -> plain_outcome (int4_result z k).
Proof. unfold int4_result. by destruct (_ <=? _). Qed.
Lemma plain_checked {A} cs (k : outcome error A) : plain_outcome k -> plain_outcome (checked cs k).
Proof. unfold checked. by destruct (first_violation cs). Qed.
Lemma plain_fresh_key {K V A} `{Countable K} n (t : gmap K V) key (k : outcome error A) :
  plain_outcome k -> plain_outcome (fresh_key n t key k).
Proof. unfold fresh_key. by destruct (t !! key). Qed.
Lemma plain_references {V A} n (t : gmap string V) key (k : outcome error A) :
  plain_outcome k -> plain_outcome (references n t key k).
Proof. unfold references. by destruct (t !! key). Qed.
Lemma plain_bpchar n s : plain_outcome (bpchar n s).
Proof. unfold bpchar. by case_match. Qed.
Lemma plain_jsonb_in `{Jsonb} {A} t (k : string -> outcome error A) :
  (forall v, plain_outcome (k v)) -> plain_outcome (jsonb_in t k).
Proof. unfold jsonb_in. destruct (jsonb t); [done|]. by intros _. Qed.
Lemma plain_obind_ok {A B} (o : outcome error A) (k : A -> outcome error B) :
  plain_outcome o -> (forall a, plain_outcome (k a)) -> plain_outcome (obind_ok o k).
Proof. destruct o; cbn; auto. Qed.
Lemma plain_scan_int64 z : plain_outcome (scan_int64 z).
Proof. unfold scan_int64. by case_match. Qed.
Lemma plain_exec_ db o : plain_outcome o -> plain_outcome (exec_ db o).1.
Proof. unfold exec_. by destruct o. Qed.
Lemma plain_exec {A} db (o : outcome error (A * DB)) : plain_outcome o -> plain_outcome (exec db o).1.
Proof. unfold exec. by destruct o as [[]|]. Qed.

#[export] Hint Resolve plain_bpchar plain_scan_int64 : plain.

(** Proves [plain_errors m] for a call made of SQL statements. *)
Ltac solve_plain :=
  repeat first
    [ progress intros
    | solve [auto with plain]
    | apply plain_errors_bind | apply plain_errors_wrapf
    | apply plain_errors_statement | apply plain_errors_round_trip
    | apply plain_exec_ | apply plain_exec | apply plain_with_texts | apply plain_with_int4
    | apply plain_int4_result
    | apply plain_checked | apply plain_fresh_key | apply plain_references
    | apply plain_jsonb_in | apply plain_obind_ok
    | exact I | (intros ?; reflexivity)
    | case_match ].

(** *** Texts PostgreSQL takes *)

Definition clean_char (c : ascii) : bool := is_ascii c && negb (byte_of c =? 0).
Definition clean (s : string) : bool := string_forall clean_char s.

Lemma clean_text s : clean s = true -> text_ok s = true.
Proof.
  intros Hs. unfold text_ok. apply andb_true_iff. split.
  - apply valid_utf8_ascii. revert Hs. apply string_forall_impl. by intros c [Hc _]%andb_true_iff.
  - revert Hs. apply string_forall_impl. by intros c [_ Hc]%andb_true_iff.
Qed.

Lemma plain_clean s : plain s = true -> clean s = true.
Proof. apply string_forall_impl. apply implb_bytes. by vm_compute. Qed.
Lemma plain_text s : plain s = true -> text_ok s = true.
Proof. intros Hs. by apply clean_text, plain_clean. Qed.
Lemma token_text s : safeTokenPattern s = true -> text_ok s = true.
Proof. intros Hs. by apply plain_text, safeToken_plain. Qed.
Lemma currency_text s : currencyPattern s = true -> text_ok s = true.
Proof. intros Hs. by apply plain_text, currency_plain. Qed.
Lemma sha256_text s : text_ok (sha256_hex s) = true.
Proof.
  apply plain_text. pose proof (sha256_hex_pattern s) as Hs. unfold sha256HexPattern in Hs.
  destruct_bools. eapply string_forall_impl; [|done]. apply implb_bytes. by vm_compute.
Qed.

Lemma checked_true {A} cs (k : outcome error A) :
  Forall (fun c : string * bool => c.2 = true) cs -> checked cs k = k.
Proof.
  intros Hcs. unfold checked. assert (first_violation cs = None) as ->; [|done].
  induction Hcs as [|[n b] cs Hb _ IH]; [done|]. cbn in *. by rewrite Hb.
Qed.

Lemma with_texts_run {A} params (k : outcome error A) :
  Forall (fun s => text_ok s = true) params -> with_texts params k = k.
Proof.
  intros Hp. unfold with_texts. replace (forallb text_ok params) with true; [done|].
  induction Hp as [|s params Hs _ IH]; [done|]. cbn. by rewrite Hs.
Qed.

(** *** Fixed-width text *)

Lemma drop_spaces_none s :
  string_forall (fun c => negb (is_space c)) s = true -> drop_spaces s = s.
Proof.
  destruct s as [|c s]; [done|]. cbn. intros Hs. destruct_bools.
  by replace (is_space c) with false.
Qed.

Lemma rtrim_none s : string_forall (fun c => negb (is_space c)) s = true -> rtrim s = s.
Proof.
  intros Hs. unfold rtrim. rewrite drop_spaces_none; [|by rewrite string_forall_rev].
  apply rev_involutive_string.
Qed.

Lemma safe_char_nonspace c : safe_char c = true -> negb (is_space c) = true.
Proof. revert c. apply implb_bytes. by vm_compute. Qed.

Lemma rtrim_safe s : string_forall safe_char s = true -> rtrim s = s.
Proof.
  intros Hs. apply rtrim_none. revert Hs. apply string_forall_impl, safe_char_nonspace.
Qed.

Lemma length_bytes_of s : Z.of_nat (length (bytes_of s)) = len s.
Proof.
  unfold len. f_equal. induction s as [|c s IH]; [done|]. cbn. by rewrite IH.
Qed.

Lemma char_length_safe s : string_forall safe_char s = true -> char_length s = len s.
Proof.
  intros Hs. unfold char_length. rewrite runes_ascii; [apply length_bytes_of|].
  revert Hs. apply string_forall_impl, safe_char_ascii.
Qed.

Lemma bpchar_exact n s :
  string_forall safe_char s = true -> len s = n -> bpchar n s = Ok s.
Proof.
  intros Hs <-. unfold bpchar. rewrite rtrim_safe, char_length_safe by done.
  rewrite (proj2 (Z.leb_le _ _)) by lia. by rewrite Z.sub_diag, app_nil_r_string.
Qed.

Lemma bpchar_currency s : currencyPattern s = true -> bpchar 3 s = Ok s.
Proof.
  intros Hs. apply bpchar_exact; [by apply currency_safe_chars|].
  unfold currencyPattern in Hs. destruct_bools. lia.
Qed.

Lemma bpchar_sha256 s : sha256HexPattern s = true -> bpchar 64 s = Ok s.
Proof.
  unfold sha256HexPattern. intros Hs. destruct_bools. apply bpchar_exact; [|lia].
  eapply string_forall_impl; [|done]. intros c Hc.
  by apply (implb_bytes hex_char safe_char ltac:(by vm_compute)).
Qed.

(** *** Objects stored as [jsonb] *)

Lemma flat_time k t :
  plain k = true -> flat_member (time_field k t, JStr (format_rfc3339_nano t)).
Proof.
  intros Hk. rewrite time_string_field. apply flat_string; [done|apply format_rfc3339_nano_plain].
Qed.

(** A flat object written to a [jsonb] column can be read back, and decodes to
    what its members write into a struct, in whatever order they come back. *)
Lemma stored_object `{JsonbSpec} {A} (fs : struct A) zero (ms : list member)
  (gs : list (A -> A)) a :
  Forall flat_member ms -> bool_decide (NoDup (map (fun m => m.1.1) ms)) = true ->
  Forall2 (performs fs) ms gs ->
  (forall g h, g ∈ gs -> h ∈ gs -> forall a, g (h a) = h (g a)) ->
  fold_left (fun a g => g a) gs zero = a ->
  exists out, jsonb (encode_object (map member_text ms)) = Some out
  /\ obind (parse out) (decode_struct fs false zero) = Some a.
Proof.
  intros Hflat Hnd%bool_decide_eq_true Hperf Hcomm <-.
  destruct (jsonb_object ms Hflat Hnd) as (out & ms' & Hout & Hp & Hparse).
  exists out. split; [exact Hout|]. rewrite Hparse. cbn [obind].
  exact (decode_permuted fs zero ms ms' gs Hp Hperf Hcomm).
Qed.

(** Proves [Forall flat_member ms] for members written out. *)
Ltac solve_flat :=
  repeat (apply Forall_cons_2; [by (constructor || apply flat_time)|]); apply Forall_nil_2.

(** *** Order *)

Section OrderingLemmas.
Context `{CollationSpec}.

Lemma row_ltb_irrefl a : row_ltb a a = false.
Proof.
  unfold row_ltb. by rewrite Z.ltb_irrefl, Z.eqb_refl, text_ltb_irrefl.
Qed.

Lemma row_ltb_iff a b :
  row_ltb a b = true <-> a.1 < b.1 \/ (a.1 = b.1 /\ text_ltb a.2 b.2 = true).
Proof.
  unfold row_ltb. rewrite orb_true_iff, andb_true_iff, Z.ltb_lt, Z.eqb_eq. done.
Qed.

Lemma row_ltb_trans a b c : row_ltb a b = true -> row_ltb b c = true -> row_ltb a c = true.
Proof.
  rewrite !row_ltb_iff. intros [?|[? ?]] [?|[? ?]]; try (left; lia).
  right. split; [lia|]. by eapply text_ltb_trans.
Qed.

Lemma row_ltb_total a b : a <> b -> row_ltb a b = true \/ row_ltb b a = true.
Proof.
  rewrite !row_ltb_iff. destruct a as [t1 i1], b as [t2 i2]. cbn. intros Hne.
  destruct (Z.lt_trichotomy t1 t2) as [|[->|]]; auto.
  destruct (text_ltb_total i1 i2) as [?|?]; [congruence|auto..].
Qed.

Lemma row_ltb_asym a b : row_ltb a b = true -> row_ltb b a = false.
Proof.
  intros Hab. destruct (row_ltb b a) eqn:Hba; [|done].
  rewrite <- (row_ltb_irrefl a). symmetry. by eapply row_ltb_trans.
Qed.

#[export] Instance row_le_trans : Transitive row_le.
Proof.
  intros a b c Hab Hbc. unfold row_le in *. destruct (row_ltb c a) eqn:Hca; [|done].
  destruct (decide (a = b)) as [->|Hne]; [congruence|].
  destruct (row_ltb_total a b Hne) as [Hlt|Hlt]; [|congruence].
  rewrite (row_ltb_trans c a b) in Hbc by done. done.
Qed.

#[export] Instance row_le_total : Total row_le.
Proof.
  intros a b. unfold row_le. destruct (row_ltb b a) eqn:E; [right|by left].
  by apply row_ltb_asym.
Qed.

#[export] Instance asc_trans {V} (stamp : V -> Z) : Transitive (asc stamp).
Proof. intros x y z. unfold asc. apply row_le_trans. Qed.
#[export] Instance asc_total {V} (stamp : V -> Z) : Total (asc stamp).
Proof. intros x y. unfold asc. apply row_le_total. Qed.
#[export] Instance desc_trans {V} (stamp : V -> Z) : Transitive (desc stamp).
Proof. intros x y z Hxy Hyz. unfold desc in *. by etrans. Qed.
#[export] Instance desc_total {V} (stamp : V -> Z) : Total (desc stamp).
Proof. intros x y. unfold desc. destruct (total (asc stamp) x y); auto. Qed.
End OrderingLemmas.
