(* ===== verification/ConsumerLoop.v ===== *)
(** * [internal/consumer/loop.go]: the loop that feeds the risk and ledger services

    Fetch a message, try to handle it, park it in the dead-letter store when
    every attempt failed, then commit its offset.  The loop runs over the
    script of what [FetchMessage] returns until the context is cancelled. *)

From stdpp Require Import base strings list.
From Stdlib Require Import ZArith Lia.
From S2P Require Import Prelude GoStrings Runtime.

Open Scope Z_scope.

Record Delivery := mk_Delivery {
  dl_ConsumerName : string;
  dl_EventID : string;
  dl_SourceTopic : string;
  dl_SourcePartition : Z;
  dl_SourceOffset : Z;
}.

Module Consumer.

Record Config := mk_Config {
  cf_Name : string;
  cf_MaxAttempts : Z;
  cf_RetryBaseDelay : Z;
}.

(** What [reader.FetchMessage] returns: a message, an error, or an error
    because the context is done. *)
Inductive fetch :=
| Fetched (message : Message)
| FetchFailed
| FetchCancelled.

(** What the loop is given: the reader's [CommitMessages], the dead-letterer,
    and the wait between attempts, which reports whether the timer fired
    before the context was done. *)
Class LoopEnv (S : Type) := {
  CommitMessages : Message -> M S unit;
  MoveToDeadLetter : Message -> error -> M S unit;
  WaitTimer : Z -> M S bool;
}.

Section Loop.
Context {S : Type} `{LoopEnv S}.

(** [retry]: attempt number [attempt] of [maxAttempts], [n] of them left.
    [None] is nil. *)
Fixpoint retry_from (n : nat) (attempt maxAttempts baseDelay : Z) (fn : M S unit)
  (onRetry : M S unit) (last : option error) : M S (option error) :=
  match n with
  | O => ret last
  | Datatypes.S n' =>
    try! r := fn in
    match r with
    | Ok _ => ret None
    | Err err =>
      let! _ := if attempt <? maxAttempts then onRetry else ret tt in
      let delay := wrap64 (attempt * baseDelay) in
      if delay <=? 0 then
        retry_from n' (attempt + 1) maxAttempts baseDelay fn onRetry (Some err)
      else
        let! fired := WaitTimer delay in
        if fired then
          retry_from n' (attempt + 1) maxAttempts baseDelay fn onRetry (Some err)
        else ret (Some (ESentinel context_Canceled))
    end
  end.

Definition retry (maxAttempts baseDelay : Z) (fn onRetry : M S unit) : M S (option error) :=
  retry_from (Z.to_nat maxAttempts) 1 maxAttempts baseDelay fn onRetry None.

Definition attempts_of (config : Config) : Z :=
  if cf_MaxAttempts config <=? 0 then 3 else cf_MaxAttempts config.

(** The body of the loop after a successful fetch. *)
Definition process (config : Config) (handle : Message -> M S unit) (message : Message)
  : M S unit :=
  let! err := retry (attempts_of config) (cf_RetryBaseDelay config) (handle message)
                (emit (IncConsumerRetry (cf_Name config) (msg_Topic message))) in
  let finish (result : string) :=
    try! committed := CommitMessages message in
    let! _ := match committed with
              | Err _ => emit (IncOffsetCommitFailure (cf_Name config) (msg_Topic message))
              | Ok _ => ret tt
              end in
    emit (ObserveConsumerMessage (cf_Name config) (msg_Topic message) result) in
  match err with
  | None => finish "processed"%string
  | Some cause =>
    try! moved := MoveToDeadLetter message cause in
    match moved with
    | Err _ => emit (ObserveConsumerMessage (cf_Name config) (msg_Topic message) "dlq_error")
    | Ok _ => finish "dlq"%string
    end
  end.

Fixpoint RunLoop (config : Config) (handle : Message -> M S unit) (fetches : list fetch)
  : M S unit :=
  match fetches with
  | [] | FetchCancelled :: _ => ret tt
  | FetchFailed :: rest => RunLoop config handle rest
  | Fetched message :: rest =>
    let! _ := process config handle message in
    RunLoop config handle rest
  end.
End Loop.

(** ** Theorems *)

Section Retry.
Context {S : Type} `{LoopEnv S}.
Implicit Types (w : World S).

(** [fn] failed [n] times in a row, with the pauses in between. *)
Inductive failures (baseDelay maxAttempts : Z) (fn onRetry : M S unit)
  : nat -> Z -> World S -> error -> World S -> Prop :=
| failures_one attempt w e w1 w2 w3 :
    fn w = (Err e, w1) ->
    (if attempt <? maxAttempts then onRetry else ret tt) w1 = (Ok tt, w2) ->
    (if wrap64 (attempt * baseDelay) <=? 0 then ret true
     else WaitTimer (wrap64 (attempt * baseDelay))) w2 = (Ok true, w3) ->
    failures baseDelay maxAttempts fn onRetry 1 attempt w e w3
| failures_more n attempt w e w1 e' w2 :
    failures baseDelay maxAttempts fn onRetry 1 attempt w e w1 ->
    failures baseDelay maxAttempts fn onRetry n (attempt + 1) w1 e' w2 ->
    failures baseDelay maxAttempts fn onRetry (Datatypes.S n) attempt w e' w2.

(** [retry] returns nil exactly when an attempt succeeded, at the first that
    did; it gives up after [maxAttempts] failures with the last error. *)
Lemma retry_from_inv n attempt maxAttempts base fn onRetry last w r w' :
  (0 < n)%nat ->
  retry_from n attempt maxAttempts base fn onRetry last w = (Ok r, w') ->
  match r with
  | None => fn w = (Ok tt, w')
      \/ exists k e w1, (k < n)%nat /\ failures base maxAttempts fn onRetry k attempt w e w1
         /\ fn w1 = (Ok tt, w')
  | Some e => failures base maxAttempts fn onRetry n attempt w e w'
      \/ e = ESentinel context_Canceled
  end.
Proof.
  revert attempt last w. induction n as [|n IH]; intros attempt last w Hn; [lia|].
  cbn [retry_from]. intros (o & w1 & Hfn & Hrun)%attempt_inv.
  destruct o as [[]|err]; [injection Hrun as <- <-; by left|].
  apply bind_ok in Hrun as ([] & w2 & Hre & Hrun).
  assert (Hcont : forall w3,
    (if wrap64 (attempt * base) <=? 0 then ret true
     else WaitTimer (wrap64 (attempt * base))) w2 = (Ok true, w3) ->
    retry_from n (attempt + 1) maxAttempts base fn onRetry (Some err) w3 = (Ok r, w') ->
    match r with
    | None => fn w = (Ok tt, w')
        \/ exists k e w1, (k < Datatypes.S n)%nat
           /\ failures base maxAttempts fn onRetry k attempt w e w1 /\ fn w1 = (Ok tt, w')
    | Some e => failures base maxAttempts fn onRetry (Datatypes.S n) attempt w e w'
        \/ e = ESentinel context_Canceled
    end).
  { intros w3 Hw3 Hrec.
    pose proof (failures_one base maxAttempts fn onRetry _ _ _ _ _ _ Hfn Hre Hw3) as H1.
    destruct n as [|n'].
    { injection Hrec as <- <-. by left. }
    apply IH in Hrec; [|lia]. destruct r as [e|].
    - destruct Hrec as [Hf|?]; [left|by right]. by eapply failures_more.
    - right. destruct Hrec as [Hok|(k & e & w4 & Hk & Hf & Hok)].
      + exists 1%nat, err, w3. split_and!; [lia|done|done].
      + exists (Datatypes.S k), e, w4. split_and!; [lia| |done]. by eapply failures_more. }
  destruct (wrap64 (attempt * base) <=? 0) eqn:Hd.
  - by apply (Hcont w2).
  - apply bind_ok in Hrun as (fired & w3 & Hwait & Hrun). destruct fired.
    + by apply (Hcont w3).
    + injection Hrun as <- <-. by right.
Qed.
End Retry.

End Consumer.
