(* ===== verification/KafkaBus.v ===== *)
(** * [internal/kafkabus/bus.go]: messages to and from Kafka

    The broker keeps what it accepted in [w_broker]; a write that fails may
    have been accepted all the same (at-least-once). *)

From stdpp Require Import base strings list.
From Stdlib Require Import ZArith Lia.
From S2P Require Import Prelude GoStrings Runtime Domain.

Open Scope Z_scope.

Definition TopicTransactionCreated : string := "transactions.created".
Definition TopicRiskEvaluated : string := "risk.evaluated".
Definition TopicTransactionAuthorized : string := "transactions.authorized".
Definition TopicTransactionFailed : string := "transactions.failed".
Definition TopicFundsDeposited : string := "funding.deposited".
Definition TopicDeadLetter : string := "dead-letter".

Section Bus.
Context {S : Type}.

(** [kafka.Writer.WriteMessages] with [RequireAll]. *)
Definition WriteMessages (topic : string) (message : Message) : M S unit :=
  fun w =>
    let w1 := pop true w in
    let accepted := set_broker (w_broker w1 ++ [(topic, message)]) w1 in
    match sl_fault (next_slot w) with
    | NoFault => (Ok tt, accepted)
    | FailBefore => (Err connection_lost, w1)
    | FailAfter => (Err connection_lost, accepted)
    end.

Definition PublishMessage (topic : string) (message : Message) : M S unit :=
  try! written := WriteMessages topic message in
  match written with
  | Err err =>
    let! _ := emit (KafkaPublish topic "error") in
    fail (EWrap "write kafka message" err)
  | Ok _ => emit (KafkaPublish topic "ok")
  end.

(** Each header copied with a copy of its bytes ([append([]byte(nil), ...)]). *)
Definition cloneHeaders (headers : list Header) : list Header :=
  map (fun header => mk_header (hdr_Key header) (EmptyString +:+ hdr_Value header)) headers.

Definition newMessage (partitionKey eventID correlationID payload : string) : Message :=
  mk_message EmptyString 0 0 partitionKey payload
    [mk_header "event_id" eventID; mk_header "correlation_id" correlationID].

Definition Publish (topic partitionKey eventID correlationID payload : string) : M S unit :=
  PublishMessage topic (newMessage partitionKey eventID correlationID payload).

Definition moveToDeadLetter (message : Message)
  (writeDeadLetter : string -> Message -> M S unit) : M S unit :=
  let deadLetter := mk_message EmptyString 0 0 (msg_Key message) (msg_Value message)
    (cloneHeaders (msg_Headers message)
     ++ [mk_header "source_topic" (msg_Topic message);
         mk_header "source_partition" (FormatInt (msg_Partition message));
         mk_header "source_offset" (FormatInt (msg_Offset message))]) in
  writeDeadLetter TopicDeadLetter deadLetter.

Definition Move (message : Message) : M S unit := moveToDeadLetter message PublishMessage.
End Bus.

(** The first header with key [event_id], or the key of a legacy message. *)
Definition EventID (message : Message) : outcome error string :=
  match List.find (fun h => String.eqb (hdr_Key h) "event_id") (msg_Headers message) with
  | Some header =>
    if len (hdr_Value header) =? 0 then Err (EText "event_id header is empty")
    else Ok (hdr_Value header)
  | None =>
    let legacyKey := msg_Key message in
    if HasPrefix legacyKey "evt_" || HasPrefix legacyKey "msg_" then Ok legacyKey
    else Err (EText "event_id header is required")
  end.

Definition TopicFor (eventType : string) : string :=
  if String.eqb eventType EventTransactionCreated then TopicTransactionCreated
  else if String.eqb eventType EventRiskEvaluated then TopicRiskEvaluated
  else if String.eqb eventType EventTransactionAuthorized then TopicTransactionAuthorized
  else if String.eqb eventType EventTransactionFailed then TopicTransactionFailed
  else if String.eqb eventType EventFundsDeposited then TopicFundsDeposited
  else TopicDeadLetter.

(** ** Lemmas *)

(** Copies are equal; the model's values are never shared. *)
Lemma cloneHeaders_same headers : cloneHeaders headers = headers.
Proof. induction headers as [|[k v] hs IH]; [done|]. cbn. by f_equal. Qed.

Lemma EventID_newMessage key id corr payload :
  id <> EmptyString -> EventID (newMessage key id corr payload) = Ok id.
Proof.
  intros Hid. unfold EventID. cbn. destruct id as [|c id]; [done|].
  rewrite (proj2 (Z.eqb_neq _ _)); [done|]. unfold len. cbn. lia.
Qed.

(** A dead letter keeps the identity of the message it copies. *)
Lemma EventID_moved message extra :
  forall id, EventID message = Ok id ->
  EventID (mk_message EmptyString 0 0 (msg_Key message) (msg_Value message)
             (cloneHeaders (msg_Headers message) ++ extra)) = Ok id
  \/ (List.find (fun h => String.eqb (hdr_Key h) "event_id") (msg_Headers message) = None
      /\ List.find (fun h => String.eqb (hdr_Key h) "event_id") extra <> None).
Proof.
  intros id. rewrite cloneHeaders_same. unfold EventID. cbn.
  assert (Happ : forall l l', List.find (fun h => String.eqb (hdr_Key h) "event_id") (l ++ l')
    = match List.find (fun h => String.eqb (hdr_Key h) "event_id") l with
      | Some h => Some h
      | None => List.find (fun h => String.eqb (hdr_Key h) "event_id") l'
      end).
  { induction l as [|h l IH]; intros l'; [done|]. cbn. by destruct (String.eqb _ _). }
  rewrite Happ. destruct (List.find _ (msg_Headers message)) as [h|]; [by left|].
  destruct (List.find _ extra); [by right|by left].
Qed.

Section Lemmas.
Context {S : Type}.
Implicit Types (w : World S).

Lemma WriteMessages_inv topic message w r w' :
  WriteMessages topic message w = (r, w') ->
  w_store w' = arrived w /\ w_clock w <= w_clock w' /\ w_metrics w' = w_metrics w
  /\ ((r = Ok tt /\ w_broker w' = w_broker w ++ [(topic, message)])
      \/ (r = Err connection_lost
          /\ (w_broker w' = w_broker w \/ w_broker w' = w_broker w ++ [(topic, message)]))).
Proof.
  unfold WriteMessages, arrived. destruct (sl_fault (next_slot w)); intros [= <- <-]; cbn;
    (split_and!; [done|lia|done|]); auto.
Qed.

Lemma PublishMessage_inv topic message w r w' :
  PublishMessage topic message w = (r, w') ->
  w_store w' = arrived w
  /\ ((r = Ok tt /\ w_broker w' = w_broker w ++ [(topic, message)]
       /\ w_metrics w' = w_metrics w ++ [KafkaPublish topic "ok"])
      \/ (is_ok r = false /\ w_metrics w' = w_metrics w ++ [KafkaPublish topic "error"]
          /\ (w_broker w' = w_broker w \/ w_broker w' = w_broker w ++ [(topic, message)]))).
Proof.
  unfold PublishMessage. intros (o & w1 & Hw & Hrun)%attempt_inv.
  apply WriteMessages_inv in Hw as (Hst & _ & Hm & Hb).
  destruct Hb as [[-> Hb]|[-> Hb]]; injection Hrun as <- <-; cbn; rewrite Hm; auto 8.
Qed.

Lemma guar_WriteMessages R `{!PreOrder R} topic message :
  guar (S := S) R (WriteMessages topic message).
Proof.
  intros w r w' Hs Hrun. split.
  - apply WriteMessages_inv in Hrun as (-> & _). exact (arrived_rely R w Hs).
  - unfold sched_rely in *.
    assert (Hsched : w_sched w' = tail (w_sched w)).
    { revert Hrun. unfold WriteMessages. destruct (sl_fault _); by intros [= _ <-]. }
    rewrite Hsched. destruct (w_sched w); [done|]. by inversion_clear Hs.
Qed.

Lemma guar_PublishMessage R `{!PreOrder R} topic message :
  guar (S := S) R (PublishMessage topic message).
Proof.
  unfold PublishMessage. apply guar_attempt; [done|apply guar_WriteMessages; done|].
  intros []; solve_guar.
Qed.
End Lemmas.

#[export] Hint Resolve guar_WriteMessages guar_PublishMessage : guar.
