(* ===== verification/KafkaWriters.v ===== *)
(** * [internal/kafkabus/bus.go]: the publisher's writers

    One [kafka.Writer] per topic, made when the topic is first used.  The lock
    of the table is a no-op of the model, whose operations are atomic. *)

From stdpp Require Import base strings list gmap.
From Stdlib Require Import ZArith Lia.
From S2P Require Import Prelude GoStrings Runtime.

Open Scope Z_scope.

Module Bus.

(** The configuration of a [kafka.Writer]: all replicas acknowledge, and the
    hash balancer keeps the messages of a key in one partition. *)
Record Writer := mk_Writer {
  wt_Addr : list string;
  wt_Topic : string;
  wt_RequireAll : bool;
  wt_HashBalancer : bool;
  wt_BatchTimeout : Z;
}.

(** The configuration of a [kafka.Reader]; a zero [CommitInterval] commits
    synchronously. *)
Record ReaderConfig := mk_ReaderConfig {
  rc_Brokers : list string;
  rc_Topic : string;
  rc_GroupID : string;
  rc_CommitInterval : Z;
  rc_MinBytes : Z;
  rc_MaxBytes : Z;
}.

Definition NewReader (brokers : list string) (topic groupID : string) : ReaderConfig :=
  mk_ReaderConfig brokers topic groupID 0 1 1000000.

Record Publisher := mk_Publisher {
  pb_brokers : list string;
  pb_writers : gmap string Writer;
}.

Definition NewPublisher (brokers : list string) : Publisher := mk_Publisher brokers ∅.

Definition new_writer (brokers : list string) (topic : string) : Writer :=
  mk_Writer brokers topic true true 10000000.

Definition writer (p : Publisher) (topic : string) : Writer * Publisher :=
  match pb_writers p !! topic with
  | Some w => (w, p)
  | None =>
    let w := new_writer (pb_brokers p) topic in
    (w, mk_Publisher (pb_brokers p) (<[topic := w]> (pb_writers p)))
  end.

(** [errors.Join] drops a nil error. *)
Definition Join_errors (e1 : option error) (e2 : error) : error :=
  match e1 with Some e1 => EJoin e1 e2 | None => e2 end.

(** The writers in the order in which the map is ranged over, with what each
    answers when it is closed. *)
Fixpoint close_all (close : Writer -> option error) (order : list (string * Writer))
  (err : option error) : option error :=
  match order with
  | [] => err
  | (topic, w) :: order =>
    close_all close order
      (match close w with
       | Some closeErr =>
         Some (Join_errors err (EWrap ("close kafka writer " +:+ topic) closeErr))
       | None => err
       end)
  end.

Definition Close (close : Writer -> option error) (order : list (string * Writer)) : option error :=
  close_all close order None.

(** ** Lemmas *)

(** The table holds, under each topic, the writer of that topic. *)
Definition well_formed (p : Publisher) : Prop :=
  forall topic w, pb_writers p !! topic = Some w -> w = new_writer (pb_brokers p) topic.

Lemma NewPublisher_well_formed brokers : well_formed (NewPublisher brokers).
Proof. intros topic w Hw. cbn [NewPublisher pb_writers] in Hw. by rewrite lookup_empty in Hw. Qed.

(** The same writer every time, and no other topic's writer is touched. *)
Lemma writer_spec p topic w p' :
  well_formed p -> writer p topic = (w, p') ->
  w = new_writer (pb_brokers p) topic /\ well_formed p' /\ pb_brokers p' = pb_brokers p
  /\ writer p' topic = (w, p')
  /\ forall topic', topic' <> topic -> pb_writers p' !! topic' = pb_writers p !! topic'.
Proof.
  intros Hp. unfold writer. destruct (pb_writers p !! topic) as [w0|] eqn:Hw; intros [= <- <-].
  - rewrite Hw. split_and!; [by apply Hp|done..].
  - cbn [pb_writers pb_brokers]. rewrite lookup_insert_eq. split_and!; [done| |done|done|].
    + intros t w' Hw'. cbn [pb_writers] in Hw'. apply lookup_insert_Some in Hw' as [[<- <-]|[_ Hw']]; [done|].
      by apply Hp.
    + intros t Ht. by rewrite lookup_insert_ne.
Qed.

Lemma close_all_nil close order : forall err,
  close_all close order err = None <-> err = None /\ Forall (fun tw => close tw.2 = None) order.
Proof.
  induction order as [|[topic w] order IH]; intros err; cbn [close_all].
  - split; [by intros ->|by intros [? _]].
  - rewrite IH, Forall_cons. cbn [snd]. destruct (close w); [|tauto].
    split; [by intros [? _]|by intros (_ & ? & _)].
Qed.

(** [Close] reports an error exactly when some writer did. *)
Lemma Close_nil close order :
  Close close order = None <-> Forall (fun tw => close tw.2 = None) order.
Proof. unfold Close. rewrite close_all_nil. tauto. Qed.
End Bus.
