(* ===== verification/RiskService.v ===== *)
(** * [internal/risk/service.go]: scoring payments *)

From stdpp Require Import base strings list.
From Stdlib Require Import ZArith Lia.
From S2P Require Import Prelude GoStrings Sha256 Runtime Domain GoJson Codec ConsumerLoop.

Open Scope Z_scope.

Module Risk.

Definition ConsumerName : string := "risk-service".

Class RiskStore (S : Type) :=
  SaveConsumerOutbox : Delivery -> string -> OutboxEvent -> M S bool.

Section Service.
Context {S : Type} `{RiskStore S}.

Definition hashPayload (payload : string) : string := sha256_hex payload.

Definition incomplete (transaction : Transaction) : bool :=
  String.eqb (tx_ID transaction) EmptyString || String.eqb (tx_AccountID transaction) EmptyString
  || (tx_AmountCents transaction <=? 0) || String.eqb (tx_Currency transaction) EmptyString
  || String.eqb (tx_CorrelationID transaction) EmptyString.

(** The event published for a transaction. *)
Definition evaluated (transaction : Transaction) : RiskEvaluated :=
  let evaluation := EvaluateRisk (tx_AmountCents transaction) in
  mk_RiskEvaluated (tx_ID transaction) (tx_AccountID transaction) (tx_AmountCents transaction)
    (tx_Currency transaction) (re_Level evaluation) (re_Approved evaluation)
    (re_Reason evaluation) (tx_CorrelationID transaction).

Definition HandleTransactionCreated (delivery : Delivery) (payload : string) : M S unit :=
  match unmarshal_Transaction payload with
  | None => fail (EWrap "decode transaction created event" (EText "json"))
  | Some transaction =>
    if incomplete transaction then fail (EText "transaction created event is incomplete")
    else
      let eventPayload := marshal_RiskEvaluated (evaluated transaction) in
      let! outboxEvent := NewOutboxEvent EventRiskEvaluated (tx_ID transaction)
        (tx_AccountID transaction) (tx_CorrelationID transaction) eventPayload in
      let! _ := wrapf "persist risk evaluation"
        (SaveConsumerOutbox delivery (hashPayload payload) outboxEvent) in
      ret tt
  end.
End Service.

(** ** The ruling the ledger will accept *)

(** The two validations of [HandleRiskEvaluated] hold of every evaluation. *)
Lemma evaluated_consistent t :
  rk_RiskLevel (evaluated t) = (if rk_Approved (evaluated t) then RiskLow else RiskHigh).
Proof. unfold evaluated. cbn. apply EvaluateRisk_level. Qed.

Lemma evaluated_approved t :
  rk_Approved (evaluated t) = true <-> tx_AmountCents t <= 50000.
Proof.
  unfold evaluated, EvaluateRisk. cbn. destruct (50000 <? tx_AmountCents t) eqn:E; cbn;
    reflect_bools; [split; [done|lia]|done].
Qed.

End Risk.
