(* ===== verification/LedgerService.v ===== *)
(** * [internal/ledger/service.go]: accepting risk evaluations *)

From stdpp Require Import base strings list.
From Stdlib Require Import ZArith Lia.
From S2P Require Import Prelude GoStrings Sha256 Runtime Domain GoJson Codec ConsumerLoop.

Open Scope Z_scope.

Module Ledger.

Definition ConsumerName : string := "ledger-service".

Class LedgerStore (S : Type) :=
  ProcessRiskEvaluated : Delivery -> string -> RiskEvaluated -> M S bool.

Section Service.
Context {S : Type} `{LedgerStore S}.

Definition incomplete (event : RiskEvaluated) : bool :=
  String.eqb (rk_TransactionID event) EmptyString || String.eqb (rk_AccountID event) EmptyString
  || (rk_AmountCents event <=? 0) || String.eqb (rk_Currency event) EmptyString.

Definition HandleRiskEvaluated (delivery : Delivery) (payload : string) : M S unit :=
  match unmarshal_RiskEvaluated payload with
  | None => fail (EWrap "decode risk evaluated event" (EText "json"))
  | Some event =>
    if incomplete event then fail (EText "risk evaluated event is incomplete")
    else if rk_Approved event && negb (String.eqb (rk_RiskLevel event) RiskLow)
    then fail (EText "approved risk evaluation must be low risk")
    else if negb (rk_Approved event) && negb (String.eqb (rk_RiskLevel event) RiskHigh)
    then fail (EText "failed risk evaluation must be high risk")
    else
      let! _ := wrapf "process risk evaluation"
        (ProcessRiskEvaluated delivery (sha256_hex payload) event) in
      ret tt
  end.
End Service.

End Ledger.
