(* ===== verification/OutboxPublisher.v ===== *)
(** * [internal/outbox/publisher.go]: draining the outbox

    [PublishNext] claims one event, publishes it and records the result;
    [PublishAvailable] repeats it until nothing is claimable or a call fails. *)

From stdpp Require Import base strings list.
From Stdlib Require Import ZArith Lia.
From S2P Require Import Prelude GoStrings Runtime Domain.

Open Scope Z_scope.

Module Outbox.

Class OutboxStore (S : Type) := {
  NextPending : M S (option OutboxEvent);
  MarkPublished : string -> M S unit;
  MarkFailedAttempt : string -> Z -> M S unit;
}.

(** [NewPublisher]: the configured number of attempts, or three. *)
Definition NewPublisher (maxAttempts : Z) : Z := if maxAttempts <=? 0 then 3 else maxAttempts.

Section Publisher.
Context {S : Type} `{OutboxStore S}.
Context (publish : OutboxEvent -> M S unit) (maxAttempts : Z).

(** Go returns [(found, err)]; [found] is only read when [err] is nil. *)
Definition PublishNext : M S bool :=
  let! next := wrapf "load pending outbox event" NextPending in
  match next with
  | None => ret false
  | Some event =>
    try! published := publish event in
    match published with
    | Err err =>
      let result := if maxAttempts <=? ev_Attempts event + 1 then "dead_lettered"%string
                    else "failed_attempt"%string in
      let! _ := wrapf "mark failed outbox event" (MarkFailedAttempt (ev_ID event) maxAttempts) in
      let! _ := emit (OutboxPublish result) in
      fail (EWrap "publish outbox event" err)
    | Ok _ =>
      let! _ := wrapf "mark published outbox event" (MarkPublished (ev_ID event)) in
      let! _ := emit (OutboxPublish "published") in
      ret true
    end
  end.

(** The unbounded loop; [None]: out of fuel. *)
Fixpoint PublishAvailable (fuel : nat) : M S (option unit) :=
  match fuel with
  | O => ret None
  | Datatypes.S fuel' =>
    let! found := PublishNext in
    if (found : bool) then PublishAvailable fuel' else ret (Some tt)
  end.
End Publisher.

End Outbox.
