(* ===== verification/Metrics.v ===== *)
(** * [internal/metrics]: the registry, its calls, and the sampler

    The vectors and the registration of [prometheus/client_golang] are the
    class [ClientGolang]; [ClientGolangSpec] states the documented behaviour
    the package relies on: a vector accepts as many label values as it has
    labels (anything else panics), a counter adds one under the given values,
    a histogram counts a sample, a gauge keeps the last value. *)

From stdpp Require Import base strings list.
From Stdlib Require Import ZArith Lia.
From S2P Require Import Prelude GoStrings Runtime GoFloat GoJson.

Open Scope Z_scope.

Module Metrics.

Inductive vec_kind := CounterVec | HistogramVec | GaugeVec.

Record Opts := mk_Opts {
  op_Kind : vec_kind;
  op_Name : string;
  op_Labels : list string;
}.

(** [Inc], [Observe] and [SetGauge] stand for [WithLabelValues(...)] followed by
    the operation; [None] is a panic, as is [false] of [MustRegister]. *)
Class ClientGolang := {
  Vec : Type;
  NewVec : Opts -> Vec;
  MustRegister : list Vec -> bool;
  Inc : Vec -> list string -> option Vec;
  Observe : Vec -> list string -> float64 -> option Vec;
  SetGauge : Vec -> list string -> float64 -> option Vec;
  counter_value : Vec -> list string -> Z;
  sample_count : Vec -> list string -> Z;
  gauge_value : Vec -> list string -> option float64;
}.

(** Valid names and labels, for [MustRegister]. *)
Definition name_char (c : Ascii.ascii) : bool :=
  let b := byte_of c in ((97 <=? b) && (b <=? 122)) || (b =? 95).
Definition valid_opts (o : Opts) : bool :=
  HasPrefix (op_Name o) "clearance_" && string_forall name_char (op_Name o)
  && bool_decide (NoDup (op_Labels o))
  && forallb (fun l => string_forall name_char l && negb (HasPrefix l "_")
                       && negb (String.eqb l "le") && nonempty l) (op_Labels o).

Definition label_values (n : nat) (values : list string) : Prop :=
  length values = n /\ Forall (fun v => valid_utf8 v = true) values.

Class ClientGolangSpec `{ClientGolang} := {
  arity : Vec -> nat;
  NewVec_spec o : arity (NewVec o) = length (op_Labels o)
    /\ forall ls, counter_value (NewVec o) ls = 0 /\ sample_count (NewVec o) ls = 0
                  /\ gauge_value (NewVec o) ls = None;
  MustRegister_spec os :
    forallb valid_opts os = true -> NoDup (map op_Name os) ->
    MustRegister (map NewVec os) = true;
  Inc_spec v ls : label_values (arity v) ls ->
    exists v', Inc v ls = Some v' /\ arity v' = arity v
    /\ forall ls', counter_value v' ls' = counter_value v ls' + (if decide (ls' = ls) then 1 else 0)
       /\ sample_count v' ls' = sample_count v ls' /\ gauge_value v' ls' = gauge_value v ls';
  Observe_spec v ls x : label_values (arity v) ls ->
    exists v', Observe v ls x = Some v' /\ arity v' = arity v
    /\ forall ls', sample_count v' ls' = sample_count v ls' + (if decide (ls' = ls) then 1 else 0)
       /\ counter_value v' ls' = counter_value v ls' /\ gauge_value v' ls' = gauge_value v ls';
  SetGauge_spec v ls x : label_values (arity v) ls ->
    exists v', SetGauge v ls x = Some v' /\ arity v' = arity v
    /\ forall ls', gauge_value v' ls' = (if decide (ls' = ls) then Some x else gauge_value v ls')
       /\ counter_value v' ls' = counter_value v ls' /\ sample_count v' ls' = sample_count v ls';
}.

(** ** The registry *)

Definition defaultService : string := "clearance".

(** The vectors of the [Registry] struct. *)
Inductive field :=
| httpRequests | httpDuration | kafkaPublished | outboxEventsTotal | outboxPublishDuration
| consumerMessages | consumerDuration | consumerRetries | consumerCommitFailure
| outboxEvents | outboxOldestAge | deadLettersOpen | processedEvents | postgresPool.

#[export] Instance field_eq_dec : EqDecision field.
Proof. solve_decision. Defined.

(** The options each vector is made with (buckets and help texts left out). *)
Definition opts_of (f : field) : Opts :=
  match f with
  | httpRequests => mk_Opts CounterVec "clearance_http_requests_total"
      ["method"; "path"; "service"; "status"]
  | httpDuration => mk_Opts HistogramVec "clearance_http_request_duration_seconds"
      ["method"; "path"; "service"]
  | kafkaPublished => mk_Opts CounterVec "clearance_kafka_messages_published_total"
      ["result"; "service"; "topic"]
  | outboxEventsTotal => mk_Opts CounterVec "clearance_outbox_publish_attempts_total"
      ["result"; "service"]
  | outboxPublishDuration => mk_Opts HistogramVec "clearance_outbox_publish_duration_seconds"
      ["result"; "service"]
  | consumerMessages => mk_Opts CounterVec "clearance_consumer_messages_total"
      ["consumer"; "result"; "service"; "topic"]
  | consumerDuration => mk_Opts HistogramVec "clearance_consumer_message_duration_seconds"
      ["consumer"; "result"; "service"; "topic"]
  | consumerRetries => mk_Opts CounterVec "clearance_consumer_retries_total"
      ["consumer"; "service"; "topic"]
  | consumerCommitFailure => mk_Opts CounterVec "clearance_consumer_offset_commit_failures_total"
      ["consumer"; "service"; "topic"]
  | outboxEvents => mk_Opts GaugeVec "clearance_outbox_events" ["service"; "status"]
  | outboxOldestAge => mk_Opts GaugeVec "clearance_outbox_oldest_pending_age_seconds" ["service"]
  | deadLettersOpen => mk_Opts GaugeVec "clearance_dead_letters_open" ["service"]
  | processedEvents => mk_Opts GaugeVec "clearance_processed_events" ["service"]
  | postgresPool => mk_Opts GaugeVec "clearance_postgres_pool_connections" ["service"; "state"]
  end%string.

(** The order of the [MustRegister] call. *)
Definition fields : list field :=
  [httpRequests; httpDuration; kafkaPublished; outboxEventsTotal; outboxPublishDuration;
   consumerMessages; consumerDuration; consumerRetries; consumerCommitFailure; outboxEvents;
   outboxOldestAge; deadLettersOpen; processedEvents; postgresPool].

Section Registry.
Context `{ClientGolang}.

Record Registry := mk_Registry {
  rg_service : string;
  rg_vec : field -> Vec;
}.

Definition NewRegistry (service : string) : option Registry :=
  let service := if String.eqb service EmptyString then defaultService else service in
  let r := mk_Registry service (fun f => NewVec (opts_of f)) in
  if MustRegister (map (rg_vec r) fields) then Some r else None.

(** Replaces [Default], under the lock. *)
Definition Configure (service : string) : option Registry := NewRegistry service.

(** One operation on the vector [f]. *)
Definition on (f : field) (op : Vec -> option Vec) (r : Registry) : option Registry :=
  obind (op (rg_vec r f)) (fun v =>
    Some (mk_Registry (rg_service r) (fun g => if decide (g = f) then v else rg_vec r g))).

Definition Registry_ObserveHTTPRequest (method path status : string) (duration : Z) (r : Registry)
  : option Registry :=
  obind (on httpRequests (fun v => Inc v [method; path; rg_service r; status]) r)
    (on httpDuration (fun v => Observe v [method; path; rg_service r] (Seconds duration))).

Definition Registry_KafkaPublish (topic result : string) (r : Registry) : option Registry :=
  on kafkaPublished (fun v => Inc v [result; rg_service r; topic]) r.

Definition Registry_OutboxPublish (result : string) (duration : Z) (r : Registry)
  : option Registry :=
  obind (on outboxEventsTotal (fun v => Inc v [result; rg_service r]) r)
    (on outboxPublishDuration (fun v => Observe v [result; rg_service r] (Seconds duration))).

Definition Registry_ObserveConsumerMessage (consumer topic result : string) (duration : Z)
  (r : Registry) : option Registry :=
  obind (on consumerMessages (fun v => Inc v [consumer; result; rg_service r; topic]) r)
    (on consumerDuration (fun v =>
       Observe v [consumer; result; rg_service r; topic] (Seconds duration))).

Definition Registry_IncConsumerRetry (consumer topic : string) (r : Registry)
  : option Registry :=
  on consumerRetries (fun v => Inc v [consumer; rg_service r; topic]) r.

Definition Registry_IncOffsetCommitFailure (consumer topic : string) (r : Registry)
  : option Registry :=
  on consumerCommitFailure (fun v => Inc v [consumer; rg_service r; topic]) r.

Definition Registry_SetOperationalSnapshot (snapshot : OperationalSnapshot) (r : Registry)
  : option Registry :=
  let set f labels (x : float64) (r : option Registry) :=
    obind r (on f (fun v => SetGauge v labels x)) in
  let service := rg_service r in
  set postgresPool [service; "in_use"]%string (os_PostgresPoolInUse snapshot) (
  set postgresPool [service; "idle"]%string (os_PostgresPoolIdle snapshot) (
  set postgresPool [service; "open"]%string (os_PostgresPoolOpen snapshot) (
  set processedEvents [service] (os_ProcessedEvents snapshot) (
  set deadLettersOpen [service] (os_DeadLettersOpen snapshot) (
  set outboxOldestAge [service] (os_OutboxOldestPendingAgeSeconds snapshot) (
  set outboxEvents [service; "DEAD_LETTERED"]%string (os_OutboxDeadLettered snapshot) (
  set outboxEvents [service; "PENDING"]%string (os_OutboxPending snapshot) (Some r)))))))).

(** A call of the package, on the default registry, with the duration that
    the log leaves out. *)
Definition call (c : metric * Z) (r : Registry) : option Registry :=
  let '(m, duration) := c in
  match m with
  | ObserveHTTPRequest method path status =>
    Registry_ObserveHTTPRequest method path status duration r
  | KafkaPublish topic result => Registry_KafkaPublish topic result r
  | OutboxPublish result => Registry_OutboxPublish result duration r
  | ObserveConsumerMessage consumer topic result =>
    Registry_ObserveConsumerMessage consumer topic result duration r
  | IncConsumerRetry consumer topic => Registry_IncConsumerRetry consumer topic r
  | IncOffsetCommitFailure consumer topic => Registry_IncOffsetCommitFailure consumer topic r
  | SetOperationalSnapshot snapshot => Registry_SetOperationalSnapshot snapshot r
  end.

(** The calls of a process since [Configure]. *)
Fixpoint run_calls (calls : list (metric * Z)) (r : Registry) : option Registry :=
  match calls with
  | [] => Some r
  | c :: rest => obind (call c r) (run_calls rest)
  end.
End Registry.

(** ** The sampler *)

Class SnapshotProvider (S : Type) := {
  OperationalMetrics : M S OperationalSnapshot;
}.

Section Sampler.
Context {S : Type} `{SnapshotProvider S}.

Definition sampler_interval (interval : Z) : Z :=
  if interval <=? 0 then 15000000000 else interval.

(** An error is logged and the gauges keep what they show. *)
Definition collect : M S unit :=
  try! snapshot := OperationalMetrics in
  match snapshot with
  | Err _ => ret tt
  | Ok snapshot => emit (SetOperationalSnapshot snapshot)
  end.

Fixpoint on_ticks (ticks : nat) : M S unit :=
  match ticks with
  | O => ret tt
  | Datatypes.S ticks => let! _ := collect in on_ticks ticks
  end.

(** One collection at once, then one per tick until the context is done. *)
Definition StartSampler (ticks : nat) : M S unit :=
  let! _ := collect in
  on_ticks ticks.
End Sampler.

(** ** What a call changes

    [counter_of] and [histogram_of] name the series a call adds to, [gauge_of]
    the part of a snapshot that a series shows. *)

Definition counter_of (service : string) (m : metric) : option (field * list string) :=
  match m with
  | ObserveHTTPRequest method path status => Some (httpRequests, [method; path; service; status])
  | KafkaPublish topic result => Some (kafkaPublished, [result; service; topic])
  | OutboxPublish result => Some (outboxEventsTotal, [result; service])
  | ObserveConsumerMessage consumer topic result =>
    Some (consumerMessages, [consumer; result; service; topic])
  | IncConsumerRetry consumer topic => Some (consumerRetries, [consumer; service; topic])
  | IncOffsetCommitFailure consumer topic =>
    Some (consumerCommitFailure, [consumer; service; topic])
  | SetOperationalSnapshot _ => None
  end.

Definition histogram_of (service : string) (m : metric) : option (field * list string) :=
  match m with
  | ObserveHTTPRequest method path _ => Some (httpDuration, [method; path; service])
  | OutboxPublish result => Some (outboxPublishDuration, [result; service])
  | ObserveConsumerMessage consumer topic result =>
    Some (consumerDuration, [consumer; result; service; topic])
  | _ => None
  end.

Definition gauge_of (service : string) (s : OperationalSnapshot) (f : field) (ls : list string)
  : option float64 :=
  let under labels x := if decide (ls = labels) then Some x else None in
  match f with
  | outboxEvents =>
    if decide (ls = [service; "PENDING"%string]) then Some (os_OutboxPending s)
    else under [service; "DEAD_LETTERED"%string] (os_OutboxDeadLettered s)
  | outboxOldestAge => under [service] (os_OutboxOldestPendingAgeSeconds s)
  | deadLettersOpen => under [service] (os_DeadLettersOpen s)
  | processedEvents => under [service] (os_ProcessedEvents s)
  | postgresPool =>
    if decide (ls = [service; "open"%string]) then Some (os_PostgresPoolOpen s)
    else if decide (ls = [service; "idle"%string]) then Some (os_PostgresPoolIdle s)
    else under [service; "in_use"%string] (os_PostgresPoolInUse s)
  | _ => None
  end.

Definition label_texts (m : metric) : list string :=
  match m with
  | ObserveHTTPRequest method path status => [method; path; status]
  | KafkaPublish topic result => [topic; result]
  | OutboxPublish result => [result]
  | ObserveConsumerMessage consumer topic result => [consumer; topic; result]
  | IncConsumerRetry consumer topic | IncOffsetCommitFailure consumer topic => [consumer; topic]
  | SetOperationalSnapshot _ => []
  end.

Section Effects.
Context `{ClientGolangSpec}.
Implicit Types (r : Registry).

Record changed r r' (c h : option (field * list string))
  (g : field -> list string -> option float64) : Prop := mk_changed {
  ch_service : rg_service r' = rg_service r;
  ch_arity f : arity (rg_vec r' f) = arity (rg_vec r f);
  ch_counter f ls : counter_value (rg_vec r' f) ls
    = counter_value (rg_vec r f) ls + (if decide (c = Some (f, ls)) then 1 else 0);
  ch_samples f ls : sample_count (rg_vec r' f) ls
    = sample_count (rg_vec r f) ls + (if decide (h = Some (f, ls)) then 1 else 0);
  ch_gauge f ls : gauge_value (rg_vec r' f) ls
    = match g f ls with Some x => Some x | None => gauge_value (rg_vec r f) ls end;
}.

Definition no_gauge (f : field) (ls : list string) : option float64 := None.

Definition at_field (f : field) (g : list string -> option float64)
  (f' : field) (ls : list string) : option float64 :=
  if decide (f' = f) then g ls else None.

(** An operation on one vector changes the registry as it changes the vector. *)
Lemma on_changed f op r v (c h : option (list string)) g :
  op (rg_vec r f) = Some v -> arity v = arity (rg_vec r f) ->
  (forall ls,
     counter_value v ls = counter_value (rg_vec r f) ls + (if decide (c = Some ls) then 1 else 0)
     /\ sample_count v ls = sample_count (rg_vec r f) ls + (if decide (h = Some ls) then 1 else 0)
     /\ gauge_value v ls
        = match g ls with Some x => Some x | None => gauge_value (rg_vec r f) ls end) ->
  exists r', on f op r = Some r'
  /\ changed r r' (pair f <$> c) (pair f <$> h) (at_field f g).
Proof.
  intros Hop Har Hv. unfold on. rewrite Hop. cbn [obind].
  eexists. split; [done|]. unfold at_field.
  split; cbn [rg_service rg_vec]; [done|..]; intros f'; destruct (decide (f' = f)) as [->|Hne];
    try done; intros ls.
  - rewrite (proj1 (Hv ls)). f_equal. destruct c; cbn; repeat case_decide; congruence.
  - destruct c; cbn; [|rewrite decide_False by done; lia].
    rewrite decide_False; [lia|congruence].
  - rewrite (proj1 (proj2 (Hv ls))). f_equal. destruct h; cbn; repeat case_decide; congruence.
  - destruct h; cbn; [|rewrite decide_False by done; lia].
    rewrite decide_False; [lia|congruence].
  - apply (Hv ls).
Qed.

Lemma on_Inc f ls r :
  label_values (arity (rg_vec r f)) ls ->
  exists r', on f (fun v => Inc v ls) r = Some r'
  /\ changed r r' (Some (f, ls)) None (at_field f (fun _ => None)).
Proof.
  intros (v & Hop & Har & Hv)%Inc_spec.
  apply (on_changed f (fun v => Inc v ls) r v (Some ls) None (fun _ => None) Hop Har).
  intros ls'. destruct (Hv ls') as (-> & -> & ->).
  split_and!; [|by rewrite decide_False by done; lia|done].
  repeat case_decide; congruence.
Qed.

Lemma on_Observe f ls x r :
  label_values (arity (rg_vec r f)) ls ->
  exists r', on f (fun v => Observe v ls x) r = Some r'
  /\ changed r r' None (Some (f, ls)) (at_field f (fun _ => None)).
Proof.
  intros (v & Hop & Har & Hv)%(fun H => Observe_spec _ _ x H).
  apply (on_changed f (fun v => Observe v ls x) r v None (Some ls) (fun _ => None) Hop Har).
  intros ls'. destruct (Hv ls') as (-> & -> & ->).
  split_and!; [by rewrite decide_False by done; lia| |done].
  repeat case_decide; congruence.
Qed.

Lemma on_SetGauge f ls x r :
  label_values (arity (rg_vec r f)) ls ->
  exists r', on f (fun v => SetGauge v ls x) r = Some r'
  /\ changed r r' None None (at_field f (fun ls' => if decide (ls' = ls) then Some x else None)).
Proof.
  intros (v & Hop & Har & Hv)%(fun H => SetGauge_spec _ _ x H).
  apply (on_changed f (fun v => SetGauge v ls x) r v None None _ Hop Har).
  intros ls'. destruct (Hv ls') as (-> & -> & ->).
  rewrite !decide_False by done. split_and!; [lia|lia|by case_decide].
Qed.

(** Two changes in a row that touch different series. *)
Lemma changed_trans r r1 r2 c1 c2 h1 h2 g1 g2 c h g :
  changed r r1 c1 h1 g1 -> changed r1 r2 c2 h2 g2 ->
  (c1 = None /\ c = c2 \/ c2 = None /\ c = c1) ->
  (h1 = None /\ h = h2 \/ h2 = None /\ h = h1) ->
  (forall f ls, g f ls = match g2 f ls with Some x => Some x | None => g1 f ls end) ->
  changed r r2 c h g.
Proof.
  intros [Hs1 Ha1 Hc1 Hh1 Hg1] [Hs2 Ha2 Hc2 Hh2 Hg2] Hc Hh Hg. split.
  - congruence.
  - intros f. by rewrite Ha2, Ha1.
  - intros f ls. rewrite Hc2, Hc1.
    destruct Hc as [[-> ->]|[-> ->]]; rewrite (decide_False (P := None = _)) by done; lia.
  - intros f ls. rewrite Hh2, Hh1.
    destruct Hh as [[-> ->]|[-> ->]]; rewrite (decide_False (P := None = _)) by done; lia.
  - intros f ls. rewrite Hg2, Hg1, Hg. by destruct (g2 f ls).
Qed.

Lemma changed_refl r : changed r r None None (fun _ _ => None).
Proof. split; try done; intros f ls; rewrite decide_False by done; lia. Qed.

Lemma changed_ext r r' c h g g' :
  changed r r' c h g -> (forall f ls, g' f ls = g f ls) -> changed r r' c h g'.
Proof. intros [] Hg. split; try done. intros f ls. by rewrite Hg. Qed.
End Effects.

Section Calls.
Context `{ClientGolangSpec}.
Implicit Types (r : Registry).

Definition well_formed r : Prop :=
  (forall f, arity (rg_vec r f) = length (op_Labels (opts_of f)))
  /\ valid_utf8 (rg_service r) = true.

Lemma changed_well_formed r r' c h g : changed r r' c h g -> well_formed r -> well_formed r'.
Proof.
  intros [Hs Ha _ _ _] [Har Hu]. split; [|by rewrite Hs].
  intros f. by rewrite Ha.
Qed.

Definition shown_by (service : string) (m : metric) (f : field) (ls : list string)
  : option float64 :=
  match m with SetOperationalSnapshot s => gauge_of service s f ls | _ => None end.

Lemma fits f ls r :
  well_formed r -> length ls = length (op_Labels (opts_of f)) ->
  Forall (fun v => valid_utf8 v = true) ls -> label_values (arity (rg_vec r f)) ls.
Proof. intros [Har _] Hl Hu. split; [by rewrite Har|done]. Qed.

Lemma no_gauge_at f f' ls : at_field f (fun _ => None) f' ls = None.
Proof. unfold at_field. by case_decide. Qed.

(** One counter, and a counter with its histogram. *)
Lemma counted f ls r :
  well_formed r -> length ls = length (op_Labels (opts_of f)) ->
  Forall (fun v => valid_utf8 v = true) ls ->
  exists r', on f (fun v => Inc v ls) r = Some r'
  /\ changed r r' (Some (f, ls)) None (fun _ _ => None).
Proof.
  intros Hwf Hl Hu. destruct (on_Inc f ls r) as (r' & Hr & Hch); [by apply fits|].
  exists r'. split; [done|]. eapply changed_ext; [done|]. intros. by rewrite no_gauge_at.
Qed.

Lemma timed f1 ls1 f2 ls2 x r :
  well_formed r -> length ls1 = length (op_Labels (opts_of f1)) ->
  length ls2 = length (op_Labels (opts_of f2)) ->
  Forall (fun v => valid_utf8 v = true) ls1 -> Forall (fun v => valid_utf8 v = true) ls2 ->
  exists r', obind (on f1 (fun v => Inc v ls1) r) (on f2 (fun v => Observe v ls2 x)) = Some r'
  /\ changed r r' (Some (f1, ls1)) (Some (f2, ls2)) (fun _ _ => None).
Proof.
  intros Hwf Hl1 Hl2 Hu1 Hu2. destruct (counted f1 ls1 r) as (r1 & Hr1 & Hch1); [done..|].
  destruct (on_Observe f2 ls2 x r1) as (r2 & Hr2 & Hch2).
  { apply fits; [|done..]. by eapply changed_well_formed. }
  exists r2. rewrite Hr1. split; [done|].
  eapply changed_trans; [done|done|by right|by left|]. intros. by rewrite no_gauge_at.
Qed.

(** Setting a gauge after what was set before. *)
Definition over f ls (x : float64) (g : field -> list string -> option float64) f' ls' :=
  if decide (f' = f /\ ls' = ls) then Some x else g f' ls'.

Lemma gauged f ls x r g0 (o : option Registry) :
  (exists r1, o = Some r1 /\ changed r r1 None None g0) -> well_formed r ->
  length ls = length (op_Labels (opts_of f)) ->
  Forall (fun v => valid_utf8 v = true) ls ->
  exists r', obind o (on f (fun v => SetGauge v ls x)) = Some r'
  /\ changed r r' None None (over f ls x g0).
Proof.
  intros (r1 & -> & Hch1) Hwf Hl Hu. destruct (on_SetGauge f ls x r1) as (r2 & Hr2 & Hch2).
  { apply fits; [|done..]. by eapply changed_well_formed. }
  exists r2. split; [done|]. eapply changed_trans; [done|done|by left|by left|].
  intros f' ls'. unfold over, at_field. repeat case_decide; try done; destruct_and?; exfalso; auto.
Qed.

Lemma SetOperationalSnapshot_changed snapshot r :
  well_formed r ->
  exists r', Registry_SetOperationalSnapshot snapshot r = Some r'
  /\ changed r r' None None (gauge_of (rg_service r) snapshot).
Proof.
  intros Hwf.
  assert (Hu : forall s, valid_utf8 s = true ->
    Forall (fun v => valid_utf8 v = true) [rg_service r; s]).
  { intros s Hs. destruct Hwf as [_ ?]. by repeat constructor. }
  assert (Hu1 : Forall (fun v => valid_utf8 v = true) [rg_service r]).
  { destruct Hwf as [_ ?]. by repeat constructor. }
  assert (Hset : exists g, (exists r', Registry_SetOperationalSnapshot snapshot r = Some r'
                            /\ changed r r' None None g)
                 /\ forall f ls, gauge_of (rg_service r) snapshot f ls = g f ls).
  { eexists. split.
    - unfold Registry_SetOperationalSnapshot.
      do 8 (apply gauged; [|done|done|first [done|by apply Hu]]).
      exists r. split; [done|apply changed_refl].
    - intros f ls. unfold over. destruct f; cbn [gauge_of]; repeat case_decide;
        destruct_and?; simplify_eq; try done; exfalso; auto. }
  destruct Hset as (g & (r' & Hr & Hch) & Hg). exists r'. split; [done|].
  by eapply changed_ext.
Qed.

(** Every call succeeds on label values that are UTF-8. *)
Lemma call_changed m d r :
  well_formed r -> Forall (fun v => valid_utf8 v = true) (label_texts m) ->
  exists r', call (m, d) r = Some r'
  /\ changed r r' (counter_of (rg_service r) m) (histogram_of (rg_service r) m)
       (shown_by (rg_service r) m).
Proof.
  intros Hwf Hu. pose proof (proj2 Hwf) as Hs.
  destruct m; cbn [label_texts] in Hu; rewrite ?Forall_cons in Hu; destruct_and?;
    cbn [call counter_of histogram_of shown_by];
    first [apply timed | apply counted | by apply SetOperationalSnapshot_changed];
    try done; rewrite !Forall_cons; by split_and!.
Qed.

(** ** The log and the series *)

(** How many calls of the log add to a series. *)
Definition tally (key : metric -> option (field * list string)) (calls : list (metric * Z))
  (f : field) (ls : list string) : Z :=
  Z.of_nat (length (filter (fun c => key c.1 = Some (f, ls)) calls)).

(** What the last snapshot of the log shows in a series. *)
Definition last_shown (service : string) (calls : list (metric * Z)) (f : field)
  (ls : list string) (before : option float64) : option float64 :=
  fold_left (fun x c => match shown_by service c.1 f ls with Some y => Some y | None => x end)
    calls before.

Lemma tally_cons key m d calls f ls :
  tally key ((m, d) :: calls) f ls
  = (if decide (key m = Some (f, ls)) then 1 else 0) + tally key calls f ls.
Proof.
  unfold tally. rewrite filter_cons. cbn [fst]. case_decide; cbn [length]; lia.
Qed.

Lemma run_calls_shown calls : forall r,
  well_formed r -> Forall (fun c => Forall (fun v => valid_utf8 v = true) (label_texts c.1)) calls ->
  exists r', run_calls calls r = Some r' /\ rg_service r' = rg_service r
  /\ forall f ls,
     counter_value (rg_vec r' f) ls
       = counter_value (rg_vec r f) ls + tally (counter_of (rg_service r)) calls f ls
     /\ sample_count (rg_vec r' f) ls
       = sample_count (rg_vec r f) ls + tally (histogram_of (rg_service r)) calls f ls
     /\ gauge_value (rg_vec r' f) ls
       = last_shown (rg_service r) calls f ls (gauge_value (rg_vec r f) ls).
Proof.
  induction calls as [|[m d] calls IH]; intros r Hwf Hu.
  { exists r. split_and!; try done. intros f ls. unfold tally. cbn. split_and!; [lia..|done]. }
  apply Forall_cons in Hu as [Hm Hu]. destruct (call_changed m d r Hwf Hm) as (r1 & Hr1 & Hch).
  destruct (IH r1) as (r' & Hr' & Hs' & Hshown); [by eapply changed_well_formed|done|].
  pose proof (ch_service _ _ _ _ _ Hch) as Hs1. exists r'.
  change (run_calls ((m, d) :: calls) r) with (obind (call (m, d) r) (run_calls calls)).
  rewrite Hr1. split_and!; [done|congruence|]. intros f ls.
  destruct (Hshown f ls) as (Hc & Hh & Hg). rewrite !tally_cons.
  rewrite Hc, Hh, Hg, Hs1, (ch_counter _ _ _ _ _ Hch), (ch_samples _ _ _ _ _ Hch),
    (ch_gauge _ _ _ _ _ Hch). split_and!; [lia|lia|done].
Qed.

Lemma NewRegistry_fresh service :
  valid_utf8 service = true ->
  exists r, NewRegistry service = Some r /\ well_formed r
  /\ rg_service r = (if String.eqb service EmptyString then defaultService else service)
  /\ forall f ls, counter_value (rg_vec r f) ls = 0 /\ sample_count (rg_vec r f) ls = 0
                  /\ gauge_value (rg_vec r f) ls = None.
Proof.
  intros Hu. unfold NewRegistry.
  change (map (rg_vec (mk_Registry ?s ?v)) fields) with (map v fields).
  rewrite <- (map_map opts_of NewVec), MustRegister_spec; [|by vm_compute|].
  2: { apply (bool_decide_unpack _). by vm_compute. }
  eexists. split; [done|]. split_and!; [split|done|]; cbn [rg_vec rg_service].
  - intros f. apply NewVec_spec.
  - by destruct (String.eqb service EmptyString).
  - intros f ls. apply NewVec_spec.
Qed.
End Calls.
End Metrics.
