(* ===== verification/RedisLimiter.v ===== *)
(** * [internal/redislimiter/limiter.go]: a fixed-window rate limit shared through Redis *)

From stdpp Require Import base strings list gmap.
From Stdlib Require Import ZArith Lia.
From S2P Require Import Prelude GoStrings Sha256 Runtime GoJson.

Open Scope Z_scope.

Module RateLimit.

Record Limiter := mk_Limiter { lm_limit : Z; lm_window : Z }.

(** [Open]: defaults of 60 requests and one minute. *)
Definition OpenLimiter (limit window : Z) : Limiter :=
  mk_Limiter (if limit <=? 0 then 60 else limit)
    (if window <=? 0 then 60 * ns_per_second else window).

Definition redisKey (key : string) : string := "clearance:rate:" +:+ sha256_hex key.

Section Limiter.
Context {S : Type}.
Implicit Types (w : World S).

(** The live counter of a key: an expired key does not exist. *)
Definition live_counter (key : string) (w : World S) : option (Z * Z) :=
  match w_redis w !! key with
  | Some (count, expiry) => if expiry <=? w_clock w then None else Some (count, expiry)
  | None => None
  end.

(** [allowScript]: INCR, and PEXPIRE when the counter is new; one atomic
    round trip to Redis. *)
Definition allowScript (key : string) (milliseconds : Z) : M S Z :=
  fun w =>
    let w1 := pop true w in
    let '(count, expiry) :=
      match live_counter key w1 with
      | Some (c, e) => (c + 1, e)
      | None => (1, w_clock w1 + milliseconds * 1000000)
      end in
    let done := set_redis (<[key := (count, expiry)]> (w_redis w1)) w1 in
    match sl_fault (next_slot w) with
    | NoFault => (Ok count, done)
    | FailBefore => (Err connection_lost, w1)
    | FailAfter => (Err connection_lost, done)
    end.

Definition Allow (l : Limiter) (key : string) : M S bool :=
  let! count := wrapf "rate limit check"
    (allowScript (redisKey key) (lm_window l / 1000000)) in
  ret (count <=? lm_limit l).

(** ** At most [limit] requests per window *)

(** [n] checks of the same key, one after the other; how many were allowed. *)
Fixpoint allowed_of (l : Limiter) (key : string) (n : nat) (w : World S) : Z * World S :=
  match n with
  | O => (0, w)
  | Datatypes.S n' =>
    let '(r, w1) := Allow l key w in
    let '(count, w2) := allowed_of l key n' w1 in
    (match r with Ok true => 1 + count | _ => count end, w2)
  end.

Lemma Allow_live l key w c e r w' :
  live_counter (redisKey key) (pop true w) = Some (c, e) ->
  Allow l key w = (r, w') ->
  w_clock w <= w_clock w'
  /\ (w_redis w' !! redisKey key = Some (c + 1, e)
      /\ (r = Ok (c + 1 <=? lm_limit l) \/ is_ok r = false)
      \/ w_redis w' !! redisKey key = Some (c, e) /\ is_ok r = false).
Proof.
  unfold Allow, wrapf, bind, allowScript. intros Hl. rewrite Hl.
  assert (Hr : w_redis w !! redisKey key = Some (c, e)).
  { unfold live_counter in Hl. cbn in Hl.
    destruct (w_redis w !! redisKey key) as [[c' e']|]; [|done].
    destruct (_ <=? _); [done|]. by injection Hl as -> ->. }
  destruct (sl_fault (next_slot w)); intros [= <- <-]; cbn; (split; [lia|]);
    rewrite ?lookup_insert_eq; auto.
Qed.

Lemma live_counter_pop key w c e :
  live_counter key (pop true w) = Some (c, e) <->
  w_redis w !! key = Some (c, e) /\ w_clock (pop true w) < e.
Proof.
  unfold live_counter. cbn [w_redis pop]. change (w_redis (pop true w)) with (w_redis w).
  destruct (w_redis w !! key) as [[c' e']|]; [|naive_solver].
  destruct (e' <=? _) eqn:E; reflect_bools; split.
  - done.
  - intros [[= -> ->] ?]. lia.
  - intros [= -> ->]. split; [done|lia].
  - intros [[= -> ->] ?]. done.
Qed.

(** From a counter at [c], a window that has not expired by the last check
    allows at most [limit - c] more. *)
Theorem window_bound l key n w c e total w' :
  w_redis w !! redisKey key = Some (c, e) ->
  allowed_of l key n w = (total, w') -> w_clock w' < e ->
  0 <= total <= Z.max 0 (lm_limit l - c).
Proof.
  revert w c total. induction n as [|n IH]; intros w c total Hr Hrun Hlive.
  - injection Hrun as <- <-. lia.
  - cbn [allowed_of] in Hrun. destruct (Allow l key w) as [r w1] eqn:HA.
    destruct (allowed_of l key n w1) as [count w2] eqn:Hrest.
    assert (Hmono : forall m w w' t, allowed_of l key m w = (t, w') -> w_clock w <= w_clock w').
    { clear. induction m as [|m IH]; intros w w' t; cbn; [intros [= _ <-]; lia|].
      destruct (Allow l key w) as [r w1] eqn:HA.
      destruct (allowed_of l key m w1) as [c2 w2] eqn:Hr. intros [= _ <-].
      apply IH in Hr. assert (w_clock w <= w_clock w1); [|lia].
      revert HA. unfold Allow, wrapf, bind, allowScript.
      destruct (live_counter _ _) as [[? ?]|]; destruct (sl_fault _); intros [= _ <-]; cbn; lia. }
    pose proof (Hmono _ _ _ _ Hrest) as Hw12.
    assert (Hw1 : w_clock (pop true w) <= w_clock w1).
    { revert HA. unfold Allow, wrapf, bind, allowScript.
      destruct (live_counter _ _) as [[? ?]|]; destruct (sl_fault _); intros [= _ <-]; cbn; lia. }
    injection Hrun as <- <-.
    assert (Hl : live_counter (redisKey key) (pop true w) = Some (c, e)).
    { apply live_counter_pop. split; [done|lia]. }
    destruct (Allow_live _ _ _ _ _ _ _ Hl HA) as (_ & [[Hr1 Hr2]|[Hr1 Hr2]]).
    + specialize (IH _ _ _ Hr1 Hrest Hlive).
      destruct Hr2 as [->|Hf]; [|destruct r as [[]|]; [done..|lia]].
      destruct (c + 1 <=? lm_limit l) eqn:Hle; reflect_bools; lia.
    + specialize (IH _ _ _ Hr1 Hrest Hlive). destruct r as [[]|]; [done..|lia].
Qed.
End Limiter.

End RateLimit.
