(* ===== verification/AppEnv.v ===== *)
(** * [internal/appenv/env.go]: configuration from environment variables

    [getenv] is the process environment; an unset variable reads as empty. *)

From stdpp Require Import base strings list.
From Stdlib Require Import ZArith Lia Ascii.
From S2P Require Import Prelude GoStrings GoJson.

Open Scope Z_scope.

Module AppEnv.

Section Env.
Context `{UnicodeTables} (getenv : string -> string).

(** [None]: the panic of a missing variable. *)
Definition Must (name : string) : option string :=
  let value := TrimSpace (getenv name) in
  if String.eqb value EmptyString then None else Some value.

Definition StringVar (name fallback : string) : string :=
  let value := TrimSpace (getenv name) in
  if String.eqb value EmptyString then fallback else value.

Definition CSV (name : string) (fallback : list string) : list string :=
  let value := TrimSpace (getenv name) in
  if String.eqb value EmptyString then fallback else
  let items := List.filter nonempty (map TrimSpace (Split value ","%char)) in
  match items with [] => fallback | _ => items end.

Definition Int (name : string) (fallback : Z) : Z :=
  let value := TrimSpace (getenv name) in
  if String.eqb value EmptyString then fallback else
  match ParseInt value with
  | Some parsed => if parsed <=? 0 then fallback else parsed
  | None => fallback
  end.

Definition Bool (name : string) (fallback : bool) : bool :=
  let value := ToLower (TrimSpace (getenv name)) in
  if String.eqb value EmptyString then fallback else
  if existsb (String.eqb value) ["1"; "true"; "yes"; "on"] then true
  else if existsb (String.eqb value) ["0"; "false"; "no"; "off"] then false
  else fallback.

(** The multiplication is on [int64] and wraps around; [fallback.Seconds()]
    is a whole number of seconds for every caller. *)
Definition DurationSeconds (name : string) (fallback : Z) : Z :=
  wrap64 (Int name (fallback / ns_per_second) * ns_per_second).

(** ** What the callers rely on *)

Lemma Int_positive name fallback : 0 < fallback -> 0 < Int name fallback.
Proof. intros Hf. unfold Int. repeat case_match; reflect_bools; lia. Qed.

Lemma Int_range name fallback :
  in_int64 fallback = true -> in_int64 (Int name fallback) = true.
Proof.
  intros Hf. unfold Int. case_match; [done|]. destruct (ParseInt _) as [z|] eqn:Hp; [|done].
  case_match; [done|]. revert Hp. unfold ParseInt.
  destruct (TrimSpace (getenv name)) as [|c s]; [done|].
  repeat case_match; intros; simplify_eq; done.
Qed.

Lemma CSV_items name fallback :
  Forall (fun s => nonempty s = true) fallback ->
  Forall (fun s => nonempty s = true) (CSV name fallback).
Proof.
  intros Hf. unfold CSV. case_match; [done|].
  assert (Hall : Forall (fun s => nonempty s = true)
    (List.filter nonempty (map TrimSpace (Split (TrimSpace (getenv name)) ","%char)))).
  { apply Forall_forall. intros s Hs. apply list_elem_of_In, List.filter_In in Hs. apply Hs. }
  destruct (List.filter _ _); [done|exact Hall].
Qed.

(** A duration is the configured number of seconds while it fits in [int64]. *)
Lemma DurationSeconds_exact name fallback :
  0 < fallback / ns_per_second ->
  Int name (fallback / ns_per_second) <= int64_max / ns_per_second ->
  DurationSeconds name fallback = Int name (fallback / ns_per_second) * ns_per_second
  /\ 0 < DurationSeconds name fallback.
Proof.
  intros Hf Hle. pose proof (Int_positive name _ Hf) as Hpos.
  assert (Hmax : Int name (fallback / ns_per_second) * ns_per_second <= int64_max).
  { transitivity (int64_max / ns_per_second * ns_per_second); [|by vm_compute].
    unfold ns_per_second in *. lia. }
  unfold DurationSeconds. rewrite wrap64_id.
  - split; [done|]. unfold ns_per_second in *. lia.
  - apply in_int64_iff. unfold int64_max, ns_per_second in *. lia.
Qed.
End Env.

(** Past that bound the product wraps around, here to a negative duration. *)
Example DurationSeconds_overflow :
  @DurationSeconds (fun _ => "9223372037") "RETENTION" (60 * ns_per_second) = -9223372036709551616.
Proof. by vm_compute. Qed.

End AppEnv.
