(* ===== verification/DeadLetter.v ===== *)
(** * [internal/deadletter/recorder.go]: parking a message that cannot be handled

    The record is stored first, the copy on the dead-letter topic is published
    next, and the record is marked published last, so that a crash in between
    repeats the publication and never loses the message. *)

From stdpp Require Import base strings list.
From Stdlib Require Import ZArith Lia Ascii.
From S2P Require Import Prelude GoStrings Sha256 Runtime Domain KafkaBus.

Open Scope Z_scope.

Module DeadLetters.

Definition StateOpen : string := "OPEN".
Definition StateRepublished : string := "REPUBLISHED".
Definition StateDiscarded : string := "DISCARDED".

(** [deadletter.Record]; the zero time of [KafkaPublishedAt] is 0. *)
Record Rec := mk_Rec {
  re_ID : string;
  re_ConsumerName : string;
  re_EventID : string;
  re_SourceTopic : string;
  re_SourcePartition : Z;
  re_SourceOffset : Z;
  re_Key : string;
  re_Headers : list Header;
  re_Payload : string;
  re_PayloadSHA256 : string;
  re_ErrorClass : string;
  re_ErrorMessage : string;
  re_State : string;
  re_FirstFailedAt : Z;
  re_LastFailedAt : Z;
  re_KafkaPublishedAt : Z;
  re_ReplayCount : Z;
}.

Class DeadLetterStore (S : Type) := {
  UpsertDeadLetter : Rec -> M S Rec;
  MarkDeadLetterPublished : string -> Z -> M S unit;
}.

Definition headerValue (headers : list Header) (key : string) : string :=
  match List.find (fun h => String.eqb (hdr_Key h) key) headers with
  | Some header => hdr_Value header
  | None => EmptyString
  end.

Definition cloneHeaders (headers : list Header) : list Header :=
  map (fun header => mk_header (hdr_Key header) (EmptyString +:+ hdr_Value header)) headers.

Lemma parked_headers_same headers : cloneHeaders headers = headers.
Proof. apply KafkaBus.cloneHeaders_same. Qed.

Definition nul : string := String (chr 0) EmptyString.

Definition deterministicID (consumerName topic : string) (partition offset : Z) : string :=
  let sum := Sum256 (consumerName +:+ nul +:+ topic +:+ nul +:+ FormatInt partition +:+ nul
                     +:+ FormatInt offset) in
  "dlq_" +:+ EncodeToString (take 16 sum).

Section Recorder.
Context `{UnicodeTables}.

Definition classify (err : option error) : string :=
  match err with
  | None => "handler_error"
  | Some err =>
    let message := ToLower (Error err) in
    if Contains message "decode" || Contains message "unmarshal"
       || Contains message "invalid byte"
    then "decode_error"
    else if Contains message "incomplete" || Contains message "must be"
            || Contains message "does not match"
    then "validation_error"
    else "handler_error"
  end.

(** At most 512 runes, control characters blanked. *)
Definition sanitize (err : option error) : string :=
  match err with
  | None => "handler failed"
  | Some err =>
    let values := runes (TrimSpace (Error err)) in
    let values := take 512 values in
    string_of_runes (map (fun value => if is_control value then 0x20 else value) values)
  end.

Definition recordFromMessage (consumerName : string) (message : Message) (cause : option error)
  (now : Z) : Rec :=
  mk_Rec
    (deterministicID consumerName (msg_Topic message) (msg_Partition message)
       (msg_Offset message))
    consumerName (headerValue (msg_Headers message) "event_id") (msg_Topic message)
    (msg_Partition message) (msg_Offset message) (msg_Key message)
    (cloneHeaders (msg_Headers message)) (msg_Value message) (sha256_hex (msg_Value message))
    (classify cause) (sanitize cause) StateOpen now now 0 0.

Definition cloneMessage (message : Message) : Message :=
  mk_message (msg_Topic message) (msg_Partition message) (msg_Offset message)
    (msg_Key message) (msg_Value message) (cloneHeaders (msg_Headers message)).

Context {S : Type} `{DeadLetterStore S}.

(** [publish] is the [Publisher] interface's [Move]. *)
Definition MoveMessage (publish : Message -> M S unit) (consumerName : string)
  (message : Message) (cause : error) : M S unit :=
  let! now := Now in
  let record := recordFromMessage consumerName message (Some cause) now in
  let! stored := wrapf "persist dead letter" (UpsertDeadLetter record) in
  if negb (re_KafkaPublishedAt stored =? 0) then ret tt else
  let deadLetter := cloneMessage message in
  let deadLetter := mk_message (msg_Topic deadLetter) (msg_Partition deadLetter)
    (msg_Offset deadLetter) (msg_Key deadLetter) (msg_Value deadLetter)
    (msg_Headers deadLetter
     ++ [mk_header "dead_letter_id" (re_ID record);
         mk_header "failed_consumer" (re_ConsumerName record);
         mk_header "failure_reason" (re_ErrorMessage record)]) in
  let! _ := wrapf "publish dead letter" (publish deadLetter) in
  let! publishedAt := Now in
  wrapf "mark dead letter published" (MarkDeadLetterPublished (re_ID record) publishedAt).
End Recorder.

End DeadLetters.
