(* ===== verification/Operations.v ===== *)
(** * [internal/operations/service.go]: operator replays and requeues *)

From stdpp Require Import base strings list.
From Stdlib Require Import ZArith Lia.
From S2P Require Import Prelude GoStrings GoJson Runtime Domain KafkaBus DeadLetter.

Open Scope Z_scope.

Module Operator.
Import DeadLetters.

Definition ReplayPublished : string := "PUBLISHED".
Definition ReplayFailed : string := "FAILED".

Class OperationsStore (S : Type) := {
  GetDeadLetter : string -> M S (option Rec);
  IsEventProcessed : string -> M S bool;
  StartDeadLetterReplay : string -> string -> M S string;
  FinishDeadLetterReplay : string -> string -> string -> string -> M S unit;
  GetOutboxStatus : string -> M S (option string);
  RequeueOutbox : string -> string -> M S unit;
}.

Definition days (n : Z) : Z := n * seconds_per_day * ns_per_second.

(** [NewService]: the configured replay window, or 14 days. *)
Definition NewService (replayWindow : Z) : Z :=
  if replayWindow <=? 0 then days 14 else replayWindow.

Definition validReason (reason : string) : bool :=
  let reason := TrimSpace reason in
  negb ((len reason =? 0) || (256 <? len reason))
  && forallb (fun value => negb (is_control value)) (runes reason).

Definition boundedError (err : error) : string :=
  string_of_runes (take 512 (runes (Error err))).

Definition cloneHeaders (headers : list Header) : list Header :=
  map (fun header => mk_header (hdr_Key header) (EmptyString +:+ hdr_Value header)) headers.

Lemma replayed_headers_same headers : cloneHeaders headers = headers.
Proof. apply KafkaBus.cloneHeaders_same. Qed.

Section Service.
Context {S : Type} `{OperationsStore S}.
Context (publishMessage : string -> Message -> M S unit) (replayWindow : Z).

(** The end of [ReplayDeadLetter], once an attempt is registered. *)
Definition publishReplay (record : Rec) (attemptID : string) : M S Rec :=
  let message := mk_message EmptyString 0 0 (re_Key record) (re_Payload record)
    (cloneHeaders (re_Headers record)) in
  try! published := publishMessage (re_SourceTopic record) message in
  match published with
  | Err err =>
    try! finished := FinishDeadLetterReplay attemptID (re_ID record) ReplayFailed
                       (boundedError err) in
    let err := match finished with
               | Err finishErr => EJoin err (EWrap "record failed replay" finishErr)
               | Ok _ => err
               end in
    fail (EWrap "publish dead letter replay" err)
  | Ok _ =>
    let! _ := wrapf "finish dead letter replay"
      (FinishDeadLetterReplay attemptID (re_ID record) ReplayPublished EmptyString) in
    ret (mk_Rec (re_ID record) (re_ConsumerName record) (re_EventID record)
           (re_SourceTopic record) (re_SourcePartition record) (re_SourceOffset record)
           (re_Key record) (re_Headers record) (re_Payload record) (re_PayloadSHA256 record)
           (re_ErrorClass record) (re_ErrorMessage record) StateRepublished
           (re_FirstFailedAt record) (re_LastFailedAt record) (re_KafkaPublishedAt record)
           (re_ReplayCount record + 1))
  end.

Definition ReplayDeadLetter (id reason : string) : M S Rec :=
  if negb (validReason reason) then fail (ESentinel operations_ErrInvalidReason) else
  let! found := wrapf "get dead letter" (GetDeadLetter id) in
  match found with
  | None => fail (ESentinel operations_ErrNotFound)
  | Some record =>
    if negb (String.eqb (re_State record) StateOpen)
    then fail (ESentinel operations_ErrInvalidState) else
    let! now := Now in
    if re_FirstFailedAt record <? now - replayWindow
    then fail (ESentinel operations_ErrReplayWindowExpired) else
    let! processed :=
      if String.eqb (re_EventID record) EmptyString then ret false
      else wrapf "check processed event" (IsEventProcessed (re_EventID record)) in
    if (processed : bool) then fail (ESentinel operations_ErrAlreadyProcessed) else
    let! attemptID := wrapf "start dead letter replay"
      (StartDeadLetterReplay (re_ID record) (TrimSpace reason)) in
    publishReplay record attemptID
  end.

Definition RequeueDeadOutbox (id reason : string) : M S string :=
  if negb (validReason reason) then fail (ESentinel operations_ErrInvalidReason) else
  let! found := wrapf "get outbox status" (GetOutboxStatus id) in
  match found with
  | None => fail (ESentinel operations_ErrNotFound)
  | Some status =>
    if negb (String.eqb status OutboxDeadLettered)
    then fail (ESentinel operations_ErrInvalidState) else
    let! _ := wrapf "requeue outbox" (RequeueOutbox id (TrimSpace reason)) in
    ret OutboxPending
  end.
End Service.

End Operator.
