(* ===== verification/Maintenance.v ===== *)
(** * [internal/maintenance/processed_events.go]: pruning the processed-event record *)

From stdpp Require Import base strings list.
From Stdlib Require Import ZArith Lia.
From S2P Require Import Prelude GoStrings GoJson Runtime Domain KafkaBus DeadLetter Operations.

Open Scope Z_scope.

Module Maintenance.

Record Config := mk_Config {
  mc_Retention : Z;
  mc_ReplayWindow : Z;
  mc_BatchSize : Z;
}.

Record Stats := mk_Stats { ms_Total : Z; ms_OldestLastSeenAt : Z }.

Class MaintenanceStore (S : Type) := {
  ProcessedEventStats : M S Stats;
  PreviewProcessedPrune : Z -> M S Z;
  PruneProcessedEvents : Z -> Z -> string -> M S Z;
}.

(** The service: its retention and batch size. *)
Record ProcessedEventsService := mk_Service { sv_retention : Z; sv_batchSize : Z }.

Definition NewProcessedEventsService (config : Config) : outcome error ProcessedEventsService :=
  let retention := if mc_Retention config <=? 0 then Operator.days 30 else mc_Retention config in
  let replayWindow :=
    if mc_ReplayWindow config <=? 0 then Operator.days 14 else mc_ReplayWindow config in
  if retention <? replayWindow then Err (ESentinel maintenance_ErrUnsafeRetention) else
  let batchSize := if mc_BatchSize config <=? 0 then 1000 else mc_BatchSize config in
  let batchSize := if 10000 <? batchSize then 10000 else batchSize in
  Ok (mk_Service retention batchSize).

Section Service.
Context {S : Type} `{MaintenanceStore S}.
Context (s : ProcessedEventsService).

Definition GetStats : M S Stats := wrapf "processed-event stats" ProcessedEventStats.

(** The cutoff and the number of eligible records. *)
Definition Preview : M S (Z * Z) :=
  let! now := Now in
  let cutoff := now - sv_retention s in
  let! eligible := wrapf "preview processed-event prune" (PreviewProcessedPrune cutoff) in
  ret (cutoff, eligible).

(** The cutoff and the number of deleted records. *)
Definition Prune (reason : string) : M S (Z * Z) :=
  let reason := TrimSpace reason in
  if (len reason =? 0) || (256 <? len reason) then fail (EText "invalid prune reason") else
  let! now := Now in
  let cutoff := now - sv_retention s in
  let! deleted := wrapf "prune processed events"
    (PruneProcessedEvents cutoff (sv_batchSize s) reason) in
  ret (cutoff, deleted).
End Service.

End Maintenance.
