(* ===== verification/QueryService.v ===== *)
(** * [internal/transaction/query.go]: reading transactions, page by page *)

From stdpp Require Import base strings list.
From Stdlib Require Import ZArith Lia.
From S2P Require Import Prelude GoStrings GoJson GoTime Base64 Codec Runtime Domain.

Open Scope Z_scope.

Module Queries.

(** [transaction.Detail] *)
Record Detail := mk_Detail {
  de_ID : string;
  de_Kind : string;
  de_AccountID : string;
  de_MerchantID : string;
  de_FundingSource : string;
  de_ExternalReference : string;
  de_AmountCents : Z;
  de_Currency : string;
  de_Status : string;
  de_RiskLevel : string;
  de_RiskReason : string;
  de_CorrelationID : string;
  de_CreatedAt : Z;
  de_UpdatedAt : Z;
}.

Record ListFilter := mk_ListFilter {
  lf_AccountID : string;
  lf_Status : string;
  lf_Kind : string;
  lf_Limit : Z;
  lf_Cursor : string;
}.

Record StoreListFilter := mk_StoreListFilter {
  sf_AccountID : string;
  sf_Status : string;
  sf_Kind : string;
  sf_Limit : Z;
  sf_BeforeCreatedAt : Z;     (* the zero time is 0 *)
  sf_BeforeID : string;
}.

Record Page := mk_Page { pg_Items : list Detail; pg_NextCursor : string }.

Class QueryStore (S : Type) := {
  GetTransaction : string -> M S (option Detail);
  ListTransactions : StoreListFilter -> M S (list Detail);
}.

(** ** Cursors *)

Record cursor := mk_cursor { cu_CreatedAt : Z; cu_ID : string }.

Definition cursor_members (c : cursor) : list member :=
  [(time_field "created_at" (cu_CreatedAt c), JStr (format_rfc3339_nano (cu_CreatedAt c)));
   (string_field "id" (cu_ID c), JStr (cu_ID c))].

(** The marshalling error is dropped: an unmarshalable time gives an empty text. *)
Definition encodeCursor (value : cursor) : string :=
  RawURLEncode
    (if marshalable_time (cu_CreatedAt value)
     then encode_object (map member_text (cursor_members value)) else EmptyString).

Definition cursor_struct : struct cursor :=
  [("created_at", fun '(mk_cursor a b) v => obind (set_time a v) (fun a => Some (mk_cursor a b)));
   ("id", fun '(mk_cursor a b) v => obind (set_string b v) (fun b => Some (mk_cursor a b)))].

Definition unmarshal_cursor (payload : string) : option cursor :=
  obind (parse payload) (decode_struct cursor_struct false (mk_cursor 0 EmptyString)).

Definition decodeCursor (value : string) : option cursor :=
  obind (RawURLDecode value) (fun payload =>
  obind (unmarshal_cursor payload) (fun decoded =>
  if (cu_CreatedAt decoded =? 0) || negb (safeTokenPattern (cu_ID decoded)) then None
  else Some decoded)).

Definition validStatus (status : string) : bool :=
  String.eqb status EmptyString || String.eqb status TransactionPending
  || String.eqb status TransactionAuthorized || String.eqb status TransactionFailed.

Definition validKind (kind : string) : bool :=
  String.eqb kind EmptyString || String.eqb kind TransactionPayment
  || String.eqb kind TransactionDeposit.

(** ** The service *)

Section Service.
Context {S : Type} `{QueryStore S}.

Definition Get (id : string) : M S Detail :=
  if negb (safeTokenPattern id) then fail (ESentinel transaction_ErrInvalidQuery) else
  let! found := wrapf "get transaction" (GetTransaction id) in
  match found with
  | None => fail (ESentinel transaction_ErrNotFound)
  | Some detail => ret detail
  end.

Definition normalized_limit (filter : ListFilter) : Z :=
  if lf_Limit filter =? 0 then 25 else lf_Limit filter.

(** The store's filter, [None] for an invalid query. *)
Definition store_filter (filter : ListFilter) : option StoreListFilter :=
  let limit := normalized_limit filter in
  if negb (safeTokenPattern (lf_AccountID filter)) || (limit <? 1) || (100 <? limit)
     || negb (validStatus (lf_Status filter)) || negb (validKind (lf_Kind filter))
  then None
  else
    let storeFilter :=
      mk_StoreListFilter (lf_AccountID filter) (lf_Status filter) (lf_Kind filter) limit in
    if String.eqb (lf_Cursor filter) EmptyString then Some (storeFilter 0 EmptyString)
    else match decodeCursor (lf_Cursor filter) with
         | None => None
         | Some c => Some (storeFilter (cu_CreatedAt c) (cu_ID c))
         end.

(** The page of at most [limit] items; the item after them only tells that
    there are more. *)
Definition page_of (limit : Z) (items : list Detail) : Page :=
  if limit <? Z.of_nat (length items) then
    let items := take (Z.to_nat limit) items in
    match last items with
    | Some l => mk_Page items (encodeCursor (mk_cursor (de_CreatedAt l) (de_ID l)))
    | None => mk_Page items EmptyString
    end
  else mk_Page items EmptyString.

Definition List (filter : ListFilter) : M S Page :=
  match store_filter filter with
  | None => fail (ESentinel transaction_ErrInvalidQuery)
  | Some storeFilter =>
    let! items := wrapf "list transactions" (ListTransactions storeFilter) in
    ret (page_of (normalized_limit filter) items)
  end.
End Service.
End Queries.
