(* ===== verification/StoreOutbox.v ===== *)
(** * [internal/postgres/outbox.go]: the outbox table

    The rows a publisher claims, finishes, or gives up on; the state machine
    they follow is [outbox_step] at the end. *)

From stdpp Require Import base strings list gmap sorting.
From Stdlib Require Import ZArith Lia.
From S2P Require Import Prelude GoStrings Runtime Domain GoJson Schema OutboxPublisher.

Open Scope Z_scope.

Section Store.
Context `{Jsonb} `{Collation}.

(** Runs inside the caller's transaction, whose [now()] is [now]. *)
Definition insertOutbox (now : Z) (event : OutboxEvent) : M DB unit :=
  statement (fun _ db => exec_ db (
    with_texts [ev_ID event; ev_Type event; ev_AggregateID event; ev_PartitionKey event;
                ev_CorrelationID event; ev_Payload event; ev_Status event]
      (jsonb_in (ev_Payload event) (fun payload =>
        insert_outbox_event (ev_ID event)
          (mk_outbox_row (ev_Type event) (ev_AggregateID event) (ev_PartitionKey event)
            (ev_CorrelationID event) payload (ev_Status event) 0 None None
            (timestamptz now) (timestamptz now)) db)))).

(** The columns the Go code scans. *)
Definition scan_outbox (id : string) (r : outbox_row) (last_error : string) : OutboxEvent :=
  mk_OutboxEvent id (o_event_type r) (o_aggregate_id r) (o_partition_key r)
    (o_correlation_id r) (o_payload r) (o_status r) (o_attempts r) last_error (o_created_at r).

Definition with_status (s : string) (now : Z) (r : outbox_row) : outbox_row :=
  mk_outbox_row (o_event_type r) (o_aggregate_id r) (o_partition_key r) (o_correlation_id r)
    (o_payload r) s (o_attempts r) (o_last_error r) (o_published_at r) (o_created_at r) now.

(** [status = $1 or (status = $2 and updated_at < now() - interval '5 minutes')] *)
Definition claimable (now : Z) (r : outbox_row) : bool :=
  String.eqb (o_status r) OutboxPending
  || (String.eqb (o_status r) OutboxProcessing && (o_updated_at r <? now - minutes 5)).

(** [order by created_at, id for update skip locked limit 1] *)
Definition next_event (lk : row_key -> bool) (now : Z) (db : DB) : option (string * outbox_row) :=
  head (filter (fun kv => negb (lk (outbox_row_key kv.1)) = true)
          (merge_sort (asc o_created_at)
            (filter (fun kv => claimable now kv.2 = true) (map_to_list (db_outbox_events db))))).

Definition NextPending : M DB (option OutboxEvent) :=
  wrapf "query pending outbox event" (round_trip (fun lk now db =>
    let now := timestamptz now in
    exec db (
      match next_event lk now db with
      | None => Ok (None, db)
      | Some (id, r) =>
        let r' := with_status OutboxProcessing now r in
        obind_ok (update_outbox_event id r' db) (fun db' =>
          Ok (Some (scan_outbox id r' EmptyString), db'))
      end))).

(** [update outbox_events set ... where id = $1 and status = $s] *)
Definition update_where_status (id s : string) (f : outbox_row -> outcome error outbox_row)
  (db : DB) : outcome error (Z * DB) :=
  match db_outbox_events db !! id with
  | Some r =>
    if String.eqb (o_status r) s
    then obind_ok (f r) (fun r' => obind_ok (update_outbox_event id r' db) (fun db' => Ok (1, db')))
    else Ok (0, db)
  | None => Ok (0, db)
  end.

Definition published_row (now : Z) (r : outbox_row) : outbox_row :=
  mk_outbox_row (o_event_type r) (o_aggregate_id r) (o_partition_key r) (o_correlation_id r)
    (o_payload r) OutboxPublished (o_attempts r) (o_last_error r) (Some now) (o_created_at r)
    now.

Definition MarkPublished (eventID : string) : M DB unit :=
  wrapf "mark outbox event published" (
    let! _ := round_trip (fun _ now db => exec db (with_texts [eventID] (
      let now := timestamptz now in
      update_where_status eventID OutboxProcessing (fun r => Ok (published_row now r)) db))) in
    ret tt).

Definition failed_row (maxAttempts now : Z) (r : outbox_row) : outbox_row :=
  mk_outbox_row (o_event_type r) (o_aggregate_id r) (o_partition_key r) (o_correlation_id r)
    (o_payload r)
    (if maxAttempts <=? o_attempts r + 1 then OutboxDeadLettered else OutboxPending)
    (o_attempts r + 1) (Some "publish failed"%string) (o_published_at r) (o_created_at r) now.

(** [attempts + 1] is computed in [integer]. *)
Definition MarkFailedAttempt (eventID : string) (maxAttempts : Z) : M DB unit :=
  wrapf "mark outbox event failed" (
    let! _ := round_trip (fun _ now db => exec db (with_texts [eventID] (with_int4 maxAttempts (
      let now := timestamptz now in
      update_where_status eventID OutboxProcessing (fun r =>
        int4_result (o_attempts r + 1) (Ok (failed_row maxAttempts now r))) db)))) in
    ret tt).

(** The default page size of the two [List...] queries. *)
Definition bounded_limit (limit : Z) : Z :=
  if (limit <=? 0) || (100 <? limit) then 50 else limit.

Definition ListDeadOutbox (limit : Z) : M DB (list OutboxEvent) :=
  let limit := bounded_limit limit in
  wrapf "list dead-lettered outbox events" (round_trip (fun _ _ db =>
    (Ok (map (fun kv => scan_outbox kv.1 kv.2 (coalesce_text (o_last_error kv.2)))
          (take (Z.to_nat limit) (merge_sort (desc o_created_at)
            (filter (fun kv => o_status kv.2 = OutboxDeadLettered)
              (map_to_list (db_outbox_events db)))))), db))).

Definition GetOutboxEvent (id : string) : M DB (option OutboxEvent) :=
  wrapf "get outbox event" (round_trip (fun _ _ db =>
    (with_texts [id] (Ok (match db_outbox_events db !! id with
      | Some r => Some (scan_outbox id r (coalesce_text (o_last_error r)))
      | None => None
      end)), db))).

Definition GetOutboxStatus (id : string) : M DB (option string) :=
  wrapf "get outbox status" (round_trip (fun _ _ db =>
    (with_texts [id] (Ok (option_map o_status (db_outbox_events db !! id))), db))).

(** [insert into operator_actions]: shared by the audited operations. *)
Definition insertAction (now : Z) (id action target reason : string) : M DB unit :=
  statement (fun _ db => exec_ db (with_texts [id; target; reason]
    (insert_operator_action id (mk_action_row action target reason (timestamptz now)) db))).

Definition requeued_row (now : Z) (r : outbox_row) : outbox_row :=
  mk_outbox_row (o_event_type r) (o_aggregate_id r) (o_partition_key r) (o_correlation_id r)
    (o_payload r) OutboxPending 0 None (o_published_at r) (o_created_at r) now.

Definition RequeueOutbox (id reason : string) : M DB unit :=
  transact "begin requeue outbox" (fun _ => "commit outbox requeue"%string) (fun now =>
    let! affected := wrapf "requeue outbox event" (statement (fun _ db => exec db (
      with_texts [id] (update_where_status id OutboxDeadLettered (fun r =>
        Ok (requeued_row (timestamptz now) r)) db)))) in
    if negb (affected =? 1) then fail (ESentinel operations_ErrInvalidState) else
    let! act := NewID "act" in
    wrapf "audit outbox requeue" (insertAction now act "OUTBOX_REQUEUE" id reason)).

#[export] Instance PgOutboxStore : Outbox.OutboxStore DB := {
  Outbox.NextPending := NextPending;
  Outbox.MarkPublished := MarkPublished;
  Outbox.MarkFailedAttempt := MarkFailedAttempt;
}.
End Store.

(** ** The state machine of an event *)

(** What an update may do to a row: claim it (again, once its claim is stale),
    finish it, count a failed attempt, or give it another chance. *)
Inductive outbox_step : outbox_row -> outbox_row -> Prop :=
| outbox_claim now r :
    claimable now r = true -> outbox_step r (with_status OutboxProcessing now r)
| outbox_publish now r :
    o_status r = OutboxProcessing -> outbox_step r (published_row now r)
| outbox_fail maxAttempts now r :
    o_status r = OutboxProcessing -> outbox_step r (failed_row maxAttempts now r)
| outbox_requeue now r :
    o_status r = OutboxDeadLettered -> outbox_step r (requeued_row now r).

(** What an event says. *)
Definition outbox_content (r : outbox_row) : string * string * string * string * string * Z :=
  (o_event_type r, o_aggregate_id r, o_partition_key r, o_correlation_id r, o_payload r,
   o_created_at r).

Lemma outbox_step_content r r' : outbox_step r r' -> outbox_content r' = outbox_content r.
Proof. by intros []. Qed.

Lemma outbox_step_published r r' : outbox_step r r' -> o_status r <> OutboxPublished.
Proof.
  intros [now q Hc|now q Hc|m now q Hc|now q Hc]; try by rewrite Hc.
  unfold claimable in Hc. intros He. rewrite He in Hc. done.
Qed.

(** ** Effects *)

Section Effects.
Context `{Jsonb} `{Collation}.
Implicit Types (w : World DB).

(** An update under a status guard changes one row by its function, or nothing. *)
Lemma update_where_status_ok id s f db n db' :
  update_where_status id s f db = Ok (n, db') ->
  (n = 0 /\ db' = db
   /\ forall r, db_outbox_events db !! id = Some r -> o_status r <> s)
  \/ (exists r r', n = 1 /\ db_outbox_events db !! id = Some r /\ o_status r = s /\ f r = Ok r'
       /\ db' = set_outbox_events (<[id := r']> (db_outbox_events db)) db).
Proof.
  unfold update_where_status. destruct (db_outbox_events db !! id) as [r|];
    [|intros [= <- <-]; by left].
  destruct (String.eqb _ _) eqn:Hs; reflect_bools.
  - intros (r' & Hf & (db1 & Hu & [= <- <-])%obind_ok_ok)%obind_ok_ok. right.
    unfold update_outbox_event in Hu. apply checked_ok in Hu as [_ [= <-]]. eauto 8.
  - intros [= <- <-]. left. split_and!; [done..|]. by intros ? [= <-].
Qed.

(** The event [NextPending] claims is in the table, not locked, and claimable. *)
Lemma next_event_ok lk now db id r :
  next_event lk now db = Some (id, r) ->
  db_outbox_events db !! id = Some r /\ claimable now r = true
  /\ lk (outbox_row_key id) = false.
Proof.
  unfold next_event. intros Hh.
  apply head_Some_elem_of, list_elem_of_filter in Hh as [Hlk Hin].
  rewrite merge_sort_Permutation, list_elem_of_filter, elem_of_map_to_list in Hin.
  destruct Hin as [? ?]. split_and!; [done..|]. by apply negb_true_iff.
Qed.

Lemma framed_insertOutbox now ev : framed (insertOutbox now ev).
Proof. unfold insertOutbox. solve_framed. Qed.
Lemma framed_insertAction now id a t r : framed (insertAction now id a t r).
Proof. unfold insertAction. solve_framed. Qed.

(** The row [insertOutbox] adds for [event]. *)
Definition outbox_row_of (now : Z) (event : OutboxEvent) (payload : string) : outbox_row :=
  mk_outbox_row (ev_Type event) (ev_AggregateID event) (ev_PartitionKey event)
    (ev_CorrelationID event) payload (ev_Status event) 0 None None
    (timestamptz now) (timestamptz now).

Lemma insertOutbox_ok now ev w w' :
  insertOutbox now ev w = (Ok tt, w') ->
  exists payload, jsonb (ev_Payload ev) = Some payload
  /\ Forall (fun c => c.2 = true) (outbox_checks (outbox_row_of now ev payload))
  /\ db_outbox_events (w_store w) !! ev_ID ev = None
  /\ w_store w' = set_outbox_events
       (<[ev_ID ev := outbox_row_of now ev payload]> (db_outbox_events (w_store w))) (w_store w).
Proof.
  intros (lk & Hrun)%statement_ok.
  apply exec__ok, with_texts_ok, jsonb_in_ok in Hrun as (p & Hp & Hrun).
  unfold insert_outbox_event in Hrun.
  apply checked_ok in Hrun as [Hc [Hf Hrun]%fresh_key_ok]. injection Hrun as <-. eauto.
Qed.

Lemma insertOutbox_err now ev w e w' :
  insertOutbox now ev w = (Err e, w') -> w_store w' = w_store w.
Proof.
  intros [(lk & Hrun)|[_ ?]]%statement_inv; [|done].
  by apply exec__inv in Hrun as [[_ [=]]|(? & _ & _ & ->)].
Qed.

Lemma plain_insertOutbox now ev : plain_errors (insertOutbox now ev).
Proof. unfold insertOutbox, insert_outbox_event. solve_plain. Qed.
Lemma plain_insertAction now id a t r : plain_errors (insertAction now id a t r).
Proof. unfold insertAction, insert_operator_action. solve_plain. Qed.

Lemma insertAction_ok now id a t r w w' :
  insertAction now id a t r w = (Ok tt, w') ->
  db_operator_actions (w_store w) !! id = None
  /\ w_store w' = set_operator_actions
       (<[id := mk_action_row a t r (timestamptz now)]> (db_operator_actions (w_store w)))
       (w_store w).
Proof.
  intros (lk & Hrun)%statement_ok. apply exec__ok, with_texts_ok in Hrun.
  unfold insert_operator_action in Hrun.
  apply checked_ok in Hrun as [_ [Hf Hrun]%fresh_key_ok]. by injection Hrun as <-.
Qed.
End Effects.

#[export] Hint Resolve framed_insertOutbox framed_insertAction : framed.
#[export] Hint Resolve plain_insertOutbox plain_insertAction : plain.
