(* ===== verification/TransactionService.v ===== *)
(** * [internal/transaction/service.go]: accepting payment requests

    The service is written against its [Store] interface: the class
    [TransactionStore], whose promises are [TransactionStoreSpec].  The theorems
    hold for every store that keeps them and for every schedule whose other
    sessions keep them too; [StoreTransaction.v] proves them of PostgreSQL. *)

From stdpp Require Import base strings list gmap.
From Stdlib Require Import ZArith Lia Ascii.
From S2P Require Import Prelude GoStrings Sha256 Runtime Domain GoJson Codec.

Open Scope Z_scope.

Module Transactions.

Record CreateRequest := mk_CreateRequest {
  rq_AccountID : string;
  rq_MerchantID : string;
  rq_AmountCents : Z;
  rq_Currency : string;
}.

Record RequestMetadata := mk_RequestMetadata {
  md_IdempotencyKey : string;
  md_CorrelationID : string;
}.

Record CreateResponse := mk_CreateResponse {
  cr_TransactionID : string;
  cr_Status : string;
  cr_CorrelationID : string;
}.

Record IdempotencyRecord := mk_IdempotencyRecord {
  ir_Key : string;
  ir_RequestHash : string;
  ir_Transaction : Transaction;
  ir_CreateResult : CreateResponse;
}.

#[export] Instance CreateRequest_eq_dec : EqDecision CreateRequest.
Proof. solve_decision. Defined.
#[export] Instance CreateResponse_eq_dec : EqDecision CreateResponse.
Proof. solve_decision. Defined.

(** ** The store interface *)

Class TransactionStore (S : Type) := {
  FindIdempotency : string -> M S (option IdempotencyRecord);
  CreateRecord : IdempotencyRecord -> OutboxEvent -> M S unit;
}.

(** ** The service *)

Section Service.
Context `{UnicodeTables} {S : Type} `{TransactionStore S}.

Definition validate (request : CreateRequest) (metadata : RequestMetadata)
  : outcome error CreateRequest :=
  let request := mk_CreateRequest
    (TrimSpace (rq_AccountID request)) (TrimSpace (rq_MerchantID request))
    (rq_AmountCents request) (ToUpper (TrimSpace (rq_Currency request))) in
  if negb (safeTokenPattern (md_IdempotencyKey metadata))
     || negb (safeTokenPattern (rq_AccountID request))
     || String.eqb (rq_AccountID request) "clearing"
     || String.eqb (rq_AccountID request) "external-settlement"
     || negb (safeTokenPattern (rq_MerchantID request))
     || negb (currencyPattern (rq_Currency request))
     || (rq_AmountCents request <=? 0)
  then Err (ESentinel transaction_ErrInvalidRequest)
  else Ok request.

(** The text [hashRequest] hashes: ["%s|%s|%d|%s"]. *)
Definition request_text (request : CreateRequest) : string :=
  rq_AccountID request +:+ "|" +:+ rq_MerchantID request +:+ "|"
  +:+ FormatInt (rq_AmountCents request) +:+ "|" +:+ rq_Currency request.

Definition hashRequest (request : CreateRequest) : string :=
  sha256_hex (request_text request).

(** The [if err := s.store.Create(...); err != nil] block: a concurrent
    request may have won the race for the key. *)
Definition settleCreateError (key requestHash : string) (err : error) : M S CreateResponse :=
  let failed := fail (EWrap "create transaction" err) in
  if errors_Is err transaction_ErrIdempotencyConflict then
    let! again := wrapf "find idempotency key after conflict" (FindIdempotency key) in
    match again with
    | Some existing =>
      if String.eqb (ir_RequestHash existing) requestHash
      then ret (ir_CreateResult existing) else failed
    | None => failed
    end
  else failed.

Definition Create (request : CreateRequest) (metadata : RequestMetadata)
  : M S CreateResponse :=
  let metadata := mk_RequestMetadata
    (TrimSpace (md_IdempotencyKey metadata)) (md_CorrelationID metadata) in
  let! normalized := lift (validate request metadata) in
  let requestHash := hashRequest normalized in
  let! found := wrapf "find idempotency key"
                  (FindIdempotency (md_IdempotencyKey metadata)) in
  match found with
  | Some existing =>
    if String.eqb (ir_RequestHash existing) requestHash
    then ret (ir_CreateResult existing)
    else fail (ESentinel transaction_ErrIdempotencyConflict)
  | None =>
    let! id := NewID "txn" in
    let! createdAt := Now in
    let! updatedAt := Now in
    let transaction := mk_Transaction id TransactionPayment
      (rq_AccountID normalized) (rq_MerchantID normalized) EmptyString EmptyString
      (rq_AmountCents normalized) (rq_Currency normalized) TransactionPending
      EmptyString EmptyString (md_CorrelationID metadata) createdAt updatedAt in
    let response := mk_CreateResponse (tx_ID transaction) (tx_Status transaction)
      (tx_CorrelationID transaction) in
    let! payload := wrapf "marshal transaction created event"
                      (lift (marshal_Transaction transaction)) in
    let record := mk_IdempotencyRecord (md_IdempotencyKey metadata) requestHash
      transaction response in
    let! event := NewOutboxEvent EventTransactionCreated (tx_ID transaction)
      (tx_AccountID transaction) (md_CorrelationID metadata) payload in
    try! created := CreateRecord record event in
    match created with
    | Ok _ => ret response
    | Err err => settleCreateError (md_IdempotencyKey metadata) requestHash err
    end
  end.
End Service.

(** ** What the store promises *)

(** Responses the store can write as JSON and read back. *)
Definition storable (r : IdempotencyRecord) : Prop :=
  sha256HexPattern (ir_RequestHash r) = true
  /\ plain (cr_TransactionID (ir_CreateResult r)) = true
  /\ plain (cr_Status (ir_CreateResult r)) = true
  /\ cr_CorrelationID (ir_CreateResult r) = tx_CorrelationID (ir_Transaction r).

Class TransactionStoreSpec (S : Type) `{TransactionStore S} := {
  (** The durable idempotency records: request hash and first response. *)
  ts_view : S -> gmap string (string * CreateResponse);
  ts_ok : S -> Prop;
  ts_evolves s s' := (ts_ok s -> ts_ok s') /\ ts_view s ⊆ ts_view s';

  find_reads key w r w' :
    FindIdempotency key w = (r, w') -> w_store w' = arrived w;
  find_framed key : framed (FindIdempotency key);
  find_found key w rec w' :
    FindIdempotency key w = (Ok (Some rec), w') ->
    ts_view (w_store w') !! key = Some (ir_RequestHash rec, ir_CreateResult rec);
  find_missing key w w' :
    FindIdempotency key w = (Ok None, w') -> ts_ok (w_store w') ->
    ts_view (w_store w') !! key = None;
  find_error key w e w' :
    FindIdempotency key w = (Err e, w') ->
    errors_Is e transaction_ErrIdempotencyConflict = false;

  create_framed rec ev : framed (CreateRecord rec ev);
  create_evolves rec ev w r w' :
    CreateRecord rec ev w = (r, w') -> storable rec -> ts_evolves (arrived w) (w_store w');
  create_durable rec ev w w' :
    CreateRecord rec ev w = (Ok tt, w') -> storable rec ->
    ts_view (w_store w') !! ir_Key rec = Some (ir_RequestHash rec, ir_CreateResult rec);
  create_conflict rec ev w e w' :
    CreateRecord rec ev w = (Err e, w') ->
    errors_Is e transaction_ErrIdempotencyConflict = true ->
    ts_ok (w_store w') -> is_Some (ts_view (w_store w') !! ir_Key rec);
}.

#[export] Hint Resolve find_framed create_framed : framed.

(** ** Theorems *)

(** *** Validation *)

Section Validation.
Context `{UnicodeTables}.

Definition valid_request (r : CreateRequest) : Prop :=
  safeTokenPattern (rq_AccountID r) = true
  /\ rq_AccountID r <> "clearing" /\ rq_AccountID r <> "external-settlement"
  /\ safeTokenPattern (rq_MerchantID r) = true
  /\ currencyPattern (rq_Currency r) = true /\ 0 < rq_AmountCents r.

Lemma validate_valid r md n :
  validate r md = Ok n ->
  valid_request n /\ safeTokenPattern (md_IdempotencyKey md) = true.
Proof.
  unfold validate. case_match eqn:E; [done|]. intros [= <-].
  reflect_bools. unfold valid_request. cbn in *. repeat split; try done; lia.
Qed.

Lemma validate_amount r md n : validate r md = Ok n -> rq_AmountCents n = rq_AmountCents r.
Proof. unfold validate. case_match; [done|]. by intros [= <-]. Qed.

Lemma validate_fixed r md :
  valid_request r -> safeTokenPattern (md_IdempotencyKey md) = true ->
  validate r md = Ok r.
Proof.
  intros (Ha & Hc & He & Hm & Hcur & Hamt) Hk. unfold validate.
  rewrite !TrimSpace_safe by auto using safeToken_chars, currency_safe_chars.
  rewrite ToUpper_upper by auto using currency_chars. cbn.
  rewrite Hk, Ha, Hm, Hcur.
  rewrite (proj2 (String.eqb_neq _ _) Hc), (proj2 (String.eqb_neq _ _) He).
  rewrite (proj2 (Z.leb_gt _ _)) by lia. by destruct r.
Qed.

Lemma validate_error r md e :
  validate r md = Err e -> e = ESentinel transaction_ErrInvalidRequest.
Proof. unfold validate. case_match; congruence. Qed.
End Validation.

(** *** Idempotency *)

Section Idempotency.
Context `{UnicodeTables} {S : Type} `{TransactionStoreSpec S}.
Implicit Types (w : World S).

#[local] Instance ts_evolves_preorder : PreOrder ts_evolves.
Proof.
  unfold ts_evolves. split.
  - intros s. split; [done|]. reflexivity.
  - intros s1 s2 s3 [? ?] [? ?]. split; [auto|]. by etrans.
Qed.

(** The trimmed metadata the service works with. *)
Definition trimmed (md : RequestMetadata) : RequestMetadata :=
  mk_RequestMetadata (TrimSpace (md_IdempotencyKey md)) (md_CorrelationID md).

Lemma find_evolves key w r w' :
  sched_rely ts_evolves w -> FindIdempotency key w = (r, w') ->
  ts_evolves (w_store w) (w_store w').
Proof.
  intros Hs Hrun. rewrite (find_reads _ _ _ _ Hrun). by apply arrived_rely.
Qed.

Lemma created_storable key n corr id tx :
  safeTokenPattern id = true -> tx_CorrelationID tx = corr ->
  storable (mk_IdempotencyRecord key (hashRequest n) tx
              (mk_CreateResponse id TransactionPending corr)).
Proof.
  intros Hid <-. split; [apply sha256_hex_pattern|]. split; [by apply safeToken_plain|done].
Qed.

(** What one call leaves behind, whatever it returns. *)
Definition create_post rq md w (r : outcome error CreateResponse) w' : Prop :=
  ts_evolves (w_store w) (w_store w') /\
  match r with
  | Ok resp => exists n, validate rq (trimmed md) = Ok n
      /\ ts_view (w_store w') !! md_IdempotencyKey (trimmed md) = Some (hashRequest n, resp)
  | Err e => errors_Is e transaction_ErrIdempotencyConflict = true ->
      exists n h resp, validate rq (trimmed md) = Ok n
      /\ ts_view (w_store w') !! md_IdempotencyKey (trimmed md) = Some (h, resp)
      /\ h <> hashRequest n
  end.

Lemma post_fail rq md w w' e :
  ts_evolves (w_store w) (w_store w') ->
  errors_Is e transaction_ErrIdempotencyConflict = false ->
  create_post rq md w (Err e) w'.
Proof. intros He Hn. split; [done|]. congruence. Qed.

(** A lookup's answer, in terms of the durable records. *)
Lemma find_answer key w rec w' hash :
  FindIdempotency key w = (Ok (Some rec), w') ->
  if String.eqb (ir_RequestHash rec) hash
  then ts_view (w_store w') !! key = Some (hash, ir_CreateResult rec)
  else exists h resp, ts_view (w_store w') !! key = Some (h, resp) /\ h <> hash.
Proof.
  intros Hrun%find_found. case_match eqn:E; reflect_bools; [by rewrite <- E|]. eauto.
Qed.

(** After a failed insert: the winner's response, or an error. *)
Lemma settle_post key hash err w r w' :
  ts_ok (w_store w) -> sched_rely ts_evolves w ->
  (errors_Is err transaction_ErrIdempotencyConflict = true ->
   ts_ok (w_store w) -> is_Some (ts_view (w_store w) !! key)) ->
  settleCreateError key hash err w = (r, w') ->
  ts_evolves (w_store w) (w_store w') /\
  match r with
  | Ok resp => ts_view (w_store w') !! key = Some (hash, resp)
  | Err e => errors_Is e transaction_ErrIdempotencyConflict = true ->
      exists h resp, ts_view (w_store w') !! key = Some (h, resp) /\ h <> hash
  end.
Proof.
  intros Hok Hs Hwin. unfold settleCreateError.
  destruct (errors_Is err _) eqn:Hconf; intros Hrun.
  2: { injection Hrun as <- <-. split; [done|]. cbn. congruence. }
  apply bind_inv in Hrun as [(again & w1 & Hf & Hrun)|(e & Hf & ->)].
  2: { apply wrapf_inv in Hf as ([|e'] & Hf & [= ->]). split; [by eapply find_evolves|].
       cbn. by rewrite (find_error _ _ _ _ Hf). }
  rewrite wrapf_ok in Hf. pose proof (find_evolves _ _ _ _ Hs Hf) as Hev.
  destruct again as [rec|].
  - pose proof (find_answer _ _ _ _ hash Hf) as Hans.
    destruct (String.eqb _ _); injection Hrun as <- <-; split; done.
  - exfalso. destruct (Hwin eq_refl Hok) as [v Hv].
    apply find_missing in Hf; [|by apply Hev].
    destruct Hev as [_ Hsub]. rewrite map_subseteq_spec in Hsub.
    apply Hsub in Hv. congruence.
Qed.

(** One run, branch by branch. *)
Lemma Create_post rq md w r w' :
  ts_ok (w_store w) -> sched_rely ts_evolves w ->
  Create rq md w = (r, w') -> create_post rq md w r w'.
Proof.
  intros Hok Hs Hrun. unfold Create in Hrun. fold (trimmed md) in Hrun.
  apply bind_inv in Hrun as [(n & w0 & Hv & Hrun)|(e & Hv & ->)];
    unfold lift in Hv; injection Hv as Hv Hw; [subst w0|subst w'].
  2: { apply validate_error in Hv as ->. apply post_fail; [reflexivity|done]. }
  apply bind_inv in Hrun as [(found & w1 & Hf & Hrun)|(e & Hf & ->)].
  2: { apply wrapf_inv in Hf as ([|e'] & Hf & [= ->]).
       apply post_fail; [by eapply find_evolves|]. exact (find_error _ _ _ _ Hf). }
  rewrite wrapf_ok in Hf. pose proof (find_evolves _ _ _ _ Hs Hf) as Hev1.
  destruct found as [rec|].
  { pose proof (find_answer _ _ _ _ (hashRequest n) Hf) as Hans.
    destruct (String.eqb _ _); injection Hrun as <- <-; split; [done|eauto|done|].
    intros _. destruct Hans as (h & resp & ? & ?). eauto 6. }
  apply (find_framed _) in Hf as Hfr1. clear Hf.
  pose proof (sched_rely_frame _ _ _ Hfr1 Hs) as Hs1.
  apply bind_inv in Hrun as [(id & w2 & Hid & Hrun)|(e & Hid & ->)]; [|done].
  rewrite NewID_run in Hid. injection Hid as <- <-.
  set (id := id_of "txn" _) in Hrun. cbn beta in Hrun.
  unfold Now in Hrun. unfold bind at 1 2 in Hrun. cbn beta iota in Hrun.
  set (tx := mk_Transaction _ _ _ _ _ _ _ _ _ _ _ _ _ _) in Hrun.
  apply bind_inv in Hrun as [(payload & w3 & Hp & Hrun)|(e & Hp & ->)].
  2: { apply wrapf_inv in Hp as (o & Hp & Ho). injection Hp as <- <-.
       apply post_fail; [done|].
       destruct (marshal_Transaction tx) eqn:Hm; simplify_eq.
       by apply marshal_Transaction_error in Hm as ->. }
  rewrite wrapf_ok in Hp. injection Hp as _ <-.
  apply bind_inv in Hrun as [(ev & w4 & Hev & Hrun)|(e & Hev & ->)]; [|done].
  rewrite NewOutboxEvent_run in Hev. injection Hev as _ <-.
  apply attempt_inv in Hrun as (o & w5 & Hc & Hrun).
  set (w4 := set_drawn _ _) in Hc. set (rec := mk_IdempotencyRecord _ _ _ _) in Hc.
  assert (Hfr4 : frame w1 w4) by (subst w4; split; cbn; try done; [lia|by exists 0%nat]).
  assert (Hstore4 : w_store w4 = w_store w1) by done.
  assert (Hs4 : sched_rely ts_evolves w4) by by eapply sched_rely_frame.
  assert (Hst : storable rec) by (apply created_storable; [by apply id_of_safe|done]).
  assert (Hev5 : ts_evolves (w_store w) (w_store w5)).
  { etrans; [exact Hev1|]. rewrite <- Hstore4.
    etrans; [by apply (arrived_rely ts_evolves)|]. by eapply create_evolves. }
  destruct o as [[]|err].
  { injection Hrun as <- <-. split; [done|]. exists n. split; [done|].
    by apply (create_durable _ _ _ _ Hc). }
  assert (Hs5 : sched_rely ts_evolves w5).
  { eapply sched_rely_frame; [|exact Hs4]. by eapply create_framed. }
  assert (Hok5 : ts_ok (w_store w5)) by by apply Hev5.
  pose proof (settle_post _ _ _ _ _ _ Hok5 Hs5 (fun Hc' => create_conflict _ _ _ _ _ Hc Hc')
    Hrun) as [Hev6 Hpost].
  split; [by etrans|]. destruct r as [resp|e]; [by eauto|].
  intros He. destruct (Hpost He) as (h & resp & ? & ?). by eauto 6.
Qed.
Lemma framed_settle_create key hash err : framed (settleCreateError key hash err).
Proof. unfold settleCreateError. solve_framed. Qed.
Lemma framed_Create rq md : framed (Create rq md).
Proof. unfold Create. solve_framed. apply framed_settle_create. Qed.

(** *** The properties *)

(** An acknowledged request is durable: the response the caller holds is the
    one recorded under its key. *)
Theorem Create_durable rq md w resp w' :
  ts_ok (w_store w) -> sched_rely ts_evolves w ->
  Create rq md w = (Ok resp, w') ->
  exists n, validate rq (trimmed md) = Ok n
  /\ ts_view (w_store w') !! md_IdempotencyKey (trimmed md) = Some (hashRequest n, resp).
Proof. intros Hok Hs Hrun. by destruct (Create_post _ _ _ _ _ Hok Hs Hrun) as [_ ?]. Qed.

Theorem Create_idempotent rq1 md1 w1 resp1 w1' rq2 md2 w2 r2 w2' :
  ts_ok (w_store w1) -> sched_rely ts_evolves w1 -> sched_rely ts_evolves w2 ->
  Create rq1 md1 w1 = (Ok resp1, w1') ->
  ts_evolves (w_store w1') (w_store w2) ->
  md_IdempotencyKey (trimmed md1) = md_IdempotencyKey (trimmed md2) ->
  Create rq2 md2 w2 = (r2, w2') ->
  match r2 with
  | Ok resp2 => resp2 = resp1 /\ exists n1 n2,
      validate rq1 (trimmed md1) = Ok n1 /\ validate rq2 (trimmed md2) = Ok n2
      /\ hashRequest n1 = hashRequest n2
  | Err e => errors_Is e transaction_ErrIdempotencyConflict = true ->
      exists n1 n2, validate rq1 (trimmed md1) = Ok n1 /\ validate rq2 (trimmed md2) = Ok n2
      /\ hashRequest n1 <> hashRequest n2
  end.
Proof.
  intros Hok1 Hs1 Hs2 Hrun1 Hev Hkey Hrun2.
  destruct (Create_post _ _ _ _ _ Hok1 Hs1 Hrun1) as [[Hok1' _] (n1 & Hv1 & Hrec1)].
  assert (Hok2 : ts_ok (w_store w2)) by (apply Hev; auto).
  destruct (Create_post _ _ _ _ _ Hok2 Hs2 Hrun2) as [Hev2 Hpost2].
  assert (Hsub : ts_view (w_store w2') !! md_IdempotencyKey (trimmed md2)
                 = Some (hashRequest n1, resp1)).
  { rewrite <- Hkey. eapply lookup_weaken; [exact Hrec1|]. etrans; [apply Hev|apply Hev2]. }
  destruct r2 as [resp2|e].
  - destruct Hpost2 as (n2 & Hv2 & Hrec2). rewrite Hsub in Hrec2. apply Some_pair_inj in Hrec2 as [Hh <-].
    eauto 6.
  - intros He. destruct (Hpost2 He) as (n2 & h & resp & Hv2 & Hrec2 & Hne).
    rewrite Hsub in Hrec2. apply Some_pair_inj in Hrec2 as [Hh <-]. rewrite <- Hh in Hne. eauto 6.
Qed.

(** A repeated request changes nothing: whatever it returns, the store is
    what the other sessions made of it. *)
Theorem Create_replay_writes_nothing rq md n resp w r w' :
  ts_ok (w_store w) -> sched_rely ts_evolves w ->
  validate rq (trimmed md) = Ok n ->
  ts_view (w_store w) !! md_IdempotencyKey (trimmed md) = Some (hashRequest n, resp) ->
  Create rq md w = (r, w') ->
  w_store w' = arrived w
  /\ (r = Ok resp \/ exists e, r = Err e
       /\ errors_Is e transaction_ErrIdempotencyConflict = false).
Proof.
  intros Hok Hs Hv Hrec Hrun. unfold Create in Hrun. fold (trimmed md) in Hrun.
  rewrite Hv in Hrun. unfold lift in Hrun. unfold bind at 1 in Hrun. cbn beta iota in Hrun.
  apply bind_inv in Hrun as [(found & w1 & Hf & Hrun)|(e & Hf & ->)].
  2: { apply wrapf_inv in Hf as ([|e'] & Hf & [= ->]). split; [by eapply find_reads|].
       right. eexists. split; [done|]. exact (find_error _ _ _ _ Hf). }
  rewrite wrapf_ok in Hf. pose proof (find_reads _ _ _ _ Hf) as Hw1.
  pose proof (find_evolves _ _ _ _ Hs Hf) as Hev1.
  pose proof (lookup_weaken _ _ _ _ Hrec (proj2 Hev1)) as Hrec1.
  destruct found as [rec|].
  - apply find_found in Hf. rewrite Hrec1 in Hf. apply Some_pair_inj in Hf as [Hh ->].
    rewrite <- Hh, String.eqb_refl in Hrun. injection Hrun as <- <-. auto.
  - apply find_missing in Hf; [congruence|]. by apply Hev1.
Qed.
End Idempotency.

(** *** What the recorded hash identifies *)

Lemma request_text_inj r1 r2 :
  valid_request r1 -> valid_request r2 -> request_text r1 = request_text r2 -> r1 = r2.
Proof.
  intros (Ha1 & _ & _ & Hm1 & Hc1 & _) (Ha2 & _ & _ & Hm2 & Hc2 & _) Heq.
  unfold request_text in Heq.
  apply bar_split in Heq as [Ha Heq]; [|by apply safeToken_chars..].
  apply bar_split in Heq as [Hm Heq]; [|by apply safeToken_chars..].
  apply bar_split in Heq as [Hz Hc]; [|by apply FormatInt_safe..].
  apply FormatInt_inj in Hz. destruct r1, r2. cbn in *. congruence.
Qed.

(** Requests that hash alike are equal, or their texts are a SHA-256 collision. *)
Lemma hashRequest_collision r1 r2 :
  valid_request r1 -> valid_request r2 -> hashRequest r1 = hashRequest r2 ->
  r1 = r2 \/ (request_text r1 <> request_text r2
              /\ sha256_hex (request_text r1) = sha256_hex (request_text r2)).
Proof.
  intros H1 H2 Hh. destruct (decide (request_text r1 = request_text r2)) as [He|He]; [|by right].
  left. by apply request_text_inj.
Qed.

End Transactions.
