(* ===== verification/StoreTransaction.v ===== *)
(** * [internal/postgres/transaction.go]: storing payment requests

    PostgreSQL's implementation of the [TransactionStore] interface and the
    proof that it keeps the promises of [TransactionStoreSpec]. *)

From stdpp Require Import base strings list gmap.
From Stdlib Require Import ZArith Lia.
From S2P Require Import Prelude GoStrings Sha256 Runtime Domain GoJson Codec Schema StoreOutbox.
From S2P Require Import TransactionService.

Open Scope Z_scope.

Import Transactions.

(** ** [json.Marshal] and [json.Unmarshal] of [transaction.CreateResponse] *)

Definition CreateResponse_members (r : CreateResponse) : list member :=
  [(string_field "TransactionID" (cr_TransactionID r), JStr (cr_TransactionID r));
   (string_field "Status" (cr_Status r), JStr (cr_Status r));
   (string_field "CorrelationID" (cr_CorrelationID r), JStr (cr_CorrelationID r))].

Definition marshal_CreateResponse (r : CreateResponse) : string :=
  encode_object (map member_text (CreateResponse_members r)).

Definition CreateResponse_struct : struct CreateResponse :=
  [("TransactionID", fun '(mk_CreateResponse a b c) v =>
      obind (set_string a v) (fun a => Some (mk_CreateResponse a b c)));
   ("Status", fun '(mk_CreateResponse a b c) v =>
      obind (set_string b v) (fun b => Some (mk_CreateResponse a b c)));
   ("CorrelationID", fun '(mk_CreateResponse a b c) v =>
      obind (set_string c v) (fun c => Some (mk_CreateResponse a b c)))].

Definition unmarshal_CreateResponse (payload : string) : option CreateResponse :=
  obind (parse payload)
    (decode_struct CreateResponse_struct false (mk_CreateResponse EmptyString EmptyString EmptyString)).

(** ** Operations *)

Section Store.
Context `{Jsonb}.

(** [Scan] then [json.Unmarshal]; the transaction is left zero, as in Go. *)
Definition PgFindIdempotency (key : string) : M DB (option IdempotencyRecord) :=
  let! row := wrapf "query idempotency key" (round_trip (fun _ _ db =>
    (with_texts [key] (Ok (db_idempotency_keys db !! key)), db))) in
  match row with
  | None => ret None
  | Some r =>
    match unmarshal_CreateResponse (i_response_json r) with
    | None => fail (EWrap "decode idempotency response" (EText "json"))
    | Some response =>
      ret (Some (mk_IdempotencyRecord key (i_request_hash r) zero_Transaction response))
    end
  end.

(** [insert into transactions (id, account_id, ...)]: [kind] and the
    timestamps take their column defaults. *)
Definition payment_row (now : Z) (t : Transaction) (currency : string) : transaction_row :=
  mk_transaction_row "PAYMENT" (tx_AccountID t) (Some (tx_MerchantID t)) None None
    (tx_AmountCents t) currency (tx_Status t) None None (tx_CorrelationID t)
    (timestamptz now) (timestamptz now).

Definition insertPayment (now : Z) (t : Transaction) : M DB unit :=
  statement (fun _ db => exec_ db (
    with_texts [tx_ID t; tx_AccountID t; tx_MerchantID t; tx_Currency t; tx_Status t;
                tx_CorrelationID t]
      (obind_ok (bpchar 3 (tx_Currency t)) (fun currency =>
        insert_transaction (tx_ID t) (payment_row now t currency) db)))).

Definition insertIdempotencyKey (now : Z) (record : IdempotencyRecord) : M DB unit :=
  statement (fun _ db => exec_ db (
    with_texts [ir_Key record; ir_RequestHash record; tx_ID (ir_Transaction record)]
      (obind_ok (bpchar 64 (ir_RequestHash record)) (fun hash =>
        jsonb_in (marshal_CreateResponse (ir_CreateResult record)) (fun json =>
          insert_idempotency_key (ir_Key record)
            (mk_idempotency_row hash (tx_ID (ir_Transaction record)) json (timestamptz now))
            db))))).

Definition isUniqueViolation (err : error) : bool :=
  match as_pg_error err with
  | Some (code, _) => String.eqb code "23505"
  | None => false
  end.

Definition createBody (record : IdempotencyRecord) (event : OutboxEvent) (now : Z) : M DB unit :=
  let! _ := wrapf "insert transaction" (insertPayment now (ir_Transaction record)) in
  try! inserted := insertIdempotencyKey now record in
  match inserted with
  | Err err =>
    if isUniqueViolation err then fail (ESentinel transaction_ErrIdempotencyConflict)
    else fail (EWrap "insert idempotency key" err)
  | Ok _ => wrapf "insert outbox event" (insertOutbox now event)
  end.

Definition PgCreate (record : IdempotencyRecord) (event : OutboxEvent) : M DB unit :=
  transact "begin create transaction" (fun _ => "commit create transaction"%string)
    (createBody record event).

#[export] Instance PgTransactionStore : TransactionStore DB := {
  FindIdempotency := PgFindIdempotency;
  CreateRecord := PgCreate;
}.
End Store.

(** ** Round trip of the stored response *)

Section RoundTrip.
Context `{JsonbSpec}.

Definition plain_response (r : CreateResponse) : bool :=
  plain (cr_TransactionID r) && plain (cr_Status r) && plain (cr_CorrelationID r).

Definition CreateResponse_updates (r : CreateResponse) : list (CreateResponse -> CreateResponse) :=
  [fun '(mk_CreateResponse a b c) => mk_CreateResponse (cr_TransactionID r) b c;
   fun '(mk_CreateResponse a b c) => mk_CreateResponse a (cr_Status r) c;
   fun '(mk_CreateResponse a b c) => mk_CreateResponse a b (cr_CorrelationID r)].

(** A response written to [response_json] is read back as it was. *)
Lemma stored_response r :
  plain_response r = true ->
  exists json, jsonb (marshal_CreateResponse r) = Some json
  /\ unmarshal_CreateResponse json = Some r.
Proof.
  unfold plain_response. intros Hr. destruct_bools.
  apply (stored_object CreateResponse_struct (mk_CreateResponse EmptyString EmptyString EmptyString) (CreateResponse_members r)
    (CreateResponse_updates r)); [solve_flat|by vm_compute|solve_performs_all| |by destruct r].
  solve_commute CreateResponse_updates.
Qed.
End RoundTrip.

(** ** Effects *)

Section Effects.
Context `{JsonbSpec}.
Implicit Types (w : World DB).

Lemma insertPayment_ok now t w w' :
  insertPayment now t w = (Ok tt, w') ->
  exists currency, let r := payment_row now t currency in
  bpchar 3 (tx_Currency t) = Ok currency
  /\ Forall (fun c => c.2 = true) (transaction_checks r)
  /\ db_transactions (w_store w) !! tx_ID t = None
  /\ w_store w' = set_transactions (<[tx_ID t := r]> (db_transactions (w_store w))) (w_store w).
Proof.
  intros (lk & Hrun)%statement_ok.
  apply exec__ok, with_texts_ok, obind_ok_ok in Hrun as (cur & Hcur & Hrun).
  apply insert_transaction_ok in Hrun as (? & ? & _ & ->). eauto 6.
Qed.

Lemma insertIdempotencyKey_ok now rec w w' :
  insertIdempotencyKey now rec w = (Ok tt, w') ->
  exists hash json,
    bpchar 64 (ir_RequestHash rec) = Ok hash
    /\ jsonb (marshal_CreateResponse (ir_CreateResult rec)) = Some json
    /\ safeTokenPattern (ir_Key rec) = true
    /\ db_idempotency_keys (w_store w) !! ir_Key rec = None
    /\ w_store w' = set_idempotency_keys
         (<[ir_Key rec := mk_idempotency_row hash (tx_ID (ir_Transaction rec)) json
                            (timestamptz now)]> (db_idempotency_keys (w_store w))) (w_store w).
Proof.
  intros (lk & Hrun)%statement_ok.
  apply exec__ok, with_texts_ok, obind_ok_ok in Hrun as (hash & Hh & Hrun).
  apply jsonb_in_ok in Hrun as (json & Hj & Hrun). unfold insert_idempotency_key in Hrun.
  apply checked_ok in Hrun as [Hk Hrun]. apply fresh_key_ok in Hrun as [Hf Hrun].
  apply references_ok in Hrun as [_ Hrun]. injection Hrun as <-.
  apply Forall_cons in Hk as [Hk _]. exists hash, json. split_and!; done.
Qed.

Lemma insertIdempotencyKey_taken now rec w e w' :
  insertIdempotencyKey now rec w = (Err e, w') -> isUniqueViolation e = true ->
  is_Some (db_idempotency_keys (w_store w) !! ir_Key rec).
Proof.
  intros [(lk & Hrun)|[[= ->] _]]%statement_inv Hu; [|done].
  apply exec__inv in Hrun as [[_ [=]]|(e' & Hrun & [= <-] & _)]. revert Hrun.
  unfold with_texts, obind_ok, jsonb_in, insert_idempotency_key, checked, fresh_key, references,
    bpchar, foreign_key_violation.
  repeat case_match; intros; simplify_eq; done || eauto.
Qed.

Lemma plain_insertPayment now t : plain_errors (insertPayment now t).
Proof. unfold insertPayment, insert_transaction. solve_plain. Qed.
Lemma plain_insertIdempotencyKey now rec : plain_errors (insertIdempotencyKey now rec).
Proof. unfold insertIdempotencyKey, insert_idempotency_key. solve_plain. Qed.

(** What a committed [Create] did: a pending payment, its idempotency record
    and its [TransactionCreated] event, together. *)
Definition created (rec : IdempotencyRecord) (ev : OutboxEvent) (now : Z) (db db' : DB) : Prop :=
  exists currency hash json payload,
  let tx := ir_Transaction rec in
  let row := payment_row now tx currency in
  bpchar 3 (tx_Currency tx) = Ok currency
  /\ Forall (fun c => c.2 = true) (transaction_checks row)
  /\ db_transactions db !! tx_ID tx = None
  /\ bpchar 64 (ir_RequestHash rec) = Ok hash
  /\ jsonb (marshal_CreateResponse (ir_CreateResult rec)) = Some json
  /\ safeTokenPattern (ir_Key rec) = true
  /\ db_idempotency_keys db !! ir_Key rec = None
  /\ jsonb (ev_Payload ev) = Some payload
  /\ Forall (fun c => c.2 = true) (outbox_checks (outbox_row_of now ev payload))
  /\ db_outbox_events db !! ev_ID ev = None
  /\ db' = set_outbox_events
       (<[ev_ID ev := outbox_row_of now ev payload]> (db_outbox_events db))
       (set_idempotency_keys
          (<[ir_Key rec := mk_idempotency_row hash (tx_ID tx) json (timestamptz now)]>
             (db_idempotency_keys db))
          (set_transactions (<[tx_ID tx := row]> (db_transactions db)) db)).

Lemma createBody_ok rec ev now w w' :
  createBody rec ev now w = (Ok tt, w') -> created rec ev now (w_store w) (w_store w').
Proof.
  intros Hrun. unfold createBody in Hrun. peel Hrun. destruct a.
  apply insertPayment_ok in Hrun0 as (cur & Hcur & Hck & Hf & Hw0).
  apply attempt_inv in Hrun as (o & w1 & Hi & Hrun). destruct o as [[]|err].
  2: { destruct (isUniqueViolation err); discriminate Hrun. }
  rewrite wrapf_ok in Hrun.
  apply insertIdempotencyKey_ok in Hi as (hash & json & Hh & Hj & Hk & Hf' & Hw1).
  apply insertOutbox_ok in Hrun as (p & Hp & Hock & Hof & Hw').
  rewrite Hw0 in Hf', Hw1. rewrite Hw1 in Hof, Hw'. cbn in Hf', Hof, Hw'.
  exists cur, hash, json, p. split_and!; done.
Qed.

Lemma framed_createBody rec ev now : framed (createBody rec ev now).
Proof. unfold createBody, insertPayment, insertIdempotencyKey. solve_framed. Qed.

(** The sentinel is only raised for a key that is taken. *)
Lemma createBody_conflict rec ev now w e w' :
  createBody rec ev now w = (Err e, w') ->
  errors_Is e transaction_ErrIdempotencyConflict = true ->
  is_Some (db_idempotency_keys (w_store w) !! ir_Key rec).
Proof.
  intros Hrun He. unfold createBody in Hrun.
  apply bind_inv in Hrun as [([] & w1 & H1 & Hrun)|(e' & H1 & [= <-])].
  2: { by rewrite (plain_errors_wrapf _ _ _ (plain_insertPayment _ _) _ _ _ H1) in He. }
  rewrite wrapf_ok in H1. apply insertPayment_ok in H1 as (cur & _ & _ & _ & Hw1).
  apply attempt_inv in Hrun as (o & w2 & Hi & Hrun). destruct o as [[]|err].
  { by rewrite (plain_errors_wrapf _ _ _ (plain_insertOutbox _ _) _ _ _ Hrun) in He. }
  destruct (isUniqueViolation err) eqn:Hu; injection Hrun as <- <-.
  - apply insertIdempotencyKey_taken in Hi; [|done]. by rewrite Hw1 in Hi.
  - cbn in He. by rewrite (plain_insertIdempotencyKey _ _ _ _ _ Hi) in He.
Qed.
End Effects.

(** ** The interface, kept *)

Section Spec.
Context `{JsonbSpec}.
Implicit Types (w : World DB).

Definition record_view (r : idempotency_row) : option (string * CreateResponse) :=
  option_map (pair (i_request_hash r)) (unmarshal_CreateResponse (i_response_json r)).

(** The durable records, decoded. *)
Definition idempotency_view (db : DB) : gmap string (string * CreateResponse) :=
  omap record_view (db_idempotency_keys db).

Definition responses_decode (db : DB) : Prop :=
  forall key r, db_idempotency_keys db !! key = Some r ->
    is_Some (unmarshal_CreateResponse (i_response_json r)).

Lemma view_None db key :
  db_idempotency_keys db !! key = None -> idempotency_view db !! key = None.
Proof. intros Hk. unfold idempotency_view. by rewrite lookup_omap, Hk. Qed.

Lemma view_Some db key r h resp :
  db_idempotency_keys db !! key = Some r ->
  unmarshal_CreateResponse (i_response_json r) = Some resp -> i_request_hash r = h ->
  idempotency_view db !! key = Some (h, resp).
Proof.
  intros Hk Hd <-. unfold idempotency_view, record_view. rewrite lookup_omap, Hk. cbn.
  by rewrite Hd.
Qed.

Lemma find_inv key w o w' :
  PgFindIdempotency key w = (o, w') ->
  w_store w' = arrived w /\
  match o with
  | Ok None => db_idempotency_keys (arrived w) !! key = None
  | Ok (Some rec) => exists r, db_idempotency_keys (arrived w) !! key = Some r
      /\ unmarshal_CreateResponse (i_response_json r) = Some (ir_CreateResult rec)
      /\ i_request_hash r = ir_RequestHash rec
  | Err e => plain_error e
  end.
Proof.
  intros Hrun. unfold PgFindIdempotency in Hrun.
  apply bind_inv in Hrun as [(row & w1 & Hq & Hrun)|(e & Hq & ->)].
  - rewrite wrapf_ok in Hq. apply round_trip_inv in Hq as (lk & now & _ & [Hq|[[=] _]]).
    injection Hq as Hrow Hst. apply with_texts_ok in Hrow. injection Hrow as Hrow.
    destruct row as [r|]; [|by injection Hrun as <- <-].
    destruct (unmarshal_CreateResponse _) as [resp|] eqn:Hd; injection Hrun as <- <-;
      (split; [done|]); [cbn; eauto|done].
  - split.
    + apply wrapf_inv in Hq as (o & Hq & _).
      apply round_trip_inv in Hq as (lk & now & _ & [Hq|(_ & [?|?])]); [by injection Hq|done..].
    + assert (Hp : plain_errors (wrapf (A := option idempotency_row) "query idempotency key"
        (round_trip (fun _ _ db => (with_texts [key] (Ok (db_idempotency_keys db !! key)), db)))))
        by solve_plain.
      exact (Hp _ _ _ Hq).
Qed.

Lemma response_plain rec db ev now db' :
  storable rec -> created rec ev now db db' -> plain_response (ir_CreateResult rec) = true.
Proof.
  intros (_ & Hid & Hst & Hc) (cur & hash & json & p & _ & Hck & _).
  unfold plain_response. rewrite Hid, Hst, Hc. cbn.
  apply safeToken_plain. by apply transaction_checks_inv in Hck as (_ & _ & ? & _).
Qed.

Lemma created_view rec ev now db db' :
  storable rec -> created rec ev now db db' ->
  idempotency_view db' !! ir_Key rec = Some (ir_RequestHash rec, ir_CreateResult rec)
  /\ idempotency_view db !! ir_Key rec = None
  /\ (forall key, key <> ir_Key rec ->
      db_idempotency_keys db' !! key = db_idempotency_keys db !! key)
  /\ exists r, db_idempotency_keys db' !! ir_Key rec = Some r
     /\ unmarshal_CreateResponse (i_response_json r) = Some (ir_CreateResult rec).
Proof.
  intros Hst Hcr. pose proof (response_plain _ _ _ _ _ Hst Hcr) as Hpl.
  destruct Hst as (Hhash & _).
  destruct Hcr as (cur & hash & json & p & _ & _ & _ & Hh & Hj & _ & Hfresh & _ & _ & _ & ->).
  rewrite bpchar_sha256 in Hh by done. injection Hh as <-.
  destruct (stored_response _ Hpl) as (json' & Hj' & Hd). rewrite Hj in Hj'. injection Hj' as <-.
  split_and!.
  - eapply view_Some; [apply lookup_insert_eq|exact Hd|done].
  - by apply view_None.
  - intros key Hne. cbn. by rewrite lookup_insert_ne.
  - eexists. split; [apply lookup_insert_eq|done].
Qed.

Definition responses_grow (db db' : DB) : Prop :=
  (responses_decode db -> responses_decode db') /\ idempotency_view db ⊆ idempotency_view db'.

Lemma created_grows rec ev now db db' :
  storable rec -> created rec ev now db db' -> responses_grow db db'.
Proof.
  intros Hst Hcr. destruct (created_view _ _ _ _ _ Hst Hcr) as (_ & Hnone & Hother & r0 & Hr0 & Hd0).
  split.
  - intros Hok key r Hr. destruct (decide (key = ir_Key rec)) as [->|Hne].
    + rewrite Hr0 in Hr. injection Hr as <-. eauto.
    + rewrite Hother in Hr by done. eauto.
  - apply map_subseteq_spec. intros key v Hv.
    destruct (decide (key = ir_Key rec)) as [->|Hne]; [congruence|].
    revert Hv. unfold idempotency_view. rewrite !lookup_omap. by rewrite Hother.
Qed.

Lemma framed_PgCreate rec ev : framed (PgCreate rec ev).
Proof. apply framed_transact. apply framed_createBody. Qed.

#[export, refine] Instance PgTransactionStoreSpec : TransactionStoreSpec DB := {
  ts_view := idempotency_view;
  ts_ok := responses_decode;
}.
Proof.
  - intros key w r w' Hrun. by apply find_inv in Hrun as [? _].
  - intros key. unfold FindIdempotency; cbn. unfold PgFindIdempotency. solve_framed.
  - intros key w rec w' Hrun. apply find_inv in Hrun as [-> (r & Hr & Hd & Hh)].
    by eapply view_Some.
  - intros key w w' Hrun _. apply find_inv in Hrun as [-> Hr]. by apply view_None.
  - intros key w e w' Hrun. apply find_inv in Hrun as [_ He]. apply He.
  - intros rec ev. apply framed_PgCreate.
  - intros rec ev w r w' Hrun Hst.
    apply transact_inv in Hrun as [(e & _ & ->)|(a & w2 & Hrun & -> & _)]; [done|].
    destruct a. apply createBody_ok in Hrun. by eapply created_grows.
  - intros rec ev w w' Hrun Hst. apply transact_ok in Hrun as (w2 & Hrun & ->).
    apply createBody_ok in Hrun. by destruct (created_view _ _ _ _ _ Hst Hrun).
  - intros rec ev w e w' Hrun He Hok.
    apply transact_err in Hrun as [[-> _]|[(w2 & Hrun & Hw)|(a & w2 & _ & -> & _)]];
      [done| |done].
    apply createBody_conflict in Hrun as [r Hr]; [|done]. cbn in Hr. fold (arrived w) in Hr.
    rewrite Hw in Hok |- *. destruct (Hok _ _ Hr) as [resp Hresp].
    eexists. by eapply view_Some.
Defined.
End Spec.
