(* ===== verification/FundingService.v ===== *)
(** * [internal/funding/service.go]: operator deposits

    Written like [TransactionService.v] against an interface, [FundingStore],
    with the promises [FundingStoreSpec]; [StoreFunding.v] keeps them. *)

From stdpp Require Import base strings list gmap.
From Stdlib Require Import ZArith Lia Ascii.
From S2P Require Import Prelude GoStrings Sha256 Runtime Domain GoJson Codec.

Open Scope Z_scope.

Module Funding.

Record DepositRequest := mk_DepositRequest {
  dq_AccountID : string;
  dq_AmountCents : Z;
  dq_Currency : string;
  dq_FundingSource : string;
  dq_ExternalReference : string;
}.

Record RequestMetadata := mk_RequestMetadata {
  dm_IdempotencyKey : string;
  dm_CorrelationID : string;
  dm_OperatorReason : string;
}.

Record DepositResponse := mk_DepositResponse {
  dr_DepositID : string;
  dr_TransactionID : string;
  dr_Status : string;
  dr_AccountID : string;
  dr_AmountCents : Z;
  dr_Currency : string;
  dr_BalanceAfterCents : Z;
  dr_CorrelationID : string;
  dr_CreatedAt : Z;
}.

Record IdempotencyRecord := mk_IdempotencyRecord {
  di_RequestHash : string;
  di_Response : DepositResponse;
}.

Record Deposit := mk_Deposit {
  dp_IdempotencyKey : string;
  dp_RequestHash : string;
  dp_OperatorReason : string;
  dp_Transaction : Transaction;
}.

#[export] Instance DepositRequest_eq_dec : EqDecision DepositRequest.
Proof. solve_decision. Defined.
#[export] Instance DepositResponse_eq_dec : EqDecision DepositResponse.
Proof. solve_decision. Defined.

(** ** The store interface *)

Class FundingStore (S : Type) := {
  FindDepositIdempotency : string -> M S (option IdempotencyRecord);
  CreateDeposit : Deposit -> OutboxEvent -> M S DepositResponse;
}.

(** ** The service *)

Definition settlementAccount : string := "external-settlement".

Definition validReason (reason : string) : bool :=
  negb ((len reason =? 0) || (256 <? len reason))
  && forallb (fun value => negb (is_control value)) (runes reason).

(** [NewService]: the configured maximum, or one million currency units. *)
Definition NewService (maxAmountCents : Z) : Z :=
  if maxAmountCents <=? 0 then 100000000 else maxAmountCents.

Definition request_text (request : DepositRequest) : string :=
  "deposit|" +:+ dq_AccountID request +:+ "|" +:+ FormatInt (dq_AmountCents request) +:+ "|"
  +:+ dq_Currency request +:+ "|" +:+ dq_FundingSource request +:+ "|"
  +:+ dq_ExternalReference request.

Definition hashRequest (request : DepositRequest) : string := sha256_hex (request_text request).

Section Service.
Context `{UnicodeTables} {S : Type} `{FundingStore S}.
Context (maxAmountCents : Z).

Definition valid_deposit (request : DepositRequest) (metadata : RequestMetadata) : bool :=
  negb (negb (safeTokenPattern (dq_AccountID request))
    || String.eqb (dq_AccountID request) "clearing"
    || String.eqb (dq_AccountID request) settlementAccount
    || negb (safeTokenPattern (dq_FundingSource request))
    || negb (safeTokenPattern (dq_ExternalReference request))
    || negb (safeTokenPattern (dm_IdempotencyKey metadata))
    || negb (safeTokenPattern (dm_CorrelationID metadata))
    || negb (currencyPattern (dq_Currency request))
    || (dq_AmountCents request <=? 0)
    || (maxAmountCents <? dq_AmountCents request)
    || negb (validReason (dm_OperatorReason metadata))).

Definition validate (request : DepositRequest) (metadata : RequestMetadata)
  : M S (DepositRequest * RequestMetadata) :=
  let request := mk_DepositRequest
    (TrimSpace (dq_AccountID request)) (dq_AmountCents request)
    (ToUpper (TrimSpace (dq_Currency request)))
    (TrimSpace (dq_FundingSource request)) (TrimSpace (dq_ExternalReference request)) in
  let correlationID := TrimSpace (dm_CorrelationID metadata) in
  let! correlationID :=
    if String.eqb correlationID EmptyString then NewID "trace" else ret correlationID in
  let metadata := mk_RequestMetadata
    (TrimSpace (dm_IdempotencyKey metadata)) correlationID
    (TrimSpace (dm_OperatorReason metadata)) in
  if valid_deposit request metadata then ret (request, metadata)
  else fail (ESentinel funding_ErrInvalidRequest).

(** The end of [Deposit], after [CreateDeposit] failed. *)
Definition settleDepositError (key requestHash : string) (err : error) : M S DepositResponse :=
  let failed := fail (EWrap "create deposit" err) in
  if errors_Is err funding_ErrIdempotencyConflict
     || errors_Is err funding_ErrExternalReferenceConflict
  then
    let! again := wrapf "find deposit idempotency key after conflict"
                    (FindDepositIdempotency key) in
    match again with
    | Some existing =>
      if String.eqb (di_RequestHash existing) requestHash then ret (di_Response existing)
      else fail (ESentinel funding_ErrIdempotencyConflict)
    | None => failed
    end
  else failed.

Definition DepositFunds (request : DepositRequest) (metadata : RequestMetadata)
  : M S DepositResponse :=
  let! p := validate request metadata in
  let '(request, metadata) := p in
  let requestHash := hashRequest request in
  let! found := wrapf "find deposit idempotency key"
                  (FindDepositIdempotency (dm_IdempotencyKey metadata)) in
  match found with
  | Some existing =>
    if String.eqb (di_RequestHash existing) requestHash then ret (di_Response existing)
    else fail (ESentinel funding_ErrIdempotencyConflict)
  | None =>
    let! now := Now in
    let! id := NewID "dep" in
    let transaction := mk_Transaction id TransactionDeposit (dq_AccountID request) EmptyString
      (dq_FundingSource request) (dq_ExternalReference request) (dq_AmountCents request)
      (dq_Currency request) TransactionAuthorized EmptyString EmptyString
      (dm_CorrelationID metadata) now now in
    let payload := marshal_FundsDeposited (mk_FundsDeposited (tx_ID transaction)
      (tx_AccountID transaction) (tx_AmountCents transaction) (tx_Currency transaction)
      (tx_FundingSource transaction) (tx_ExternalRef transaction)
      (tx_CorrelationID transaction)) in
    let! event := NewOutboxEvent EventFundsDeposited (tx_ID transaction)
      (tx_AccountID transaction) (tx_CorrelationID transaction) payload in
    let deposit := mk_Deposit (dm_IdempotencyKey metadata) requestHash
      (dm_OperatorReason metadata) transaction in
    try! created := CreateDeposit deposit event in
    match created with
    | Ok response => ret response
    | Err err => settleDepositError (dm_IdempotencyKey metadata) requestHash err
    end
  end.
End Service.

(** ** What the store promises *)

Definition storable (d : Deposit) : Prop :=
  sha256HexPattern (dp_RequestHash d) = true
  /\ plain (tx_ID (dp_Transaction d)) = true
  /\ tx_Status (dp_Transaction d) = TransactionAuthorized
  /\ in_int64 (tx_AmountCents (dp_Transaction d)) = true
  /\ currencyPattern (tx_Currency (dp_Transaction d)) = true.

Class FundingStoreSpec (S : Type) `{FundingStore S} := {
  fs_view : S -> gmap string (string * DepositResponse);
  fs_ok : S -> Prop;
  (** A deposit with this source, reference and currency exists. *)
  fs_reference : S -> string -> string -> string -> Prop;
  fs_evolves s s' := (fs_ok s -> fs_ok s') /\ fs_view s ⊆ fs_view s'
    /\ forall source reference currency,
         fs_reference s source reference currency -> fs_reference s' source reference currency;

  find_deposit_reads key w r w' :
    FindDepositIdempotency key w = (r, w') -> w_store w' = arrived w;
  find_deposit_framed key : framed (FindDepositIdempotency key);
  find_deposit_found key w rec w' :
    FindDepositIdempotency key w = (Ok (Some rec), w') ->
    fs_view (w_store w') !! key = Some (di_RequestHash rec, di_Response rec);
  find_deposit_missing key w w' :
    FindDepositIdempotency key w = (Ok None, w') -> fs_view (w_store w') !! key = None;
  find_deposit_error key w e w' :
    FindDepositIdempotency key w = (Err e, w') -> plain_error e;

  create_deposit_framed d ev : framed (CreateDeposit d ev);
  create_deposit_evolves d ev w r w' :
    CreateDeposit d ev w = (r, w') -> storable d -> fs_evolves (arrived w) (w_store w');
  create_deposit_durable d ev w resp w' :
    CreateDeposit d ev w = (Ok resp, w') -> storable d ->
    fs_view (w_store w') !! dp_IdempotencyKey d = Some (dp_RequestHash d, resp);
  create_deposit_conflict d ev w e w' :
    CreateDeposit d ev w = (Err e, w') -> errors_Is e funding_ErrIdempotencyConflict = true ->
    fs_ok (w_store w') -> is_Some (fs_view (w_store w') !! dp_IdempotencyKey d);
  create_deposit_reference d ev w e w' :
    CreateDeposit d ev w = (Err e, w') ->
    errors_Is e funding_ErrExternalReferenceConflict = true ->
    fs_reference (w_store w') (tx_FundingSource (dp_Transaction d))
      (tx_ExternalRef (dp_Transaction d)) (tx_Currency (dp_Transaction d));
}.

#[export] Hint Resolve find_deposit_framed create_deposit_framed : framed.

(** ** Theorems *)

Section Validation.
Context `{UnicodeTables}.

Definition normalized (request : DepositRequest) : DepositRequest :=
  mk_DepositRequest (TrimSpace (dq_AccountID request)) (dq_AmountCents request)
    (ToUpper (TrimSpace (dq_Currency request))) (TrimSpace (dq_FundingSource request))
    (TrimSpace (dq_ExternalReference request)).

Definition key_of (md : RequestMetadata) : string := TrimSpace (dm_IdempotencyKey md).

Lemma valid_deposit_inv maxAmount rq md :
  valid_deposit maxAmount rq md = true ->
  safeTokenPattern (dq_AccountID rq) = true
  /\ dq_AccountID rq <> "clearing" /\ dq_AccountID rq <> settlementAccount
  /\ safeTokenPattern (dq_FundingSource rq) = true
  /\ safeTokenPattern (dq_ExternalReference rq) = true
  /\ safeTokenPattern (dm_IdempotencyKey md) = true
  /\ safeTokenPattern (dm_CorrelationID md) = true
  /\ currencyPattern (dq_Currency rq) = true
  /\ 0 < dq_AmountCents rq <= maxAmount
  /\ validReason (dm_OperatorReason md) = true.
Proof.
  unfold valid_deposit. intros Hv. reflect_bools. split_and!; try done; lia.
Qed.

Lemma validate_inv S maxAmount rq md (w : World S) r w' :
  validate maxAmount rq md w = (r, w') ->
  w_store w' = w_store w /\ frame w w' /\
  match r with
  | Ok (n, m) => n = normalized rq /\ dm_IdempotencyKey m = key_of md
      /\ valid_deposit maxAmount n m = true
  | Err e => e = ESentinel funding_ErrInvalidRequest
  end.
Proof.
  intros Hrun. unfold validate in Hrun. fold (normalized rq) in Hrun.
  apply bind_inv in Hrun as [(corr & w1 & Hc & Hrun)|(e & Hc & _)].
  - assert (w_store w1 = w_store w /\ frame w w1) as [<- Hf].
    { destruct (String.eqb _ _); [rewrite NewID_run in Hc|]; injection Hc as _ <-; [|done].
      split; [done|]. exact (framed_NewID _ "trace" _ _ _ (NewID_run _ _)). }
    destruct (valid_deposit _ _ _) eqn:Hv; injection Hrun as <- <-; auto.
  - destruct (String.eqb _ _); [rewrite NewID_run in Hc|]; discriminate Hc.
Qed.
End Validation.

Section Idempotency.
Context `{UnicodeTables} {S : Type} `{FundingStoreSpec S}.
Context (maxAmountCents : Z) (Hmax : maxAmountCents <= int64_max).
Implicit Types (w : World S).

#[local] Instance fs_evolves_preorder : PreOrder fs_evolves.
Proof.
  unfold fs_evolves. split.
  - intros s. split_and!; [done| |done]. reflexivity.
  - intros s1 s2 s3 (? & ? & ?) (? & ? & ?). split_and!; [auto| |auto]. by etrans.
Qed.

Lemma find_deposit_evolves key w r w' :
  sched_rely fs_evolves w -> FindDepositIdempotency key w = (r, w') ->
  fs_evolves (w_store w) (w_store w').
Proof.
  intros Hs Hrun. rewrite (find_deposit_reads _ _ _ _ Hrun). by apply arrived_rely.
Qed.

Lemma find_deposit_answer key w rec w' hash :
  FindDepositIdempotency key w = (Ok (Some rec), w') ->
  if String.eqb (di_RequestHash rec) hash
  then fs_view (w_store w') !! key = Some (hash, di_Response rec)
  else exists h resp, fs_view (w_store w') !! key = Some (h, resp) /\ h <> hash.
Proof.
  intros Hrun%find_deposit_found. case_match eqn:E; reflect_bools; [by rewrite <- E|]. eauto.
Qed.

Lemma settle_deposit_post key hash err w r w' :
  fs_ok (w_store w) -> sched_rely fs_evolves w ->
  (errors_Is err funding_ErrIdempotencyConflict = true ->
   fs_ok (w_store w) -> is_Some (fs_view (w_store w) !! key)) ->
  settleDepositError key hash err w = (r, w') ->
  fs_evolves (w_store w) (w_store w') /\
  match r with
  | Ok resp => fs_view (w_store w') !! key = Some (hash, resp)
  | Err e => (errors_Is e funding_ErrIdempotencyConflict = true ->
      exists h resp, fs_view (w_store w') !! key = Some (h, resp) /\ h <> hash)
      /\ (errors_Is e funding_ErrExternalReferenceConflict = true ->
          errors_Is err funding_ErrExternalReferenceConflict = true
          /\ fs_view (w_store w') !! key = None)
  end.
Proof.
  intros Hok Hs Hwin. unfold settleDepositError.
  destruct (_ || _) eqn:Hconf; intros Hrun.
  2: { injection Hrun as <- <-. split; [done|]. cbn. reflect_bools. split; congruence. }
  apply bind_inv in Hrun as [(again & w1 & Hf & Hrun)|(e & Hf & ->)].
  2: { apply wrapf_inv in Hf as ([|e'] & Hf & [= ->]). split; [by eapply find_deposit_evolves|].
       cbn. by rewrite !(find_deposit_error _ _ _ _ Hf). }
  rewrite wrapf_ok in Hf. pose proof (find_deposit_evolves _ _ _ _ Hs Hf) as Hev.
  destruct again as [rec|].
  - pose proof (find_deposit_answer _ _ _ _ hash Hf) as Hans.
    destruct (String.eqb _ _); injection Hrun as <- <-; split; done.
  - apply find_deposit_missing in Hf.
    injection Hrun as <- <-. split; [done|]. cbn. split; [|done]. intros He. exfalso.
    destruct (Hwin He Hok) as [v Hv]. destruct Hev as (_ & Hsub & _).
    rewrite map_subseteq_spec in Hsub. apply Hsub in Hv. congruence.
Qed.

Lemma framed_settle_deposit key hash err : framed (settleDepositError key hash err).
Proof. unfold settleDepositError. solve_framed. Qed.

(** What one call leaves behind, whatever it returns. *)
Definition deposit_post rq md w (r : outcome error DepositResponse) w' : Prop :=
  fs_evolves (w_store w) (w_store w') /\
  match r with
  | Ok resp => fs_view (w_store w') !! key_of md = Some (hashRequest (normalized rq), resp)
  | Err e => (errors_Is e funding_ErrIdempotencyConflict = true ->
      exists h resp, fs_view (w_store w') !! key_of md = Some (h, resp)
      /\ h <> hashRequest (normalized rq))
      /\ (errors_Is e funding_ErrExternalReferenceConflict = true ->
          fs_reference (w_store w') (TrimSpace (dq_FundingSource rq))
            (TrimSpace (dq_ExternalReference rq)) (ToUpper (TrimSpace (dq_Currency rq))))
  end.

Lemma DepositFunds_post rq md w r w' :
  fs_ok (w_store w) -> sched_rely fs_evolves w ->
  DepositFunds maxAmountCents rq md w = (r, w') -> deposit_post rq md w r w'.
Proof using Hmax.
  intros Hok Hs Hrun. unfold DepositFunds in Hrun.
  apply bind_inv in Hrun as [([n m] & w0 & Hv & Hrun)|(e & Hv & ->)].
  2: { apply validate_inv in Hv as (Hw & _ & ->). split; [by rewrite Hw|done]. }
  apply validate_inv in Hv as (Hw0 & Hf0 & -> & Hkey & Hv). cbn beta iota in Hrun.
  rewrite Hkey in Hrun. pose proof (sched_rely_frame _ _ _ Hf0 Hs) as Hs0.
  unfold deposit_post. rewrite <- Hw0. rewrite <- Hw0 in Hok. clear Hf0 Hs Hw0 w.
  apply bind_inv in Hrun as [(found & w1 & Hf & Hrun)|(e & Hf & ->)].
  2: { apply wrapf_inv in Hf as ([|e'] & Hf & [= ->]).
       split; [by eapply find_deposit_evolves|]. cbn. by rewrite !(find_deposit_error _ _ _ _ Hf). }
  rewrite wrapf_ok in Hf. pose proof (find_deposit_evolves _ _ _ _ Hs0 Hf) as Hev1.
  destruct found as [rec|].
  { pose proof (find_deposit_answer _ _ _ _ (hashRequest (normalized rq)) Hf) as Hans.
    destruct (String.eqb _ _); injection Hrun as <- <-; split; done. }
  apply (find_deposit_framed _) in Hf as Hfr1. clear Hf.
  pose proof (sched_rely_frame _ _ _ Hfr1 Hs0) as Hs1.
  unfold Now in Hrun. unfold bind at 1 in Hrun. cbn beta iota in Hrun.
  apply bind_inv in Hrun as [(id & w2 & Hid & Hrun)|(e & Hid & ->)]; [|done].
  rewrite NewID_run in Hid. injection Hid as <- <-. set (id := id_of "dep" _) in Hrun.
  apply bind_inv in Hrun as [(ev & w4 & Hev & Hrun)|(e & Hev & ->)]; [|done].
  rewrite NewOutboxEvent_run in Hev. injection Hev as _ <-.
  apply attempt_inv in Hrun as (o & w5 & Hc & Hrun).
  set (w4 := set_drawn _ _) in Hc. set (d := mk_Deposit _ _ _ _) in Hc.
  assert (Hfr4 : frame w1 w4) by (subst w4; split; cbn; try done; [lia|by exists 0%nat]).
  assert (Hs4 : sched_rely fs_evolves w4) by by eapply sched_rely_frame.
  assert (Hst : storable d).
  { apply valid_deposit_inv in Hv as (_ & _ & _ & _ & _ & _ & _ & Hcur & Hamt & _).
    split; [apply sha256_hex_pattern|]. split; [by apply safeToken_plain, id_of_safe|].
    split; [done|]. split; [|exact Hcur].
    apply in_int64_iff. unfold int64_max in Hmax. cbn in *. lia. }
  assert (Hev5 : fs_evolves (w_store w0) (w_store w5)).
  { etrans; [exact Hev1|]. change (w_store w1) with (w_store w4).
    etrans; [by apply (arrived_rely fs_evolves)|]. by eapply create_deposit_evolves. }
  destruct o as [resp|err].
  { injection Hrun as <- <-. split; [done|]. by apply (create_deposit_durable _ _ _ _ _ Hc). }
  assert (Hs5 : sched_rely fs_evolves w5).
  { eapply sched_rely_frame; [|exact Hs4]. by eapply create_deposit_framed. }
  assert (Hok5 : fs_ok (w_store w5)) by by apply Hev5.
  pose proof (settle_deposit_post _ _ _ _ _ _ Hok5 Hs5
    (fun Hc' => create_deposit_conflict _ _ _ _ _ Hc Hc') Hrun) as [Hev6 Hpost].
  split; [by etrans|]. destruct r as [resp|e]; [done|]. split; [by apply Hpost|].
  intros [Href _]%Hpost. apply Hev6. by apply (create_deposit_reference _ _ _ _ _ Hc).
Qed.

(** *** The properties *)

Theorem Deposit_idempotent rq1 md1 w1 resp1 w1' rq2 md2 w2 r2 w2' :
  fs_ok (w_store w1) -> sched_rely fs_evolves w1 -> sched_rely fs_evolves w2 ->
  DepositFunds maxAmountCents rq1 md1 w1 = (Ok resp1, w1') ->
  fs_evolves (w_store w1') (w_store w2) -> key_of md1 = key_of md2 ->
  DepositFunds maxAmountCents rq2 md2 w2 = (r2, w2') ->
  match r2 with
  | Ok resp2 => resp2 = resp1 /\ hashRequest (normalized rq1) = hashRequest (normalized rq2)
  | Err e => errors_Is e funding_ErrIdempotencyConflict = true ->
      hashRequest (normalized rq1) <> hashRequest (normalized rq2)
  end.
Proof using Hmax.
  intros Hok1 Hs1 Hs2 Hrun1 Hev Hkey Hrun2.
  destruct (DepositFunds_post _ _ _ _ _ Hok1 Hs1 Hrun1) as [(Hok1' & _) Hrec1].
  assert (Hok2 : fs_ok (w_store w2)) by (apply Hev; auto).
  destruct (DepositFunds_post _ _ _ _ _ Hok2 Hs2 Hrun2) as [Hev2 Hpost2].
  assert (Hsub : fs_view (w_store w2') !! key_of md2
                 = Some (hashRequest (normalized rq1), resp1)).
  { rewrite <- Hkey. eapply lookup_weaken; [exact Hrec1|]. etrans; [apply Hev|apply Hev2]. }
  destruct r2 as [resp2|e].
  - rewrite Hsub in Hpost2. apply Some_pair_inj in Hpost2 as [Hh <-]. done.
  - intros He. destruct (proj1 Hpost2 He) as (h & resp & Hrec2 & Hne).
    rewrite Hsub in Hrec2. apply Some_pair_inj in Hrec2 as [Hh _]. by rewrite Hh.
Qed.

Theorem Deposit_reference_conflict rq md w e w' :
  fs_ok (w_store w) -> sched_rely fs_evolves w ->
  DepositFunds maxAmountCents rq md w = (Err e, w') ->
  errors_Is e funding_ErrExternalReferenceConflict = true ->
  fs_reference (w_store w') (TrimSpace (dq_FundingSource rq))
    (TrimSpace (dq_ExternalReference rq)) (ToUpper (TrimSpace (dq_Currency rq))).
Proof using Hmax.
  intros Hok Hs Hrun He. by apply (DepositFunds_post _ _ _ _ _ Hok Hs Hrun).
Qed.
End Idempotency.

Lemma deposit_text_inj r1 r2 m1 m2 maxAmount :
  valid_deposit maxAmount r1 m1 = true -> valid_deposit maxAmount r2 m2 = true ->
  request_text r1 = request_text r2 -> r1 = r2.
Proof.
  intros (Ha1 & _ & _ & Hs1 & Hx1 & _ & _ & Hc1 & _)%valid_deposit_inv
    (Ha2 & _ & _ & Hs2 & Hx2 & _ & _ & Hc2 & _)%valid_deposit_inv Heq.
  unfold request_text in Heq. apply (inj (String.app "deposit|")) in Heq.
  apply bar_split in Heq as [Ha Heq]; [|by apply safeToken_chars..].
  apply bar_split in Heq as [Hz Heq]; [|by apply FormatInt_safe..].
  apply bar_split in Heq as [Hc Heq]; [|by apply currency_safe_chars..].
  apply bar_split in Heq as [Hs Hx]; [|by apply safeToken_chars..].
  apply FormatInt_inj in Hz. destruct r1, r2. cbn in *. congruence.
Qed.

End Funding.
