(* ===== verification/StoreConsumer.v ===== *)
(** * [internal/postgres/consumer.go]: the record of processed events

    A consumer's effect is committed together with its claim of the event, so
    that a redelivered event has no second effect. *)

From stdpp Require Import base strings list gmap.
From Stdlib Require Import ZArith Lia.
From S2P Require Import Prelude GoStrings Sha256 Runtime Domain GoJson Schema ConsumerLoop.
From S2P Require Import RiskService StoreOutbox.

Open Scope Z_scope.

Section Store.
Context `{Jsonb}.

(** [insert into processed_events ... on conflict do nothing]: rows affected. *)
Definition insert_processed (now : Z) (delivery : Delivery) (payloadHash : string) (db : DB)
  : outcome error (bool * DB) :=
  with_texts [dl_ConsumerName delivery; dl_EventID delivery; payloadHash;
              dl_SourceTopic delivery]
    (with_int4 (dl_SourcePartition delivery)
      (obind_ok (bpchar 64 payloadHash) (fun hash =>
        let key := (dl_ConsumerName delivery, dl_EventID delivery) in
        let row := mk_processed_row hash (timestamptz now)
          (nullif_empty (dl_SourceTopic delivery)) (dl_SourcePartition delivery)
          (dl_SourceOffset delivery) (timestamptz now) in
        checked (processed_checks key row)
          (match db_processed_events db !! key with
           | Some _ => Ok (false, db)
           | None => Ok (true, set_processed_events (<[key := row]> (db_processed_events db)) db)
           end)))).

Definition touch (now : Z) (r : processed_row) : processed_row :=
  mk_processed_row (p_payload_sha256 r) (p_processed_at r) (p_source_topic r)
    (p_source_partition r) (p_source_offset r) (timestamptz now).

(** [update processed_events set last_seen_at = now() ... returning payload_sha256] *)
Definition refresh_processed (now : Z) (delivery : Delivery) (db : DB)
  : outcome error (string * DB) :=
  with_texts [dl_ConsumerName delivery; dl_EventID delivery]
    (let key := (dl_ConsumerName delivery, dl_EventID delivery) in
     match db_processed_events db !! key with
     | Some r =>
       Ok (p_payload_sha256 r,
           set_processed_events (<[key := touch now r]> (db_processed_events db)) db)
     | None => Err (ESentinel pgx_ErrNoRows)
     end).

Definition claimProcessedEvent (now : Z) (delivery : Delivery) (payloadHash : string)
  : M DB bool :=
  let! inserted := wrapf "claim processed event" (statement (fun _ db =>
                     exec db (insert_processed now delivery payloadHash db))) in
  if (inserted : bool) then ret true else
  let! existingHash := wrapf "refresh processed event" (statement (fun _ db =>
                         exec db (refresh_processed now delivery db))) in
  if negb (String.eqb existingHash payloadHash)
  then fail (ESentinel domain_ErrEventIdentityConflict)
  else ret false.

Definition SaveConsumerOutbox (delivery : Delivery) (payloadHash : string) (event : OutboxEvent)
  : M DB bool :=
  transact "begin consumer transaction"
    (fun claimed : bool => if claimed then "commit consumer transaction"%string
                           else "commit duplicate consumer event"%string)
    (fun now =>
      let! claimed := claimProcessedEvent now delivery payloadHash in
      if negb claimed then ret false else
      let! _ := wrapf "insert consumer outbox event" (insertOutbox now event) in
      ret true).

#[export] Instance PgRiskStore : Risk.RiskStore DB := SaveConsumerOutbox.

Definition IsEventProcessed (eventID : string) : M DB bool :=
  wrapf "check processed event" (round_trip (fun _ _ db =>
    (with_texts [eventID]
       (Ok (map_existsb (fun key _ => String.eqb key.2 eventID) (db_processed_events db))), db))).
End Store.

(** ** Effects *)

Definition delivery_key (d : Delivery) : string * string := (dl_ConsumerName d, dl_EventID d).

Section Effects.
Context `{Jsonb}.
Implicit Types (w : World DB).

Definition claimed_row (now : Z) (d : Delivery) (hash : string) : processed_row :=
  mk_processed_row hash (timestamptz now) (nullif_empty (dl_SourceTopic d))
    (dl_SourcePartition d) (dl_SourceOffset d) (timestamptz now).

(** A claim is the event's first; otherwise the same payload was claimed
    before and only [last_seen_at] moves. *)
Definition claim_effect (now : Z) (d : Delivery) (hash : string) (claimed : bool) (db db' : DB)
  : Prop :=
  if claimed then
    exists h, bpchar 64 hash = Ok h /\ sha256HexPattern h = true
    /\ db_processed_events db !! delivery_key d = None
    /\ db' = set_processed_events
         (<[delivery_key d := claimed_row now d h]> (db_processed_events db)) db
  else
    exists r, db_processed_events db !! delivery_key d = Some r /\ p_payload_sha256 r = hash
    /\ db' = set_processed_events
         (<[delivery_key d := touch now r]> (db_processed_events db)) db.

Lemma framed_claim now d hash : framed (claimProcessedEvent now d hash).
Proof. unfold claimProcessedEvent. solve_framed. Qed.

Lemma claim_ok now d hash w claimed w' :
  claimProcessedEvent now d hash w = (Ok claimed, w') ->
  claim_effect now d hash claimed (w_store w) (w_store w').
Proof.
  intros Hrun. unfold claimProcessedEvent in Hrun.
  apply bind_ok in Hrun as (ins & w1 & Hi & Hrun). rewrite wrapf_ok in Hi.
  apply statement_ok in Hi as (lk & Hi%exec_ok). unfold insert_processed in Hi.
  apply with_texts_ok, with_int4_ok in Hi as [_ Hi].
  apply obind_ok_ok in Hi as (h & Hh & Hi). apply checked_ok in Hi as [Hck Hi].
  fold (delivery_key d) in Hi.
  destruct (db_processed_events (w_store w) !! delivery_key d) as [r|] eqn:Hr;
    injection Hi as <- Hw1.
  - apply bind_ok in Hrun as (eh & w2 & Hq & Hrun). rewrite wrapf_ok in Hq.
    apply statement_ok in Hq as (lk' & Hq%exec_ok). unfold refresh_processed in Hq.
    apply with_texts_ok in Hq. fold (delivery_key d) in Hq. rewrite <- Hw1, Hr in Hq.
    injection Hq as <- Hw2. destruct (String.eqb _ _) eqn:Heq; [|discriminate Hrun].
    injection Hrun as <- <-. reflect_bools. exists r. auto.
  - injection Hrun as <- <-. exists h. split; [done|].
    apply Forall_cons in Hck as [_ Hck]. apply Forall_cons in Hck as [_ Hck].
    apply Forall_cons in Hck as [Hck _]. auto.
Qed.

(** What a committed [SaveConsumerOutbox] did. *)
Lemma SaveConsumerOutbox_inv d hash ev w r w' :
  SaveConsumerOutbox d hash ev w = (r, w') ->
  (exists e, r = Err e /\ w_store w' = arrived w)
  \/ (exists claimed now db1, (r = Ok claimed \/ is_ok r = false)
      /\ claim_effect now d hash claimed (arrived w) db1
      /\ if claimed then exists payload,
           jsonb (ev_Payload ev) = Some payload
           /\ db_outbox_events (arrived w) !! ev_ID ev = None
           /\ w_store w' = set_outbox_events
                (<[ev_ID ev := outbox_row_of now ev payload]> (db_outbox_events (arrived w))) db1
         else w_store w' = db1).
Proof.
  intros [?|(claimed & w2 & Hrun & Hw & Hr)]%transact_inv; [by left|right].
  apply bind_ok in Hrun as (c & w1 & Hc%claim_ok & Hrun).
  exists c, (w_clock (pop true w)), (w_store w1). cbn in Hc. fold (arrived w) in Hc.
  destruct c; cbn [negb] in Hrun.
  - apply bind_ok in Hrun as ([] & w3 & Ho & Hrun). injection Hrun as <- <-.
    rewrite wrapf_ok in Ho. apply insertOutbox_ok in Ho as (p & Hp & _ & Hf & Hw3).
    assert (Hout : db_outbox_events (w_store w1) = db_outbox_events (arrived w)).
    { destruct Hc as (? & _ & _ & _ & ->). done. }
    rewrite Hout in Hf, Hw3. rewrite Hw. split; [|split; [done|eauto]].
    destruct Hr as [->| ->]; [by left|by right].
  - injection Hrun as <- <-. rewrite Hw. split; [|done].
    destruct Hr as [->| ->]; [by left|by right].
Qed.
End Effects.

#[export] Hint Resolve framed_claim : framed.
