(* ===== verification/StoreLedger.v ===== *)
(** * [internal/postgres/ledger.go]: settling a payment in the double-entry ledger *)

From stdpp Require Import base strings list gmap.
From Stdlib Require Import ZArith Lia.
From S2P Require Import Prelude GoStrings Sha256 Runtime Domain GoJson Codec Schema ConsumerLoop.
From S2P Require Import LedgerService StoreOutbox StoreConsumer.

Open Scope Z_scope.

(** [sum(amount_cents) ... where account_id = $1 and currency = $2] *)
Definition account_balance (account currency : string) (db : DB) : Z :=
  sum_where (fun e => String.eqb (l_account_id e) account && bpchar_eq (l_currency e) currency)
    l_amount_cents (db_ledger_entries db).

Section Store.
Context `{Jsonb}.

(** [select pg_advisory_xact_lock(hashtext($1), hashtext($2))]: no effect on
    the data; transactions of this model already run one at a time. *)
Definition lockAccountBalance (account currency : string) : M DB unit :=
  statement (fun _ db => (with_texts [account; currency] (Ok tt), db)).

Definition queryBalance (account currency : string) : M DB Z :=
  statement (fun _ db =>
    (with_texts [account; currency] (scan_int64 (account_balance account currency db)), db)).

(** The two rows of one [insert into ledger_entries]. *)
Definition insertLedgerPair (now : Z) (id1 id2 transactionID : string)
  (account1 : string) (amount1 : Z) (account2 : string) (amount2 : Z) (currency : string)
  : M DB unit :=
  statement (fun _ db => exec_ db (
    with_texts [id1; id2; transactionID; account1; account2; currency]
      (obind_ok (bpchar 3 currency) (fun currency =>
        let row account amount :=
          mk_ledger_row transactionID account amount currency (timestamptz now) in
        obind_ok (insert_ledger_entry id1 (row account1 amount1) db)
          (insert_ledger_entry id2 (row account2 amount2)))))).

Definition insertLedgerEntries (now : Z) (transaction : Transaction) : M DB unit :=
  let! id1 := NewID "le" in
  let! id2 := NewID "le" in
  wrapf "insert ledger entries" (insertLedgerPair now id1 id2 (tx_ID transaction)
    (tx_AccountID transaction) (- tx_AmountCents transaction)
    "clearing" (tx_AmountCents transaction) (tx_Currency transaction)).

Definition ensureAvailableFunds (transaction : Transaction) : M DB unit :=
  let! _ := wrapf "lock account balance"
              (lockAccountBalance (tx_AccountID transaction) (tx_Currency transaction)) in
  let! balance := wrapf "query account balance"
              (queryBalance (tx_AccountID transaction) (tx_Currency transaction)) in
  if balance <? tx_AmountCents transaction
  then fail (ESentinel domain_ErrInsufficientFunds) else ret tt.

(** [select id, account_id, ... for update]: the fields not selected stay zero. *)
Definition lockPendingTransaction (event : RiskEvaluated) : M DB Transaction :=
  let! row := wrapf "lock transaction" (statement (fun _ db =>
    (with_texts [rk_TransactionID event]
       (Ok (db_transactions db !! rk_TransactionID event)), db))) in
  match row with
  | None => fail (EText "transaction not found")
  | Some r =>
    let transaction := mk_Transaction (rk_TransactionID event) EmptyString (t_account_id r)
      EmptyString EmptyString EmptyString (t_amount_cents r) (t_currency r) (t_status r)
      EmptyString EmptyString (t_correlation_id r) 0 0 in
    if negb (String.eqb (tx_Status transaction) TransactionPending)
    then fail (EText "transaction is not pending")
    else if negb (String.eqb (tx_AccountID transaction) (rk_AccountID event))
            || negb (tx_AmountCents transaction =? rk_AmountCents event)
            || negb (String.eqb (tx_Currency transaction) (rk_Currency event))
    then fail (EText "risk event does not match transaction")
    else ret transaction
  end.

Definition finalized (r : transaction_row) (status level reason : string) (now : Z)
  : transaction_row :=
  mk_transaction_row (t_kind r) (t_account_id r) (t_merchant_id r) (t_funding_source r)
    (t_external_reference r) (t_amount_cents r) (t_currency r) status (Some level)
    (Some reason) (t_correlation_id r) (t_created_at r) (timestamptz now).

(** [update transactions set status ... where id = $1 and status = $5]: rows affected. *)
Definition finalizeTransaction (now : Z) (id status level reason : string) : M DB Z :=
  statement (fun _ db => exec db (with_texts [id; status; level; reason]
    (match db_transactions db !! id with
     | Some r =>
       if String.eqb (t_status r) TransactionPending then
         obind_ok (update_transaction id (finalized r status level reason now) db)
           (fun db' => Ok (1, db'))
       else Ok (0, db)
     | None => Ok (0, db)
     end))).

Definition with_outcome (e : RiskEvaluated) (approved : bool) (reason : string) : RiskEvaluated :=
  mk_RiskEvaluated (rk_TransactionID e) (rk_AccountID e) (rk_AmountCents e) (rk_Currency e)
    (rk_RiskLevel e) approved reason (rk_CorrelationID e).

(** The approval decision: outcome, status and event type. *)
Definition decide_outcome (now : Z) (event : RiskEvaluated) (transaction : Transaction)
  : M DB (RiskEvaluated * string * string) :=
  if rk_Approved event then
    try! funds := ensureAvailableFunds transaction in
    match funds with
    | Err err =>
      if negb (errors_Is err domain_ErrInsufficientFunds) then fail err
      else ret (with_outcome event false "insufficient funds", TransactionFailed,
                EventTransactionFailed)
    | Ok _ =>
      let! _ := insertLedgerEntries now transaction in
      ret (event, TransactionAuthorized, EventTransactionAuthorized)
    end
  else ret (event, TransactionFailed, EventTransactionFailed).

Definition settle (event : RiskEvaluated) (now : Z) : M DB unit :=
  let! transaction := lockPendingTransaction event in
  let! decision := decide_outcome now event transaction in
  let '(outcome, status, eventType) := decision in
  let! affected := wrapf "finalize transaction"
    (finalizeTransaction now (tx_ID transaction) status (rk_RiskLevel outcome)
       (rk_Reason outcome)) in
  if negb (affected =? 1)
  then fail (EText "finalize transaction: transaction is not pending") else
  let payload := marshal_RiskEvaluated outcome in
  let! outboxEvent := NewOutboxEvent eventType (tx_ID transaction) (tx_AccountID transaction)
    (rk_CorrelationID outcome) payload in
  wrapf "insert ledger outcome outbox event" (insertOutbox now outboxEvent).

Definition ProcessRiskEvaluated (delivery : Delivery) (payloadHash : string)
  (event : RiskEvaluated) : M DB bool :=
  transact "begin ledger transaction"
    (fun claimed : bool => if claimed then "commit ledger transaction"%string
                           else "commit duplicate ledger event"%string)
    (fun now =>
      let! claimed := claimProcessedEvent now delivery payloadHash in
      if negb claimed then ret false else
      let! _ := settle event now in
      ret true).

#[export] Instance PgLedgerStore : Ledger.LedgerStore DB := ProcessRiskEvaluated.
End Store.

(** ** Effects *)

Section Effects.
Context `{Jsonb}.
Implicit Types (w : World DB).

Lemma framed_insertLedgerPair now id1 id2 t a1 m1 a2 m2 c :
  framed (insertLedgerPair now id1 id2 t a1 m1 a2 m2 c).
Proof. unfold insertLedgerPair. solve_framed. Qed.
Lemma framed_lockAccountBalance a c : framed (lockAccountBalance a c).
Proof. unfold lockAccountBalance. solve_framed. Qed.
Lemma framed_queryBalance a c : framed (queryBalance a c).
Proof. unfold queryBalance. solve_framed. Qed.

#[local] Hint Resolve framed_insertLedgerPair framed_lockAccountBalance framed_queryBalance
  : framed.

Definition ledger_pair (now : Z) (id1 id2 t a1 : string) (m1 : Z) (a2 : string) (m2 : Z)
  (c : string) (db : DB) : DB :=
  set_ledger_entries
    (<[id2 := mk_ledger_row t a2 m2 c (timestamptz now)]>
      (<[id1 := mk_ledger_row t a1 m1 c (timestamptz now)]> (db_ledger_entries db))) db.

(** Both rows are new, and the transaction has no other row for either account. *)
Lemma insertLedgerPair_ok now id1 id2 t a1 m1 a2 m2 c w w' :
  insertLedgerPair now id1 id2 t a1 m1 a2 m2 c w = (Ok tt, w') ->
  exists c', bpchar 3 c = Ok c'
  /\ db_ledger_entries (w_store w) !! id1 = None
  /\ db_ledger_entries (w_store w) !! id2 = None /\ id1 <> id2
  /\ (forall id r, db_ledger_entries (w_store w) !! id = Some r -> l_transaction_id r = t ->
       l_account_id r <> a1 /\ l_account_id r <> a2)
  /\ w_store w' = ledger_pair now id1 id2 t a1 m1 a2 m2 c' (w_store w).
Proof.
  intros (lk & Hrun)%statement_ok.
  apply exec__ok, with_texts_ok, obind_ok_ok in Hrun as (c' & Hc & Hrun).
  apply obind_ok_ok in Hrun as (db1 & H1 & H2).
  apply insert_ledger_entry_ok in H1 as (_ & Hf1 & Hu1 & _ & ->).
  apply insert_ledger_entry_ok in H2 as (_ & Hf2 & Hu2 & _ & Hw'). cbn in *.
  apply lookup_insert_None in Hf2 as [Hf2 Hne].
  exists c'. split_and!; try done. intros id r Hr Ht. split.
  - intros Ha. destruct (Hu1 id r Hr); congruence.
  - intros Ha. assert (Hid : id <> id1) by congruence.
    destruct (Hu2 id r) as [?|?]; [by rewrite lookup_insert_ne|congruence..].
Qed.

Lemma lockAccountBalance_ok a c w w' :
  lockAccountBalance a c w = (Ok tt, w') -> w_store w' = w_store w.
Proof. by intros (lk & [= _ Hw])%statement_ok. Qed.

Lemma queryBalance_ok a c w b w' :
  queryBalance a c w = (Ok b, w') ->
  w_store w' = w_store w /\ b = account_balance a c (w_store w) /\ in_int64 b = true.
Proof.
  intros (lk & [= Hb Hw])%statement_ok. apply with_texts_ok in Hb. unfold scan_int64 in Hb.
  destruct (in_int64 _) eqn:Hr; [|done]. by injection Hb as <-.
Qed.

Lemma ensureAvailableFunds_ok t w w' :
  ensureAvailableFunds t w = (Ok tt, w') ->
  w_store w' = w_store w
  /\ tx_AmountCents t <= account_balance (tx_AccountID t) (tx_Currency t) (w_store w).
Proof.
  intros Hrun. unfold ensureAvailableFunds in Hrun.
  apply bind_ok in Hrun as ([] & w1 & Hl & Hrun). rewrite wrapf_ok in Hl.
  apply lockAccountBalance_ok in Hl as Hw1.
  apply bind_ok in Hrun as (b & w2 & Hq & Hrun). rewrite wrapf_ok in Hq.
  apply queryBalance_ok in Hq as (Hw2 & -> & _).
  destruct (_ <? _) eqn:Hlt; [discriminate Hrun|]. injection Hrun as <-.
  reflect_bools. by rewrite Hw2, <- Hw1.
Qed.

Lemma ensureAvailableFunds_short t w e w' :
  ensureAvailableFunds t w = (Err e, w') ->
  errors_Is e domain_ErrInsufficientFunds = true ->
  w_store w' = w_store w
  /\ account_balance (tx_AccountID t) (tx_Currency t) (w_store w) < tx_AmountCents t.
Proof.
  intros Hrun He. unfold ensureAvailableFunds in Hrun.
  assert (Hp1 : plain_errors (wrapf "lock account balance"
    (lockAccountBalance (tx_AccountID t) (tx_Currency t)))).
  { unfold lockAccountBalance. solve_plain. }
  assert (Hp2 : plain_errors (wrapf "query account balance"
    (queryBalance (tx_AccountID t) (tx_Currency t)))).
  { unfold queryBalance. solve_plain. }
  apply bind_inv in Hrun as [([] & w1 & Hl & Hrun)|(e' & Hl & [= <-])];
    [|by rewrite (Hp1 _ _ _ Hl) in He].
  rewrite wrapf_ok in Hl. apply lockAccountBalance_ok in Hl as Hw1.
  apply bind_inv in Hrun as [(b & w2 & Hq & Hrun)|(e' & Hq & [= <-])];
    [|by rewrite (Hp2 _ _ _ Hq) in He].
  rewrite wrapf_ok in Hq. apply queryBalance_ok in Hq as (Hw2 & -> & _).
  destruct (_ <? _) eqn:Hlt; [|discriminate Hrun]. injection Hrun as _ <-.
  reflect_bools. rewrite Hw1 in *. by rewrite Hw2.
Qed.

(** The row a risk event may settle: pending, and what the event says it is. *)
Definition settles (event : RiskEvaluated) (r : transaction_row) : Prop :=
  t_status r = TransactionPending /\ t_account_id r = rk_AccountID event
  /\ t_amount_cents r = rk_AmountCents event /\ t_currency r = rk_Currency event.

Lemma lockPendingTransaction_ok event w t w' :
  lockPendingTransaction event w = (Ok t, w') ->
  w_store w' = w_store w
  /\ exists r, db_transactions (w_store w) !! rk_TransactionID event = Some r
  /\ settles event r
  /\ tx_ID t = rk_TransactionID event /\ tx_AccountID t = t_account_id r
  /\ tx_AmountCents t = t_amount_cents r /\ tx_Currency t = t_currency r.
Proof.
  intros Hrun. unfold lockPendingTransaction in Hrun.
  apply bind_ok in Hrun as (row & w1 & Hq & Hrun). rewrite wrapf_ok in Hq.
  apply statement_ok in Hq as (lk & [= Hr Hw1]). apply with_texts_ok in Hr.
  injection Hr as Hr. destruct row as [r|]; [|discriminate Hrun]. cbn in Hrun.
  destruct (String.eqb (t_status r) _) eqn:Hs; cbn in Hrun; [|discriminate Hrun].
  destruct (_ || _) eqn:Hm; [discriminate Hrun|]. injection Hrun as <- <-.
  reflect_bools. split; [done|]. exists r. unfold settles. by split_and!.
Qed.

Lemma finalizeTransaction_ok now id status level reason w w' :
  finalizeTransaction now id status level reason w = (Ok 1, w') ->
  exists r, db_transactions (w_store w) !! id = Some r
  /\ t_status r = TransactionPending
  /\ Forall (fun c => c.2 = true) (transaction_checks (finalized r status level reason now))
  /\ w_store w' = set_transactions (<[id := finalized r status level reason now]>
       (db_transactions (w_store w))) (w_store w).
Proof.
  intros (lk & Hrun%exec_ok)%statement_ok. apply with_texts_ok in Hrun.
  destruct (db_transactions (w_store w) !! id) as [r|]; [|done].
  destruct (String.eqb _ _) eqn:Hs; [|done].
  apply obind_ok_ok in Hrun as (db' & Hu & Hrun). injection Hrun as ->.
  apply checked_ok in Hu as [Hck Hu]. injection Hu as <-. reflect_bools. eauto.
Qed.
(** *** The abstract ruling and its refinement *)

(** What becomes of a payment, given the account's balance. *)
Definition ruling (event : RiskEvaluated) (balance : Z) : RiskEvaluated * string * string :=
  if rk_Approved event then
    if balance <? rk_AmountCents event
    then (with_outcome event false "insufficient funds", TransactionFailed, EventTransactionFailed)
    else (event, TransactionAuthorized, EventTransactionAuthorized)
  else (event, TransactionFailed, EventTransactionFailed).

(** Two fresh ledger rows, moving the amount from the account to clearing. *)
Definition posted (now : Z) (id1 id2 txid : string) (r : transaction_row) (db db' : DB) : Prop :=
  exists c, bpchar 3 (t_currency r) = Ok c
  /\ db_ledger_entries db !! id1 = None /\ db_ledger_entries db !! id2 = None /\ id1 <> id2
  /\ (forall id l, db_ledger_entries db !! id = Some l -> l_transaction_id l = txid ->
       l_account_id l <> t_account_id r /\ l_account_id l <> "clearing"%string)
  /\ db' = ledger_pair now id1 id2 txid (t_account_id r) (- t_amount_cents r) "clearing"
       (t_amount_cents r) c db.

(** The effect of settling [event] on the locked row [r], ruled on [balance]:
    the ledger entries if it was authorized, the row's new state, and the
    outcome event. *)
Definition settled_on (r : transaction_row) (balance : Z) (event : RiskEvaluated) (now : Z)
  (db db' : DB) : Prop :=
  exists ev payload db1,
  let id := rk_TransactionID event in
  let '(outcome, status, ty) := ruling event balance in
  db_transactions db !! id = Some r /\ settles event r
  /\ (if String.eqb status TransactionAuthorized
      then exists id1 id2, posted now id1 id2 id r db db1
      else db1 = db)
  /\ Forall (fun c => c.2 = true)
       (transaction_checks (finalized r status (rk_RiskLevel outcome) (rk_Reason outcome) now))
  /\ ev_Type ev = ty /\ ev_AggregateID ev = id /\ ev_PartitionKey ev = t_account_id r
  /\ ev_CorrelationID ev = rk_CorrelationID outcome
  /\ ev_Payload ev = marshal_RiskEvaluated outcome /\ ev_Status ev = OutboxPending
  /\ jsonb (ev_Payload ev) = Some payload
  /\ db_outbox_events db !! ev_ID ev = None
  /\ db' = set_outbox_events (<[ev_ID ev := outbox_row_of now ev payload]> (db_outbox_events db))
       (set_transactions
         (<[id := finalized r status (rk_RiskLevel outcome) (rk_Reason outcome) now]>
           (db_transactions db)) db1).

(** The whole effect of a settlement: ruled on the balance it finds. *)
Definition settled (event : RiskEvaluated) (now : Z) (db db' : DB) : Prop :=
  exists r, settled_on r (account_balance (t_account_id r) (t_currency r) db) event now db db'.

Lemma framed_decide now event t : framed (decide_outcome now event t).
Proof. unfold decide_outcome, insertLedgerEntries, ensureAvailableFunds. solve_framed. Qed.

Lemma framed_settle event now : framed (settle event now).
Proof.
  unfold settle, lockPendingTransaction, finalizeTransaction. solve_framed.
  apply framed_decide.
Qed.

Lemma insertLedgerEntries_ok now t w w' :
  insertLedgerEntries now t w = (Ok tt, w') ->
  exists id1 id2 w1, w_store w1 = w_store w /\
  insertLedgerPair now id1 id2 (tx_ID t) (tx_AccountID t) (- tx_AmountCents t)
    "clearing" (tx_AmountCents t) (tx_Currency t) w1 = (Ok tt, w').
Proof.
  intros Hrun. unfold insertLedgerEntries in Hrun.
  apply bind_ok in Hrun as (id1 & w1 & H1 & Hrun). rewrite NewID_run in H1.
  injection H1 as <- <-. apply bind_ok in Hrun as (id2 & w2 & H2 & Hrun).
  rewrite NewID_run in H2. injection H2 as <- <-. rewrite wrapf_ok in Hrun.
  eexists _, _, _. split; [|exact Hrun]. done.
Qed.

(** The decision follows the ruling and only posts what it authorizes. *)
Lemma decide_ok now event t r w outcome status ty w' :
  tx_ID t = rk_TransactionID event -> tx_AccountID t = t_account_id r ->
  tx_AmountCents t = t_amount_cents r -> tx_Currency t = t_currency r ->
  t_amount_cents r = rk_AmountCents event ->
  decide_outcome now event t w = (Ok (outcome, status, ty), w') ->
  ruling event (account_balance (t_account_id r) (t_currency r) (w_store w))
  = (outcome, status, ty)
  /\ (if String.eqb status TransactionAuthorized
      then exists id1 id2, posted now id1 id2 (rk_TransactionID event) r (w_store w) (w_store w')
      else w_store w' = w_store w).
Proof.
  intros Hid Hacct Hamt Hcur Heq Hrun. unfold decide_outcome in Hrun. unfold ruling.
  destruct (rk_Approved event).
  2: { injection Hrun as <- <- <- <-. done. }
  apply attempt_inv in Hrun as (o & w1 & Hf & Hrun). destruct o as [[]|err].
  - apply ensureAvailableFunds_ok in Hf as [Hw1 Hle].
    rewrite Hacct, Hamt, Hcur in Hle. rewrite <- Heq, (proj2 (Z.ltb_ge _ _)) by done.
    apply bind_ok in Hrun as ([] & w2 & Hl & Hrun). injection Hrun as <- <- <- <-.
    split; [done|]. apply insertLedgerEntries_ok in Hl as (id1 & id2 & w3 & Hw3 & Hl).
    apply insertLedgerPair_ok in Hl as (c & Hc & Hf1 & Hf2 & Hne & Hu & Hw').
    exists id1, id2, c. rewrite Hw3, Hw1 in *. rewrite Hid, Hacct, Hamt, Hcur in *.
    split_and!; done.
  - destruct (errors_Is err _) eqn:He; cbn in Hrun; [|discriminate Hrun].
    injection Hrun as <- <- <- <-.
    apply ensureAvailableFunds_short in Hf as [Hw1 Hlt]; [|done].
    rewrite Hacct, Hamt, Hcur in Hlt. rewrite <- Heq, (proj2 (Z.ltb_lt _ _)) by done. done.
Qed.

(** Refinement: a settlement that does not fail has the abstract effect. *)
Lemma settle_ok event now w w' :
  settle event now w = (Ok tt, w') -> settled event now (w_store w) (w_store w').
Proof.
  intros Hrun. unfold settle in Hrun.
  apply bind_ok in Hrun as (t & w1 & Hl & Hrun).
  apply lockPendingTransaction_ok in Hl as (Hw1 & r & Hr & Hset & Hid & Hacct & Hamt & Hcur).
  apply bind_ok in Hrun as ([[outcome status] ty] & w2 & Hd & Hrun).
  eapply decide_ok in Hd as [Hrule Hpost]; [|done..|by apply Hset].
  apply bind_ok in Hrun as (n & w3 & Hfin & Hrun). rewrite wrapf_ok in Hfin.
  destruct (n =? 1) eqn:Hn; cbn [negb] in Hrun; [|discriminate Hrun].
  apply Z.eqb_eq in Hn as ->.
  apply finalizeTransaction_ok in Hfin as (r' & Hr' & _ & Hck & Hw3).
  apply bind_ok in Hrun as (ev & w4 & Hev & Hrun). rewrite NewOutboxEvent_run in Hev.
  injection Hev as Hev <-. rewrite wrapf_ok in Hrun.
  apply insertOutbox_ok in Hrun as (p & Hp & _ & Hof & Hw'). cbn in Hof, Hw'.
  assert (Hkeep : db_transactions (w_store w2) = db_transactions (w_store w1)
                  /\ db_outbox_events (w_store w2) = db_outbox_events (w_store w1)).
  { destruct (String.eqb status _); [|by rewrite Hpost].
    destruct Hpost as (? & ? & c & _ & _ & _ & _ & _ & ->). done. }
  destruct Hkeep as [Hkt Hko].
  rewrite Hkt, Hw1, Hid, Hr in Hr'. injection Hr' as <-.
  rewrite Hw3 in Hof, Hw'. cbn in Hof, Hw'. rewrite Hko in Hof, Hw'.
  rewrite Hw1 in *. rewrite Hkt in Hw'. rewrite Hid in *.
  exists r, ev, p, (w_store w2). rewrite Hrule. rewrite <- Hev in *.
  split_and!; done.
Qed.

(** What a committed [ProcessRiskEvaluated] did. *)
Lemma ProcessRiskEvaluated_inv d hash event w r w' :
  ProcessRiskEvaluated d hash event w = (r, w') ->
  (exists e, r = Err e /\ w_store w' = arrived w)
  \/ (exists claimed now db1, (r = Ok claimed \/ is_ok r = false)
      /\ claim_effect now d hash claimed (arrived w) db1
      /\ if claimed then settled event now db1 (w_store w') else w_store w' = db1).
Proof.
  intros [?|(claimed & w2 & Hrun & Hw & Hr)]%transact_inv; [by left|right].
  apply bind_ok in Hrun as (c & w1 & Hc%claim_ok & Hrun).
  exists c, (w_clock (pop true w)), (w_store w1). cbn in Hc. fold (arrived w) in Hc.
  destruct c; cbn [negb] in Hrun.
  - apply bind_ok in Hrun as ([] & w3 & Hs%settle_ok & Hrun). injection Hrun as <- <-.
    rewrite Hw. split; [|done]. destruct Hr as [->| ->]; [by left|by right].
  - injection Hrun as <- <-. rewrite Hw. split; [|done].
    destruct Hr as [->| ->]; [by left|by right].
Qed.
End Effects.

#[export] Hint Resolve framed_insertLedgerPair framed_lockAccountBalance framed_queryBalance
  : framed.
