(* ===== verification/StoreFunding.v ===== *)
(** * [internal/postgres/funding.go]: storing deposits

    PostgreSQL's implementation of [FundingStore]; a deposit, its two ledger
    rows, its idempotency record, its audit row and its event are committed
    together ([deposited]). *)

From stdpp Require Import base strings list gmap.
From Stdlib Require Import ZArith Lia.
From S2P Require Import Prelude GoStrings Sha256 Runtime Domain GoJson GoTime Codec Schema.
From S2P Require Import StoreOutbox StoreTransaction FundingService ConsumerLoop StoreConsumer.
From S2P Require Import StoreLedger.

Open Scope Z_scope.

Import Funding.

(** ** JSON of [funding.DepositResponse] *)

Definition DepositResponse_members (r : DepositResponse) : list member :=
  [(string_field "deposit_id" (dr_DepositID r), JStr (dr_DepositID r));
   (string_field "transaction_id" (dr_TransactionID r), JStr (dr_TransactionID r));
   (string_field "status" (dr_Status r), JStr (dr_Status r));
   (string_field "account_id" (dr_AccountID r), JStr (dr_AccountID r));
   (int_field "amount_cents" (dr_AmountCents r), JNum (FormatInt (dr_AmountCents r)));
   (string_field "currency" (dr_Currency r), JStr (dr_Currency r));
   (int_field "balance_after_cents" (dr_BalanceAfterCents r),
      JNum (FormatInt (dr_BalanceAfterCents r)));
   (string_field "correlation_id" (dr_CorrelationID r), JStr (dr_CorrelationID r));
   (time_field "created_at" (dr_CreatedAt r), JStr (format_rfc3339_nano (dr_CreatedAt r)))].

Definition marshal_DepositResponse (r : DepositResponse) : outcome error string :=
  if marshalable_time (dr_CreatedAt r)
  then Ok (encode_object (map member_text (DepositResponse_members r)))
  else Err (EText "json: error calling MarshalJSON for type time.Time").

Definition zero_DepositResponse : DepositResponse :=
  mk_DepositResponse EmptyString EmptyString EmptyString EmptyString 0 EmptyString 0 EmptyString 0.

Definition DepositResponse_struct : struct DepositResponse :=
  let mk := mk_DepositResponse in
  [("deposit_id", fun '(mk_DepositResponse a b c d e f g h i) v =>
      obind (set_string a v) (fun a => Some (mk a b c d e f g h i)));
   ("transaction_id", fun '(mk_DepositResponse a b c d e f g h i) v =>
      obind (set_string b v) (fun b => Some (mk a b c d e f g h i)));
   ("status", fun '(mk_DepositResponse a b c d e f g h i) v =>
      obind (set_string c v) (fun c => Some (mk a b c d e f g h i)));
   ("account_id", fun '(mk_DepositResponse a b c d e f g h i) v =>
      obind (set_string d v) (fun d => Some (mk a b c d e f g h i)));
   ("amount_cents", fun '(mk_DepositResponse a b c d e f g h i) v =>
      obind (set_int64 e v) (fun e => Some (mk a b c d e f g h i)));
   ("currency", fun '(mk_DepositResponse a b c d e f g h i) v =>
      obind (set_string f v) (fun f => Some (mk a b c d e f g h i)));
   ("balance_after_cents", fun '(mk_DepositResponse a b c d e f g h i) v =>
      obind (set_int64 g v) (fun g => Some (mk a b c d e f g h i)));
   ("correlation_id", fun '(mk_DepositResponse a b c d e f g h i) v =>
      obind (set_string h v) (fun h => Some (mk a b c d e f g h i)));
   ("created_at", fun '(mk_DepositResponse a b c d e f g h i) v =>
      obind (set_time i v) (fun i => Some (mk a b c d e f g h i)))].

Definition unmarshal_DepositResponse (payload : string) : option DepositResponse :=
  obind (parse payload) (decode_struct DepositResponse_struct false zero_DepositResponse).

(** ** Operations *)

Section Store.
Context `{Jsonb}.

Definition PgFindDepositIdempotency (key : string) : M DB (option IdempotencyRecord) :=
  let! row := wrapf "query deposit idempotency key" (round_trip (fun _ _ db =>
    (with_texts [key] (Ok (db_deposit_idempotency_keys db !! key)), db))) in
  match row with
  | None => ret None
  | Some r =>
    match unmarshal_DepositResponse (i_response_json r) with
    | None => fail (EWrap "decode deposit idempotency response" (EText "json"))
    | Some response => ret (Some (mk_IdempotencyRecord (i_request_hash r) response))
    end
  end.

Definition deposit_row (t : Transaction) (currency : string) : transaction_row :=
  mk_transaction_row (tx_Kind t) (tx_AccountID t) None (Some (tx_FundingSource t))
    (Some (tx_ExternalRef t)) (tx_AmountCents t) currency (tx_Status t) None None
    (tx_CorrelationID t) (timestamptz (tx_CreatedAt t)) (timestamptz (tx_CreatedAt t)).

Definition insertDeposit (t : Transaction) : M DB unit :=
  statement (fun _ db => exec_ db (
    with_texts [tx_ID t; tx_Kind t; tx_AccountID t; tx_FundingSource t; tx_ExternalRef t;
                tx_Currency t; tx_Status t; tx_CorrelationID t]
      (obind_ok (bpchar 3 (tx_Currency t)) (fun currency =>
        insert_transaction (tx_ID t) (deposit_row t currency) db)))).

Definition insertDepositKey (now : Z) (deposit : Deposit) (responseJSON : string) : M DB unit :=
  statement (fun _ db => exec_ db (
    with_texts [dp_IdempotencyKey deposit; dp_RequestHash deposit;
                tx_ID (dp_Transaction deposit)]
      (obind_ok (bpchar 64 (dp_RequestHash deposit)) (fun hash =>
        jsonb_in responseJSON (fun json =>
          insert_deposit_idempotency_key (dp_IdempotencyKey deposit)
            (mk_idempotency_row hash (tx_ID (dp_Transaction deposit)) json (timestamptz now))
            db))))).

Definition constraintName (err : error) : string :=
  match as_pg_error err with Some (_, name) => name | None => EmptyString end.

(** The three statements in the middle: entries, balance, response. *)
Definition postDeposit (now : Z) (transaction : Transaction) : M DB DepositResponse :=
  let! id1 := NewID "le" in
  let! id2 := NewID "le" in
  let! _ := wrapf "insert deposit ledger entries"
    (insertLedgerPair now id1 id2 (tx_ID transaction)
      (tx_AccountID transaction) (tx_AmountCents transaction)
      "external-settlement" (- tx_AmountCents transaction) (tx_Currency transaction)) in
  let! balance := wrapf "query balance after deposit"
    (queryBalance (tx_AccountID transaction) (tx_Currency transaction)) in
  ret (mk_DepositResponse (tx_ID transaction) (tx_ID transaction) (tx_Status transaction)
         (tx_AccountID transaction) (tx_AmountCents transaction) (tx_Currency transaction)
         balance (tx_CorrelationID transaction) (tx_CreatedAt transaction)).

Definition depositBody (deposit : Deposit) (event : OutboxEvent) (now : Z)
  : M DB DepositResponse :=
  let transaction := dp_Transaction deposit in
  let! _ := wrapf "lock deposit account balance"
    (lockAccountBalance (tx_AccountID transaction) (tx_Currency transaction)) in
  try! inserted := insertDeposit transaction in
  match inserted with
  | Err err =>
    if String.eqb (constraintName err) "ux_transactions_deposit_source_reference"
    then fail (ESentinel funding_ErrExternalReferenceConflict)
    else fail (EWrap "insert deposit transaction" err)
  | Ok _ =>
    let! response := postDeposit now transaction in
    let! responseJSON := wrapf "encode deposit idempotency response"
      (lift (marshal_DepositResponse response)) in
    try! keyed := insertDepositKey now deposit responseJSON in
    match keyed with
    | Err err =>
      if isUniqueViolation err then fail (ESentinel funding_ErrIdempotencyConflict)
      else fail (EWrap "insert deposit idempotency key" err)
    | Ok _ =>
      let! act := NewID "act" in
      let! _ := wrapf "insert deposit audit action"
        (insertAction now act "DEPOSIT" (tx_ID transaction) (dp_OperatorReason deposit)) in
      let! _ := wrapf "insert deposit outbox event" (insertOutbox now event) in
      ret response
    end
  end.

Definition PgCreateDeposit (deposit : Deposit) (event : OutboxEvent) : M DB DepositResponse :=
  transact "begin deposit" (fun _ => "commit deposit"%string) (depositBody deposit event).

#[export] Instance PgFundingStore : FundingStore DB := {
  FindDepositIdempotency := PgFindDepositIdempotency;
  CreateDeposit := PgCreateDeposit;
}.
End Store.

(** ** Round trip of the stored response *)

Section RoundTrip.
Context `{JsonbSpec}.

Definition plain_deposit (r : DepositResponse) : bool :=
  plain (dr_DepositID r) && plain (dr_TransactionID r) && plain (dr_Status r)
  && plain (dr_AccountID r) && in_int64 (dr_AmountCents r) && plain (dr_Currency r)
  && in_int64 (dr_BalanceAfterCents r) && plain (dr_CorrelationID r)
  && marshalable_time (dr_CreatedAt r).

Definition DepositResponse_updates (r : DepositResponse)
  : list (DepositResponse -> DepositResponse) :=
  let mk := mk_DepositResponse in
  [fun '(mk_DepositResponse a b c d e f g h i) => mk (dr_DepositID r) b c d e f g h i;
   fun '(mk_DepositResponse a b c d e f g h i) => mk a (dr_TransactionID r) c d e f g h i;
   fun '(mk_DepositResponse a b c d e f g h i) => mk a b (dr_Status r) d e f g h i;
   fun '(mk_DepositResponse a b c d e f g h i) => mk a b c (dr_AccountID r) e f g h i;
   fun '(mk_DepositResponse a b c d e f g h i) => mk a b c d (dr_AmountCents r) f g h i;
   fun '(mk_DepositResponse a b c d e f g h i) => mk a b c d e (dr_Currency r) g h i;
   fun '(mk_DepositResponse a b c d e f g h i) => mk a b c d e f (dr_BalanceAfterCents r) h i;
   fun '(mk_DepositResponse a b c d e f g h i) => mk a b c d e f g (dr_CorrelationID r) i;
   fun '(mk_DepositResponse a b c d e f g h i) => mk a b c d e f g h (dr_CreatedAt r)].

Lemma stored_deposit_response r t :
  plain_deposit r = true -> marshal_DepositResponse r = Ok t ->
  exists json, jsonb t = Some json /\ unmarshal_DepositResponse json = Some r.
Proof.
  unfold plain_deposit, marshal_DepositResponse. intros Hr Ht. destruct_bools.
  case_match; [|done]. injection Ht as <-.
  apply (stored_object DepositResponse_struct zero_DepositResponse (DepositResponse_members r)
    (DepositResponse_updates r)); [solve_flat|by vm_compute|solve_performs_all| |by destruct r].
  solve_commute DepositResponse_updates.
Qed.
End RoundTrip.

(** ** Effects *)

Section Effects.
Context `{JsonbSpec}.
Implicit Types (w : World DB).

(** What a committed [CreateDeposit] did. *)
Definition deposited (d : Deposit) (ev : OutboxEvent) (now : Z) (db db' : DB)
  (resp : DepositResponse) : Prop :=
  exists currency ledger_currency id1 id2 act hash text json payload,
  let t := dp_Transaction d in
  let row := deposit_row t currency in
  let posted_db := ledger_pair now id1 id2 (tx_ID t) (tx_AccountID t) (tx_AmountCents t)
    "external-settlement" (- tx_AmountCents t) ledger_currency
    (set_transactions (<[tx_ID t := row]> (db_transactions db)) db) in
  bpchar 3 (tx_Currency t) = Ok currency
  /\ Forall (fun c => c.2 = true) (transaction_checks row)
  /\ db_transactions db !! tx_ID t = None
  /\ (forall id' r', db_transactions db !! id' = Some r' -> same_deposit_reference row r' = false)
  /\ bpchar 3 (tx_Currency t) = Ok ledger_currency
  /\ db_ledger_entries db !! id1 = None /\ db_ledger_entries db !! id2 = None /\ id1 <> id2
  /\ (forall id l, db_ledger_entries db !! id = Some l -> l_transaction_id l = tx_ID t ->
       l_account_id l <> tx_AccountID t /\ l_account_id l <> "external-settlement"%string)
  /\ resp = mk_DepositResponse (tx_ID t) (tx_ID t) (tx_Status t) (tx_AccountID t)
       (tx_AmountCents t) (tx_Currency t)
       (account_balance (tx_AccountID t) (tx_Currency t) posted_db)
       (tx_CorrelationID t) (tx_CreatedAt t)
  /\ in_int64 (dr_BalanceAfterCents resp) = true
  /\ marshal_DepositResponse resp = Ok text /\ jsonb text = Some json
  /\ bpchar 64 (dp_RequestHash d) = Ok hash
  /\ safeTokenPattern (dp_IdempotencyKey d) = true
  /\ db_deposit_idempotency_keys db !! dp_IdempotencyKey d = None
  /\ db_operator_actions db !! act = None
  /\ jsonb (ev_Payload ev) = Some payload
  /\ db_outbox_events db !! ev_ID ev = None
  /\ db' = set_outbox_events
       (<[ev_ID ev := outbox_row_of now ev payload]> (db_outbox_events db))
       (set_operator_actions
         (<[act := mk_action_row "DEPOSIT" (tx_ID t) (dp_OperatorReason d) (timestamptz now)]>
           (db_operator_actions db))
         (set_deposit_idempotency_keys
           (<[dp_IdempotencyKey d :=
               mk_idempotency_row hash (tx_ID t) json (timestamptz now)]>
             (db_deposit_idempotency_keys db)) posted_db)).

Lemma insertDeposit_ok t w w' :
  insertDeposit t w = (Ok tt, w') ->
  exists currency, let r := deposit_row t currency in
  bpchar 3 (tx_Currency t) = Ok currency
  /\ Forall (fun c => c.2 = true) (transaction_checks r)
  /\ db_transactions (w_store w) !! tx_ID t = None
  /\ (forall id' r', db_transactions (w_store w) !! id' = Some r' ->
        same_deposit_reference r r' = false)
  /\ w_store w' = set_transactions (<[tx_ID t := r]> (db_transactions (w_store w))) (w_store w).
Proof.
  intros (lk & Hrun)%statement_ok.
  apply exec__ok, with_texts_ok, obind_ok_ok in Hrun as (cur & Hcur & Hrun).
  apply insert_transaction_ok in Hrun as (? & ? & ? & ->). exists cur. by split_and!.
Qed.

Lemma insertDepositKey_ok now d text w w' :
  insertDepositKey now d text w = (Ok tt, w') ->
  exists hash json,
    bpchar 64 (dp_RequestHash d) = Ok hash /\ jsonb text = Some json
    /\ safeTokenPattern (dp_IdempotencyKey d) = true
    /\ db_deposit_idempotency_keys (w_store w) !! dp_IdempotencyKey d = None
    /\ w_store w' = set_deposit_idempotency_keys
         (<[dp_IdempotencyKey d := mk_idempotency_row hash (tx_ID (dp_Transaction d)) json
                            (timestamptz now)]> (db_deposit_idempotency_keys (w_store w)))
         (w_store w).
Proof.
  intros (lk & Hrun)%statement_ok.
  apply exec__ok, with_texts_ok, obind_ok_ok in Hrun as (hash & Hh & Hrun).
  apply jsonb_in_ok in Hrun as (json & Hj & Hrun). unfold insert_deposit_idempotency_key in Hrun.
  apply checked_ok in Hrun as [Hk Hrun]. apply fresh_key_ok in Hrun as [Hf Hrun].
  apply references_ok in Hrun as [_ Hrun]. injection Hrun as <-.
  apply Forall_cons in Hk as [Hk _]. exists hash, json. split_and!; done.
Qed.

Lemma postDeposit_ok now t w resp w' :
  postDeposit now t w = (Ok resp, w') ->
  exists id1 id2 c, bpchar 3 (tx_Currency t) = Ok c
  /\ db_ledger_entries (w_store w) !! id1 = None
  /\ db_ledger_entries (w_store w) !! id2 = None /\ id1 <> id2
  /\ (forall id l, db_ledger_entries (w_store w) !! id = Some l -> l_transaction_id l = tx_ID t ->
       l_account_id l <> tx_AccountID t /\ l_account_id l <> "external-settlement"%string)
  /\ w_store w' = ledger_pair now id1 id2 (tx_ID t) (tx_AccountID t) (tx_AmountCents t)
       "external-settlement" (- tx_AmountCents t) c (w_store w)
  /\ resp = mk_DepositResponse (tx_ID t) (tx_ID t) (tx_Status t) (tx_AccountID t)
       (tx_AmountCents t) (tx_Currency t)
       (account_balance (tx_AccountID t) (tx_Currency t) (w_store w'))
       (tx_CorrelationID t) (tx_CreatedAt t)
  /\ in_int64 (dr_BalanceAfterCents resp) = true.
Proof.
  intros Hrun. unfold postDeposit in Hrun.
  apply bind_ok in Hrun as (id1 & w1 & H1 & Hrun). rewrite NewID_run in H1. injection H1 as _ <-.
  apply bind_ok in Hrun as (id2 & w2 & H2 & Hrun). rewrite NewID_run in H2. injection H2 as _ <-.
  apply bind_ok in Hrun as ([] & w3 & Hl & Hrun). rewrite wrapf_ok in Hl.
  apply insertLedgerPair_ok in Hl as (c & Hc & Hf1 & Hf2 & Hne & Hu & Hw3).
  apply bind_ok in Hrun as (b & w4 & Hq & Hrun). rewrite wrapf_ok in Hq.
  apply queryBalance_ok in Hq as (Hw4 & -> & Hb). injection Hrun as <- <-.
  exists id1, id2, c. cbn in Hf1, Hf2, Hu, Hw3. rewrite Hw4. split_and!; done.
Qed.

Lemma depositBody_ok d ev now w resp w' :
  depositBody d ev now w = (Ok resp, w') ->
  deposited d ev now (w_store w) (w_store w') resp.
Proof.
  intros Hrun. unfold depositBody in Hrun.
  apply bind_ok in Hrun as ([] & w1 & Hl & Hrun). rewrite wrapf_ok in Hl.
  apply lockAccountBalance_ok in Hl as Hw1.
  apply attempt_inv in Hrun as (o & w2 & Hi & Hrun). destruct o as [[]|err].
  2: { destruct (String.eqb _ _); discriminate Hrun. }
  apply insertDeposit_ok in Hi as (cur & Hcur & Hck & Hf & Hu & Hw2).
  apply bind_ok in Hrun as (r & w3 & Hp & Hrun).
  apply postDeposit_ok in Hp as (id1 & id2 & c & Hc & Hf1 & Hf2 & Hne & Hlu & Hw3 & Hr & Hb).
  apply bind_ok in Hrun as (text & w4 & Hm & Hrun). rewrite wrapf_ok in Hm.
  injection Hm as Hm <-.
  apply attempt_inv in Hrun as (o & w5 & Hk & Hrun). destruct o as [[]|err].
  2: { destruct (isUniqueViolation err); discriminate Hrun. }
  apply insertDepositKey_ok in Hk as (hash & json & Hh & Hj & Hkey & Hkf & Hw5).
  apply bind_ok in Hrun as (act & w6 & Ha & Hrun). rewrite NewID_run in Ha.
  injection Ha as Ha <-. apply bind_ok in Hrun as ([] & w7 & Hact & Hrun).
  rewrite wrapf_ok in Hact. apply insertAction_ok in Hact as [Haf Hw7].
  apply bind_ok in Hrun as ([] & w8 & Ho & Hrun). rewrite wrapf_ok in Ho.
  apply insertOutbox_ok in Ho as (p & Hp & _ & Hof & Hw8). injection Hrun as <- <-.
  cbn in Haf, Hw7. rewrite Hw7, Hw5, Hw3, Hw2, Hw1 in *. cbn in *.
  exists cur, c, id1, id2, act, hash, text, json, p. split_and!; done.
Qed.
End Effects.

(** ** The interface, kept *)

Section Spec.
Context `{JsonbSpec}.
Implicit Types (w : World DB).

Definition deposit_view_row (r : idempotency_row) : option (string * DepositResponse) :=
  option_map (pair (i_request_hash r)) (unmarshal_DepositResponse (i_response_json r)).

Definition deposit_view (db : DB) : gmap string (string * DepositResponse) :=
  omap deposit_view_row (db_deposit_idempotency_keys db).

Definition deposit_responses_decode (db : DB) : Prop :=
  forall key r, db_deposit_idempotency_keys db !! key = Some r ->
    is_Some (unmarshal_DepositResponse (i_response_json r)).

(** A deposit with this source, reference and currency is booked. *)
Definition reference_taken (db : DB) (source reference currency : string) : Prop :=
  exists id r, db_transactions db !! id = Some r /\ t_kind r = "DEPOSIT"%string
  /\ t_funding_source r = Some source /\ t_external_reference r = Some reference
  /\ bpchar 3 currency = Ok (t_currency r).

Lemma deposit_view_None db key :
  db_deposit_idempotency_keys db !! key = None -> deposit_view db !! key = None.
Proof. intros Hk. unfold deposit_view. by rewrite lookup_omap, Hk. Qed.

Lemma deposit_view_Some db key r h resp :
  db_deposit_idempotency_keys db !! key = Some r ->
  unmarshal_DepositResponse (i_response_json r) = Some resp -> i_request_hash r = h ->
  deposit_view db !! key = Some (h, resp).
Proof.
  intros Hk Hd <-. unfold deposit_view, deposit_view_row. rewrite lookup_omap, Hk. cbn.
  by rewrite Hd.
Qed.

Lemma find_deposit_inv key w o w' :
  PgFindDepositIdempotency key w = (o, w') ->
  w_store w' = arrived w /\
  match o with
  | Ok None => db_deposit_idempotency_keys (arrived w) !! key = None
  | Ok (Some rec) => exists r, db_deposit_idempotency_keys (arrived w) !! key = Some r
      /\ unmarshal_DepositResponse (i_response_json r) = Some (di_Response rec)
      /\ i_request_hash r = di_RequestHash rec
  | Err e => plain_error e
  end.
Proof.
  intros Hrun. unfold PgFindDepositIdempotency in Hrun.
  apply bind_inv in Hrun as [(row & w1 & Hq & Hrun)|(e & Hq & ->)].
  - rewrite wrapf_ok in Hq. apply round_trip_inv in Hq as (lk & now & _ & [Hq|[[=] _]]).
    injection Hq as Hrow Hst. apply with_texts_ok in Hrow. injection Hrow as Hrow.
    destruct row as [r|]; [|by injection Hrun as <- <-].
    destruct (unmarshal_DepositResponse _) as [resp|] eqn:Hd; injection Hrun as <- <-;
      (split; [done|]); [cbn; eauto|done].
  - split.
    + apply wrapf_inv in Hq as (o & Hq & _).
      apply round_trip_inv in Hq as (lk & now & _ & [Hq|(_ & [?|?])]); [by injection Hq|done..].
    + assert (Hp : plain_errors (wrapf (A := option idempotency_row)
        "query deposit idempotency key"
        (round_trip (fun _ _ db =>
           (with_texts [key] (Ok (db_deposit_idempotency_keys db !! key)), db)))))
        by solve_plain.
      exact (Hp _ _ _ Hq).
Qed.

Lemma deposited_plain d ev now db db' resp :
  storable d -> deposited d ev now db db' resp -> plain_deposit resp = true.
Proof.
  intros (_ & Hid & Hst & Hamt & Hcur)
    (cur & lc & id1 & id2 & act & hash & text & json & p & _ & Hck & _ & _ & _ & _ & _ & _
     & _ & -> & Hbal & Hm & _).
  apply transaction_checks_inv in Hck as (Ha & _ & Hc & _). cbn in Ha, Hc.
  unfold marshal_DepositResponse in Hm.
  unfold plain_deposit. destruct (marshalable_time _) eqn:Ht; [|done].
  cbn [dr_DepositID dr_TransactionID dr_Status dr_AccountID dr_AmountCents dr_Currency
       dr_BalanceAfterCents dr_CorrelationID dr_CreatedAt] in *.
  rewrite Hid, Hst, Hamt, Hbal, ?Ht, (safeToken_plain _ Ha), (safeToken_plain _ Hc).
  by rewrite (safe_plain _ (currency_safe_chars _ Hcur)).
Qed.

Lemma deposited_view d ev now db db' resp :
  storable d -> deposited d ev now db db' resp ->
  deposit_view db' !! dp_IdempotencyKey d = Some (dp_RequestHash d, resp)
  /\ deposit_view db !! dp_IdempotencyKey d = None
  /\ (forall key, key <> dp_IdempotencyKey d ->
      db_deposit_idempotency_keys db' !! key = db_deposit_idempotency_keys db !! key)
  /\ exists r, db_deposit_idempotency_keys db' !! dp_IdempotencyKey d = Some r
     /\ unmarshal_DepositResponse (i_response_json r) = Some resp.
Proof.
  intros Hst Hdep. pose proof (deposited_plain _ _ _ _ _ _ Hst Hdep) as Hpl.
  destruct Hst as (Hhash & _).
  destruct Hdep as (cur & lc & id1 & id2 & act & hash & text & json & p & _ & _ & _ & _ & _
    & _ & _ & _ & _ & _ & _ & Hm & Hj & Hh & _ & Hfresh & _ & _ & _ & ->).
  rewrite bpchar_sha256 in Hh by done. injection Hh as <-.
  destruct (stored_deposit_response _ _ Hpl Hm) as (json' & Hj' & Hd).
  rewrite Hj in Hj'. injection Hj' as <-.
  split_and!.
  - eapply deposit_view_Some; [apply lookup_insert_eq|exact Hd|done].
  - by apply deposit_view_None.
  - intros key Hne. cbn. by rewrite lookup_insert_ne.
  - eexists. split; [apply lookup_insert_eq|done].
Qed.

Definition deposits_grow (db db' : DB) : Prop :=
  (deposit_responses_decode db -> deposit_responses_decode db')
  /\ deposit_view db ⊆ deposit_view db'
  /\ forall source reference currency,
       reference_taken db source reference currency ->
       reference_taken db' source reference currency.

Lemma deposited_grows d ev now db db' resp :
  storable d -> deposited d ev now db db' resp -> deposits_grow db db'.
Proof.
  intros Hst Hdep.
  destruct (deposited_view _ _ _ _ _ _ Hst Hdep) as (_ & Hnone & Hother & r0 & Hr0 & Hd0).
  split_and!.
  - intros Hok key r Hr. destruct (decide (key = dp_IdempotencyKey d)) as [->|Hne].
    + rewrite Hr0 in Hr. injection Hr as <-. eauto.
    + rewrite Hother in Hr by done. eauto.
  - apply map_subseteq_spec. intros key v Hv.
    destruct (decide (key = dp_IdempotencyKey d)) as [->|Hne]; [congruence|].
    revert Hv. unfold deposit_view. rewrite !lookup_omap. by rewrite Hother.
  - intros src ref cur' (id & r & Hr & Hrest). exists id, r. split; [|done].
    destruct Hdep as (cur & lc & id1 & id2 & act & hash & text & json & p & _ & _ & Hf & _ & _
      & _ & _ & _ & _ & _ & _ & _ & _ & _ & _ & _ & _ & _ & _ & ->). cbn.
    rewrite lookup_insert_ne; [done|]. congruence.
Qed.

Lemma framed_depositBody d ev now : framed (depositBody d ev now).
Proof.
  unfold depositBody, postDeposit, insertDeposit, insertDepositKey. solve_framed.
Qed.

(** [insertDeposit] fails on the deposit-reference index only when it is taken. *)
Lemma insertDeposit_taken t w e w' :
  insertDeposit t w = (Err e, w') ->
  constraintName e = "ux_transactions_deposit_source_reference"%string ->
  reference_taken (w_store w) (tx_FundingSource t) (tx_ExternalRef t) (tx_Currency t).
Proof.
  intros [(lk & Hrun)|[[= ->] _]]%statement_inv Hc; [|done].
  apply exec__inv in Hrun as [[_ [=]]|(e' & Hrun & [= <-] & _)].
  unfold with_texts in Hrun. case_match; [|by injection Hrun as <-].
  destruct (bpchar 3 (tx_Currency t)) as [cur|e1] eqn:Hcur; cbn in Hrun.
  2: { injection Hrun as ->. unfold bpchar in Hcur. case_match; [done|]. by injection Hcur as <-. }
  unfold insert_transaction in Hrun.
  destruct (checked _ _) as [|e2] eqn:Hck in Hrun; [done|]. injection Hrun as ->.
  unfold checked in Hck. destruct (first_violation _) as [name|] eqn:Hv.
  { injection Hck as <-. cbn in Hc. subst name. revert Hv.
    unfold transaction_checks. cbn. repeat case_match; discriminate. }
  unfold fresh_key in Hck. case_match; [by injection Hck as <-|].
  destruct (map_existsb _ _) eqn:Hex; [|done].
  apply map_existsb_true in Hex as (id & r & Hr & Hsame).
  unfold same_deposit_reference in Hsame. cbn in Hsame. reflect_bools.
  exists id, r. split_and!; [done..|]. by rewrite Hcur; f_equal.
Qed.

Lemma insertDepositKey_taken now d text w e w' :
  insertDepositKey now d text w = (Err e, w') -> isUniqueViolation e = true ->
  is_Some (db_deposit_idempotency_keys (w_store w) !! dp_IdempotencyKey d).
Proof.
  intros [(lk & Hrun)|[[= ->] _]]%statement_inv Hu; [|done].
  apply exec__inv in Hrun as [[_ [=]]|(e' & Hrun & [= <-] & _)]. revert Hrun.
  unfold with_texts, obind_ok, jsonb_in, insert_deposit_idempotency_key, checked, fresh_key,
    references, bpchar, foreign_key_violation.
  repeat case_match; intros; simplify_eq; done || eauto.
Qed.

Lemma plain_postDeposit now t : plain_errors (postDeposit now t).
Proof.
  unfold postDeposit, NewID, draw, insertLedgerPair, queryBalance, insert_ledger_entry.
  repeat (apply plain_errors_bind; [solve [by intros ??? [=] | solve_plain]|intros ?]).
  solve_plain.
Qed.

Lemma plain_insertDeposit t : plain_errors (insertDeposit t).
Proof. unfold insertDeposit, insert_transaction. solve_plain. Qed.
Lemma plain_insertDepositKey now d text : plain_errors (insertDepositKey now d text).
Proof. unfold insertDepositKey, insert_deposit_idempotency_key. solve_plain. Qed.
Lemma plain_lockAccountBalance a c : plain_errors (lockAccountBalance a c).
Proof. unfold lockAccountBalance. solve_plain. Qed.

(** The two sentinels name what was in the way. *)
Lemma depositBody_err d ev now w e w' :
  depositBody d ev now w = (Err e, w') ->
  (errors_Is e funding_ErrIdempotencyConflict = true ->
     is_Some (db_deposit_idempotency_keys (w_store w) !! dp_IdempotencyKey d))
  /\ (errors_Is e funding_ErrExternalReferenceConflict = true ->
     reference_taken (w_store w) (tx_FundingSource (dp_Transaction d))
       (tx_ExternalRef (dp_Transaction d)) (tx_Currency (dp_Transaction d))).
Proof.
  intros Hrun. assert (Hplain : forall s, plain_error s ->
    (errors_Is s funding_ErrIdempotencyConflict = true ->
       is_Some (db_deposit_idempotency_keys (w_store w) !! dp_IdempotencyKey d))
    /\ (errors_Is s funding_ErrExternalReferenceConflict = true ->
       reference_taken (w_store w) (tx_FundingSource (dp_Transaction d))
         (tx_ExternalRef (dp_Transaction d)) (tx_Currency (dp_Transaction d)))).
  { intros s Hs. rewrite !Hs. done. }
  unfold depositBody in Hrun.
  apply bind_inv in Hrun as [([] & w1 & H1 & Hrun)|(e' & H1 & [= <-])].
  2: { apply Hplain. exact (plain_errors_wrapf _ _ _ (plain_lockAccountBalance _ _) _ _ _ H1). }
  rewrite wrapf_ok in H1. apply lockAccountBalance_ok in H1 as Hw1.
  apply attempt_inv in Hrun as (o & w2 & Hi & Hrun). destruct o as [[]|err].
  2: { destruct (String.eqb _ _) eqn:Hn; injection Hrun as <- <-.
       - split; [done|]. intros _. reflect_bools.
         rewrite <- Hw1. by apply (insertDeposit_taken _ _ _ _ Hi).
       - apply Hplain. intros s. exact (plain_insertDeposit _ _ _ _ Hi s). }
  apply insertDeposit_ok in Hi as (cur & _ & _ & _ & _ & Hw2).
  apply bind_inv in Hrun as [(resp & w3 & Hp & Hrun)|(e' & Hp & [= <-])].
  2: { apply Hplain. exact (plain_postDeposit _ _ _ _ _ Hp). }
  apply postDeposit_ok in Hp as (id1 & id2 & c & _ & _ & _ & _ & _ & Hw3 & _).
  apply bind_inv in Hrun as [(text & w4 & Hm & Hrun)|(e' & Hm & [= <-])].
  2: { apply Hplain. apply wrapf_inv in Hm as ([|e1] & Hm & [= ->]).
       injection Hm as Hm _. unfold marshal_DepositResponse in Hm.
       case_match; [done|]. by injection Hm as <-. }
  rewrite wrapf_ok in Hm. injection Hm as _ <-.
  apply attempt_inv in Hrun as (o & w5 & Hk & Hrun). destruct o as [[]|err].
  - apply Hplain. revert Hrun. generalize w5. clear. intros w5 Hrun.
    assert (Hp : plain_errors (let! act := NewID "act" in
      let! _ := wrapf "insert deposit audit action"
        (insertAction now act "DEPOSIT" (tx_ID (dp_Transaction d)) (dp_OperatorReason d)) in
      let! _ := wrapf "insert deposit outbox event" (insertOutbox now ev) in ret resp)).
    { apply plain_errors_bind; [by intros ??? [=]|intros act]. solve_plain. }
    exact (Hp _ _ _ Hrun).
  - destruct (isUniqueViolation err) eqn:Hu; injection Hrun as <- <-.
    + split; [|done]. intros _. apply insertDepositKey_taken in Hk; [|done].
      by rewrite Hw3, Hw2, Hw1 in Hk.
    + apply Hplain. intros s. exact (plain_insertDepositKey _ _ _ _ _ _ Hk s).
Qed.

Lemma framed_PgCreateDeposit d ev : framed (PgCreateDeposit d ev).
Proof. apply framed_transact. apply framed_depositBody. Qed.

#[export, refine] Instance PgFundingStoreSpec : FundingStoreSpec DB := {
  fs_view := deposit_view;
  fs_ok := deposit_responses_decode;
  fs_reference := reference_taken;
}.
Proof.
  - intros key w r w' Hrun. by apply find_deposit_inv in Hrun as [? _].
  - intros key. unfold FindDepositIdempotency; cbn. unfold PgFindDepositIdempotency. solve_framed.
  - intros key w rec w' Hrun. apply find_deposit_inv in Hrun as [-> (r & Hr & Hd & Hh)].
    by eapply deposit_view_Some.
  - intros key w w' Hrun. apply find_deposit_inv in Hrun as [-> Hr]. by apply deposit_view_None.
  - intros key w e w' Hrun. by apply find_deposit_inv in Hrun as [_ He].
  - intros d ev. apply framed_PgCreateDeposit.
  - intros d ev w r w' Hrun Hst.
    apply transact_inv in Hrun as [(e & _ & ->)|(a & w2 & Hrun & -> & _)]; [by split_and!|].
    apply depositBody_ok in Hrun. by eapply deposited_grows.
  - intros d ev w resp w' Hrun Hst. apply transact_ok in Hrun as (w2 & Hrun & ->).
    apply depositBody_ok in Hrun. by destruct (deposited_view _ _ _ _ _ _ Hst Hrun).
  - intros d ev w e w' Hrun He Hok.
    apply transact_err in Hrun as [[-> _]|[(w2 & Hrun & Hw)|(a & w2 & _ & -> & _)]];
      [done| |done].
    apply depositBody_err in Hrun as [Hrun _]. destruct (Hrun He) as [r Hr].
    cbn in Hr. fold (arrived w) in Hr. rewrite Hw in Hok |- *.
    destruct (Hok _ _ Hr) as [resp Hresp]. eexists. by eapply deposit_view_Some.
  - intros d ev w e w' Hrun He.
    apply transact_err in Hrun as [[-> _]|[(w2 & Hrun & Hw)|(a & w2 & _ & -> & _)]];
      [done| |done].
    apply depositBody_err in Hrun as [_ Hrun]. rewrite Hw. exact (Hrun He).
Defined.
End Spec.
