(* ===== verification/StoreDeadLetter.v ===== *)
(** * [internal/postgres/deadletter.go]: dead letters and their replay attempts *)

From stdpp Require Import base strings list gmap sorting.
From Stdlib Require Import ZArith Lia.
From S2P Require Import Prelude GoStrings Sha256 Runtime Domain GoJson GoTime Base64 Codec Schema.
From S2P Require Import KafkaBus DeadLetter Operations StoreOutbox ConsumerLoop StoreConsumer.

Open Scope Z_scope.

Import DeadLetters.

(** ** Headers as JSON: [[{"key": ..., "value": base64}, ...]] *)

(** An empty value is a nil slice, which marshals as [null]. *)
Definition encode_bytes (s : string) : string :=
  if nonempty s then quote (StdEncode s) else "null".

Definition encode_header (h : Header) : string :=
  encode_object [string_field "key" (hdr_Key h); ("value", encode_bytes (hdr_Value h))].

Definition encodeHeaders (headers : list Header) : string :=
  encode_array (map encode_header headers).

(** Arrays of numbers, which [encoding/json] also accepts for bytes, are never
    written by [encodeHeaders] and are refused here. *)
Definition set_bytes (cur : string) (v : json) : option string :=
  match v with
  | JStr raw => StdDecode (unquote raw)
  | JNull => Some EmptyString
  | _ => None
  end.

Definition header_struct : struct Header :=
  [("key", fun '(mk_header a b) v => obind (set_string a v) (fun a => Some (mk_header a b)));
   ("value", fun '(mk_header a b) v => obind (set_bytes b v) (fun b => Some (mk_header a b)))].

Fixpoint decode_items {A} (fs : struct A) (zero : A) (items : list json) : option (list A) :=
  match items with
  | [] => Some []
  | v :: items' =>
    obind (decode_struct fs false zero v) (fun a =>
    obind (decode_items fs zero items') (fun l => Some (a :: l)))
  end.

Definition decodeHeaders (payload : string) : option (list Header) :=
  obind (parse payload) (fun v =>
    match v with
    | JArr items => decode_items header_struct (mk_header EmptyString EmptyString) items
    | JNull => Some []
    | _ => None
    end).

(** ** Operations *)

Section Store.
Context `{Jsonb} `{Collation}.

Definition scanDeadLetter (id : string) (r : dead_letter_row) : M DB Rec :=
  match decodeHeaders (d_headers r) with
  | None => fail (EWrap "decode dead letter headers" (EText "json"))
  | Some headers =>
    ret (mk_Rec id (d_consumer_name r) (coalesce_text (d_event_id r)) (d_source_topic r)
           (d_source_partition r) (d_source_offset r) (d_message_key r) headers (d_payload r)
           (d_payload_sha256 r) (d_error_class r) (d_error_message r) (d_state r)
           (d_first_failed_at r) (d_last_failed_at r)
           (match d_kafka_published_at r with Some t => t | None => 0 end)
           (d_replay_count r))
  end.

(** The row of the unique source position, if there is one. *)
Definition same_source (r r' : dead_letter_row) : bool :=
  String.eqb (d_consumer_name r) (d_consumer_name r')
  && String.eqb (d_source_topic r) (d_source_topic r')
  && (d_source_partition r =? d_source_partition r')
  && (d_source_offset r =? d_source_offset r').

Definition find_source (r : dead_letter_row) (db : DB) : option (string * dead_letter_row) :=
  List.find (fun kv => same_source r kv.2) (map_to_list (db_dead_letters db)).

Definition refailed (r excluded : dead_letter_row) : dead_letter_row :=
  mk_dead_letter_row (d_consumer_name r) (d_event_id r) (d_source_topic r)
    (d_source_partition r) (d_source_offset r) (d_message_key r) (d_headers r) (d_payload r)
    (d_payload_sha256 r) (d_error_class excluded) (d_error_message excluded) (d_state r)
    (d_first_failed_at r) (d_last_failed_at excluded) (d_kafka_published_at r)
    (d_replay_count r) (d_version r + 1).

Definition put_dead_letter (id : string) (r : dead_letter_row) (db : DB) : outcome error DB :=
  checked (dead_letter_checks id r) (Ok (set_dead_letters (<[id := r]> (db_dead_letters db)) db)).

(** [insert ... on conflict (source position) do update ... returning]. *)
Definition upsert_dead_letter (id : string) (r : dead_letter_row) (db : DB)
  : outcome error ((string * dead_letter_row) * DB) :=
  checked (dead_letter_checks id r)
    (match find_source r db with
     | Some (id', r') =>
       let r'' := refailed r' r in
       int4_result (d_version r'')
         (obind_ok (put_dead_letter id' r'' db) (fun db' => Ok ((id', r''), db')))
     | None =>
       fresh_key "dead_letter_messages_pkey" (db_dead_letters db) id
         (Ok ((id, r), set_dead_letters (<[id := r]> (db_dead_letters db)) db))
     end).

Definition dead_letter_row_of (record : Rec) (hash headers : string) : dead_letter_row :=
  mk_dead_letter_row (re_ConsumerName record) (nullif_empty (re_EventID record))
    (re_SourceTopic record) (re_SourcePartition record) (re_SourceOffset record)
    (re_Key record) headers (re_Payload record) hash (re_ErrorClass record)
    (re_ErrorMessage record) (re_State record) (timestamptz (re_FirstFailedAt record))
    (timestamptz (re_FirstFailedAt record)) None 0 1.

Definition PgUpsertDeadLetter (record : Rec) : M DB Rec :=
  wrapf "upsert dead letter" (
    let! row := round_trip (fun _ _ db => exec db (
      with_texts [re_ID record; re_ConsumerName record; re_EventID record;
                  re_SourceTopic record; re_PayloadSHA256 record; re_ErrorClass record;
                  re_ErrorMessage record; re_State record]
        (with_int4 (re_SourcePartition record)
          (obind_ok (bpchar 64 (re_PayloadSHA256 record)) (fun hash =>
            jsonb_in (encodeHeaders (re_Headers record)) (fun headers =>
              bytea_not_null "message_key" (re_Key record)
                (bytea_not_null "payload" (re_Payload record)
                  (upsert_dead_letter (re_ID record) (dead_letter_row_of record hash headers)
                    db)))))))) in
    scanDeadLetter row.1 row.2).

Definition with_published (t : Z) (r : dead_letter_row) : dead_letter_row :=
  mk_dead_letter_row (d_consumer_name r) (d_event_id r) (d_source_topic r)
    (d_source_partition r) (d_source_offset r) (d_message_key r) (d_headers r) (d_payload r)
    (d_payload_sha256 r) (d_error_class r) (d_error_message r) (d_state r)
    (d_first_failed_at r) (d_last_failed_at r)
    (match d_kafka_published_at r with Some t' => Some t' | None => Some t end)
    (d_replay_count r) (d_version r + 1).

Definition PgMarkDeadLetterPublished (id : string) (publishedAt : Z) : M DB unit :=
  let! affected := wrapf "mark dead letter published" (round_trip (fun _ _ db => exec db (
    with_texts [id]
      (match db_dead_letters db !! id with
       | Some r =>
         let r' := with_published (timestamptz publishedAt) r in
         int4_result (d_version r')
           (obind_ok (put_dead_letter id r' db) (fun db' => Ok (1, db')))
       | None => Ok (0, db)
       end)))) in
  if negb (affected =? 1) then fail (EText "mark dead letter published: not found")
  else ret tt.

Definition PgGetDeadLetter (id : string) : M DB (option Rec) :=
  wrapf "get dead letter" (
    let! row := round_trip (fun _ _ db =>
      (with_texts [id] (Ok (db_dead_letters db !! id)), db)) in
    match row with
    | None => ret None
    | Some r => let! record := scanDeadLetter id r in ret (Some record)
    end).

Fixpoint scan_all (rows : list (string * dead_letter_row)) : M DB (list Rec) :=
  match rows with
  | [] => ret []
  | (id, r) :: rows' =>
    let! item := wrapf "scan dead letter" (scanDeadLetter id r) in
    let! items := scan_all rows' in
    ret (item :: items)
  end.

Definition ListDeadLetters (state : string) (limit : Z) : M DB (list Rec) :=
  let limit := bounded_limit limit in
  let! rows := wrapf "list dead letters" (round_trip (fun _ _ db =>
    (with_texts [state]
       (Ok (take (Z.to_nat limit) (merge_sort (desc d_first_failed_at)
         (filter (fun kv => String.eqb state EmptyString || String.eqb (d_state kv.2) state = true)
           (map_to_list (db_dead_letters db)))))), db))) in
  scan_all rows.

(** *** Replay attempts *)

Definition recovered (now : Z) (r : replay_row) : replay_row :=
  mk_replay_row (r_dead_letter_id r) (r_reason r) "FAILED"
    (Some "stale pending replay recovered"%string) (r_created_at r) (Some now).

Definition stale_attempt (id : string) (now : Z) (r : replay_row) : bool :=
  pending_attempt id r && (r_created_at r <? now - minutes 5).

Definition recover_stale (id : string) (now : Z) (db : DB) : DB :=
  set_replay_attempts
    ((fun r => if stale_attempt id now r then recovered now r else r)
       <$> db_replay_attempts db) db.

(** [insert ... select ... where state = 'OPEN' on conflict do nothing]. *)
Definition insert_attempt (attemptID id reason : string) (now : Z) (db : DB)
  : outcome error (Z * DB) :=
  match db_dead_letters db !! id with
  | Some dead =>
    if String.eqb (d_state dead) StateOpen then
      let r := mk_replay_row id reason "PENDING" None now None in
      checked (replay_checks r)
        (match db_replay_attempts db !! attemptID with
         | Some _ => Ok (0, db)
         | None =>
           if map_existsb (fun _ r' => pending_attempt id r') (db_replay_attempts db)
           then Ok (0, db)
           else Ok (1, set_replay_attempts (<[attemptID := r]> (db_replay_attempts db)) db)
         end)
    else Ok (0, db)
  | None => Ok (0, db)
  end.

Definition PgStartDeadLetterReplay (id reason : string) : M DB string :=
  let! attemptID := NewID "replay" in
  transact "begin dead letter replay attempt"
    (fun _ => "commit dead letter replay attempt"%string) (fun now =>
    let now := timestamptz now in
    let! _ := wrapf "recover stale dead letter replay attempt" (statement (fun _ db =>
      exec_ db (with_texts [id] (Ok (recover_stale id now db))))) in
    let! affected := wrapf "insert dead letter replay attempt" (statement (fun _ db =>
      exec db (with_texts [attemptID; id; reason] (insert_attempt attemptID id reason now db)))) in
    if negb (affected =? 1) then fail (ESentinel operations_ErrInvalidState)
    else ret attemptID).

Definition finish_attempt (attemptID result errorMessage : string) (now : Z) (db : DB)
  : outcome error (string * DB) :=
  match db_replay_attempts db !! attemptID with
  | Some r =>
    if String.eqb (r_result r) "PENDING" then
      let r' := mk_replay_row (r_dead_letter_id r) (r_reason r) result
        (nullif_empty errorMessage) (r_created_at r) (Some now) in
      checked (replay_checks r')
        (Ok (r_reason r, set_replay_attempts (<[attemptID := r']> (db_replay_attempts db)) db))
    else Err (ESentinel pgx_ErrNoRows)
  | None => Err (ESentinel pgx_ErrNoRows)
  end.

Definition republished (r : dead_letter_row) : dead_letter_row :=
  mk_dead_letter_row (d_consumer_name r) (d_event_id r) (d_source_topic r)
    (d_source_partition r) (d_source_offset r) (d_message_key r) (d_headers r) (d_payload r)
    (d_payload_sha256 r) (d_error_class r) (d_error_message r) StateRepublished
    (d_first_failed_at r) (d_last_failed_at r) (d_kafka_published_at r)
    (d_replay_count r + 1) (d_version r + 1).

Definition mark_republished (deadLetterID : string) (db : DB) : outcome error (Z * DB) :=
  match db_dead_letters db !! deadLetterID with
  | Some r =>
    if String.eqb (d_state r) StateOpen then
      let r' := republished r in
      int4_result (d_version r') (int4_result (d_replay_count r')
        (obind_ok (put_dead_letter deadLetterID r' db) (fun db' => Ok (1, db'))))
    else Ok (0, db)
  | None => Ok (0, db)
  end.

Definition PgFinishDeadLetterReplay (attemptID deadLetterID result errorMessage : string)
  : M DB unit :=
  transact "begin finish dead letter replay"
    (fun _ => "commit finish dead letter replay"%string) (fun now =>
    let! reason := wrapf "finish dead letter replay attempt" (statement (fun _ db =>
      exec db (with_texts [attemptID; result; errorMessage]
        (finish_attempt attemptID result errorMessage (timestamptz now) db)))) in
    if String.eqb result Operator.ReplayPublished then
      let! affected := wrapf "mark dead letter republished" (statement (fun _ db =>
        exec db (with_texts [deadLetterID] (mark_republished deadLetterID db)))) in
      if negb (affected =? 1) then fail (ESentinel operations_ErrInvalidState) else
      let! act := NewID "act" in
      wrapf "audit dead letter replay" (insertAction now act "DLQ_REPLAY" deadLetterID reason)
    else ret tt).

#[export] Instance PgDeadLetterStore : DeadLetterStore DB := {
  UpsertDeadLetter := PgUpsertDeadLetter;
  MarkDeadLetterPublished := PgMarkDeadLetterPublished;
}.

#[export] Instance PgOperationsStore : Operator.OperationsStore DB := {
  Operator.GetDeadLetter := PgGetDeadLetter;
  Operator.IsEventProcessed := IsEventProcessed;
  Operator.StartDeadLetterReplay := PgStartDeadLetterReplay;
  Operator.FinishDeadLetterReplay := PgFinishDeadLetterReplay;
  Operator.GetOutboxStatus := GetOutboxStatus;
  Operator.RequeueOutbox := RequeueOutbox;
}.
End Store.

(** ** What may happen to a dead letter *)

Inductive dead_letter_step : dead_letter_row -> dead_letter_row -> Prop :=
| dead_refailed r again : dead_letter_step r (refailed r again)
| dead_published t r : dead_letter_step r (with_published t r)
| dead_republished r : d_state r = StateOpen -> dead_letter_step r (republished r).

(** The message it parks. *)
Definition dead_letter_content (r : dead_letter_row)
  : string * option string * string * Z * Z * string * string * string * string :=
  (d_consumer_name r, d_event_id r, d_source_topic r, d_source_partition r, d_source_offset r,
   d_message_key r, d_headers r, d_payload r, d_payload_sha256 r).

Lemma dead_letter_step_content r r' :
  dead_letter_step r r' -> dead_letter_content r' = dead_letter_content r.
Proof. by intros []. Qed.

(** The row found by its source position is a row of the table. *)
Lemma find_source_ok r db id r' :
  find_source r db = Some (id, r') ->
  db_dead_letters db !! id = Some r' /\ same_source r r' = true.
Proof.
  unfold find_source. intros Hf. apply find_some in Hf as [Hin Hs]. split; [|exact Hs].
  apply elem_of_map_to_list. by apply list_elem_of_In.
Qed.
