(* ===== verification/HeaderCodec.v ===== *)
(** * Message headers survive the dead-letter table

    [encodeHeaders], the [jsonb] column and [decodeHeaders] give back the
    headers of a message: arbitrary values (they travel as base64), and keys
    that need no JSON escape. *)

From stdpp Require Import base strings list sets.
From Stdlib Require Import ZArith Lia.
From S2P Require Import Prelude GoStrings Runtime GoJson Base64 Codec Schema StoreDeadLetter.

Open Scope Z_scope.

Definition header_members (h : Header) : list member :=
  [(string_field "key" (hdr_Key h), JStr (hdr_Key h));
   (("value"%string, encode_bytes (hdr_Value h)),
    if nonempty (hdr_Value h) then JStr (StdEncode (hdr_Value h)) else JNull)].

Lemma encode_header_members h : encode_header h = members_text (header_members h).
Proof. done. Qed.

(** The alphabet of base64 needs no escape. *)
Lemma enc6_plain v : 0 <= v < 64 -> plain_char (enc6 std_alphabet v) = true.
Proof.
  intros Hv.
  assert (Hall : forallb (fun n => plain_char (enc6 std_alphabet (Z.of_nat n))) (seq 0 64) = true)
    by by vm_compute.
  rewrite forallb_forall in Hall. specialize (Hall (Z.to_nat v)).
  rewrite Z2Nat.id in Hall by lia. apply Hall, in_seq. lia.
Qed.

Lemma StdEncode_plain s : plain (StdEncode s) = true.
Proof.
  unfold StdEncode, plain.
  induction s as [|c0|c0 c1|c0 c1 c2 s IH] using three_chars; [done|..];
    cbn [encode string_forall]; pose proof (byte_of_range c0).
  - rewrite !enc6_plain by divisions. done.
  - pose proof (byte_of_range c1). rewrite !enc6_plain by divisions. done.
  - pose proof (byte_of_range c1). pose proof (byte_of_range c2).
    rewrite !enc6_plain by divisions. done.
Qed.

Lemma encode_bytes_string s : nonempty s = true -> encode_bytes s = encode_string (StdEncode s).
Proof.
  intros Hs. unfold encode_bytes, encode_string. by rewrite Hs, escape_plain by apply StdEncode_plain.
Qed.

Lemma header_flat h : plain (hdr_Key h) = true -> flat_object (header_members h).
Proof.
  intros Hk. split; [done|]. split.
  - apply Forall_cons. split; [by apply flat_string|]. apply Forall_cons. split; [|constructor].
    destruct (nonempty (hdr_Value h)) eqn:Hv.
    + rewrite encode_bytes_string by done. apply flat_string; [done|apply StdEncode_plain].
    + unfold encode_bytes. rewrite Hv. by apply flat_null.
  - apply NoDup_cons. split; [|apply NoDup_singleton]. cbn. by intros [=]%list_elem_of_singleton.
Qed.

(** Whatever order [jsonb] stores the two members in. *)
Lemma decode_header h ms :
  plain (hdr_Key h) = true -> ms ≡ₚ header_members h ->
  decode_struct header_struct false (mk_header EmptyString EmptyString) (members_json ms) = Some h.
Proof.
  intros Hk Hp. assert (Hkey : unquote (hdr_Key h) = hdr_Key h) by by apply unquote_plain.
  assert (Hval : set_bytes EmptyString
    (if nonempty (hdr_Value h) then JStr (StdEncode (hdr_Value h)) else JNull) = Some (hdr_Value h)).
  { destruct (nonempty (hdr_Value h)) eqn:Hv; cbn.
    - by rewrite unquote_plain, Std_roundtrip by apply StdEncode_plain.
    - by destruct (hdr_Value h). }
  unfold header_members in Hp.
  apply Permutation_sym, Permutation_length_2_inv in Hp as [-> | ->];
    unfold members_json; cbn [map decode_struct]; unfold member_json; cbn [fst snd string_field];
    rewrite !assign_members_cons by reflexivity; cbn -[set_bytes unquote StdEncode nonempty];
    rewrite ?Hval; cbn -[set_bytes unquote StdEncode nonempty].
  - rewrite (unquote_plain "value") by done. cbn -[set_bytes unquote StdEncode nonempty].
    rewrite Hval, Hkey. by destruct h.
  - rewrite (unquote_plain "key") by done. cbn -[set_bytes unquote StdEncode nonempty].
    rewrite Hkey. by destruct h.
Qed.

Section RoundTrip.
Context `{JsonbArraySpec}.

Lemma decode_headers_perm hs objs :
  Forall (fun h => plain (hdr_Key h) = true) hs ->
  Forall2 Permutation objs (map header_members hs) ->
  decode_items header_struct (mk_header EmptyString EmptyString) (map members_json objs) = Some hs.
Proof.
  intros Hk. revert objs. induction Hk as [|h hs Hh Hk IH]; intros objs Hp.
  - by apply Forall2_nil_inv_r in Hp as ->.
  - apply Forall2_cons_inv_r in Hp as (ms & objs' & Hms & Hp & ->).
    cbn [map decode_items]. rewrite (decode_header h ms) by done. cbn [obind]. by rewrite IH.
Qed.

Lemma headers_round_trip hs :
  Forall (fun h => plain (hdr_Key h) = true) hs ->
  exists out, jsonb (encodeHeaders hs) = Some out /\ decodeHeaders out = Some hs.
Proof.
  intros Hk. destruct (jsonb_array (map header_members hs)) as (out & objs & Hj & Hp & Hparse).
  { apply Forall_map. eapply Forall_impl; [exact Hk|]. apply header_flat. }
  exists out. split.
  - unfold encodeHeaders. by rewrite map_map in Hj.
  - unfold decodeHeaders. rewrite Hparse. cbn [obind]. by apply decode_headers_perm.
Qed.
End RoundTrip.
