(* ===== verification/StoreMaintenance.v ===== *)
(** * [internal/postgres/maintenance.go]: counting and pruning processed events *)

From stdpp Require Import base strings list gmap sorting.
From Stdlib Require Import ZArith Lia.
From S2P Require Import Prelude GoStrings Sha256 Runtime Domain GoJson GoTime Codec Schema KafkaBus.
From S2P Require Import DeadLetter Operations Maintenance StoreOutbox.

Open Scope Z_scope.

Section Store.
Context `{Jsonb} `{Collation}.

Definition key := (string * string)%type.

(** [coalesce(min(last_seen_at), '0001-01-01')] *)
Definition oldest_last_seen (db : DB) : Z :=
  match map_to_list (db_processed_events db) with
  | [] => 0
  | kv :: rest => fold_right (fun kv m => Z.min (p_last_seen_at kv.2) m) (p_last_seen_at kv.2) rest
  end.

Definition PgProcessedEventStats : M DB Maintenance.Stats :=
  wrapf "query processed-event stats" (round_trip (fun _ _ db =>
    (Ok (Maintenance.mk_Stats (Z.of_nat (size (db_processed_events db))) (oldest_last_seen db)),
     db))).

(** The rows both queries select: old enough, and no dead letter of the event
    that is open or failed since the cutoff. *)
Definition prunable (cutoff : Z) (db : DB) (kv : key * processed_row) : bool :=
  (p_last_seen_at kv.2 <? cutoff)
  && negb (map_existsb (fun _ dead =>
       bool_decide (d_event_id dead = Some kv.1.2)
       && (String.eqb (d_state dead) DeadLetters.StateOpen
           || (cutoff <=? d_first_failed_at dead))) (db_dead_letters db)).

Definition PgPreviewProcessedPrune (cutoff : Z) : M DB Z :=
  wrapf "preview processed-event prune" (round_trip (fun _ _ db =>
    (Ok (Z.of_nat (length (filter (fun kv => prunable (timestamptz cutoff) db kv = true)
           (map_to_list (db_processed_events db))))), db))).

(** [order by last_seen_at, consumer_name, event_id] *)
Definition prune_before (x y : key * processed_row) : bool :=
  (p_last_seen_at x.2 <? p_last_seen_at y.2)
  || ((p_last_seen_at x.2 =? p_last_seen_at y.2)
      && (text_ltb x.1.1 y.1.1 || (String.eqb x.1.1 y.1.1 && text_ltb x.1.2 y.1.2))).
Definition prune_order (x y : key * processed_row) : Prop := prune_before y x = false.
#[export] Instance prune_order_dec x y : Decision (prune_order x y).
Proof. unfold prune_order. solve_decision. Defined.

(** [for update skip locked limit $2] *)
Definition prune_candidates (lk : row_key -> bool) (cutoff batchSize : Z) (db : DB)
  : list (key * processed_row) :=
  take (Z.to_nat batchSize)
    (filter (fun kv => negb (lk (processed_row_key kv.1.1 kv.1.2)) = true)
      (merge_sort prune_order
        (filter (fun kv => prunable cutoff db kv = true) (map_to_list (db_processed_events db))))).

Definition delete_all (keys : list key) (t : gmap key processed_row) : gmap key processed_row :=
  fold_right delete t keys.

Definition prune_batch (lk : row_key -> bool) (cutoff batchSize : Z) (db : DB)
  : outcome error (Z * DB) :=
  let keys := map fst (prune_candidates lk cutoff batchSize db) in
  Ok (Z.of_nat (length keys),
      set_processed_events (delete_all keys (db_processed_events db)) db).

Definition PgPruneProcessedEvents (cutoff batchSize : Z) (reason : string) : M DB Z :=
  transact "begin processed-event prune" (fun _ => "commit processed-event prune"%string)
    (fun now =>
      let! _ := wrapf "lock processed-event prune" (statement (fun _ db => (Ok tt, db))) in
      let! deleted := wrapf "delete processed-event batch" (statement (fun lk db =>
        exec db (prune_batch lk (timestamptz cutoff) batchSize db))) in
      let! act := NewID "act" in
      let! _ := wrapf "audit processed-event prune"
        (insertAction now act "PROCESSED_PRUNE" (format_rfc3339 cutoff) reason) in
      ret deleted).

#[export] Instance PgMaintenanceStore : Maintenance.MaintenanceStore DB := {
  Maintenance.ProcessedEventStats := PgProcessedEventStats;
  Maintenance.PreviewProcessedPrune := PgPreviewProcessedPrune;
  Maintenance.PruneProcessedEvents := PgPruneProcessedEvents;
}.
End Store.
