(* ===== verification/StoreMetrics.v ===== *)
(** * [internal/postgres/metrics.go]: what the sampler reads from the database

    Three statements, not in a transaction: each reads the database as it is
    when the statement runs. *)

From stdpp Require Import base strings list gmap.
From Stdlib Require Import ZArith Lia.
From S2P Require Import Prelude GoStrings Runtime GoFloat Domain Schema Metrics StoreDeadLetter.
From S2P Require Import DeadLetter.

Open Scope Z_scope.

(** [min(created_at) filter (where status = 'PENDING')] *)
Definition oldest_pending (db : DB) : option Z :=
  map_fold (fun _ r oldest =>
    if String.eqb (o_status r) OutboxPending then
      match oldest with
      | Some t => Some (Z.min (o_created_at r) t)
      | None => Some (o_created_at r)
      end
    else oldest) None (db_outbox_events db).

(** [coalesce(extract(epoch from now() - ...), 0)]: microseconds over a million,
    a numeric that the driver rounds to the nearest [float64]. *)
Definition pending_age (now : Z) (db : DB) : float64 :=
  match oldest_pending db with
  | Some created =>
    float_div (float64_of_int ((timestamptz now - created) / 1000)) (float64_of_int 1000000)
  | None => float64_of_int 0
  end.

Definition outbox_count (status : string) (db : DB) : Z :=
  count_where (fun r => String.eqb (o_status r) status) (db_outbox_events db).
Definition open_dead_letters (db : DB) : Z :=
  count_where (fun r => String.eqb (d_state r) DeadLetters.StateOpen) (db_dead_letters db).

Section Store.
(** [pgxpool.Stat]: all, idle and acquired connections. *)
Context (pool_stat : Z * Z * Z).

Definition PgOperationalMetrics : M DB OperationalSnapshot :=
  let! outbox := wrapf "query outbox metrics" (round_trip (fun _ now db =>
    (Ok (outbox_count OutboxPending db, outbox_count OutboxDeadLettered db,
         pending_age now db), db))) in
  let '(outboxPending, outboxDeadLettered, age) := outbox in
  let! deadLettersOpen := wrapf "query dead-letter metrics" (round_trip (fun _ _ db =>
    (Ok (open_dead_letters db), db))) in
  let! processedEvents := wrapf "query processed-event metrics" (round_trip (fun _ _ db =>
    (Ok (Z.of_nat (size (db_processed_events db))), db))) in
  let '(total, idle, acquired) := pool_stat in
  ret (mk_OperationalSnapshot (float64_of_int outboxPending) (float64_of_int outboxDeadLettered)
         age (float64_of_int deadLettersOpen) (float64_of_int processedEvents)
         (float64_of_int total) (float64_of_int idle) (float64_of_int acquired)).

#[export] Instance PgSnapshotProvider : Metrics.SnapshotProvider DB := {
  Metrics.OperationalMetrics := PgOperationalMetrics;
}.
End Store.

(** ** Lemmas *)

Lemma oldest_pending_spec db :
  match oldest_pending db with
  | Some t =>
    (exists id r, db_outbox_events db !! id = Some r /\ o_status r = OutboxPending
                  /\ o_created_at r = t)
    /\ forall id r, db_outbox_events db !! id = Some r -> o_status r = OutboxPending ->
                    t <= o_created_at r
  | None => forall id r, db_outbox_events db !! id = Some r -> o_status r <> OutboxPending
  end.
Proof.
  unfold oldest_pending.
  apply (map_fold_weak_ind (fun (o : option Z) (m : gmap string outbox_row) => match o with
    | Some t => (exists id r, m !! id = Some r /\ o_status r = OutboxPending /\ o_created_at r = t)
                /\ forall id r, m !! id = Some r -> o_status r = OutboxPending -> t <= o_created_at r
    | None => forall id r, m !! id = Some r -> o_status r <> OutboxPending
    end)).
  - intros id r Hr. by rewrite lookup_empty in Hr.
  - intros id r m o Hid IH. destruct (String.eqb_spec (o_status r) OutboxPending) as [Hp|Hp].
    + destruct o as [t|].
      * destruct IH as ((id' & r' & Hr' & Hp' & <-) & Hall). split.
        -- destruct (Z.le_ge_cases (o_created_at r) (o_created_at r')).
           ++ exists id, r. rewrite lookup_insert_eq. split_and!; [done|done|lia].
           ++ exists id', r'. rewrite lookup_insert_ne by congruence. split_and!; [done|done|lia].
        -- intros i q Hq Hpq. apply lookup_insert_Some in Hq as [[<- <-]|[_ Hq]]; [lia|].
           specialize (Hall i q Hq Hpq). lia.
      * split; [exists id, r; by rewrite lookup_insert_eq|]. intros i q Hq Hpq.
        apply lookup_insert_Some in Hq as [[<- <-]|[_ Hq]]; [lia|]. by destruct (IH i q Hq).
    + destruct o as [t|].
      * destruct IH as ((id' & r' & Hr' & Hp' & <-) & Hall). split.
        -- exists id', r'. rewrite lookup_insert_ne by congruence. done.
        -- intros i q Hq Hpq. apply lookup_insert_Some in Hq as [[<- <-]|[_ Hq]]; [done|].
           by apply (Hall i q).
      * intros i q Hq. apply lookup_insert_Some in Hq as [[<- <-]|[_ Hq]]; [done|]. by apply (IH i).
Qed.

(** A statement that only reads. *)
Lemma query_inv {S A} (g : Z -> S -> A) (w : World S) r w' :
  round_trip (fun _ now s => (Ok (g now s), s)) w = (r, w') ->
  w_store w' = arrived w /\ w_metrics w' = w_metrics w /\ w_sched w' = tail (w_sched w)
  /\ w_clock w <= w_clock w'
  /\ (r = Ok (g (w_clock w') (arrived w)) \/ is_ok r = false).
Proof.
  unfold round_trip, arrived. cbn. destruct (sl_fault (next_slot w)); intros [= <- <-]; cbn;
    (split_and!; [done|done|done|lia|]); auto.
Qed.

Lemma bind_query_inv {S A B} ctx (g : Z -> S -> A) (k : A -> M S B) (w : World S) r w' :
  (let! x := wrapf ctx (round_trip (fun _ now s => (Ok (g now s), s))) in k x) w = (r, w') ->
  exists w1, w_store w1 = arrived w /\ w_metrics w1 = w_metrics w
  /\ w_sched w1 = tail (w_sched w) /\ w_clock w <= w_clock w1
  /\ (k (g (w_clock w1) (arrived w)) w1 = (r, w') \/ (is_ok r = false /\ w' = w1)).
Proof.
  unfold bind, wrapf. destruct (round_trip _ w) as [o w1] eqn:E.
  apply query_inv in E as (Hs & Hm & Hl & Hc & Ho). intros Hrun. exists w1.
  split_and!; [done..|]. destruct Ho as [->|Ho]; [by left|].
  destruct o as [a|e]; [done|]. injection Hrun as <- <-. by right.
Qed.

(** What a successful query saw: three states of the database. *)
Lemma OperationalMetrics_inv pool w r w' :
  PgOperationalMetrics pool w = (r, w') ->
  w_metrics w' = w_metrics w
  /\ (is_ok r = false \/ exists now db1 db2 db3,
       w_clock w <= now <= w_clock w' /\ db1 = arrived w /\ db3 = w_store w'
       /\ (w_sched w = [] -> db1 = w_store w /\ db2 = db1 /\ db3 = db1)
       /\ r = Ok (mk_OperationalSnapshot
            (float64_of_int (outbox_count OutboxPending db1))
            (float64_of_int (outbox_count OutboxDeadLettered db1))
            (pending_age now db1)
            (float64_of_int (open_dead_letters db2))
            (float64_of_int (Z.of_nat (size (db_processed_events db3))))
            (float64_of_int pool.1.1) (float64_of_int pool.1.2) (float64_of_int pool.2))).
Proof.
  destruct pool as [[total idle] acquired]. unfold PgOperationalMetrics.
  intros (w1 & Hs1 & Hm1 & Hl1 & Hc1 & [Hrun|[? ->]])%bind_query_inv; [|by auto].
  apply bind_query_inv in Hrun as (w2 & Hs2 & Hm2 & Hl2 & Hc2 & [Hrun|[? ->]]).
  2: { split; [congruence|by left]. }
  apply bind_query_inv in Hrun as (w3 & Hs3 & Hm3 & Hl3 & Hc3 & [Hrun|[? ->]]).
  2: { split; [congruence|by left]. }
  injection Hrun as <- <-. split; [congruence|]. right.
  exists (w_clock w1), (arrived w), (arrived w1), (arrived w2).
  split_and!; [lia|lia|done|done| |done].
  intros Hn. rewrite Hn in Hl1. rewrite Hl1 in Hl2. cbn in Hl1, Hl2.
  unfold arrived, next_slot in *. rewrite Hn, Hl1, Hl2 in *. cbn in *. by rewrite Hs2, Hs1.
Qed.
