(* ===== verification/StoreQuery.v ===== *)
(** * [internal/postgres/query.go]: reading transactions *)

From stdpp Require Import base strings list gmap sorting.
From Stdlib Require Import ZArith Lia.
From S2P Require Import Prelude GoStrings Runtime Domain GoJson Schema QueryService.

Open Scope Z_scope.

Import Queries.

Section Store.
Context `{Collation}.

(** [transactionDetailColumns] and [detailDestinations] *)
Definition detail_of (id : string) (r : transaction_row) : Detail :=
  mk_Detail id (t_kind r) (t_account_id r) (coalesce_text (t_merchant_id r))
    (coalesce_text (t_funding_source r)) (coalesce_text (t_external_reference r))
    (t_amount_cents r) (t_currency r) (t_status r) (coalesce_text (t_risk_level r))
    (coalesce_text (t_risk_reason r)) (t_correlation_id r) (t_created_at r) (t_updated_at r).

Definition PgGetTransaction (id : string) : M DB (option Detail) :=
  wrapf "query transaction detail" (round_trip (fun _ _ db =>
    (with_texts [id] (Ok (option_map (detail_of id) (db_transactions db !! id))), db))).

(** [nullTime] *)
Definition nullTime (value : Z) : option Z := if value =? 0 then None else Some value.

(** The [where] clause. *)
Definition selected (filter : StoreListFilter) (kv : string * transaction_row) : bool :=
  String.eqb (t_account_id kv.2) (sf_AccountID filter)
  && (String.eqb (sf_Status filter) EmptyString || String.eqb (t_status kv.2) (sf_Status filter))
  && (String.eqb (sf_Kind filter) EmptyString || String.eqb (t_kind kv.2) (sf_Kind filter))
  && match nullTime (sf_BeforeCreatedAt filter) with
     | None => true
     | Some before =>
       row_ltb (t_created_at kv.2, kv.1) (timestamptz before, sf_BeforeID filter)
     end.

(** [order by created_at desc, id desc] over the selected rows. *)
Definition matching (f : StoreListFilter) (db : DB) : list (string * transaction_row) :=
  merge_sort (desc t_created_at)
    (filter (fun kv => selected f kv = true) (map_to_list (db_transactions db))).

Definition PgListTransactions (f : StoreListFilter) : M DB (list Detail) :=
  wrapf "query transaction list" (round_trip (fun _ _ db =>
    (with_texts [sf_AccountID f; sf_Status f; sf_Kind f; sf_BeforeID f]
       (Ok (map (fun kv => detail_of kv.1 kv.2)
             (take (Z.to_nat (sf_Limit f + 1)) (matching f db)))), db))).

#[export] Instance PgQueryStore : QueryStore DB := {
  GetTransaction := PgGetTransaction;
  ListTransactions := PgListTransactions;
}.
End Store.
