(* ===== verification/Books.v ===== *)
(** * The books: what the ledger and the transactions say about each other

    The central invariant of the system: the ledger holds exactly the entries
    of the authorized transactions ([balanced]), so that money only moves, and
    no customer account is ever overdrawn ([solvent]). *)

From stdpp Require Import base strings list gmap.
From Stdlib Require Import ZArith Lia.
From S2P Require Import Prelude GoStrings Sha256 Runtime Domain GoJson Codec Schema StoreOutbox.
From S2P Require Import TransactionService StoreTransaction FundingService ConsumerLoop.
From S2P Require Import StoreConsumer StoreLedger StoreFunding.

Open Scope Z_scope.

(** ** The invariant *)

(** A measure of ledger entries: transaction, account, amount and currency. *)
Definition weight := string -> string -> Z -> string -> Z.

Definition entry_weight (w : weight) (e : ledger_row) : Z :=
  w (l_transaction_id e) (l_account_id e) (l_amount_cents e) (l_currency e).

Definition ledger_total (w : weight) (db : DB) : Z :=
  map_sum (fun _ e => entry_weight w e) (db_ledger_entries db).

(** The entries a transaction must have: two opposite ones once authorized,
    none before or otherwise. *)
Definition expected_entries (w : weight) (id : string) (r : transaction_row) : Z :=
  if String.eqb (t_status r) TransactionAuthorized then
    if String.eqb (t_kind r) TransactionDeposit
    then w id (t_account_id r) (t_amount_cents r) (t_currency r)
         + w id "external-settlement"%string (- t_amount_cents r) (t_currency r)
    else w id (t_account_id r) (- t_amount_cents r) (t_currency r)
         + w id "clearing"%string (t_amount_cents r) (t_currency r)
  else 0.

(** Every measure of the ledger is that of the authorized transactions: the
    two tables hold the same entries, as multisets. *)
Definition balanced (db : DB) : Prop :=
  forall w, ledger_total w db = map_sum (expected_entries w) (db_transactions db).

Definition customer (account : string) : Prop :=
  account <> "clearing"%string /\ account <> "external-settlement"%string.

Definition solvent (db : DB) : Prop :=
  forall account currency, customer account -> 0 <= account_balance account currency db.

(** Rows satisfy the table's CHECKs, and a deposit is authorized from birth. *)
Definition rows_valid (db : DB) : Prop :=
  forall id r, db_transactions db !! id = Some r ->
    Forall (fun c => c.2 = true) (transaction_checks r)
    /\ (t_kind r = TransactionDeposit -> t_status r = TransactionAuthorized).

Record books (db : DB) : Prop := mk_books {
  books_balanced : balanced db;
  books_solvent : solvent db;
  books_rows : rows_valid db;
}.

(** ** Its consequences *)

(** Amounts of one currency within one transaction add up to zero. *)
Definition in_transaction (id currency : string) : weight :=
  fun id' _ amount currency' => if bool_decide (id' = id /\ currency' = currency) then amount else 0.

Definition in_currency (currency : string) : weight :=
  fun _ _ amount currency' => if bool_decide (currency' = currency) then amount else 0.

Lemma expected_zero w id r :
  (forall a1 a2 amount c, w id a1 amount c + w id a2 (- amount) c = 0) ->
  expected_entries w id r = 0.
Proof.
  intros Hw. unfold expected_entries. repeat case_match; [apply Hw| |done].
  rewrite <- (Hw "clearing"%string (t_account_id r) (t_amount_cents r) (t_currency r)). lia.
Qed.

Lemma balanced_sum_zero w db :
  balanced db -> (forall id a1 a2 amount c, w id a1 amount c + w id a2 (- amount) c = 0) ->
  ledger_total w db = 0.
Proof.
  intros Hb Hw. rewrite (Hb w). apply map_sum_zero. intros id r _. apply expected_zero, Hw.
Qed.

(** ** Preservation *)

Lemma ledger_total_insert w db id e :
  db_ledger_entries db !! id = None ->
  ledger_total w (set_ledger_entries (<[id := e]> (db_ledger_entries db)) db)
  = entry_weight w e + ledger_total w db.
Proof. intros Hid. unfold ledger_total. cbn. by rewrite map_sum_insert. Qed.

Lemma ledger_total_pair w now id1 id2 t a1 m1 a2 m2 c db :
  db_ledger_entries db !! id1 = None -> db_ledger_entries db !! id2 = None -> id1 <> id2 ->
  ledger_total w (ledger_pair now id1 id2 t a1 m1 a2 m2 c db)
  = w t a1 m1 c + w t a2 m2 c + ledger_total w db.
Proof.
  intros H1 H2 Hne. unfold ledger_total, ledger_pair. cbn.
  rewrite map_sum_insert by by rewrite lookup_insert_ne.
  rewrite map_sum_insert by done. unfold entry_weight. cbn. lia.
Qed.

(** The weight whose total is the SQL balance query. *)
Definition balance_weight (account currency : string) : weight :=
  fun _ a amount c => if String.eqb a account && bpchar_eq c currency then amount else 0.

Lemma account_balance_total account currency db :
  account_balance account currency db = ledger_total (balance_weight account currency) db.
Proof. done. Qed.

Lemma account_balance_ledger account currency db db' :
  db_ledger_entries db' = db_ledger_entries db ->
  account_balance account currency db' = account_balance account currency db.
Proof. intros He. unfold account_balance. by rewrite He. Qed.

(** Steps that touch neither table. *)
Lemma books_other db db' :
  db_transactions db' = db_transactions db -> db_ledger_entries db' = db_ledger_entries db ->
  books db -> books db'.
Proof.
  intros Ht Hl [Hb Hs Hr]. split.
  - intros w. unfold ledger_total. rewrite Ht, Hl. apply Hb.
  - intros a c Ha. rewrite (account_balance_ledger _ _ db) by done. by apply Hs.
  - intros id r. rewrite Ht. apply Hr.
Qed.

(** A new transaction without entries. *)
Lemma books_new_pending db id r :
  books db -> db_transactions db !! id = None ->
  Forall (fun c => c.2 = true) (transaction_checks r) ->
  t_status r = TransactionPending -> t_kind r = TransactionPayment ->
  books (set_transactions (<[id := r]> (db_transactions db)) db).
Proof.
  intros [Hb Hs Hr] Hid Hck Hst Hk. split.
  - intros w. cbn. rewrite map_sum_insert by done. unfold expected_entries at 1.
    rewrite Hst. cbn. apply Hb.
  - intros a c Ha. by apply Hs.
  - intros id' r'. cbn. rewrite lookup_insert_Some. intros [[<- <-]|[_ Hr']]; [|by eapply Hr].
    split; [done|]. rewrite Hk. done.
Qed.

(** A pending payment that fails. *)
Lemma books_failed db id r status level reason now :
  books db -> db_transactions db !! id = Some r -> t_status r = TransactionPending ->
  status <> TransactionAuthorized ->
  Forall (fun c => c.2 = true) (transaction_checks (finalized r status level reason now)) ->
  books (set_transactions (<[id := finalized r status level reason now]> (db_transactions db)) db).
Proof.
  intros [Hb Hs Hr] Hid Hst Hne Hck. split.
  - intros w. transitivity (ledger_total w db); [done|]. cbn.
    rewrite (map_sum_update _ _ _ _ _ Hid), (Hb w). unfold expected_entries at 3 4. cbn.
    rewrite Hst, (proj2 (String.eqb_neq _ _) Hne). cbn. lia.
  - intros a c Ha. by apply Hs.
  - intros id' r'. cbn. rewrite lookup_insert_Some. intros [[<- <-]|[_ Hr']]; [|by eapply Hr].
    split; [done|]. cbn. intros Hk. apply (Hr _ _ Hid) in Hk. rewrite Hst in Hk. done.
Qed.

(** A pending payment that is authorized and posted. *)
Lemma books_authorized db db1 id id1 id2 r level reason now :
  books db -> db_transactions db !! id = Some r -> t_status r = TransactionPending ->
  t_amount_cents r <= account_balance (t_account_id r) (t_currency r) db ->
  posted now id1 id2 id r db db1 ->
  Forall (fun c => c.2 = true)
    (transaction_checks (finalized r TransactionAuthorized level reason now)) ->
  books (set_transactions (<[id := finalized r TransactionAuthorized level reason now]>
          (db_transactions db)) db1).
Proof.
  intros [Hb Hs Hr] Hid Hst Hfunds (c & Hc & Hf1 & Hf2 & Hne & _ & ->) Hck.
  pose proof (transaction_checks_inv _ Hck) as (_ & Hpos & _ & Hcur & Hcl & Hex & _).
  cbn in Hpos, Hcur, Hcl, Hex.
  rewrite bpchar_currency in Hc by done. injection Hc as <-.
  assert (Hpay : t_kind r <> TransactionDeposit).
  { intros Hk. apply (Hr _ _ Hid) in Hk. rewrite Hst in Hk. done. }
  split.
  - intros w. transitivity (ledger_total w (ledger_pair now id1 id2 id (t_account_id r)
      (- t_amount_cents r) "clearing" (t_amount_cents r) (t_currency r) db)); [done|].
    rewrite ledger_total_pair by done. cbn.
    rewrite (map_sum_update _ _ _ _ _ Hid), (Hb w). unfold expected_entries at 3 4. cbn.
    rewrite Hst, (proj2 (String.eqb_neq _ _) Hpay). cbn. lia.
  - intros a cur Ha. rewrite (account_balance_ledger _ _ (ledger_pair now id1 id2 id
      (t_account_id r) (- t_amount_cents r) "clearing" (t_amount_cents r) (t_currency r) db)) by done.
    rewrite account_balance_total, ledger_total_pair by done. specialize (Hs a cur Ha).
    rewrite account_balance_total in Hs. unfold balance_weight at 1 2.
    rewrite (proj2 (String.eqb_neq "clearing" a)) by (intros <-; by destruct Ha). cbn.
    destruct (String.eqb _ _ && _) eqn:Hm; [|lia]. reflect_bools. subst a.
    rewrite <- account_balance_total in *.
    assert (Hsame : account_balance (t_account_id r) cur db
                    = account_balance (t_account_id r) (t_currency r) db).
    { unfold account_balance, sum_where. apply map_sum_ext. intros k e _.
      unfold bpchar_eq in *. apply String.eqb_eq in H0. by rewrite H0. }
    lia.
  - intros id' r'. cbn. rewrite lookup_insert_Some. intros [[<- <-]|[_ Hr']]; [|by eapply Hr].
    split; [done|]. done.
Qed.

Section Preservation.
Context `{Jsonb}.

(** A deposit, authorized and posted at once. *)
Lemma books_deposited db db' d ev now resp :
books db -> tx_Kind (Funding.dp_Transaction d) = TransactionDeposit ->
tx_Status (Funding.dp_Transaction d) = TransactionAuthorized ->
deposited d ev now db db' resp -> books db'.
Proof.
intros [Hb Hs Hr] Hkind Hst
  (cur & lc & id1 & id2 & act & hash & text & json & p & Hcur & Hck & Hf & _ & Hlc & Hf1 & Hf2
   & Hne & _ & _ & _ & _ & _ & _ & _ & _ & _ & _ & _ & ->).
set (t := Funding.dp_Transaction d) in *.
pose proof (transaction_checks_inv _ Hck) as (_ & Hpos & _ & _ & Hcl & Hex & _).
cbn in Hpos, Hcl, Hex. rewrite Hcur in Hlc. injection Hlc as <-.
set (db1 := set_transactions (<[tx_ID t := deposit_row t cur]> (db_transactions db)) db).
apply (books_other (ledger_pair now id1 id2 (tx_ID t) (tx_AccountID t) (tx_AmountCents t)
  "external-settlement" (- tx_AmountCents t) cur db1)); [done..|].
assert (Htot : forall w, ledger_total w (ledger_pair now id1 id2 (tx_ID t) (tx_AccountID t)
    (tx_AmountCents t) "external-settlement" (- tx_AmountCents t) cur db1)
  = w (tx_ID t) (tx_AccountID t) (tx_AmountCents t) cur
    + w (tx_ID t) "external-settlement"%string (- tx_AmountCents t) cur + ledger_total w db)
  by (intros w; by rewrite ledger_total_pair).
split.
- intros w. rewrite Htot. cbn. rewrite map_sum_insert by done.
  unfold expected_entries at 1. cbn. rewrite Hst, Hkind. cbn. rewrite (Hb w). lia.
- intros a c Ha. rewrite account_balance_total, Htot. specialize (Hs a c Ha).
  rewrite account_balance_total in Hs. unfold balance_weight at 1 2.
  rewrite (proj2 (String.eqb_neq "external-settlement" a)) by (intros <-; by destruct Ha).
  cbn. destruct (_ && _); lia.
- intros id' r'. cbn. rewrite lookup_insert_Some. intros [[<- <-]|[_ Hr']]; [|by eapply Hr].
  split; [done|]. done.
Qed.

Lemma books_settled event now db db' : books db -> settled event now db db' -> books db'.
Proof.
intros Hbk (r & ev & p & db1 & Hset). destruct (ruling _ _) as [[outcome status] ty] eqn:Hrule.
destruct Hset as (Hid & (Hst & _ & Hamt & _) & Hpost & Hck & _ & _ & _ & _ & _ & _ & _ & _ & ->).
set (r' := finalized _ _ _ _ _) in *.
apply (books_other (set_transactions (<[rk_TransactionID event := r']> (db_transactions db)) db1));
  [done..|].
destruct (String.eqb status TransactionAuthorized) eqn:Hs; reflect_bools.
- subst status. destruct Hpost as (id1 & id2 & Hpost). revert Hrule. unfold ruling.
  destruct (rk_Approved event); [|done]. destruct (_ <? _) eqn:Hlt; [done|]. reflect_bools.
  intros _. eapply books_authorized; [done..| |exact Hpost|done]. by rewrite Hamt.
- subst db1. by apply books_failed.
Qed.

Lemma books_created rec ev now db db' :
books db -> tx_Status (Transactions.ir_Transaction rec) = TransactionPending ->
created rec ev now db db' -> books db'.
Proof.
intros Hbk Hst (cur & hash & json & p & _ & Hck & Hf & _ & _ & _ & _ & _ & _ & _ & ->).
set (r := payment_row _ _ _) in *.
apply (books_other (set_transactions
  (<[tx_ID (Transactions.ir_Transaction rec) := r]> (db_transactions db)) db)); [done..|].
by apply books_new_pending.
Qed.

End Preservation.
