(* ===== verification/Footprints.v ===== *)
(** * Which tables an operation touches

    For a relation that allows changes to certain tables, the operations that
    only write those tables guarantee it.  An invariant of other tables is then
    kept for free; [System.v] uses this to close the books invariant over every
    operation. *)

From stdpp Require Import base strings list gmap.
From Stdlib Require Import ZArith Lia.
From S2P Require Import Prelude GoStrings Sha256 Runtime Domain GoJson Codec Schema KafkaBus.
From S2P Require Import ConsumerLoop RiskService LedgerService OutboxPublisher DeadLetter.
From S2P Require Import Operations Maintenance QueryService TransactionService FundingService.
From S2P Require Import StoreOutbox StoreTransaction StoreConsumer StoreLedger StoreFunding.
From S2P Require Import StoreDeadLetter StoreMaintenance StoreQuery.

Open Scope Z_scope.

Section Exec.
Context (R : DB -> DB -> Prop) `{!Reflexive R}.

Lemma exec_rel {A} db (o : outcome error (A * DB)) :
  (forall a db', o = Ok (a, db') -> R db db') -> R db (exec db o).2.
Proof. unfold exec. destruct o as [[a db']|e]; cbn; [eauto|done]. Qed.

Lemma exec__rel db (o : outcome error DB) :
  (forall db', o = Ok db' -> R db db') -> R db (exec_ db o).2.
Proof. unfold exec_. destruct o as [db'|e]; cbn; [eauto|done]. Qed.
End Exec.

(** A read leaves the database alone. *)
Lemma guar_read (R : DB -> DB -> Prop) `{!PreOrder R} A
    (f : (row_key -> bool) -> Z -> DB -> outcome error A) :
  guar R (round_trip (fun lk now db => (f lk now db, db))).
Proof. apply guar_round_trip; [done|]. done. Qed.
#[export] Hint Resolve guar_read : guar.

Section Outbox.
Context `{Jsonb} `{Collation} (R : DB -> DB -> Prop) `{!PreOrder R}.
Hypothesis outbox_moves : forall db id r r',
  db_outbox_events db !! id = Some r -> outbox_step r r' ->
  R db (set_outbox_events (<[id := r']> (db_outbox_events db)) db).

Lemma update_where_status_rel id s f db n db' :
  (forall r r', o_status r = s -> f r = Ok r' -> outbox_step r r') ->
  update_where_status id s f db = Ok (n, db') -> R db db'.
Proof using All.
  intros Hf [(_ & -> & _)|(r & r' & _ & Hr & Hs & Hr' & ->)]%update_where_status_ok; [done|].
  apply (outbox_moves _ _ r); auto.
Qed.

Lemma guar_NextPending : guar R NextPending.
Proof using All.
  apply guar_wrapf, guar_round_trip; [done|]. intros lk now db. apply exec_rel; [apply _|].
  intros a db'. destruct (next_event _ _ _) as [[id r]|] eqn:Hn; [|by intros [= _ <-]].
  apply next_event_ok in Hn as (Hr & Hc & _).
  intros (db1 & Hu & [= _ <-])%obind_ok_ok. unfold update_outbox_event in Hu.
  apply checked_ok in Hu as [_ [= <-]]. eapply outbox_moves; [exact Hr|by constructor].
Qed.

Lemma guar_MarkPublished id : guar R (MarkPublished id).
Proof using All.
  apply guar_wrapf, guar_bind; [done| |intros; apply guar_ret; done].
  apply guar_round_trip; [done|]. intros lk now db. apply exec_rel; [apply _|].
  intros a db' Hu%with_texts_ok. eapply update_where_status_rel; [|exact Hu].
  intros r r' Hs [= <-]. by constructor.
Qed.

Lemma guar_MarkFailedAttempt id n : guar R (MarkFailedAttempt id n).
Proof using All.
  apply guar_wrapf, guar_bind; [done| |intros; apply guar_ret; done].
  apply guar_round_trip; [done|]. intros lk now db. apply exec_rel; [apply _|].
  intros a db' Hu%with_texts_ok. apply with_int4_ok in Hu as [_ Hu].
  eapply update_where_status_rel; [|exact Hu].
  intros r r' Hs Hr'%int4_result_ok. injection Hr' as <-. by constructor.
Qed.

Hypothesis actions_free : forall db t, R db (set_operator_actions t db).

Lemma insertAction_rel now id a t r w w' :
  insertAction now id a t r w = (Ok tt, w') -> R (w_store w) (w_store w').
Proof using actions_free. intros [_ ->]%insertAction_ok. apply actions_free. Qed.

Lemma guar_RequeueOutbox id reason : guar R (RequeueOutbox id reason).
Proof using All.
  apply guar_transact; [done|intros now; solve_framed|].
  intros now w [] w' Hrun.
  apply bind_ok in Hrun as (n & w1 & Hu & Hrun). rewrite wrapf_ok in Hu.
  apply statement_ok in Hu as (lk & Hu%exec_ok). apply with_texts_ok in Hu.
  destruct (negb _); [discriminate Hrun|].
  apply bind_ok in Hrun as (act & w2 & Hid & Hrun). rewrite NewID_run in Hid.
  injection Hid as <- <-. rewrite wrapf_ok in Hrun. apply insertAction_rel in Hrun.
  etrans; [eapply update_where_status_rel; [|exact Hu]|exact Hrun].
  intros r r' Hs [= <-]. by constructor.
Qed.
End Outbox.

Section DeadLetters.
Context `{Jsonb} `{Collation} (R : DB -> DB -> Prop) `{!PreOrder R}.
Hypothesis dead_moves : forall db id r r',
  db_dead_letters db !! id = Some r -> dead_letter_step r r' ->
  R db (set_dead_letters (<[id := r']> (db_dead_letters db)) db).
Hypothesis attempts_free : forall db t, R db (set_replay_attempts t db).
Hypothesis actions_free : forall db t, R db (set_operator_actions t db).

Lemma put_dead_letter_rel id r r' db db' :
  db_dead_letters db !! id = Some r -> dead_letter_step r r' ->
  put_dead_letter id r' db = Ok db' -> R db db'.
Proof using dead_moves.
  unfold put_dead_letter. intros Hr Hst [_ [= <-]]%checked_ok. by eapply dead_moves.
Qed.

Lemma guar_scanDeadLetter id r : guar R (scanDeadLetter id r).
Proof. unfold scanDeadLetter. solve_guar. Qed.

Lemma guar_UpsertDeadLetter rec :
  (forall db id hash headers, db_dead_letters db !! id = None ->
   R db (set_dead_letters (<[id := dead_letter_row_of rec hash headers]> (db_dead_letters db)) db)) ->
  guar R (PgUpsertDeadLetter rec).
Proof using dead_moves PreOrder0.
  intros dead_new. apply guar_wrapf, guar_bind; [done| |intros; apply guar_scanDeadLetter].
  apply guar_round_trip; [done|]. intros lk now db. apply exec_rel; [apply _|].
  intros a db' Hu%with_texts_ok. apply with_int4_ok in Hu as [_ Hu].
  apply obind_ok_ok in Hu as (h & _ & Hu). apply jsonb_in_ok in Hu as (hs & _ & Hu).
  apply bytea_not_null_ok in Hu as [_ [_ Hu]%bytea_not_null_ok].
  unfold upsert_dead_letter in Hu. apply checked_ok in Hu as [_ Hu].
  destruct (find_source _ _) as [[id' r']|] eqn:Hfind.
  - apply find_source_ok in Hfind as [Hr' _]. apply int4_result_ok, obind_ok_ok in Hu as (db1 & Hu & [= _ <-]).
    eapply put_dead_letter_rel; [exact Hr'|by constructor|exact Hu].
  - apply fresh_key_ok in Hu as [Hf [= _ <-]]. by apply dead_new.
Qed.

Lemma guar_MarkDeadLetterPublished id t : guar R (PgMarkDeadLetterPublished id t).
Proof using dead_moves PreOrder0.
  apply guar_bind; [done| |intros; solve_guar].
  apply guar_wrapf, guar_round_trip; [done|]. intros lk now db. apply exec_rel; [apply _|].
  intros a db' Hu%with_texts_ok. destruct (db_dead_letters db !! id) as [r|] eqn:Hr; [|by injection Hu as _ <-].
  apply int4_result_ok, obind_ok_ok in Hu as (db1 & Hu & [= _ <-]).
  eapply put_dead_letter_rel; [exact Hr|by constructor|exact Hu].
Qed.

Lemma guar_GetDeadLetter id : guar R (PgGetDeadLetter id).
Proof.
  apply guar_wrapf, guar_bind; [done|auto with guar|].
  intros [r|]; [|apply guar_ret; done].
  apply guar_bind; [done|apply guar_scanDeadLetter|]. intros. by apply guar_ret.
Qed.

Lemma insert_attempt_rel a id reason now db n db' :
  insert_attempt a id reason now db = Ok (n, db') -> R db db'.
Proof.
  unfold insert_attempt. destruct (db_dead_letters db !! id); [|by intros [= _ <-]].
  destruct (String.eqb _ _); [|by intros [= _ <-]]. intros [_ Hk]%checked_ok.
  destruct (db_replay_attempts db !! a); [by injection Hk as _ <-|].
  destruct (map_existsb _ _); injection Hk as _ <-; [done|apply attempts_free].
Qed.

Lemma guar_StartDeadLetterReplay id reason : guar R (PgStartDeadLetterReplay id reason).
Proof.
  apply guar_bind; [done|unfold NewID; solve_guar|]. intros attemptID.
  apply guar_transact; [done|intros now; solve_framed|].
  intros now w a w' Hrun.
  apply bind_ok in Hrun as ([] & w1 & Hr & Hrun). rewrite wrapf_ok in Hr.
  apply statement_ok in Hr as (lk & Hr%exec__ok). apply with_texts_ok in Hr. injection Hr as Hr.
  apply bind_ok in Hrun as (n & w2 & Hi & Hrun). rewrite wrapf_ok in Hi.
  apply statement_ok in Hi as (lk' & Hi%exec_ok). apply with_texts_ok in Hi.
  destruct (negb _); [discriminate Hrun|]. injection Hrun as _ <-.
  etrans; [|by eapply insert_attempt_rel]. rewrite <- Hr. apply attempts_free.
Qed.

Lemma mark_republished_rel id db n db' : mark_republished id db = Ok (n, db') -> R db db'.
Proof.
  unfold mark_republished. destruct (db_dead_letters db !! id) as [r|] eqn:Hr;
    [|by intros [= _ <-]].
  destruct (String.eqb _ _) eqn:Hs; [|by intros [= _ <-]]. reflect_bools.
  intros Hk%int4_result_ok. apply int4_result_ok, obind_ok_ok in Hk as (db1 & Hu & [= _ <-]).
  eapply put_dead_letter_rel; [exact Hr|by constructor|exact Hu].
Qed.

Lemma guar_FinishDeadLetterReplay a id result msg :
  guar R (PgFinishDeadLetterReplay a id result msg).
Proof.
  apply guar_transact; [done|intros now; solve_framed|].
  intros now w [] w' Hrun.
  apply bind_ok in Hrun as (reason & w1 & Hf & Hrun). rewrite wrapf_ok in Hf.
  apply statement_ok in Hf as (lk & Hf%exec_ok). apply with_texts_ok in Hf.
  assert (HR1 : R (w_store w) (w_store w1)).
  { unfold finish_attempt in Hf. destruct (db_replay_attempts _ !! a); [|done].
    destruct (String.eqb _ _); [|done]. apply checked_ok in Hf as [_ [= _ <-]].
    apply attempts_free. }
  destruct (String.eqb result _); [|by injection Hrun as <-].
  apply bind_ok in Hrun as (n & w2 & Hm & Hrun). rewrite wrapf_ok in Hm.
  apply statement_ok in Hm as (lk' & Hm%exec_ok). apply with_texts_ok in Hm.
  destruct (negb _); [discriminate Hrun|].
  apply bind_ok in Hrun as (act & w3 & Hid & Hrun). rewrite NewID_run in Hid.
  injection Hid as <- <-. rewrite wrapf_ok in Hrun. eapply insertAction_rel in Hrun; [|done].
  etrans; [exact HR1|]. etrans; [by eapply mark_republished_rel|exact Hrun].
Qed.
End DeadLetters.

Section Maintenance.
Context `{Jsonb} `{Collation} (R : DB -> DB -> Prop) `{!PreOrder R}.
Hypothesis processed_pruned : forall lk cutoff batch db,
  R db (set_processed_events (delete_all (map fst (prune_candidates lk cutoff batch db))
          (db_processed_events db)) db).
Hypothesis actions_free : forall db t, R db (set_operator_actions t db).

Lemma guar_PruneProcessedEvents cutoff batch reason :
  guar R (PgPruneProcessedEvents cutoff batch reason).
Proof.
  apply guar_transact; [done|intros now; solve_framed|].
  intros now w n w' Hrun.
  apply bind_ok in Hrun as ([] & w1 & Hl & Hrun). rewrite wrapf_ok in Hl.
  apply statement_ok in Hl as (lk & [= Hl]).
  apply bind_ok in Hrun as (k & w2 & Hd & Hrun). rewrite wrapf_ok in Hd.
  apply statement_ok in Hd as (lk' & Hd%exec_ok). injection Hd as _ Hd.
  apply bind_ok in Hrun as (act & w3 & Hid & Hrun). rewrite NewID_run in Hid.
  injection Hid as <- <-. apply bind_ok in Hrun as ([] & w4 & Ha & Hrun).
  injection Hrun as _ <-. rewrite wrapf_ok in Ha. eapply insertAction_rel in Ha; [|done].
  rewrite Hl. etrans; [|exact Ha]. cbn. rewrite <- Hd. apply processed_pruned.
Qed.
End Maintenance.
