(* ===== verification/HttpApi.v ===== *)
(** * [internal/httpapi]: routing, authorization and the three endpoints

    [net/http] hands the router a parsed request; what the handlers write is a
    [Response].  [netip.ParseAddr] (the canonical text of an address) is the
    parameter [ParseAddr]. *)

From stdpp Require Import base strings list.
From Stdlib Require Import ZArith Lia Ascii.
From S2P Require Import Prelude GoStrings Sha256 Runtime Domain GoJson GoTime Codec.
From S2P Require Import TransactionService FundingService QueryService StoreFunding.

Open Scope Z_scope.

Module Http.

(** [rq_Header] is [Header.Get], [rq_Query] is [URL.Query().Get]. *)
Record Request := mk_Request {
  rq_Method : string;
  rq_Path : string;
  rq_Header : string -> string;
  rq_Query : string -> string;
  rq_Body : string;
  rq_RemoteAddr : string;
}.

Record Response := mk_Response {
  rs_Status : Z;
  rs_Header : list (string * string);
  rs_Body : string;
}.

(** [QueryService] and [FundingService] are nil-able; the latter carries its
    maximum amount. *)
Record Config := mk_Config {
  hc_QueryService : bool;
  hc_FundingService : option Z;
  hc_AuthValue : string;
  hc_FundingAuthValue : string;
  hc_OperatorAuthValue : string;
  hc_AllowedOrigins : list string;
  hc_MaxBodyBytes : Z;
  hc_TrustForwardedFor : bool;
  hc_MetricsEnabled : bool;
}.

Definition defaultMaxBodyBytes : Z := 1048576.

Definition NewRouter (config : Config) : Config :=
  mk_Config (hc_QueryService config) (hc_FundingService config) (hc_AuthValue config)
    (hc_FundingAuthValue config) (hc_OperatorAuthValue config) (hc_AllowedOrigins config)
    (if hc_MaxBodyBytes config <=? 0 then defaultMaxBodyBytes else hc_MaxBodyBytes config)
    (hc_TrustForwardedFor config) (hc_MetricsEnabled config).

(** ** Paths and credentials *)

Definition transactionIDFromPath (path : string) : string * bool :=
  let prefix := "/transactions/"%string in
  if negb (HasPrefix path prefix) then (EmptyString, false) else
  let id := TrimPrefix path prefix in
  (id, nonempty id && negb (Contains id "/")).

Definition depositAccountFromPath (path : string) : string * bool :=
  let prefix := "/accounts/"%string in
  let suffix := "/deposits"%string in
  if negb (HasPrefix path prefix) || negb (HasSuffix path suffix) then (EmptyString, false) else
  let accountID := TrimSuffix (TrimPrefix path prefix) suffix in
  (accountID, nonempty accountID && negb (Contains accountID "/")).

Definition bearer : string := "Bearer ".

(** [subtle.ConstantTimeCompare] answers 1 exactly on equal byte strings. *)
Definition authorized (header expected : string) : bool :=
  if String.eqb expected EmptyString || negb (HasPrefix header bearer) then false
  else String.eqb (TrimPrefix header bearer) expected.

(** ** Client identity for the rate limit *)

(** [net.SplitHostPort]: the host of ["host:port"] or ["[host]:port"]. *)
Fixpoint last_colon (s : string) : option (string * string) :=
  match s with
  | EmptyString => None
  | String c s' =>
    match last_colon s' with
    | Some (h, p) => Some (String c h, p)
    | None => if Ascii.eqb c ":" then Some (EmptyString, s') else None
    end
  end.

Definition SplitHost (hostport : string) : option string :=
  match last_colon hostport with
  | None => None
  | Some (host, port) =>
    match host with
    | String c rest =>
      if Ascii.eqb c "[" then
        if HasSuffix rest "]" then
          let inner := TrimSuffix rest "]" in
          if Contains inner "[" || Contains inner "]" || Contains port "]" || Contains port "["
          then None else Some inner
        else None
      else if Contains host ":" || Contains host "[" || Contains host "]"
              || Contains port "[" || Contains port "]"
      then None else Some host
    | EmptyString => if Contains port "[" || Contains port "]" then None else Some EmptyString
    end
  end.

Section Router.
Context `{UnicodeTables} {S : Type} `{Transactions.TransactionStore S}
  `{Funding.FundingStore S} `{Queries.QueryStore S}.
Context (ParseAddr : string -> option string) (allow : string -> M S bool) (config : Config).

Definition firstForwardedFor (header : string) : string :=
  match ParseAddr (TrimSpace (cut_before header ",")) with
  | Some addr => addr
  | None => EmptyString
  end.

Definition rateLimitKey (request : Request) : string :=
  let forwarded := firstForwardedFor (rq_Header request "X-Forwarded-For") in
  if hc_TrustForwardedFor config && nonempty forwarded then forwarded
  else match SplitHost (rq_RemoteAddr request) with
       | Some host => if nonempty host then host else rq_RemoteAddr request
       | None => rq_RemoteAddr request
       end.

(** ** Responses *)

Definition baseHeaders (request : Request) : list (string * string) :=
  [("Content-Type", "application/json"); ("Cache-Control", "no-store");
   ("X-Content-Type-Options", "nosniff"); ("X-Frame-Options", "DENY")]%string
  ++ (let origin := rq_Header request "Origin" in
      if existsb (String.eqb origin) (hc_AllowedOrigins config) then
        [("Access-Control-Allow-Origin", origin); ("Vary", "Origin");
         ("Access-Control-Allow-Headers",
           "Authorization, Content-Type, Idempotency-Key, X-Correlation-ID");
         ("Access-Control-Allow-Methods", "GET, POST, OPTIONS")]%string
      else []).

Definition newline : string := String (chr 10) EmptyString.

(** [json.Encoder.Encode] ends the value with a newline. *)
Definition writeJSON (request : Request) (status : Z) (payload : string) : Response :=
  mk_Response status (baseHeaders request) (payload +:+ newline).

(** A value with a time that RFC 3339 cannot write: the status is sent, the
    encoder's error is dropped and the body stays empty. *)
Definition writeTimed (request : Request) (status : Z) (times : list Z) (payload : string)
  : Response :=
  if forallb marshalable_time times then writeJSON request status payload
  else mk_Response status (baseHeaders request) EmptyString.

(** A [map[string]string] is written with its keys sorted. *)
Definition writeError (request : Request) (status : Z) (message : string) : Response :=
  writeJSON request status (encode_object [string_field "error" message]).

Definition unauthorized (request : Request) : Response :=
  writeError request 401 "unauthorized".
Definition not_found (request : Request) : Response := writeError request 404 "not found".
Definition invalid_request (request : Request) : Response :=
  writeError request 400 "invalid request".
Definition internal_error (request : Request) : Response :=
  writeError request 500 "internal error".

(** Runs [k] when the limiter allows the request. *)
Definition allowRequest (request : Request) (k : M S Response) : M S Response :=
  try! allowed := allow (rateLimitKey request) in
  match allowed with
  | Err _ => ret (internal_error request)
  | Ok false => ret (writeError request 429 "rate limit exceeded")
  | Ok true => k
  end.

(** ** Bodies *)

(** [MaxBytesReader] then one value from the [Decoder]: the value must end
    within the limit; what follows it is not read. *)
Definition limited_body (request : Request) : string :=
  String.substring 0 (Z.to_nat (hc_MaxBodyBytes config)) (rq_Body request).

Definition decode_body {A} (fs : struct A) (zero : A) (request : Request) : option A :=
  obind (parse_first (limited_body request)) (decode_struct fs true zero).

Definition create_struct : struct Transactions.CreateRequest :=
  let mk := Transactions.mk_CreateRequest in
  [("account_id", fun '(Transactions.mk_CreateRequest a b c d) v =>
      obind (set_string a v) (fun a => Some (mk a b c d)));
   ("merchant_id", fun '(Transactions.mk_CreateRequest a b c d) v =>
      obind (set_string b v) (fun b => Some (mk a b c d)));
   ("amount_cents", fun '(Transactions.mk_CreateRequest a b c d) v =>
      obind (set_int64 c v) (fun c => Some (mk a b c d)));
   ("currency", fun '(Transactions.mk_CreateRequest a b c d) v =>
      obind (set_string d v) (fun d => Some (mk a b c d)))].

Record deposit_payload := mk_deposit_payload {
  py_AmountCents : Z;
  py_Currency : string;
  py_FundingSource : string;
  py_ExternalReference : string;
  py_OperatorReason : string;
}.

Definition deposit_struct : struct deposit_payload :=
  let mk := mk_deposit_payload in
  [("amount_cents", fun '(mk_deposit_payload a b c d e) v =>
      obind (set_int64 a v) (fun a => Some (mk a b c d e)));
   ("currency", fun '(mk_deposit_payload a b c d e) v =>
      obind (set_string b v) (fun b => Some (mk a b c d e)));
   ("funding_source", fun '(mk_deposit_payload a b c d e) v =>
      obind (set_string c v) (fun c => Some (mk a b c d e)));
   ("external_reference", fun '(mk_deposit_payload a b c d e) v =>
      obind (set_string d v) (fun d => Some (mk a b c d e)));
   ("operator_reason", fun '(mk_deposit_payload a b c d e) v =>
      obind (set_string e v) (fun e => Some (mk a b c d e)))].

(** ** Handlers *)

Definition writeServiceError (request : Request) (err : error) : Response :=
  if errors_Is err transaction_ErrInvalidRequest then invalid_request request
  else if errors_Is err transaction_ErrIdempotencyConflict
  then writeError request 409 "idempotency key conflict"
  else internal_error request.

Definition createTransaction (request : Request) : M S Response :=
  if negb (authorized (rq_Header request "Authorization") (hc_AuthValue config))
  then ret (unauthorized request) else
  allowRequest request (
    match decode_body create_struct (Transactions.mk_CreateRequest EmptyString EmptyString 0 EmptyString)
            request with
    | None => ret (invalid_request request)
    | Some payload =>
      let header := rq_Header request "X-Correlation-ID" in
      let! correlationID :=
        if String.eqb header EmptyString then NewID "trace" else ret header in
      if negb (safeTokenPattern correlationID) then ret (invalid_request request) else
      try! result := Transactions.Create payload
        (Transactions.mk_RequestMetadata (rq_Header request "Idempotency-Key") correlationID) in
      match result with
      | Err err => ret (writeServiceError request err)
      | Ok r => ret (writeJSON request 202 (encode_object
          [string_field "correlation_id" (Transactions.cr_CorrelationID r);
           string_field "status" (Transactions.cr_Status r);
           string_field "transaction_id" (Transactions.cr_TransactionID r)]))
      end
    end).

Definition encode_detail (d : Queries.Detail) : string :=
  encode_object (
    [string_field "transaction_id" (Queries.de_ID d); string_field "kind" (Queries.de_Kind d);
     string_field "account_id" (Queries.de_AccountID d)]
    ++ omitempty "merchant_id" (Queries.de_MerchantID d)
    ++ omitempty "funding_source" (Queries.de_FundingSource d)
    ++ omitempty "external_reference" (Queries.de_ExternalReference d)
    ++ [int_field "amount_cents" (Queries.de_AmountCents d);
        string_field "currency" (Queries.de_Currency d);
        string_field "status" (Queries.de_Status d)]
    ++ omitempty "risk_level" (Queries.de_RiskLevel d)
    ++ omitempty "risk_reason" (Queries.de_RiskReason d)
    ++ [string_field "correlation_id" (Queries.de_CorrelationID d);
        time_field "created_at" (Queries.de_CreatedAt d);
        time_field "updated_at" (Queries.de_UpdatedAt d)]).

Definition detail_times (d : Queries.Detail) : list Z :=
  [Queries.de_CreatedAt d; Queries.de_UpdatedAt d].

Definition getTransaction (request : Request) (transactionID : string) : M S Response :=
  if negb (hc_QueryService config) then ret (not_found request) else
  let authorization := rq_Header request "Authorization" in
  if negb (authorized authorization (hc_AuthValue config))
     && negb (authorized authorization (hc_OperatorAuthValue config))
  then ret (unauthorized request) else
  allowRequest request (
    try! detail := Queries.Get transactionID in
    match detail with
    | Err err => ret (
        if errors_Is err transaction_ErrInvalidQuery then invalid_request request
        else if errors_Is err transaction_ErrNotFound
        then writeError request 404 "transaction not found"
        else internal_error request)
    | Ok d => ret (writeTimed request 200 (detail_times d) (encode_detail d))
    end).

Definition encode_page (p : Queries.Page) : string :=
  encode_object
    (("items"%string, "[" +:+ Join (map encode_detail (Queries.pg_Items p)) "," +:+ "]")
     :: omitempty "next_cursor" (Queries.pg_NextCursor p)).

Definition listTransactions (request : Request) : M S Response :=
  if negb (hc_QueryService config) then ret (not_found request) else
  if negb (authorized (rq_Header request "Authorization") (hc_OperatorAuthValue config))
  then ret (unauthorized request) else
  allowRequest request (
    let rawLimit := rq_Query request "limit" in
    match (if nonempty rawLimit then ParseInt rawLimit else Some 0) with
    | None => ret (invalid_request request)
    | Some limit =>
      try! page := Queries.List (Queries.mk_ListFilter (rq_Query request "account_id")
        (rq_Query request "status") (rq_Query request "kind") limit
        (rq_Query request "cursor")) in
      match page with
      | Err err => ret (
          if errors_Is err transaction_ErrInvalidQuery then invalid_request request
          else internal_error request)
      | Ok p => ret (writeTimed request 200 (concat (map detail_times (Queries.pg_Items p)))
                       (encode_page p))
      end
    end).

Definition createDeposit (request : Request) (accountID : string) : M S Response :=
  match hc_FundingService config with
  | None => ret (not_found request)
  | Some maxAmountCents =>
    if negb (authorized (rq_Header request "Authorization") (hc_FundingAuthValue config))
    then ret (unauthorized request) else
    allowRequest request (
      match decode_body deposit_struct
              (mk_deposit_payload 0 EmptyString EmptyString EmptyString EmptyString) request with
      | None => ret (invalid_request request)
      | Some payload =>
        try! result := Funding.DepositFunds maxAmountCents
          (Funding.mk_DepositRequest accountID (py_AmountCents payload) (py_Currency payload)
             (py_FundingSource payload) (py_ExternalReference payload))
          (Funding.mk_RequestMetadata (rq_Header request "Idempotency-Key")
             (rq_Header request "X-Correlation-ID") (py_OperatorReason payload)) in
        match result with
        | Err err => ret (
            if errors_Is err funding_ErrInvalidRequest then invalid_request request
            else if errors_Is err funding_ErrIdempotencyConflict
                    || errors_Is err funding_ErrExternalReferenceConflict
            then writeError request 409 "deposit conflict"
            else internal_error request)
        | Ok r => ret (writeTimed request 201 [Funding.dr_CreatedAt r]
            (encode_object (map member_text (DepositResponse_members r))))
        end
      end)
  end.

(** ** The router *)

Definition serveHTTP (request : Request) : M S Response :=
  let path := rq_Path request in
  let method := rq_Method request in
  if String.eqb method "OPTIONS" then ret (mk_Response 204 (baseHeaders request) EmptyString)
  else if String.eqb path "/healthz" && String.eqb method "GET"
  then ret (writeJSON request 200 (encode_object [string_field "status" "ok"]))
  else if String.eqb path "/transactions" then
    if String.eqb method "POST" then createTransaction request
    else if String.eqb method "GET" then listTransactions request
    else ret (not_found request)
  else
    let '(transactionID, ok) := transactionIDFromPath path in
    if ok && String.eqb method "GET" then getTransaction request transactionID else
    let '(accountID, ok) := depositAccountFromPath path in
    if ok && String.eqb method "POST" then createDeposit request accountID
    else ret (not_found request).

(** [metricPath]: the path label of the request metric. *)
Definition metricPath (request : Request) : string :=
  let path := rq_Path request in
  if String.eqb path "/healthz" || String.eqb path "/transactions" then path
  else if (transactionIDFromPath path).2 then "/transactions/{id}"
  else if (depositAccountFromPath path).2 then "/accounts/{id}/deposits"
  else "/unknown".
End Router.

(** ** Theorems *)

(** An amount in a request body is an [int64]. *)
Lemma create_amount config request payload :
  decode_body config create_struct (Transactions.mk_CreateRequest EmptyString EmptyString 0 EmptyString)
    request = Some payload ->
  in_int64 (Transactions.rq_AmountCents payload) = true.
Proof.
  unfold decode_body. destruct (parse_first _) as [v|]; cbn [obind]; [|done].
  apply (decode_struct_keeps (fun p => in_int64 (Transactions.rq_AmountCents p) = true)); [|done].
  repeat constructor; intros [a b c d] u p' Hp; cbn in Hp |- *;
    [destruct (set_string a u)|destruct (set_string b u)|destruct (set_int64 c u) eqn:Hu
    |destruct (set_string d u)]; cbn; try done; intros [= <-]; try done.
  by eapply set_int64_range.
Qed.

Lemma authorized_iff header expected :
  authorized header expected = true <->
  expected <> EmptyString /\ header = bearer +:+ expected.
Proof.
  unfold authorized, HasPrefix, TrimPrefix.
  assert (Hsp : forall p s r, strip_prefix p s = Some r <-> s = p +:+ r).
  { induction p as [|a p IH]; intros s r.
    - rewrite app_nil_l_string. destruct s; cbn; split; congruence.
    - rewrite app_cons_string. destruct s as [|b s]; cbn; [split; congruence|].
      destruct (Ascii.eqb_spec a b) as [->|Hne].
      + rewrite IH. split; [by intros ->|by intros [= ->]].
      + split; [done|]. intros [= -> _]. done. }
  destruct (String.eqb expected EmptyString) eqn:He; reflect_bools.
  - subst. split; [done|]. by intros [? _].
  - cbn [orb]. destruct (strip_prefix bearer header) as [r|] eqn:Hr; cbn [negb].
    + apply Hsp in Hr as ->. rewrite String.eqb_eq. split; [by intros ->|].
      intros [_ Heq]. apply (inj (String.app bearer)) in Heq. done.
    + split; [done|]. intros [_ ->]. rewrite (proj2 (Hsp bearer _ expected) eq_refl) in Hr. done.
Qed.

(** The prefix and the suffix may share their slash: the path of no account
    routes as the account ["deposits"]. *)
Lemma depositAccountFromPath_overlap :
  depositAccountFromPath "/accounts/deposits" = ("deposits"%string, true).
Proof. by vm_compute. Qed.

End Http.
