(* ===== verification/HttpMetrics.v ===== *)
(** * [internal/httpapi/metrics.go] and [internal/health/server.go]

    The wrapper that counts requests: a [statusRecorder] stands between the
    handler and the [ResponseWriter] of [net/http] and remembers the status.
    What the Prometheus handler answers is the parameter [metrics_page]. *)

From stdpp Require Import base strings list.
From Stdlib Require Import ZArith Lia.
From S2P Require Import Prelude GoStrings Sha256 Runtime Domain GoJson GoTime Codec.
From S2P Require Import TransactionService FundingService QueryService HttpApi.

Open Scope Z_scope.

(** [promhttp.HandlerFor] over what was recorded since the start. *)
Class MetricsHandler := {
  metrics_page : list metric -> Http.Request -> Http.Response;
}.

Module HttpMetrics.

(** ** [net/http]'s [ResponseWriter]

    The first final status is sent and later ones are ignored, an
    informational one is not final, a body without a status is a 200, and
    204 and 304 have no body; a status of other than three digits panics. *)

Record writer := mk_writer { wr_Status : option Z; wr_Body : string }.

Definition fresh_writer : writer := mk_writer None EmptyString.

Definition informational (status : Z) : bool :=
  (100 <=? status) && (status <=? 199) && negb (status =? 101).

Definition net_WriteHeader (status : Z) (w : writer) : option writer :=
  match wr_Status w with
  | Some _ => Some w
  | None =>
    if (status <? 100) || (999 <? status) then None
    else if informational status then Some w
    else Some (mk_writer (Some status) (wr_Body w))
  end.

Definition net_Write (payload : string) (w : writer) : option writer :=
  let status := default 200 (wr_Status w) in
  if (status =? 204) || (status =? 304) then Some (mk_writer (Some status) (wr_Body w))
  else Some (mk_writer (Some status) (wr_Body w +:+ payload)).

(** The status on the wire once the handler returned. *)
Definition sent_status (w : writer) : Z := default 200 (wr_Status w).

(** ** The recorder *)

Record statusRecorder := mk_statusRecorder {
  sr_ResponseWriter : writer;
  sr_status : Z;
}.

Definition WriteHeader (status : Z) (r : statusRecorder) : option statusRecorder :=
  if negb (sr_status r =? 0) then Some r
  else obind (net_WriteHeader status (sr_ResponseWriter r)) (fun w =>
    Some (mk_statusRecorder w status)).

Definition Write (payload : string) (r : statusRecorder) : option statusRecorder :=
  let status := if sr_status r =? 0 then 200 else sr_status r in
  obind (net_Write payload (sr_ResponseWriter r)) (fun w => Some (mk_statusRecorder w status)).

(** What a handler does to its [ResponseWriter]. *)
Inductive write_op :=
| op_WriteHeader (status : Z)
| op_Write (payload : string).

Definition recorder_step (op : write_op) (r : statusRecorder) : option statusRecorder :=
  match op with op_WriteHeader status => WriteHeader status r | op_Write p => Write p r end.
Definition writer_step (op : write_op) (w : writer) : option writer :=
  match op with op_WriteHeader status => net_WriteHeader status w | op_Write p => net_Write p w end.

Fixpoint steps_of {A} (step : write_op -> A -> option A) (ops : list write_op) (a : A) : option A :=
  match ops with [] => Some a | op :: rest => obind (step op a) (steps_of step rest) end.

(** The status the deferred function reports. *)
Definition recorded_status (r : statusRecorder) : Z :=
  if sr_status r =? 0 then 200 else sr_status r.

(** [writeJSON] sends its status and, if the value can be encoded, one body. *)
Definition operations_of (response : Http.Response) : list write_op :=
  op_WriteHeader (Http.rs_Status response)
  :: (if nonempty (Http.rs_Body response) then [op_Write (Http.rs_Body response)] else []).

Section ServeHTTP.
Context `{UnicodeTables} {S : Type} `{Transactions.TransactionStore S}
  `{Funding.FundingStore S} `{Queries.QueryStore S} `{MetricsHandler}.
Context (ParseAddr : string -> option string) (allow : string -> M S bool) (config : Http.Config).

Definition ServeHTTP (request : Http.Request) : M S Http.Response :=
  if Http.hc_MetricsEnabled config && String.eqb (Http.rq_Path request) "/metrics"
     && String.eqb (Http.rq_Method request) "GET"
  then fun w => (Ok (metrics_page (w_metrics w) request), w)
  else
    let! response := Http.serveHTTP ParseAddr allow config request in
    match steps_of recorder_step (operations_of response) (mk_statusRecorder fresh_writer 0) with
    | None => fail (EText "panic: invalid WriteHeader code")
    | Some recorder =>
      let! _ := emit (ObserveHTTPRequest (Http.rq_Method request) (Http.metricPath request)
                        (FormatInt (recorded_status recorder))) in
      let sent := sr_ResponseWriter recorder in
      ret (Http.mk_Response (sent_status sent) (Http.rs_Header response) (wr_Body sent))
    end.
End ServeHTTP.

(** ** [health.handler]: the mux of the background processes *)

Section Health.
Context `{MetricsHandler}.

(** Patterns without a method match every method; the mux answers 404 on
    every other path (it has redirected a path that is not clean). *)
Definition health_handler (metricsEnabled : bool) (recorded : list metric)
  (request : Http.Request) : Http.Response :=
  if String.eqb (Http.rq_Path request) "/healthz" then
    Http.mk_Response 200 [("Content-Type", "application/json")]%string
      (encode_object [string_field "status" "ok"])
  else if metricsEnabled && String.eqb (Http.rq_Path request) "/metrics" then
    metrics_page recorded request
  else
    Http.mk_Response 404 [("Content-Type", "text/plain; charset=utf-8");
                          ("X-Content-Type-Options", "nosniff")]%string
      ("404 page not found" +:+ String (Ascii.ascii_of_nat 10) EmptyString).
End Health.

(** ** The recorder is transparent *)

(** A final status of three digits. *)
Definition final_op (op : write_op) : bool :=
  match op with
  | op_WriteHeader status => (200 <=? status) && (status <=? 999)
  | op_Write _ => true
  end.

(** The recorder has seen the status its writer will send. *)
Definition agrees (r : statusRecorder) : Prop :=
  match wr_Status (sr_ResponseWriter r) with
  | None => sr_status r = 0
  | Some status => sr_status r = status /\ status <> 0
  end.

Lemma recorder_step_agrees op r :
  final_op op = true -> agrees r ->
  exists r', recorder_step op r = Some r' /\ agrees r'
  /\ writer_step op (sr_ResponseWriter r) = Some (sr_ResponseWriter r').
Proof.
  destruct r as [[st body] status]. unfold agrees.
  destruct op as [code|payload]; cbn; intros Hf Hr; reflect_bools.
  - destruct st as [s|]; cbn in *.
    + destruct Hr as [-> Hs]. unfold WriteHeader. cbn. rewrite (proj2 (Z.eqb_neq s 0) Hs).
      eexists. split_and!; [done|done|done].
    + subst. unfold WriteHeader, net_WriteHeader, informational. cbn.
      rewrite (proj2 (Z.ltb_ge code 100)), (proj2 (Z.ltb_ge 999 code)),
        (proj2 (Z.leb_gt code 199)), andb_false_r by lia. cbn.
      eexists. split; [done|]. cbn. split_and!; [done|lia|done].
  - unfold Write, net_Write. cbn. destruct st as [s|]; cbn in *.
    + destruct Hr as [-> Hs]. rewrite (proj2 (Z.eqb_neq s 0) Hs).
      destruct ((s =? 204) || (s =? 304)); eexists; by split_and!.
    + subst. cbn. eexists. by split_and!.
Qed.

Lemma steps_agree ops : forall r,
  forallb final_op ops = true -> agrees r ->
  exists r', steps_of recorder_step ops r = Some r' /\ agrees r'
  /\ steps_of writer_step ops (sr_ResponseWriter r) = Some (sr_ResponseWriter r').
Proof.
  induction ops as [|op ops IH]; intros r Hf Hr; [by exists r|].
  cbn [forallb] in Hf. reflect_bools.
  destruct (recorder_step_agrees op r) as (r1 & H1 & Hr1 & Hw1); [done..|].
  destruct (IH r1) as (r' & H' & Hr' & Hw'); [done..|].
  exists r'. cbn [steps_of]. by rewrite H1, Hw1.
Qed.

Lemma agrees_status r : agrees r -> recorded_status r = sent_status (sr_ResponseWriter r).
Proof.
  unfold agrees, recorded_status, sent_status. destruct (wr_Status _) as [s|]; cbn.
  - intros [-> Hs]. by rewrite (proj2 (Z.eqb_neq s 0) Hs).
  - by intros ->.
Qed.
End HttpMetrics.
