(* ===== verification/Processes.v ===== *)
(** * [cmd/*/main.go]: the five processes, wired from their environment

    [getenv] is the environment of the process; the reader's commits and the
    timer between attempts are parameters of the consumer loops. *)

From stdpp Require Import base strings list gmap.
From Stdlib Require Import ZArith Lia.
From S2P Require Import Prelude GoStrings Sha256 Runtime Domain GoJson GoTime Codec Schema.
From S2P Require Import ConsumerLoop KafkaBus RiskService LedgerService OutboxPublisher.
From S2P Require Import RedisLimiter AppEnv DeadLetter Operations Maintenance QueryService.
From S2P Require Import StoreOutbox TransactionService StoreTransaction FundingService.
From S2P Require Import StoreConsumer StoreLedger StoreFunding StoreDeadLetter StoreMaintenance.
From S2P Require Import StoreQuery StoreMetrics HttpApi HttpMetrics Metrics.

Open Scope Z_scope.

Module Processes.

Definition millisecond : Z := 1000000.
Definition second : Z := ns_per_second.

Section Processes.
Context `{UnicodeTables} `{Jsonb} `{Collation}.
Context (getenv : string -> string).

(** ** [cmd/transaction-service] *)

Section TransactionService.
Context `{MetricsHandler} (ParseAddr : string -> option string).

Definition limiter : RateLimit.Limiter :=
  RateLimit.OpenLimiter (AppEnv.Int getenv "RATE_LIMIT_MAX_REQUESTS" 60)
    (AppEnv.DurationSeconds getenv "RATE_LIMIT_WINDOW_SECONDS" (60 * second)).

(** [None]: a credential is missing and the process does not start. *)
Definition router_config : option Http.Config :=
  match AppEnv.Must getenv "TRANSACTION_API_AUTH_VALUE",
        AppEnv.Must getenv "FUNDING_API_AUTH_VALUE",
        AppEnv.Must getenv "OPERATOR_API_AUTH_VALUE" with
  | Some authValue, Some fundingAuthValue, Some operatorAuthValue =>
    Some (Http.NewRouter (Http.mk_Config true
      (Some (Funding.NewService (AppEnv.Int getenv "FUNDING_MAX_AMOUNT_CENTS" 100000000)))
      authValue fundingAuthValue operatorAuthValue
      (AppEnv.CSV getenv "CORS_ORIGINS" []) 0
      (AppEnv.Bool getenv "TRUST_X_FORWARDED_FOR" false)
      (AppEnv.Bool getenv "METRICS_ENABLED" false)))
  | _, _, _ => None
  end.

Definition serve (config : Http.Config) (request : Http.Request) : M DB Http.Response :=
  HttpMetrics.ServeHTTP ParseAddr (RateLimit.Allow limiter) config request.
End TransactionService.

(** ** The sampler of the long-running processes *)

(** [METRICS_SAMPLE_SECONDS] between two ticks; [pool_stat] is what
    [pgxpool.Stat] answers. *)
Definition sample_interval : Z :=
  Metrics.sampler_interval (AppEnv.DurationSeconds getenv "METRICS_SAMPLE_SECONDS" (15 * second)).

Definition metrics_sampler (pool_stat : Z * Z * Z) (ticks : nat) : M DB unit :=
  if AppEnv.Bool getenv "METRICS_ENABLED" false
  then @Metrics.StartSampler DB (PgSnapshotProvider pool_stat) ticks
  else ret tt.

(** ** [cmd/risk-service] and [cmd/ledger-service] *)

Section Consumers.
Context (commit : Message -> M DB unit) (wait : Z -> M DB bool).

Definition loop_env (consumerName : string) : Consumer.LoopEnv DB := {|
  Consumer.CommitMessages := commit;
  Consumer.MoveToDeadLetter := DeadLetters.MoveMessage Move consumerName;
  Consumer.WaitTimer := wait;
|}.

Definition loop_config (consumerName : string) : Consumer.Config :=
  Consumer.mk_Config consumerName (AppEnv.Int getenv "CONSUMER_MAX_ATTEMPTS" 3)
    (100 * millisecond).

(** The handler both mains pass to the loop. *)
Definition deliver (consumerName : string) (handle : Delivery -> string -> M DB unit)
  (message : Message) : M DB unit :=
  let! eventID := lift (EventID message) in
  handle (mk_Delivery consumerName eventID (msg_Topic message) (msg_Partition message)
            (msg_Offset message)) (msg_Value message).

Definition risk_handler : Message -> M DB unit :=
  deliver Risk.ConsumerName Risk.HandleTransactionCreated.
Definition ledger_handler : Message -> M DB unit :=
  deliver Ledger.ConsumerName Ledger.HandleRiskEvaluated.

Definition risk_service (fetches : list Consumer.fetch) : M DB unit :=
  @Consumer.RunLoop DB (loop_env Risk.ConsumerName) (loop_config Risk.ConsumerName)
    risk_handler fetches.
Definition ledger_service (fetches : list Consumer.fetch) : M DB unit :=
  @Consumer.RunLoop DB (loop_env Ledger.ConsumerName) (loop_config Ledger.ConsumerName)
    ledger_handler fetches.
End Consumers.

(** ** [cmd/outbox-publisher] *)

Definition publish_event (event : OutboxEvent) : M DB unit :=
  Publish (TopicFor (ev_Type event)) (ev_PartitionKey event) (ev_ID event)
    (ev_CorrelationID event) (ev_Payload event).

Definition outbox_attempts : Z :=
  Outbox.NewPublisher (AppEnv.Int getenv "OUTBOX_MAX_ATTEMPTS" 3).

(** One tick: the error is logged. *)
Definition outbox_publisher (fuel : nat) : M DB (option unit) :=
  Outbox.PublishAvailable publish_event outbox_attempts fuel.

(** ** [cmd/clearance-admin] *)

Inductive output :=
| printed_dead_letters (items : list DeadLetters.Rec)
| printed_dead_letter (item : DeadLetters.Rec)
| printed_outbox_events (items : list OutboxEvent)
| printed_outbox_event (item : OutboxEvent)
| printed_status (id status : string)
| printed_stats (stats : Maintenance.Stats)
| printed_preview (cutoff eligible : Z)
| printed_prune (cutoff deleted : Z).

Definition usageError {A} : M DB A := fail (EText "usage: clearance-admin").

(** The [switch] on the subcommand; a [case] checks the rest. *)
Definition runDLQ (replayWindow : Z) (args : list string) : M DB output :=
  match args with
  | [] => usageError
  | command :: rest =>
    if String.eqb command "list" then
      let state := match rest with state :: _ => ToUpper state | [] => EmptyString end in
      let! items := ListDeadLetters state 50 in
      ret (printed_dead_letters items)
    else if String.eqb command "show" then
      match rest with
      | [id] =>
        let! item := PgGetDeadLetter id in
        match item with
        | None => fail (ESentinel operations_ErrNotFound)
        | Some item => ret (printed_dead_letter item)
        end
      | _ => usageError
      end
    else if String.eqb command "replay" then
      match rest with
      | id :: _ :: _ =>
        let! item := Operator.ReplayDeadLetter PublishMessage replayWindow id
                       (Join (drop 2 args) " ") in
        ret (printed_dead_letter item)
      | _ => usageError
      end
    else usageError
  end.

Definition runOutbox (args : list string) : M DB output :=
  match args with
  | [] => usageError
  | command :: rest =>
    if String.eqb command "list-dead" then
      let! items := ListDeadOutbox 50 in
      ret (printed_outbox_events items)
    else if String.eqb command "show" then
      match rest with
      | [id] =>
        let! item := GetOutboxEvent id in
        match item with
        | None => fail (ESentinel operations_ErrNotFound)
        | Some item => ret (printed_outbox_event item)
        end
      | _ => usageError
      end
    else if String.eqb command "requeue" then
      match rest with
      | id :: _ :: _ =>
        let! status := Operator.RequeueDeadOutbox id (Join (drop 2 args) " ") in
        ret (printed_status id status)
      | _ => usageError
      end
    else usageError
  end.

Definition runProcessed (s : Maintenance.ProcessedEventsService) (args : list string)
  : M DB output :=
  match args with
  | [] => usageError
  | command :: rest =>
    if String.eqb command "stats" then
      let! stats := Maintenance.GetStats in
      ret (printed_stats stats)
    else if String.eqb command "preview" then
      let! p := Maintenance.Preview s in
      ret (printed_preview p.1 p.2)
    else if String.eqb command "prune" then
      match rest with
      | [] => usageError
      | _ =>
        if negb (String.eqb (TrimSpace (getenv "CLEARANCE_ADMIN_CONFIRM")) "yes")
        then fail (EText "set CLEARANCE_ADMIN_CONFIRM=yes to execute a prune")
        else
          let! p := Maintenance.Prune s (Join rest " ") in
          ret (printed_prune p.1 p.2)
      end
    else usageError
  end.

Definition replay_window : Z :=
  AppEnv.DurationSeconds getenv "REPLAY_WINDOW_SECONDS" (Operator.days 14).

Definition maintenance_config : Maintenance.Config :=
  Maintenance.mk_Config
    (AppEnv.DurationSeconds getenv "PROCESSED_EVENT_RETENTION_SECONDS" (Operator.days 30))
    replay_window
    (AppEnv.Int getenv "PROCESSED_EVENT_PRUNE_BATCH_SIZE" 1000).

Definition admin_run (args : list string) : M DB output :=
  match args with
  | command :: ((_ :: _) as rest) =>
    let! maintenanceService :=
      lift (Maintenance.NewProcessedEventsService maintenance_config) in
    if String.eqb command "dlq" then runDLQ (Operator.NewService replay_window) rest
    else if String.eqb command "outbox" then runOutbox rest
    else if String.eqb command "processed-events" then runProcessed maintenanceService rest
    else usageError
  | _ => usageError
  end.
End Processes.

End Processes.
