(* ===== verification/Startup.v ===== *)
(** * [cmd/*/main.go]: how the processes start and what they leave behind

    A [main] acquires resources in order and defers their release: a return or
    a panic releases them, the last acquired first, while [os.Exit] skips the
    deferred calls.  What a [main] did is the list of its [action]s; what the
    outside answered ([pgxpool] and how the HTTP server stopped) are
    parameters. *)

From stdpp Require Import base strings list.
From Stdlib Require Import ZArith Lia.
From S2P Require Import Prelude GoStrings Runtime GoJson KafkaBus KafkaWriters RiskService.
From S2P Require Import LedgerService OutboxPublisher ConsumerLoop HttpApi AppEnv RedisLimiter.
From S2P Require Import Metrics Schema Processes.

Open Scope Z_scope.

Module Startup.

(** ** Actions *)

(** The fields of [http.Server] the repository sets. *)
Record http_server := mk_http_server {
  hs_Addr : string;
  hs_ReadHeaderTimeout : Z;
  hs_ReadTimeout : Z;
  hs_WriteTimeout : Z;
  hs_IdleTimeout : Z;
}.

Definition server_at (addr : string) : http_server :=
  mk_http_server addr (5 * Processes.second) (10 * Processes.second) (10 * Processes.second)
    (60 * Processes.second).

Inductive resource :=
| the_signals
| the_store
| the_limiter (addr : string) (limiter : RateLimit.Limiter)
| the_reader (config : Bus.ReaderConfig)
| the_publisher (brokers : list string)
| the_ticker (period : Z).

Inductive action :=
| opened (r : resource)
| closed (r : resource)
| configured (service : string)
| sampling (interval : Z)
| health_started (server : http_server) (metricsEnabled : bool)
| serving (server : http_server) (config : Http.Config)
| consuming (config : Consumer.Config)
| polling (attempts : Z).

Inductive ending := Returned | Exited (code : Z) | Panicked.

(** ** Bodies of [main] *)

Record progress := mk_progress { pr_trace : list action; pr_deferred : list resource }.

Definition main_m (A : Type) : Type := progress -> (A + ending) * progress.

Definition mret {A} (a : A) : main_m A := fun p => (inl a, p).
Definition mbind {A B} (m : main_m A) (k : A -> main_m B) : main_m B :=
  fun p => match m p with
           | (inl a, p') => k a p'
           | (inr e, p') => (inr e, p')
           end.
Definition mstop {A} (e : ending) : main_m A := fun p => (inr e, p).
Definition act (a : action) : main_m unit :=
  fun p => (inl tt, mk_progress (pr_trace p ++ [a]) (pr_deferred p)).
Definition defer (r : resource) : main_m unit :=
  fun p => (inl tt, mk_progress (pr_trace p) (r :: pr_deferred p)).
(** Acquires a resource and defers its release. *)
Definition acquire (r : resource) : main_m unit :=
  fun p => (inl tt, mk_progress (pr_trace p ++ [opened r]) (r :: pr_deferred p)).
Definition mwhen (b : bool) (m : main_m unit) : main_m unit := if b then m else mret tt.

(** The whole process: how it ended and what it did. *)
Definition run_main (m : main_m unit) : ending * list action :=
  match m (mk_progress [] []) with
  | (inr (Exited code), p) => (Exited code, pr_trace p)
  | (inr e, p) => (e, pr_trace p ++ map closed (pr_deferred p))
  | (inl _, p) => (Returned, pr_trace p ++ map closed (pr_deferred p))
  end.

Declare Scope main_scope.
Open Scope main_scope.
Notation "'do!' x := m 'in' k" := (mbind m (fun x => k))
  (at level 10, x pattern, m at level 100, k at level 200) : main_scope.
Notation "'then!' m 'in' k" := (mbind m (fun _ => k))
  (at level 10, m at level 100, k at level 200) : main_scope.

(** [github.com/jackc/pgx/v5/pgxpool]: what its calls answer. *)
Class Pgxpool := {
  pool_config : Type;
  ParseConfig : string -> outcome error pool_config;
  NewWithConfig : pool_config -> outcome error unit;
  Ping : pool_config -> outcome error unit;
}.

(** [postgres.Open]: a pool that does not answer is closed again. *)
Definition Open `{Pgxpool} (databaseURL : string) : main_m (outcome error unit) :=
  match ParseConfig databaseURL with
  | Err err => mret (Err (EWrap "parse database url" err))
  | Ok config =>
    match NewWithConfig config with
    | Err err => mret (Err (EWrap "connect postgres" err))
    | Ok _ =>
      then! act (opened the_store) in
      match Ping config with
      | Err err =>
        then! act (closed the_store) in
        mret (Err (EWrap "ping postgres" err))
      | Ok _ => mret (Ok tt)
      end
    end
  end.

Section Mains.
Context `{UnicodeTables} `{Pgxpool} (getenv : string -> string).

(** [appenv.Must] panics. *)
Definition must (name : string) : main_m string :=
  match AppEnv.Must getenv name with Some value => mret value | None => mstop Panicked end.

Definition metricsEnabled : bool := AppEnv.Bool getenv "METRICS_ENABLED" false.
Definition brokers : list string := AppEnv.CSV getenv "KAFKA_BROKERS" ["redpanda:9092"].

(** The first lines of the four long-running processes. *)
Definition start (service : string) : main_m unit :=
  then! acquire the_signals in
  do! url := must "DATABASE_URL" in
  do! store := Open url in
  match store with
  | Err _ => mstop (Exited 1)
  | Ok _ =>
    then! defer the_store in
    then! act (configured service) in
    mwhen metricsEnabled (act (sampling (Processes.sample_interval getenv)))
  end.

Definition health_start (defaultPort : string) : main_m unit :=
  act (health_started (server_at (":" +:+ AppEnv.StringVar getenv "HEALTH_PORT" defaultPort))
         metricsEnabled).

(** [stopped]: [ListenAndServe] returned because of [Shutdown]. *)
Definition transaction_service_main (stopped : bool) : main_m unit :=
  then! start "transaction-service" in
  then! acquire (the_limiter (AppEnv.StringVar getenv "REDIS_ADDR" "redis:6379")
                 (Processes.limiter getenv)) in
  do! config := match Processes.router_config getenv with
                | Some config => mret config
                | None => mstop Panicked
                end in
  then! act (serving (server_at (":" +:+ AppEnv.StringVar getenv "PORT" "8080")) config) in
  if stopped then mret tt else mstop (Exited 1).

Definition consumer_main (name topic port : string) : main_m unit :=
  then! start name in
  then! acquire (the_reader (Bus.NewReader brokers topic name)) in
  then! acquire (the_publisher brokers) in
  then! health_start port in
  act (consuming (Processes.loop_config getenv name)).

Definition risk_service_main : main_m unit :=
  consumer_main Risk.ConsumerName TopicTransactionCreated "8082".
Definition ledger_service_main : main_m unit :=
  consumer_main Ledger.ConsumerName TopicRiskEvaluated "8083".

Definition poll_period : Z :=
  AppEnv.DurationSeconds getenv "OUTBOX_POLL_SECONDS" Processes.second.

(** One [PublishAvailable] and one more per tick until the context is done. *)
Fixpoint poll (ticks : nat) (attempts : Z) : main_m unit :=
  match ticks with
  | O => act (polling attempts)
  | S ticks => then! act (polling attempts) in poll ticks attempts
  end.

(** [time.NewTicker] panics unless the period is positive. *)
Definition outbox_publisher_main (ticks : nat) : main_m unit :=
  then! start "outbox-publisher" in
  then! acquire (the_publisher brokers) in
  then! (if poll_period <=? 0 then mstop Panicked else mret tt) in
  then! acquire (the_ticker poll_period) in
  then! health_start "8081" in
  poll ticks (Processes.outbox_attempts getenv).

(** [cmd/clearance-admin]: [run] releases its resources before [main] looks at
    its error; [command] is what [Processes.admin_run] returns. *)
Definition admin_run_body {A} (args : list string) (command : outcome error A)
  : main_m (outcome error A) :=
  if (length args <? 2)%nat then mret (Err (EText "usage: clearance-admin")) else
  do! url := must "DATABASE_URL" in
  do! store := Open url in
  match store with
  | Err err => mret (Err err)
  | Ok _ =>
    then! defer the_store in
    then! acquire (the_publisher brokers) in
    mret command
  end.

(** A call whose deferred releases run when it returns. *)
Definition scoped {A} (m : main_m A) : main_m A :=
  fun p =>
    match m (mk_progress (pr_trace p) []) with
    | (inr (Exited code), p') => (inr (Exited code), p')
    | (r, p') => (r, mk_progress (pr_trace p' ++ map closed (pr_deferred p')) (pr_deferred p))
    end.

Definition clearance_admin_main {A} (args : list string) (command : outcome error A)
  : main_m unit :=
  do! result := scoped (admin_run_body args command) in
  match result with Ok _ => mret tt | Err _ => mstop (Exited 1) end.
End Mains.

(** ** What is released *)

#[export] Instance Limiter_eq_dec : EqDecision RateLimit.Limiter.
Proof. solve_decision. Defined.
#[export] Instance ReaderConfig_eq_dec : EqDecision Bus.ReaderConfig.
Proof. solve_decision. Defined.
#[export] Instance resource_eq_dec : EqDecision resource.
Proof. solve_decision. Defined.

(** The resources a trace leaves open, the last opened first, after those of
    [stack]; [None] if it releases one that is not the last. *)
Fixpoint held (t : list action) (stack : list resource) : option (list resource) :=
  match t with
  | [] => Some stack
  | opened r :: t => held t (r :: stack)
  | closed r :: t =>
    match stack with
    | r' :: stack => if decide (r = r') then held t stack else None
    | [] => None
    end
  | _ :: t => held t stack
  end.

Lemma held_app t t' stack stack' :
  held t stack = Some stack' -> held (t ++ t') stack = held t' stack'.
Proof.
  revert stack. induction t as [|a t IH]; intros stack; cbn; [by intros [= ->]|].
  destruct a; auto. destruct stack as [|r' stack]; [done|]. case_decide; [auto|done].
Qed.

Lemma held_closed rs : held (map closed rs) rs = Some [].
Proof. induction rs as [|r rs IH]; [done|]. cbn. by rewrite decide_True. Qed.

(** What [m] leaves open it has deferred. *)
Definition tidy {A} (m : main_m A) : Prop :=
  forall p r p', m p = (r, p') ->
  exists acts, pr_trace p' = pr_trace p ++ acts
  /\ held acts (pr_deferred p) = Some (pr_deferred p').

Lemma tidy_ret A (a : A) : tidy (mret a).
Proof. intros p r p' [= _ <-]. exists []. by rewrite app_nil_r. Qed.
Lemma tidy_stop A e : tidy (A := A) (mstop e).
Proof. intros p r p' [= _ <-]. exists []. by rewrite app_nil_r. Qed.
Lemma tidy_bind A B (m : main_m A) (k : A -> main_m B) :
  tidy m -> (forall a, tidy (k a)) -> tidy (mbind m k).
Proof.
  intros Hm Hk p r p' Hrun. unfold mbind in Hrun. destruct (m p) as [[a|e] p1] eqn:E.
  - destruct (Hm _ _ _ E) as (acts1 & Ht1 & Hh1).
    destruct (Hk _ _ _ _ Hrun) as (acts2 & Ht2 & Hh2). exists (acts1 ++ acts2).
    rewrite (held_app _ _ _ _ Hh1), Ht2, Ht1. by rewrite app_assoc.
  - injection Hrun as _ <-. by apply (Hm _ _ _ E).
Qed.
Lemma tidy_acquire r : tidy (acquire r).
Proof. intros p o p' [= _ <-]. by exists [opened r]. Qed.
Lemma tidy_act a : (forall r, a <> opened r /\ a <> closed r) -> tidy (act a).
Proof.
  intros Ha p r p' [= _ <-]. exists [a].
  destruct a; try done; by destruct (Ha r0) as [? ?].
Qed.

(** [Open] with the [defer store.Close()] of its callers. *)
Lemma tidy_Open `{Pgxpool} A url (failed : error -> main_m A) (k : main_m A) :
  (forall err, tidy (failed err)) -> tidy k ->
  tidy (do! store := Open url in
        match store with Err err => failed err | Ok _ => then! defer the_store in k end).
Proof.
  intros Hf Hk p r p'. unfold Open.
  destruct (ParseConfig url) as [config|]; [|apply Hf].
  destruct (NewWithConfig config); [|apply Hf].
  destruct (Ping config); unfold mbind, act, defer, mret; cbn; intros Hrun.
  - destruct (Hk _ _ _ Hrun) as (acts & Ht & Hh). cbn in Ht, Hh.
    exists (opened the_store :: acts). by rewrite Ht, <- app_assoc.
  - destruct (Hf _ _ _ _ Hrun) as (acts & Ht & Hh). cbn in Ht, Hh.
    exists (opened the_store :: closed the_store :: acts). rewrite Ht, <- !app_assoc. split; [done|].
    cbn. by rewrite decide_True.
Qed.

Create HintDb tidy.
#[local] Hint Resolve tidy_ret tidy_stop tidy_acquire : tidy.
#[local] Hint Extern 1 (tidy (act _)) => apply tidy_act; intros; split; discriminate : tidy.

Ltac solve_tidy :=
  repeat first
    [ progress intros
    | solve [auto with tidy]
    | apply tidy_Open
    | apply tidy_bind
    | progress unfold mwhen, must
    | case_match ].

Lemma run_main_releases m e t :
  tidy m -> run_main m = (e, t) ->
  exists left, held t [] = Some left /\ match e with Exited _ => True | _ => left = [] end.
Proof.
  intros Hm Hrun. unfold run_main in Hrun.
  destruct (m (mk_progress [] [])) as [r p] eqn:E.
  destruct (Hm _ _ _ E) as (acts & Ht & Hh). cbn in Ht, Hh.
  assert (Hall : held (pr_trace p ++ map closed (pr_deferred p)) [] = Some []).
  { rewrite Ht, (held_app _ _ _ _ Hh). apply held_closed. }
  destruct r as [[]|[| |]]; injection Hrun as <- <-; eauto. rewrite Ht. eauto.
Qed.

Section Releases.
Context `{UnicodeTables} `{Pgxpool} (getenv : string -> string).

Lemma tidy_start service : tidy (start getenv service).
Proof. unfold start. solve_tidy. Qed.
#[local] Hint Resolve tidy_start : tidy.

Lemma tidy_consumer name topic port : tidy (consumer_main getenv name topic port).
Proof. unfold consumer_main, health_start. solve_tidy. Qed.

Lemma tidy_poll ticks attempts : tidy (poll ticks attempts).
Proof. induction ticks; cbn; solve_tidy. Qed.
#[local] Hint Resolve tidy_poll : tidy.

(** [main] of the admin tool exits after its [run] has released everything. *)
Lemma admin_releases A args (command : outcome error A) e t :
  run_main (clearance_admin_main getenv args command) = (e, t) -> held t [] = Some [].
Proof.
  unfold run_main, clearance_admin_main, admin_run_body, Open, must, scoped.
  destruct (_ <? _)%nat; [by intros [= _ <-]|].
  destruct (AppEnv.Must getenv "DATABASE_URL") as [url|]; [|by intros [= _ <-]].
  unfold mbind, mret, act, defer, acquire. cbn.
  destruct (ParseConfig url) as [config|]; [|by intros [= _ <-]].
  destruct (NewWithConfig config); [|by intros [= _ <-]].
  destruct (Ping config); [|by intros [= _ <-]].
  by destruct command; intros [= _ <-]; cbn; rewrite decide_True.
Qed.

(** The processes release what they opened, the last opened first, whether
    they return or panic; only [os.Exit] leaves anything open. *)
Theorem mains_release stopped ticks m e t :
  m ∈ [transaction_service_main getenv stopped; risk_service_main getenv;
       ledger_service_main getenv; outbox_publisher_main getenv ticks] ->
  run_main m = (e, t) ->
  exists left, held t [] = Some left /\ match e with Exited _ => True | _ => left = [] end.
Proof.
  intros Hm. apply run_main_releases. revert Hm. rewrite !elem_of_cons, elem_of_nil.
  intros [->|[->|[->|[->|[]]]]]; [|apply tidy_consumer..|].
  - unfold transaction_service_main. solve_tidy.
  - unfold outbox_publisher_main, health_start. solve_tidy.
Qed.

(** A database that cannot be reached. *)
Definition store_opens (url : string) : bool :=
  match ParseConfig url with
  | Ok config => is_ok (NewWithConfig config) && is_ok (Ping config)
  | Err _ => false
  end.

(** The one [os.Exit] before the server runs leaves only the signal handler:
    the pool of a database that does not answer is not leaked. *)
Lemma unreachable_database url m e t :
  AppEnv.Must getenv "DATABASE_URL" = Some url -> store_opens url = false ->
  (exists stopped, m = transaction_service_main getenv stopped) \/ m = risk_service_main getenv
  \/ m = ledger_service_main getenv \/ (exists ticks, m = outbox_publisher_main getenv ticks) ->
  run_main m = (e, t) -> e = Exited 1 /\ held t [] = Some [the_signals].
Proof.
  assert (Hstart : forall service (k : unit -> main_m unit), AppEnv.Must getenv "DATABASE_URL" = Some url ->
    store_opens url = false -> forall e t, run_main (mbind (start getenv service) k) = (e, t) ->
    e = Exited 1 /\ held t [] = Some [the_signals]).
  { intros service k Hurl Ho e' t'. unfold run_main, start, Open, must, acquire, mbind. cbn.
    rewrite Hurl. cbn. unfold store_opens in Ho. destruct (ParseConfig url) as [config|]; cbn;
      [|by intros [= <- <-]].
    destruct (NewWithConfig config); cbn; [|by intros [= <- <-]]. cbn in Ho.
    destruct (Ping config); [done|]. by intros [= <- <-]. }
  intros Hurl Ho [[stopped ->]|[->|[->|[ticks ->]]]]; by apply Hstart.
Qed.
(** The transaction service only serves with a database and all three
    credentials. *)
Lemma serves_configured stopped e t server config :
  run_main (transaction_service_main getenv stopped) = (e, t) ->
  serving server config ∈ t ->
  Processes.router_config getenv = Some config
  /\ exists url, AppEnv.Must getenv "DATABASE_URL" = Some url /\ store_opens url = true.
Proof.
  unfold run_main, transaction_service_main, start, must. intros Hrun Hin. revert Hrun.
  destruct (AppEnv.Must getenv "DATABASE_URL") as [url|] eqn:Hurl;
    [|cbn; intros [= <- <-]; by apply list_elem_of_In in Hin as [Hin|[Hin|[]]]].
  unfold store_opens, Open. cbn. unfold mbind, mwhen, mret, mstop, act, acquire, defer. cbn.
  destruct (ParseConfig url) as [pool|] eqn:Hpool; [destruct (NewWithConfig pool) eqn:Hnew;
    [destruct (Ping pool) eqn:Hping; [destruct (metricsEnabled getenv);
       (destruct (Processes.router_config getenv) as [config'|]; [destruct stopped|])|]|]|];
    cbn; intros [= <- <-]; revert Hin; rewrite ?elem_of_cons, elem_of_nil; intros Hin;
    repeat destruct Hin as [Hin|Hin]; simplify_eq;
    first [done|(split; [done|]); exists url; by rewrite Hpool, Hnew, Hping].
Qed.

(** A poll period of more than 2^63 nanoseconds wraps around, and the process
    panics when it makes its ticker. *)
Lemma poll_period_panics ticks :
  AppEnv.Must getenv "DATABASE_URL" = Some "url" -> store_opens "url" = true ->
  AppEnv.Int getenv "OUTBOX_POLL_SECONDS" 1 = 9223372037 ->
  (run_main (outbox_publisher_main getenv ticks)).1 = Panicked.
Proof.
  intros Hurl Ho Hpoll. assert (Hp : (poll_period getenv <=? 0) = true).
  { unfold poll_period, AppEnv.DurationSeconds. change (Processes.second / ns_per_second) with 1.
    by rewrite Hpoll. }
  unfold store_opens in Ho.
  unfold run_main, outbox_publisher_main, start, Open, must, mbind, mwhen, mret, mstop, act, acquire, defer.
  cbn. rewrite Hurl. cbn. destruct (ParseConfig "url") as [pool|]; [|done]. cbn in Ho.
  destruct (NewWithConfig pool); [|done]. destruct (Ping pool); [|done]. cbn.
  by destruct (metricsEnabled getenv); cbn; rewrite Hp.
Qed.
End Releases.
End Startup.
