(* ===== verification/Guarantees.v ===== *)
(** * What the store guarantees, and what the processes then guarantee

    [StoreGuarantees R T] is the interface between the store and the rest:
    every committing operation of the store relates the database it finds to
    the one it leaves by [R], given what the [trust] [T] says of the messages
    its caller took in.  Every service and every process then does so under
    every schedule whose other sessions do ([guar_run_trusting], and [guar_run]
    where nothing is trusted).  [System.v] discharges the interface at the
    abstract steps, [Typing.v] at the preservation of the schema, [Closed.v] at
    the steps of a system nobody else writes to. *)

From stdpp Require Import base strings list gmap relations.
From Stdlib Require Import ZArith Lia.
From S2P Require Import Prelude GoStrings Sha256 Runtime Domain GoJson GoTime Codec Schema.
From S2P Require Import ConsumerLoop KafkaBus RiskService LedgerService OutboxPublisher.
From S2P Require Import RedisLimiter AppEnv DeadLetter Operations Maintenance QueryService.
From S2P Require Import StoreOutbox TransactionService StoreTransaction FundingService.
From S2P Require Import StoreConsumer StoreLedger StoreFunding StoreDeadLetter StoreMaintenance.
From S2P Require Import StoreQuery StoreMetrics Footprints HttpApi HttpMetrics Metrics Processes.

Open Scope Z_scope.

Section Guarantees.
Context `{UnicodeTables} `{JsonbSpec} `{Collation}.

(** ** The store's promise *)

(** A payment as its request creates it. *)
Definition payment_shape (tx : Transaction) : Prop :=
  tx_Kind tx = TransactionPayment /\ safeTokenPattern (tx_ID tx) = true
  /\ tx_FundingSource tx = EmptyString /\ tx_ExternalRef tx = EmptyString
  /\ tx_RiskLevel tx = EmptyString /\ tx_RiskReason tx = EmptyString.

(** What the services put into a record and its event. *)
Definition payment_request (rec : Transactions.IdempotencyRecord) (ev : OutboxEvent) : Prop :=
  let tx := Transactions.ir_Transaction rec in
  let request := Transactions.mk_CreateRequest (tx_AccountID tx) (tx_MerchantID tx)
    (tx_AmountCents tx) (tx_Currency tx) in
  Transactions.storable rec /\ tx_Status tx = TransactionPending
  /\ Transactions.valid_request request
  /\ Transactions.ir_RequestHash rec = Transactions.hashRequest request
  /\ Transactions.cr_TransactionID (Transactions.ir_CreateResult rec) = tx_ID tx
  /\ ev_Type ev = EventTransactionCreated /\ ev_AggregateID ev = tx_ID tx
  /\ ev_Status ev = OutboxPending /\ marshal_Transaction tx = Ok (ev_Payload ev)
  /\ payment_shape tx /\ safeTokenPattern (ev_ID ev) = true
  /\ in_int64 (tx_AmountCents tx) = true.

Definition deposit_request (d : Funding.Deposit) (ev : OutboxEvent) : Prop :=
  let tx := Funding.dp_Transaction d in
  Funding.storable d /\ tx_Kind tx = TransactionDeposit /\ tx_Status tx = TransactionAuthorized
  /\ Funding.dp_RequestHash d = Funding.hashRequest (Funding.mk_DepositRequest
       (tx_AccountID tx) (tx_AmountCents tx) (tx_Currency tx) (tx_FundingSource tx)
       (tx_ExternalRef tx))
  /\ ev_Type ev = EventFundsDeposited /\ ev_AggregateID ev = tx_ID tx
  /\ ev_Status ev = OutboxPending.

Definition evaluation (t : Transaction) (ev : OutboxEvent) : Prop :=
  Risk.incomplete t = false
  /\ ev_Type ev = EventRiskEvaluated /\ ev_AggregateID ev = tx_ID t
  /\ ev_PartitionKey ev = tx_AccountID t /\ ev_CorrelationID ev = tx_CorrelationID t
  /\ ev_Payload ev = marshal_RiskEvaluated (Risk.evaluated t) /\ ev_Status ev = OutboxPending
  /\ safeTokenPattern (ev_ID ev) = true.

(** What is assumed of the messages the consumers fetch: the payments and the
    rulings they decode from them, and the messages they park (topic, key and
    value). *)
Record trust := mk_trust {
  tr_payment : Transaction -> Prop;
  tr_ruling : RiskEvaluated -> Prop;
  tr_letter : string -> string -> string -> Prop;
}.

Definition anything : trust := mk_trust (fun _ => True) (fun _ => True) (fun _ _ _ => True).

Class StoreGuarantees (R : DB -> DB -> Prop) (T : trust) : Prop := {
  sg_Create rec ev : payment_request rec ev -> guar R (Transactions.CreateRecord rec ev);
  sg_CreateDeposit d ev : deposit_request d ev -> guar R (Funding.CreateDeposit d ev);
  sg_SaveConsumerOutbox d hash t ev :
    tr_payment T t -> evaluation t ev -> guar R (SaveConsumerOutbox d hash ev);
  sg_ProcessRiskEvaluated d hash event :
    tr_ruling T event -> guar R (Ledger.ProcessRiskEvaluated d hash event);
  sg_NextPending : guar R Outbox.NextPending;
  sg_MarkPublished id : guar R (Outbox.MarkPublished id);
  sg_MarkFailedAttempt id n : guar R (Outbox.MarkFailedAttempt id n);
  sg_RequeueOutbox id reason : guar R (Operator.RequeueOutbox id reason);
  sg_UpsertDeadLetter rec :
    tr_letter T (DeadLetters.re_SourceTopic rec) (DeadLetters.re_Key rec)
      (DeadLetters.re_Payload rec) ->
    guar R (DeadLetters.UpsertDeadLetter rec);
  sg_MarkDeadLetterPublished id t : guar R (DeadLetters.MarkDeadLetterPublished id t);
  sg_StartDeadLetterReplay id reason : guar R (Operator.StartDeadLetterReplay id reason);
  sg_FinishDeadLetterReplay a id result msg :
    guar R (Operator.FinishDeadLetterReplay a id result msg);
  sg_Prune cutoff batch reason : guar R (Maintenance.PruneProcessedEvents cutoff batch reason);
}.

Lemma store_guarantees_iff (R Q : DB -> DB -> Prop) (T : trust) :
  (forall db db', R db db' <-> Q db db') -> StoreGuarantees R T -> StoreGuarantees Q T.
Proof. intros Hiff []. split; intros; apply (guar_iff R Q _ _ Hiff); eauto. Qed.

(** One run of one of the five processes, or of the sampler beside them. *)
Inductive process :=
| transaction_service (request : Http.Request)
| risk_service (fetches : list Consumer.fetch)
| ledger_service (fetches : list Consumer.fetch)
| outbox_publisher (fuel : nat)
| clearance_admin (args : list string)
| metrics_sampler (pool_stat : Z * Z * Z) (ticks : nat).

Definition run `{MetricsHandler} (getenv : string -> string) (ParseAddr : string -> option string)
  (commit : Message -> M DB unit) (wait : Z -> M DB bool) (p : process) : M DB unit :=
  match p with
  | transaction_service request =>
    match Processes.router_config getenv with
    | None => ret tt
    | Some config => let! _ := Processes.serve getenv ParseAddr config request in ret tt
    end
  | risk_service fetches => Processes.risk_service getenv commit wait fetches
  | ledger_service fetches => Processes.ledger_service getenv commit wait fetches
  | outbox_publisher fuel => let! _ := Processes.outbox_publisher getenv fuel in ret tt
  | clearance_admin args => let! _ := Processes.admin_run getenv args in ret tt
  | metrics_sampler pool_stat ticks => Processes.metrics_sampler getenv pool_stat ticks
  end.


(** Offset commits and timers leave the database to the other sessions. *)
Definition external_to (R : DB -> DB -> Prop) (commit : Message -> M DB unit) (wait : Z -> M DB bool) : Prop :=
  (forall m, guar R (commit m)) /\ forall d, guar R (wait d).

(** What [T] says of a message, by the consumer that fetches it. *)
Definition parkable (T : trust) (m : Message) : Prop :=
  tr_letter T (msg_Topic m) (msg_Key m) (msg_Value m).
Definition announces_payment (T : trust) (payload : string) : Prop :=
  forall t, unmarshal_Transaction payload = Some t -> tr_payment T t.
Definition announces_ruling (T : trust) (payload : string) : Prop :=
  forall event, unmarshal_RiskEvaluated payload = Some event -> tr_ruling T event.

Definition fetched (Q : Message -> Prop) (f : Consumer.fetch) : Prop :=
  match f with Consumer.Fetched m => Q m | _ => True end.

Definition trusts_inputs (T : trust) (p : process) : Prop :=
  match p with
  | risk_service fetches =>
    Forall (fetched (fun m => announces_payment T (msg_Value m) /\ parkable T m)) fetches
  | ledger_service fetches =>
    Forall (fetched (fun m => announces_ruling T (msg_Value m) /\ parkable T m)) fetches
  | _ => True
  end.

Section Processes.
Context {R : DB -> DB -> Prop} {T : trust} `{!PreOrder R} `{!StoreGuarantees R T}.

#[local] Hint Extern 1 (guar R _) =>
  first [ apply (sg_NextPending (T := T)) | apply (sg_MarkPublished (T := T))
        | apply (sg_MarkFailedAttempt (T := T)) | apply (sg_RequeueOutbox (T := T))
        | apply (sg_MarkDeadLetterPublished (T := T))
        | apply (sg_StartDeadLetterReplay (T := T))
        | apply (sg_FinishDeadLetterReplay (T := T)) | apply (sg_Prune (T := T)) ] : guar.

(** Reads guarantee anything. *)
Lemma funding_Find key : guar R (Funding.FindDepositIdempotency key).
Proof. cbn. unfold PgFindDepositIdempotency. solve_guar. Qed.
Lemma transactions_Find key : guar R (Transactions.FindIdempotency key).
Proof. cbn. unfold PgFindIdempotency. solve_guar. Qed.
Lemma operator_GetDeadLetter id : guar R (Operator.GetDeadLetter id).
Proof. apply guar_GetDeadLetter, _. Qed.
#[local] Hint Resolve funding_Find transactions_Find operator_GetDeadLetter : guar.

Lemma guar_NewID prefix : guar R (NewID prefix).
Proof. unfold NewID. solve_guar. Qed.
Lemma guar_NewOutboxEvent ty agg key corr payload :
  guar R (NewOutboxEvent ty agg key corr payload).
Proof. unfold NewOutboxEvent, NewID. solve_guar. Qed.
#[local] Hint Resolve guar_NewID guar_NewOutboxEvent : guar.

(** ** The services *)

Lemma returns_NewID prefix :
  returns (fun id => exists e, id = id_of prefix e) (NewID (S := DB) prefix).
Proof. intros w id w' Hrun. rewrite NewID_run in Hrun. injection Hrun as <- _. eauto. Qed.

Lemma returns_NewOutboxEvent ty agg key corr payload :
  returns (fun ev => ev_Type ev = ty /\ ev_AggregateID ev = agg /\ ev_PartitionKey ev = key
      /\ ev_CorrelationID ev = corr /\ ev_Payload ev = payload /\ ev_Status ev = OutboxPending
      /\ safeTokenPattern (ev_ID ev) = true)
    (NewOutboxEvent (S := DB) ty agg key corr payload).
Proof.
  intros w ev w' Hrun. rewrite NewOutboxEvent_run in Hrun. injection Hrun as <- _.
  split_and!; try done. by apply id_of_safe.
Qed.

Lemma guar_Create rq md :
  in_int64 (Transactions.rq_AmountCents rq) = true -> guar R (Transactions.Create rq md).
Proof.
  intros Hamt. unfold Transactions.Create.
  eapply guar_bind_returns; [apply _|apply returns_lift|solve_guar|].
  intros n Hval. assert (Hamt' : in_int64 (Transactions.rq_AmountCents n) = true).
  { by rewrite (Transactions.validate_amount _ _ _ Hval). }
  apply Transactions.validate_valid in Hval as [Hn _].
  apply guar_bind; [apply _|solve_guar|]. intros [existing|]; [solve_guar|].
  eapply guar_bind_returns; [apply _|apply returns_NewID|solve_guar|]. intros id [e ->].
  apply guar_bind; [apply _|solve_guar|]. intros t1.
  apply guar_bind; [apply _|solve_guar|]. intros t2.
  eapply guar_bind_returns; [apply _|apply returns_wrapf, returns_lift|solve_guar|].
  intros payload Hp.
  eapply guar_bind_returns; [apply _|apply returns_NewOutboxEvent|solve_guar|].
  intros ev (Hty & Hagg & _ & _ & Hpay & Hst & Hsafe).
  apply guar_attempt; [apply _| |].
  - apply sg_Create. unfold payment_request. rewrite Hpay. cbn. split_and!; try done.
    + apply Transactions.created_storable; [by apply id_of_safe|done].
    + split_and!; try done. by apply id_of_safe.
  - intros [|err]; [solve_guar|]. unfold Transactions.settleCreateError. solve_guar.
Qed.

Lemma guar_DepositFunds maxAmount rq md :
  maxAmount <= int64_max -> guar R (Funding.DepositFunds maxAmount rq md).
Proof.
  intros Hmax. unfold Funding.DepositFunds.
  apply (guar_bind_returns _ _ _ (fun p => Funding.valid_deposit maxAmount p.1 p.2 = true)).
  { intros w [n m] w' (_ & _ & _ & _ & Hv)%Funding.validate_inv. exact Hv. }
  { unfold Funding.validate. solve_guar. }
  intros [n m] Hv. cbn in Hv.
  apply guar_bind; [apply _|solve_guar|]. intros [existing|]; [solve_guar|].
  apply guar_bind; [apply _|solve_guar|]. intros now.
  eapply guar_bind_returns; [apply _|apply returns_NewID|solve_guar|]. intros id [e ->].
  eapply guar_bind_returns; [apply _|apply returns_NewOutboxEvent|solve_guar|].
  intros ev (Hty & Hagg & _ & _ & _ & Hst & _).
  apply guar_attempt; [apply _| |].
  - apply sg_CreateDeposit. unfold deposit_request. cbn. split_and!; try done.
    apply Funding.valid_deposit_inv in Hv as (_ & _ & _ & _ & _ & _ & _ & Hcur & Hamt & _).
    split; [apply sha256_hex_pattern|]. split; [by apply safeToken_plain, id_of_safe|].
    split; [done|]. split; [|exact Hcur]. apply in_int64_iff. unfold int64_max in Hmax. cbn. lia.
  - intros [|err]; [solve_guar|]. unfold Funding.settleDepositError. solve_guar.
Qed.

Lemma guar_HandleTransactionCreated d payload :
  announces_payment T payload -> guar R (Risk.HandleTransactionCreated d payload).
Proof.
  intros Htrust. unfold Risk.HandleTransactionCreated. case_match; [|solve_guar].
  destruct (Risk.incomplete t) eqn:Hin; [solve_guar|].
  eapply guar_bind_returns; [apply _|apply returns_NewOutboxEvent|solve_guar|].
  intros ev (Hty & Hagg & Hkey & Hcorr & Hpay & Hst & Hsafe).
  apply guar_bind; [apply _| |solve_guar]. apply guar_wrapf.
  apply (sg_SaveConsumerOutbox _ _ t); [by apply Htrust|done].
Qed.

Lemma guar_HandleRiskEvaluated d payload :
  announces_ruling T payload -> guar R (Ledger.HandleRiskEvaluated d payload).
Proof.
  intros Htrust. unfold Ledger.HandleRiskEvaluated. solve_guar.
  apply sg_ProcessRiskEvaluated. by apply Htrust.
Qed.

Lemma guar_MoveMessage name m err :
  parkable T m -> guar R (DeadLetters.MoveMessage Move name m err).
Proof.
  intros Htrust. unfold DeadLetters.MoveMessage, Move, moveToDeadLetter. solve_guar.
  by apply sg_UpsertDeadLetter.
Qed.

(** ** The processes *)

Lemma guar_Allow l key : guar R (RateLimit.Allow l key).
Proof.
  unfold RateLimit.Allow. apply guar_bind; [apply _| |solve_guar]. apply guar_wrapf.
  intros w r w' Hs Hrun.
  assert (w_store w' = arrived w /\ w_sched w' = tail (w_sched w)) as [-> Hw].
  { revert Hrun. unfold RateLimit.allowScript.
    destruct (RateLimit.live_counter _ _) as [[? ?]|]; destruct (sl_fault _); by intros [= _ <-]. }
  split; [exact (arrived_rely R w Hs)|].
  unfold sched_rely in *. rewrite Hw. destruct (w_sched w); [done|]. by inversion_clear Hs.
Qed.

Lemma query_GetTransaction id : guar R (Queries.GetTransaction id).
Proof. cbn. unfold PgGetTransaction. solve_guar. Qed.
Lemma query_ListTransactions f : guar R (Queries.ListTransactions f).
Proof. cbn. unfold PgListTransactions. solve_guar. Qed.
#[local] Hint Resolve guar_Allow query_GetTransaction query_ListTransactions : guar.

Definition funding_bounded (config : Http.Config) : Prop :=
  forall maxAmount, Http.hc_FundingService config = Some maxAmount -> maxAmount <= int64_max.

Section Serve.
Context `{MetricsHandler} (getenv : string -> string) (ParseAddr : string -> option string).

Lemma router_config_bounded config :
  Processes.router_config getenv = Some config -> funding_bounded config.
Proof.
  unfold Processes.router_config. intros Hc m Hm.
  destruct (AppEnv.Must getenv "TRANSACTION_API_AUTH_VALUE"); [|done].
  destruct (AppEnv.Must getenv "FUNDING_API_AUTH_VALUE"); [|done].
  destruct (AppEnv.Must getenv "OPERATOR_API_AUTH_VALUE"); [|done].
  injection Hc as <-. cbn in Hm. injection Hm as <-. unfold Funding.NewService.
  pose proof (AppEnv.Int_range getenv "FUNDING_MAX_AMOUNT_CENTS" 100000000 eq_refl) as Hr.
  apply in_int64_iff in Hr. unfold int64_max. case_match; lia.
Qed.

Lemma guar_serve config request :
  funding_bounded config -> guar R (Processes.serve getenv ParseAddr config request).
Proof.
  intros Hf. unfold Processes.serve, HttpMetrics.ServeHTTP, Http.serveHTTP, Http.createTransaction,
    Http.getTransaction, Http.listTransactions, Http.createDeposit, Http.allowRequest,
    Queries.Get, Queries.List.
  case_match.
  { intros w r w' Hs [= <- <-]. done. }
  solve_guar; [apply guar_Create; by eapply Http.create_amount|].
  apply guar_DepositFunds. by apply Hf.
Qed.

Lemma guar_metrics_sampler pool_stat ticks :
  guar R (Processes.metrics_sampler getenv pool_stat ticks).
Proof.
  assert (Hc : guar R (@Metrics.collect DB (PgSnapshotProvider pool_stat))).
  { unfold Metrics.collect. cbn [Metrics.OperationalMetrics PgSnapshotProvider].
    unfold PgOperationalMetrics. solve_guar. }
  unfold Processes.metrics_sampler, Metrics.StartSampler. case_match; [|solve_guar].
  apply guar_bind; [apply _|done|]. intros _.
  induction ticks as [|ticks IH]; cbn [Metrics.on_ticks]; [solve_guar|].
  by apply guar_bind; [apply _| |].
Qed.
End Serve.

Section Loops.
Context (getenv : string -> string) (commit : Message -> M DB unit) (wait : Z -> M DB bool).
Hypothesis commit_guar : forall m, guar R (commit m).
Hypothesis wait_guar : forall d, guar R (wait d).

Section Loop.
Context (name : string) (config : Consumer.Config) (handle : Message -> M DB unit).

Lemma guar_retry m onRetry base :
  guar R (handle m) -> guar R onRetry ->
  guar R (@Consumer.retry DB (Processes.loop_env commit wait name)
                (Consumer.attempts_of config) base (handle m) onRetry).
Proof using wait_guar PreOrder0.
  intros Hhandle Hre. unfold Consumer.retry.
  generalize (Z.to_nat (Consumer.attempts_of config)) as n. generalize 1 as attempt.
  generalize (@None error) as last. intros last attempt n.
  revert attempt last. induction n as [|n IHn]; intros attempt last; cbn [Consumer.retry_from];
    [solve_guar|].
  apply guar_attempt; [apply _|apply Hhandle|]. intros [|e]; [solve_guar|].
  apply guar_bind; [apply _|solve_guar|]. intros _. case_match; [apply IHn|].
  apply guar_bind; [apply _|apply wait_guar|]. intros []; [apply IHn|solve_guar].
Qed.

Lemma guar_process m :
  guar R (handle m) -> parkable T m ->
  guar R (@Consumer.process DB (Processes.loop_env commit wait name) config handle m).
Proof using All.
  intros Hhandle Hpark. unfold Consumer.process.
  apply guar_bind; [apply _|apply guar_retry; solve_guar|].
  intros [cause|]; cbn [Consumer.MoveToDeadLetter Consumer.CommitMessages Processes.loop_env];
    pose proof (guar_MoveMessage name m); solve_guar; apply commit_guar.
Qed.

Lemma guar_RunLoop fetches :
  Forall (fetched (fun m => guar R (handle m) /\ parkable T m)) fetches ->
  guar R (@Consumer.RunLoop DB (Processes.loop_env commit wait name) config handle fetches).
Proof using All.
  induction 1 as [|f fetches Hf _ IH]; [cbn; solve_guar|]. cbn [Consumer.RunLoop].
  destruct f; [|done|solve_guar]. destruct Hf. by apply guar_bind; [apply _|apply guar_process|].
Qed.
End Loop.

Lemma guar_deliver name handle m :
  (forall d, guar R (handle d (msg_Value m))) -> guar R (Processes.deliver name handle m).
Proof. intros Hh. unfold Processes.deliver. solve_guar. Qed.
End Loops.

Section Publisher.
Context (getenv : string -> string).

Lemma guar_outbox_publisher fuel : guar R (Processes.outbox_publisher getenv fuel).
Proof.
  unfold Processes.outbox_publisher. induction fuel as [|fuel IH]; cbn; [solve_guar|].
  apply guar_bind; [apply _| |intros []; solve_guar].
  unfold Outbox.PublishNext, Processes.publish_event, Publish. solve_guar.
Qed.

Lemma guar_ListDeadLetters state limit : guar R (ListDeadLetters state limit).
Proof.
  unfold ListDeadLetters. solve_guar. induction a as [|[id r] rows IH]; cbn; [solve_guar|].
  pose proof guar_scanDeadLetter. solve_guar.
Qed.

Lemma guar_ReplayDeadLetter window id reason :
  guar R (Operator.ReplayDeadLetter PublishMessage window id reason).
Proof.
  unfold Operator.ReplayDeadLetter, Operator.publishReplay. solve_guar.
  cbn. unfold IsEventProcessed. solve_guar.
Qed.

Lemma guar_RequeueDeadOutbox id reason : guar R (Operator.RequeueDeadOutbox id reason).
Proof.
  unfold Operator.RequeueDeadOutbox. solve_guar. cbn. unfold GetOutboxStatus. solve_guar.
Qed.

Lemma guar_stats : guar R Maintenance.GetStats.
Proof. unfold Maintenance.GetStats. cbn. unfold PgProcessedEventStats. solve_guar. Qed.
Lemma guar_Preview s : guar R (Maintenance.Preview s).
Proof. unfold Maintenance.Preview. cbn. unfold PgPreviewProcessedPrune. solve_guar. Qed.
Lemma guar_Prune s reason : guar R (Maintenance.Prune s reason).
Proof. unfold Maintenance.Prune. solve_guar. Qed.

#[local] Hint Resolve guar_ListDeadLetters guar_ReplayDeadLetter guar_RequeueDeadOutbox
  guar_stats guar_Preview guar_Prune : guar.

Lemma guar_admin_run args : guar R (Processes.admin_run getenv args).
Proof.
  unfold Processes.admin_run, Processes.usageError. solve_guar.
  - unfold Processes.runDLQ, Processes.usageError. pose proof operator_GetDeadLetter. solve_guar.
  - unfold Processes.runOutbox, Processes.usageError, ListDeadOutbox, GetOutboxEvent. solve_guar.
  - unfold Processes.runProcessed, Processes.usageError. solve_guar.
Qed.
End Publisher.

Lemma guar_run_trusting `{MetricsHandler} getenv ParseAddr commit wait p :
  external_to R commit wait -> trusts_inputs T p ->
  guar R (run getenv ParseAddr commit wait p).
Proof.
  intros [Hc Hw] Ht. destruct p; cbn [run].
  - destruct (Processes.router_config getenv) as [config|] eqn:Hconf; [|solve_guar].
    apply router_config_bounded in Hconf. apply guar_bind; [apply _| |solve_guar].
    by apply guar_serve.
  - apply guar_RunLoop; [done..|]. eapply Forall_impl; [exact Ht|].
    intros [m| |]; [|done..]. intros [Hm Hpark]. split; [|done].
    apply guar_deliver. intros d. by apply guar_HandleTransactionCreated.
  - apply guar_RunLoop; [done..|]. eapply Forall_impl; [exact Ht|].
    intros [m| |]; [|done..]. intros [Hm Hpark]. split; [|done].
    apply guar_deliver. intros d. by apply guar_HandleRiskEvaluated.
  - apply guar_bind; [apply _|apply guar_outbox_publisher|solve_guar].
  - apply guar_bind; [apply _|apply guar_admin_run|solve_guar].
  - apply guar_metrics_sampler.
Qed.
End Processes.

(** A store that guarantees [R] whatever the consumers fetch. *)
Lemma guar_run {R : DB -> DB -> Prop} `{!PreOrder R} `{!StoreGuarantees R anything}
    `{MetricsHandler} getenv ParseAddr commit wait p :
  external_to R commit wait -> guar R (run getenv ParseAddr commit wait p).
Proof.
  intros Hx. apply (guar_run_trusting (T := anything)); [done|].
  destruct p; cbn; try done; apply Forall_forall; by intros [].
Qed.
End Guarantees.
