(* ===== verification/System.v ===== *)
(** * The system: one step relation, and every process refines it

    [step] lists what one committed transaction may do to the database,
    whichever process committed it.  Every process guarantees [rtc step] under
    every schedule whose other sessions take such steps too; invariants of
    [step] are therefore invariants of the running system. *)

From stdpp Require Import base strings list gmap relations.
From Stdlib Require Import ZArith Lia.
From S2P Require Import Prelude GoStrings Sha256 Runtime Domain GoJson GoTime Codec Schema.
From S2P Require Import ConsumerLoop KafkaBus RiskService LedgerService OutboxPublisher.
From S2P Require Import RedisLimiter AppEnv DeadLetter Operations Maintenance QueryService.
From S2P Require Import StoreOutbox TransactionService StoreTransaction FundingService.
From S2P Require Import StoreConsumer StoreLedger StoreFunding StoreDeadLetter StoreMaintenance.
From S2P Require Import StoreQuery StoreMetrics Footprints HttpApi HttpMetrics Metrics Processes Guarantees.

Open Scope Z_scope.

Section System.
Context `{UnicodeTables} `{JsonbSpec} `{Collation}.

(** ** The abstract steps *)

(** What the consumers' steps presuppose of the database: which payments are
    evaluated, which rulings are settled, which messages (topic, key and value)
    are parked. *)
Record sources := mk_sources {
  so_payment : DB -> Transaction -> Prop;
  so_ruling : DB -> RiskEvaluated -> Prop;
  so_letter : DB -> string -> string -> string -> Prop;
}.

Inductive step_from (Q : sources) : DB -> DB -> Prop :=
| step_payment rec ev now db db' :
    payment_request rec ev -> created rec ev now db db' -> step_from Q db db'
| step_deposit d ev now resp db db' :
    deposit_request d ev -> deposited d ev now db db' resp -> step_from Q db db'
| step_evaluated d hash t ev now payload db db1 :
    evaluation t ev -> claim_effect now d hash true db db1 ->
    jsonb (ev_Payload ev) = Some payload -> db_outbox_events db !! ev_ID ev = None ->
    so_payment Q db t ->
    step_from Q db (set_outbox_events
                      (<[ev_ID ev := outbox_row_of now ev payload]> (db_outbox_events db)) db1)
| step_settled d hash event now db db1 db' :
    claim_effect now d hash true db db1 -> settled event now db1 db' ->
    so_ruling Q db event -> step_from Q db db'
| step_redelivered d hash now db db' :
    claim_effect now d hash false db db' -> step_from Q db db'
| step_outbox id r r' db :
    db_outbox_events db !! id = Some r -> outbox_step r r' ->
    step_from Q db (set_outbox_events (<[id := r']> (db_outbox_events db)) db)
| step_new_dead_letter id r db :
    db_dead_letters db !! id = None ->
    so_letter Q db (d_source_topic r) (d_message_key r) (d_payload r) ->
    step_from Q db (set_dead_letters (<[id := r]> (db_dead_letters db)) db)
| step_dead_letter id r r' db :
    db_dead_letters db !! id = Some r -> dead_letter_step r r' ->
    step_from Q db (set_dead_letters (<[id := r']> (db_dead_letters db)) db)
| step_prune lk cutoff batch db :
    step_from Q db (set_processed_events
                      (delete_all (map fst (prune_candidates lk cutoff batch db))
                         (db_processed_events db)) db)
| step_replay_attempts t db : step_from Q db (set_replay_attempts t db)
| step_operator_actions t db : step_from Q db (set_operator_actions t db).

(** The step relation of the system when anyone may write to Kafka. *)
Definition any_source : sources :=
  mk_sources (fun _ _ => True) (fun _ _ => True) (fun _ _ _ _ => True).
Definition step : DB -> DB -> Prop := step_from any_source.
Definition steps : DB -> DB -> Prop := rtc step.

#[local] Hint Resolve rtc_once : core.
#[export] Instance steps_preorder : PreOrder steps.
Proof. unfold steps. apply _. Qed.

Lemma step_from_step Q db db' : step_from Q db db' -> step db db'.
Proof.
  intros [| | | | | | | | | |]; [by eapply step_payment|by eapply step_deposit
    |by eapply step_evaluated|by eapply step_settled|by eapply step_redelivered
    |by eapply step_outbox|by eapply step_new_dead_letter|by eapply step_dead_letter
    |apply step_prune|apply step_replay_attempts|apply step_operator_actions].
Qed.
Lemma steps_from_steps Q db db' : rtc (step_from Q) db db' -> steps db db'.
Proof. apply rtc_subrel. exact (step_from_step Q). Qed.

(** ** The store operations *)

(** While [P] holds of the database, which the steps keep, the messages that
    [T] trusts are messages from the sources [Q]. *)
Section While.
Context (Q : sources) (P : DB -> Prop) (T : trust).
Hypothesis P_kept : forall db db', step_from Q db db' -> P db -> P db'.
Hypothesis T_payment : forall t db, tr_payment T t -> P db -> so_payment Q db t.
Hypothesis T_ruling : forall event db, tr_ruling T event -> P db -> so_ruling Q db event.
Hypothesis T_letter : forall topic key value db,
  tr_letter T topic key value -> P db -> so_letter Q db topic key value.

Definition steps_while (db db' : DB) : Prop := P db -> rtc (step_from Q) db db'.

Lemma steps_while_kept db db' : rtc (step_from Q) db db' -> P db -> P db'.
Proof using P_kept. induction 1; eauto. Qed.

#[local] Instance steps_while_preorder : PreOrder steps_while.
Proof using P_kept.
  split; [by intros db Hdb|]. intros db1 db2 db3 H12 H23 Hdb.
  etrans; [exact (H12 Hdb)|]. apply H23. eapply steps_while_kept; [exact (H12 Hdb)|done].
Qed.

Lemma while_step db db' : (P db -> step_from Q db db') -> steps_while db db'.
Proof. intros Hstep Hdb. by apply rtc_once, Hstep. Qed.

Lemma while_PgCreate rec ev : payment_request rec ev -> guar steps_while (PgCreate rec ev).
Proof using P_kept.
  intros Hreq. apply guar_transact; [apply _|apply framed_createBody|].
  intros now w [] w' Hrun%createBody_ok. apply while_step. intros _. by eapply step_payment.
Qed.

Lemma while_PgCreateDeposit d ev :
  deposit_request d ev -> guar steps_while (PgCreateDeposit d ev).
Proof using P_kept.
  intros Hreq. apply guar_transact; [apply _|apply framed_depositBody|].
  intros now w resp w' Hrun%depositBody_ok. apply while_step. intros _. by eapply step_deposit.
Qed.

(** A run that ends as [step] relates it to what it found. *)
Lemma while_committed A (m : M DB A) :
  framed m -> (forall w r w', m w = (r, w') -> steps_while (arrived w) (w_store w')) ->
  guar steps_while m.
Proof using P_kept.
  intros Hf Hm w r w' Hs Hrun. split; [|eapply sched_rely_frame, Hs; by eapply Hf].
  etrans; [exact (arrived_rely steps_while w Hs)|]. by eapply Hm.
Qed.

Lemma while_SaveConsumerOutbox d hash t ev :
  tr_payment T t -> evaluation t ev -> guar steps_while (SaveConsumerOutbox d hash ev).
Proof using P_kept T_payment.
  intros Ht Hev. apply while_committed.
  { apply framed_transact. intros now. pose proof framed_claim. solve_framed. }
  intros w r w' [(e & _ & ->)|(claimed & now & db1 & _ & Hc & Hw)]%SaveConsumerOutbox_inv; [done|].
  apply while_step. intros Hdb. destruct claimed.
  - destruct Hw as (p & Hp & Hf & ->). eapply step_evaluated; eauto.
  - subst db1. by eapply step_redelivered.
Qed.

Lemma while_ProcessRiskEvaluated d hash event :
  tr_ruling T event -> guar steps_while (ProcessRiskEvaluated d hash event).
Proof using P_kept T_ruling.
  intros Ht. apply while_committed.
  { apply framed_transact. intros now. pose proof framed_claim. pose proof framed_settle.
    solve_framed. }
  intros w r w' [(e & _ & ->)|(claimed & now & db1 & _ & Hc & Hw)]%ProcessRiskEvaluated_inv; [done|].
  apply while_step. intros Hdb. destruct claimed; [eapply step_settled; eauto|].
  subst db1. by eapply step_redelivered.
Qed.

Lemma while_outbox db id r r' :
  db_outbox_events db !! id = Some r -> outbox_step r r' ->
  steps_while db (set_outbox_events (<[id := r']> (db_outbox_events db)) db).
Proof. intros. apply while_step. intros _. by eapply step_outbox. Qed.
Lemma while_dead_letter db id r r' :
  db_dead_letters db !! id = Some r -> dead_letter_step r r' ->
  steps_while db (set_dead_letters (<[id := r']> (db_dead_letters db)) db).
Proof. intros. apply while_step. intros _. by eapply step_dead_letter. Qed.
Lemma while_prune lk cutoff batch db :
  steps_while db (set_processed_events
    (delete_all (map fst (prune_candidates lk cutoff batch db)) (db_processed_events db)) db).
Proof. apply while_step. constructor. Qed.
Lemma while_replay_attempts db t : steps_while db (set_replay_attempts t db).
Proof. apply while_step. constructor. Qed.
Lemma while_operator_actions db t : steps_while db (set_operator_actions t db).
Proof. apply while_step. constructor. Qed.

Lemma while_UpsertDeadLetter rec :
  tr_letter T (DeadLetters.re_SourceTopic rec) (DeadLetters.re_Key rec)
    (DeadLetters.re_Payload rec) ->
  guar steps_while (DeadLetters.UpsertDeadLetter rec).
Proof using P_kept T_letter.
  intros Ht. apply guar_UpsertDeadLetter; [apply _|exact while_dead_letter|].
  intros db id hash headers Hnew. apply while_step. intros Hdb. constructor; [done|].
  by apply T_letter.
Qed.

(** The footprint lemma [L]. *)
Local Ltac footprint L :=
  intros; apply L;
  first [ apply _ | exact while_outbox | exact while_dead_letter | exact while_prune
        | exact while_replay_attempts | exact while_operator_actions ].

Lemma while_guarantees : StoreGuarantees steps_while T.
Proof using P_kept T_payment T_ruling T_letter.
  split.
  - exact while_PgCreate.
  - exact while_PgCreateDeposit.
  - exact while_SaveConsumerOutbox.
  - exact while_ProcessRiskEvaluated.
  - footprint guar_NextPending.
  - footprint guar_MarkPublished.
  - footprint guar_MarkFailedAttempt.
  - footprint guar_RequeueOutbox.
  - exact while_UpsertDeadLetter.
  - footprint guar_MarkDeadLetterPublished.
  - footprint guar_StartDeadLetterReplay.
  - footprint guar_FinishDeadLetterReplay.
  - footprint guar_PruneProcessedEvents.
Qed.
End While.

(** Whatever the consumers fetch, the store takes steps. *)
#[export] Instance steps_guarantees : StoreGuarantees steps anything.
Proof.
  apply (store_guarantees_iff (steps_while any_source (fun _ => True))).
  - intros db db'. split; [by intros Hs; apply Hs|by intros ? _].
  - by apply while_guarantees.
Qed.

(** The promises other files use at [steps]. *)
Lemma dead_UpsertDeadLetter rec : guar steps (DeadLetters.UpsertDeadLetter rec).
Proof. by apply sg_UpsertDeadLetter. Qed.
Lemma dead_MarkDeadLetterPublished id t : guar steps (DeadLetters.MarkDeadLetterPublished id t).
Proof. exact (sg_MarkDeadLetterPublished id t). Qed.
Lemma operator_StartDeadLetterReplay id reason :
  guar steps (Operator.StartDeadLetterReplay id reason).
Proof. exact (sg_StartDeadLetterReplay id reason). Qed.
Lemma operator_FinishDeadLetterReplay a id result msg :
  guar steps (Operator.FinishDeadLetterReplay a id result msg).
Proof. exact (sg_FinishDeadLetterReplay a id result msg). Qed.

(** Offset commits and timers leave the database to the other sessions. *)
Definition external (commit : Message -> M DB unit) (wait : Z -> M DB bool) : Prop :=
  external_to steps commit wait.
End System.
