(* ===== verification/Typing.v ===== *)
(** * The schema as a type system

    [well_typed db] says that every row of [db] satisfies the constraints of its
    table: the CHECKs, the width of its [integer] columns, the foreign keys and
    the unique indexes.  Every SQL statement preserves it, so every program built
    from statements does ([preserves]), inside and outside transactions, and with
    [StoreGuarantees] every process under every schedule of well-typed sessions. *)

From stdpp Require Import base strings list gmap.
From Stdlib Require Import ZArith Lia.
From S2P Require Import Prelude GoStrings Sha256 Runtime Domain GoJson Codec Schema.
From S2P Require Import ConsumerLoop RiskService LedgerService OutboxPublisher DeadLetter.
From S2P Require Import Operations Maintenance TransactionService FundingService.
From S2P Require Import StoreOutbox StoreTransaction StoreConsumer StoreLedger StoreFunding.
From S2P Require Import StoreDeadLetter StoreMaintenance Footprints HttpMetrics Processes Guarantees.

Open Scope Z_scope.

(** ** Programs that keep a property of the database *)

Section Keeps.
Context (P : DB -> Prop).

(** A private run: no other session commits in between. *)
Definition preserves {A} (m : M DB A) : Prop :=
  forall w r w', P (w_store w) -> m w = (r, w') -> P (w_store w').

Definition yields {A} (Q : A -> Prop) (o : outcome error A) : Prop :=
  forall a, o = Ok a -> Q a.

Lemma preserves_ret A (a : A) : preserves (ret a).
Proof. by intros w r w' Hw [= <- <-]. Qed.
Lemma preserves_fail A e : preserves (fail (A := A) e).
Proof. by intros w r w' Hw [= <- <-]. Qed.
Lemma preserves_lift A (o : outcome error A) : preserves (lift o).
Proof. by intros w r w' Hw [= <- <-]. Qed.
Lemma preserves_NewID prefix : preserves (NewID prefix).
Proof. intros w r w' Hw Hrun. rewrite NewID_run in Hrun. by injection Hrun as _ <-. Qed.
Lemma preserves_NewOutboxEvent ty agg key corr payload :
  preserves (NewOutboxEvent ty agg key corr payload).
Proof. intros w r w' Hw Hrun. rewrite NewOutboxEvent_run in Hrun. by injection Hrun as _ <-. Qed.
Lemma preserves_bind A B (m : M DB A) (k : A -> M DB B) :
  preserves m -> (forall a, preserves (k a)) -> preserves (bind m k).
Proof. intros Hm Hk w r w' Hw [(a & w1 & H1 & H2)|(e & H1 & _)]%bind_inv; [|by eapply Hm].
  eapply Hk; [|exact H2]. by eapply Hm.
Qed.
Lemma preserves_attempt A B (m : M DB A) (k : outcome error A -> M DB B) :
  preserves m -> (forall o, preserves (k o)) -> preserves (attempt m k).
Proof. intros Hm Hk w r w' Hw (o & w1 & H1 & H2)%attempt_inv.
  eapply Hk; [|exact H2]. by eapply Hm.
Qed.
Lemma preserves_wrapf A c (m : M DB A) : preserves m -> preserves (wrapf c m).
Proof. intros Hm w r w' Hw (o & H1 & _)%wrapf_inv. by eapply Hm. Qed.
Lemma preserves_statement A f :
  (forall lk db, P db -> P (f lk db).2) -> preserves (statement (A := A) f).
Proof.
  intros Hf w r w' Hw [(lk & Hrun)|[_ ->]]%statement_inv; [|done].
  specialize (Hf lk _ Hw). by rewrite Hrun in Hf.
Qed.

Lemma kept_exec A db (o : outcome error (A * DB)) :
  P db -> yields (fun p => P p.2) o -> P (exec db o).2.
Proof. intros Hdb Ho. unfold exec. destruct o as [[a db']|e]; [|done]. by apply (Ho (a, db')). Qed.
Lemma kept_exec_ db (o : outcome error DB) : P db -> yields P o -> P (exec_ db o).2.
Proof. intros Hdb Ho. unfold exec_. destruct o as [db'|e]; [|done]. by apply Ho. Qed.

Lemma guar_kept_transact A bc cc (body : Z -> M DB A) :
  (forall now, framed (body now)) -> (forall now, preserves (body now)) ->
  guar (stable P) (transact bc cc body).
Proof.
  intros Hf Hb. apply guar_transact; [apply _|done|].
  intros now w a w' Hrun Hw. by eapply Hb.
Qed.
Lemma guar_kept_round_trip A f :
  (forall lk now db, P db -> P (f lk now db).2) -> guar (stable P) (round_trip (A := A) f).
Proof. intros Hf. apply guar_round_trip; [apply _|exact Hf]. Qed.
End Keeps.

Section Yields.
Context {A : Type} (Q : A -> Prop).

Lemma yields_Ok a : Q a -> yields Q (Ok a).
Proof. by intros HQ ? [= <-]. Qed.
Lemma yields_Err e : yields Q (Err e).
Proof. by intros ? [=]. Qed.
Lemma yields_with_texts ps k : yields Q k -> yields Q (with_texts ps k).
Proof. intros Hk a Ha%with_texts_ok. by apply Hk. Qed.
Lemma yields_with_int4 z k :
  (int4_min <= z <= int4_max -> yields Q k) -> yields Q (with_int4 z k).
Proof. intros Hk a [Hz Ha]%with_int4_ok. by apply Hk. Qed.
Lemma yields_int4_result z k : (z <= int4_max -> yields Q k) -> yields Q (int4_result z k).
Proof. unfold int4_result. destruct (Z.leb_spec z int4_max); [auto|]. intros _. apply yields_Err. Qed.
Lemma yields_checked cs k :
  (Forall (fun c => c.2 = true) cs -> yields Q k) -> yields Q (checked cs k).
Proof. intros Hk a [Hc Ha]%checked_ok. by apply Hk. Qed.
Lemma yields_fresh_key {K V} `{Countable K} n (t : gmap K V) key k :
  (t !! key = None -> yields Q k) -> yields Q (fresh_key n t key k).
Proof. intros Hk a [Hf Ha]%fresh_key_ok. by apply Hk. Qed.
Lemma yields_references {V} n (t : gmap string V) key k :
  (is_Some (t !! key) -> yields Q k) -> yields Q (references n t key k).
Proof. intros Hk a [Hf Ha]%references_ok. by apply Hk. Qed.
Lemma yields_bytea c v k : yields Q k -> yields Q (bytea_not_null c v k).
Proof. intros Hk a [_ Ha]%bytea_not_null_ok. by apply Hk. Qed.
Lemma yields_jsonb_in `{Jsonb} t k : (forall v, yields Q (k v)) -> yields Q (jsonb_in t k).
Proof. intros Hk a (v & _ & Ha)%jsonb_in_ok. by eapply Hk. Qed.
Lemma yields_obind {B} (Q' : B -> Prop) o k :
  yields Q' o -> (forall b, Q' b -> yields Q (k b)) -> yields Q (obind_ok o k).
Proof. intros Ho Hk a (b & Hb & Ha)%obind_ok_ok. eapply Hk; [|exact Ha]. by apply Ho. Qed.
Lemma yields_bpchar n s k : (forall v, yields Q (k v)) -> yields Q (obind_ok (bpchar n s) k).
Proof. intros Hk. apply (yields_obind (fun _ => True)); [done|auto]. Qed.
End Yields.

Create HintDb preserves.
#[export] Hint Resolve preserves_ret preserves_fail preserves_lift preserves_NewID preserves_NewOutboxEvent
  yields_Ok yields_Err : preserves.

(** Reduces [preserves P m] to the statements of [m], and those to their changes. *)
Ltac solve_preserves :=
  repeat first
    [ progress intros
    | solve [eauto with preserves]
    | lazymatch goal with
      | |- preserves _ (bind _ _) => apply preserves_bind
      | |- preserves _ (attempt _ _) => apply preserves_attempt
      | |- preserves _ (wrapf _ _) => apply preserves_wrapf
      | |- preserves _ (statement _) => apply preserves_statement
      | |- guar _ (wrapf _ _) => apply guar_wrapf
      | |- guar _ (bind _ _) => apply guar_bind; [apply _|..]
      | |- guar _ (round_trip _) => apply guar_kept_round_trip
      | |- ?P (exec _ _).2 => apply (kept_exec P)
      | |- ?P (exec_ _ _).2 => apply (kept_exec_ P)
      | |- yields _ (with_texts _ _) => apply yields_with_texts
      | |- yields _ (with_int4 _ _) => apply yields_with_int4
      | |- yields _ (int4_result _ _) => apply yields_int4_result
      | |- yields _ (bytea_not_null _ _ _) => apply yields_bytea
      | |- yields _ (jsonb_in _ _) => apply yields_jsonb_in
      | |- yields _ (obind_ok (bpchar _ _) _) => apply yields_bpchar
      | |- preserves _ (match _ with _ => _ end) => case_match
      | |- yields _ (match _ with _ => _ end) => case_match
      end ].

(** ** Well-typed tables *)

Definition passes (checks : list (string * bool)) : Prop := Forall (fun c => c.2 = true) checks.

Section Tables.
Context {K V : Type} `{Countable K}.

Definition all_rows (ok : K -> V -> Prop) (t : gmap K V) : Prop := map_Forall ok t.

(** A foreign key and a unique index. *)
Definition refers {V'} (key : V -> string) (target : gmap string V') (t : gmap K V) : Prop :=
  map_Forall (fun _ r => is_Some (target !! key r)) t.
Definition unique (same : V -> V -> bool) (t : gmap K V) : Prop :=
  forall k k' r r', t !! k = Some r -> t !! k' = Some r' -> same r r' = true -> k = k'.

Lemma rows_insert ok t k r : all_rows ok t -> ok k r -> all_rows ok (<[k := r]> t).
Proof. intros Ht Hr. by apply map_Forall_insert_2. Qed.
Lemma refers_insert {V'} key (target : gmap string V') t k r :
  refers key target t -> is_Some (target !! key r) -> refers key target (<[k := r]> t).
Proof. intros Ht Hr. by apply map_Forall_insert_2. Qed.
Lemma refers_target {V'} key (target : gmap string V') t id r :
  refers key target t -> refers key (<[id := r]> target) t.
Proof.
  intros Ht. eapply map_Forall_impl; [exact Ht|]. cbn. intros k r' Hr.
  apply lookup_insert_is_Some'. by right.
Qed.
Lemma unique_put same t k r :
  (forall a b, same a b = same b a) ->
  (forall k' r', k' <> k -> t !! k' = Some r' -> same r r' = false) ->
  unique same t -> unique same (<[k := r]> t).
Proof.
  intros Hsym Hnew Ht k1 k2 r1 r2.
  intros [[<- <-]|[Hne1 Hr1]]%lookup_insert_Some [[<- <-]|[Hne2 Hr2]]%lookup_insert_Some Hsame;
    [done| | |by eapply Ht].
  - by rewrite (Hnew k2 r2) in Hsame.
  - rewrite Hsym, (Hnew k1 r1) in Hsame; done.
Qed.
(** An update that preserves the indexed columns. *)
Lemma unique_update same t k r r0 :
  (forall a b, same a b = same b a) -> t !! k = Some r0 ->
  (forall r', same r r' = true -> same r0 r' = true) ->
  unique same t -> unique same (<[k := r]> t).
Proof.
  intros Hsym Hr0 Hkept Ht. apply unique_put; [done| |done].
  intros k' r' Hne Hr'. destruct (same r r') eqn:Hs; [|done].
  destruct Hne. symmetry. eapply Ht; [exact Hr0|exact Hr'|by apply Hkept].
Qed.
End Tables.

(** [unique (transaction_id, account_id)] *)
Definition same_entry (r r' : ledger_row) : bool :=
  String.eqb (l_transaction_id r) (l_transaction_id r')
  && String.eqb (l_account_id r) (l_account_id r').
(** One pending attempt per dead letter, a partial index. *)
Definition same_pending (r r' : replay_row) : bool :=
  pending_attempt (r_dead_letter_id r) r && pending_attempt (r_dead_letter_id r) r'.

Definition outbox_typed (_ : string) (r : outbox_row) : Prop :=
  passes (outbox_checks r) /\ o_attempts r <= int4_max.
Definition processed_typed (key : string * string) (r : processed_row) : Prop :=
  passes (processed_checks key r) /\ int4_min <= p_source_partition r <= int4_max.
Definition dead_letter_typed (id : string) (r : dead_letter_row) : Prop :=
  passes (dead_letter_checks id r) /\ d_source_partition r <= int4_max
  /\ d_replay_count r <= int4_max /\ d_version r <= int4_max.

Record well_typed (db : DB) : Prop := mk_well_typed {
  ty_transactions : all_rows (fun _ r => passes (transaction_checks r)) (db_transactions db);
  ty_keys : all_rows (fun key _ => passes (key_checks key)) (db_idempotency_keys db);
  ty_deposit_keys :
    all_rows (fun key r => passes (deposit_key_checks key r)) (db_deposit_idempotency_keys db);
  ty_outbox : all_rows outbox_typed (db_outbox_events db);
  ty_ledger : all_rows (fun _ r => passes (ledger_checks r)) (db_ledger_entries db);
  ty_processed : all_rows processed_typed (db_processed_events db);
  ty_actions : all_rows (fun _ r => passes (action_checks r)) (db_operator_actions db);
  ty_dead_letters : all_rows dead_letter_typed (db_dead_letters db);
  ty_attempts : all_rows (fun _ r => passes (replay_checks r)) (db_replay_attempts db);
  ty_key_refs : refers i_transaction_id (db_transactions db) (db_idempotency_keys db);
  ty_deposit_key_refs :
    refers i_transaction_id (db_transactions db) (db_deposit_idempotency_keys db);
  ty_ledger_refs : refers l_transaction_id (db_transactions db) (db_ledger_entries db);
  ty_attempt_refs : refers r_dead_letter_id (db_dead_letters db) (db_replay_attempts db);
  ty_references : unique same_deposit_reference (db_transactions db);
  ty_entries : unique same_entry (db_ledger_entries db);
  ty_sources : unique same_source (db_dead_letters db);
  ty_pending : unique same_pending (db_replay_attempts db);
}.

Lemma well_typed_empty : well_typed empty_DB.
Proof.
  split; try apply map_Forall_empty.
  all: intros k k' r r' Hr; by destruct (lookup_empty_Some (M := gmap _) k r).
Qed.

Lemma same_entry_sym r r' : same_entry r r' = same_entry r' r.
Proof.
  unfold same_entry. by rewrite (String.eqb_sym (l_transaction_id r)), (String.eqb_sym (l_account_id r)).
Qed.
Lemma same_source_sym r r' : same_source r r' = same_source r' r.
Proof.
  unfold same_source.
  by rewrite (String.eqb_sym (d_consumer_name r)), (String.eqb_sym (d_source_topic r)),
    (Z.eqb_sym (d_source_partition r)), (Z.eqb_sym (d_source_offset r)).
Qed.
Lemma same_pending_iff r r' :
  same_pending r r' = true <->
  r_dead_letter_id r = r_dead_letter_id r' /\ r_result r = "PENDING"%string
  /\ r_result r' = "PENDING"%string.
Proof.
  unfold same_pending, pending_attempt. rewrite !andb_true_iff, !String.eqb_eq.
  intuition congruence.
Qed.
Lemma same_pending_sym r r' : same_pending r r' = same_pending r' r.
Proof. apply eq_true_iff_eq. rewrite !same_pending_iff. intuition congruence. Qed.
Lemma same_reference_sym r r' : same_deposit_reference r r' = same_deposit_reference r' r.
Proof.
  unfold same_deposit_reference.
  rewrite (bool_decide_ext (t_funding_source r = t_funding_source r')
             (t_funding_source r' = t_funding_source r)) by done.
  rewrite (bool_decide_ext (t_external_reference r = t_external_reference r')
             (t_external_reference r' = t_external_reference r)) by done.
  rewrite (String.eqb_sym (t_currency r)).
  by rewrite (andb_comm (String.eqb (t_kind r) _)).
Qed.
#[export] Hint Resolve rows_insert refers_insert refers_target unique_put : preserves.

(** ** Statements *)

Section Statements.
Implicit Types (db : DB).

Lemma typed_insert_transaction id r db :
  well_typed db -> yields well_typed (insert_transaction id r db).
Proof.
  intros Ht db' (Hc & Hf & Hu & ->)%insert_transaction_ok. destruct Ht.
  split; cbn; auto using refers_target.
  - by apply rows_insert.
  - apply unique_put; [apply same_reference_sym| |done]. intros id' r' _. apply Hu.
Qed.

Lemma typed_insert_key key r db :
  well_typed db -> yields well_typed (insert_idempotency_key key r db).
Proof.
  intros Ht. apply yields_checked. intros Hc. apply yields_fresh_key. intros Hf.
  apply yields_references. intros Hr. apply yields_Ok. destruct Ht.
  split; cbn; auto using refers_insert. by apply rows_insert.
Qed.

Lemma typed_insert_deposit_key key r db :
  well_typed db -> yields well_typed (insert_deposit_idempotency_key key r db).
Proof.
  intros Ht. apply yields_checked. intros Hc. apply yields_fresh_key. intros Hf.
  apply yields_references. intros Hr. apply yields_Ok. destruct Ht.
  split; cbn; auto using refers_insert. by apply rows_insert.
Qed.

Lemma typed_put_outbox id r db :
  well_typed db -> outbox_typed id r ->
  well_typed (set_outbox_events (<[id := r]> (db_outbox_events db)) db).
Proof. intros Ht Hr. destruct Ht. split; cbn; auto. by apply rows_insert. Qed.

Lemma typed_insert_outbox id r db :
  o_attempts r <= int4_max -> well_typed db -> yields well_typed (insert_outbox_event id r db).
Proof.
  intros Ha Ht. apply yields_checked. intros Hc. apply yields_fresh_key. intros _.
  by apply yields_Ok, typed_put_outbox.
Qed.

Lemma typed_update_outbox id r db :
  o_attempts r <= int4_max -> well_typed db -> yields well_typed (update_outbox_event id r db).
Proof. intros Ha Ht. apply yields_checked. intros Hc. by apply yields_Ok, typed_put_outbox. Qed.

Lemma typed_insert_entry id r db :
  well_typed db -> yields well_typed (insert_ledger_entry id r db).
Proof.
  intros Ht db' (Hc & Hf & Hu & Hr & ->)%insert_ledger_entry_ok. destruct Ht.
  split; cbn; auto using refers_insert.
  - by apply rows_insert.
  - apply unique_put; [apply same_entry_sym| |done]. intros id' r' _ Hr'.
    unfold same_entry. destruct (Hu _ _ Hr') as [Hne|Hne]; apply String.eqb_neq in Hne; rewrite Hne;
      [done|apply andb_false_r].
Qed.

Lemma typed_insert_action id r db :
  well_typed db -> yields well_typed (insert_operator_action id r db).
Proof.
  intros Ht. apply yields_checked. intros Hc. apply yields_fresh_key. intros _.
  apply yields_Ok. destruct Ht. split; cbn; auto. by apply rows_insert.
Qed.

Lemma typed_put_processed key r db :
  well_typed db -> processed_typed key r ->
  well_typed (set_processed_events (<[key := r]> (db_processed_events db)) db).
Proof. intros Ht Hr. destruct Ht. split; cbn; auto. by apply rows_insert. Qed.

Lemma typed_insert_processed now d hash db :
  well_typed db -> yields (fun p => well_typed p.2) (insert_processed now d hash db).
Proof.
  intros Ht. unfold insert_processed. solve_preserves. apply yields_checked. intros Hc.
  case_match; apply yields_Ok; [done|]. by apply typed_put_processed.
Qed.

Lemma typed_refresh_processed now d db :
  well_typed db -> yields (fun p => well_typed p.2) (refresh_processed now d db).
Proof.
  intros Ht. unfold refresh_processed. solve_preserves. apply yields_Ok.
  apply typed_put_processed; [done|]. by apply (ty_processed _ Ht) in H.
Qed.

Lemma rows_delete_all (ok : key -> processed_row -> Prop) keys t :
  all_rows ok t -> all_rows ok (delete_all keys t).
Proof.
  intros Ht. induction keys as [|k keys IH]; [done|]. cbn. by apply map_Forall_delete.
Qed.

Lemma typed_prune_batch `{Collation} lk cutoff batch db :
  well_typed db -> yields (fun p => well_typed p.2) (prune_batch lk cutoff batch db).
Proof.
  intros Ht. apply yields_Ok. destruct Ht. split; cbn; auto. by apply rows_delete_all.
Qed.
End Statements.

Section DeadLetterStatements.
Implicit Types (db : DB).

(** An update of a dead letter that preserves its source position. *)
Lemma typed_put_dead_letter id r0 r db :
  db_dead_letters db !! id = Some r0 -> d_consumer_name r = d_consumer_name r0 ->
  d_source_topic r = d_source_topic r0 -> d_source_partition r = d_source_partition r0 ->
  d_source_offset r = d_source_offset r0 ->
  d_replay_count r <= int4_max -> d_version r <= int4_max ->
  well_typed db -> yields well_typed (put_dead_letter id r db).
Proof.
  intros Hr0 Hn Ht Hp Ho Hc Hv Hdb. apply yields_checked. intros Hck. apply yields_Ok.
  assert (Hpart : d_source_partition r0 <= int4_max) by apply (ty_dead_letters _ Hdb id r0 Hr0).
  destruct Hdb. split; cbn; auto using refers_target.
  - apply rows_insert; [done|]. split_and!; [done|lia..].
  - eapply unique_update; [apply same_source_sym|exact Hr0| |done].
    intros r'. unfold same_source. by rewrite Hn, Ht, Hp, Ho.
Qed.

Lemma typed_upsert id r db :
  d_source_partition r <= int4_max -> d_replay_count r = 0 -> d_version r = 1 ->
  well_typed db -> yields (fun p => well_typed p.2) (upsert_dead_letter id r db).
Proof.
  intros Hp Hn Hv Hdb. apply yields_checked. intros Hck.
  destruct (find_source r db) as [[id' r']|] eqn:Hf.
  - apply find_source_ok in Hf as [Hr' _]. apply yields_int4_result. intros Hver.
    destruct (ty_dead_letters _ Hdb _ _ Hr') as (_ & _ & Hc & _).
    eapply yields_obind; [by eapply typed_put_dead_letter|]. intros db' Hdb'. by apply yields_Ok.
  - apply yields_fresh_key. intros Hid. apply yields_Ok. cbn.
    destruct Hdb. split; cbn; auto using refers_target.
    + apply rows_insert; [done|]. unfold dead_letter_typed, int4_max in *. split_and!; [done|lia..].
    + apply unique_put; [apply same_source_sym| |done]. intros k' r' _ Hr'.
      apply not_true_iff_false. intros Hs. apply find_none with (x := (k', r')) in Hf.
      * cbn in Hf. congruence.
      * by apply list_elem_of_In, elem_of_map_to_list.
Qed.

Lemma typed_recover id now db : well_typed db -> well_typed (recover_stale id now db).
Proof.
  intros Hdb. destruct Hdb. unfold recover_stale. split; cbn; auto.
  - intros k r. rewrite lookup_fmap. intros (r0 & Hr0 & ->)%fmap_Some.
    pose proof (ty_attempts0 _ _ Hr0) as Hck. cbn. case_match; [|done].
    unfold passes, replay_checks in *. rewrite !Forall_cons in *. cbn in *. by destruct Hck as (_ & ? & _).
  - intros k r. rewrite lookup_fmap. intros (r0 & Hr0 & ->)%fmap_Some.
    pose proof (ty_attempt_refs0 _ _ Hr0). by case_match.
  - intros k k' r r'. rewrite !lookup_fmap. intros (r0 & Hr0 & ->)%fmap_Some.
    intros (r1 & Hr1 & ->)%fmap_Some. rewrite same_pending_iff. intros Hs.
    apply (ty_pending0 _ _ r0 r1 Hr0 Hr1), same_pending_iff.
    destruct (stale_attempt _ _ r0), (stale_attempt _ _ r1); cbn in Hs; try done;
      by destruct Hs as (_ & ? & ?).
Qed.

Lemma typed_insert_attempt a id reason now db :
  well_typed db -> yields (fun p => well_typed p.2) (insert_attempt a id reason now db).
Proof.
  intros Hdb. unfold insert_attempt. destruct (db_dead_letters db !! id) as [dead|] eqn:Hid;
    [|by apply yields_Ok]. case_match; [|by apply yields_Ok]. apply yields_checked. intros Hck.
  case_match; [by apply yields_Ok|]. destruct (map_existsb _ _) eqn:Hp; [by apply yields_Ok|].
  apply yields_Ok. rewrite map_existsb_false in Hp. destruct Hdb. split; cbn; auto.
  - by apply rows_insert.
  - apply refers_insert; [done|]. cbn. by eexists.
  - apply unique_put; [apply same_pending_sym| |done]. intros k' r' _ Hr'.
    apply Hp in Hr'. apply not_true_iff_false. intros (Hd & _ & Hpend)%same_pending_iff.
    cbn in Hd. unfold pending_attempt in Hr'. by rewrite <- Hd, Hpend, String.eqb_refl in Hr'.
Qed.

Lemma typed_finish_attempt a result msg now db :
  well_typed db -> yields (fun p => well_typed p.2) (finish_attempt a result msg now db).
Proof.
  intros Hdb. unfold finish_attempt. destruct (db_replay_attempts db !! a) as [r|] eqn:Ha;
    [|apply yields_Err]. destruct (String.eqb (r_result r) _) eqn:Hr; [|apply yields_Err].
  reflect_bools. apply yields_checked. intros Hck. apply yields_Ok.
  destruct Hdb. split; cbn; auto.
  - by apply rows_insert.
  - apply refers_insert; [done|]. cbn. exact (ty_attempt_refs0 _ _ Ha).
  - eapply unique_update; [apply same_pending_sym|exact Ha| |done].
    intros r'. rewrite !same_pending_iff. cbn. intuition congruence.
Qed.

Lemma typed_mark_republished id db :
  well_typed db -> yields (fun p => well_typed p.2) (mark_republished id db).
Proof.
  intros Hdb. unfold mark_republished. destruct (db_dead_letters db !! id) as [r|] eqn:Hr;
    [|by apply yields_Ok]. case_match; [|by apply yields_Ok].
  apply yields_int4_result. intros Hv. apply yields_int4_result. intros Hc.
  eapply yields_obind; [by eapply typed_put_dead_letter|]. intros db' Hdb'. by apply yields_Ok.
Qed.
End DeadLetterStatements.

(** ** Operations of the store *)

Section Operations.
Context `{UnicodeTables} `{JsonbSpec} `{Collation}.

#[local] Hint Resolve typed_insert_transaction typed_insert_key typed_insert_deposit_key
  typed_insert_outbox typed_insert_entry typed_insert_action typed_insert_processed
  typed_refresh_processed typed_prune_batch typed_recover typed_insert_attempt
  typed_finish_attempt typed_mark_republished : preserves.

Lemma preserves_insertOutbox now ev : preserves well_typed (insertOutbox now ev).
Proof. unfold insertOutbox. solve_preserves. by apply typed_insert_outbox. Qed.
Lemma preserves_insertAction now id a t r : preserves well_typed (insertAction now id a t r).
Proof. unfold insertAction. solve_preserves. Qed.
Lemma preserves_lockAccountBalance a c : preserves well_typed (lockAccountBalance a c).
Proof. unfold lockAccountBalance. solve_preserves. Qed.
Lemma preserves_queryBalance a c : preserves well_typed (queryBalance a c).
Proof. unfold queryBalance. solve_preserves. Qed.
Lemma preserves_insertLedgerPair now i1 i2 t a1 m1 a2 m2 c :
  preserves well_typed (insertLedgerPair now i1 i2 t a1 m1 a2 m2 c).
Proof.
  unfold insertLedgerPair. solve_preserves.
  apply (yields_obind _ well_typed); [by apply typed_insert_entry|].
  intros db' Hdb'. by apply typed_insert_entry.
Qed.
Lemma preserves_claim now d hash : preserves well_typed (claimProcessedEvent now d hash).
Proof. unfold claimProcessedEvent. solve_preserves. Qed.

(** A status update under its guard. *)
Lemma typed_update_where_status id s f db :
  (forall r, outbox_typed id r -> yields (fun r' => o_attempts r' <= int4_max) (f r)) ->
  well_typed db -> yields (fun p => well_typed p.2) (update_where_status id s f db).
Proof.
  intros Hf Ht. unfold update_where_status. destruct (db_outbox_events db !! id) as [r|] eqn:Hr;
    [|by apply yields_Ok]. case_match; [|by apply yields_Ok].
  eapply yields_obind; [apply Hf; exact (ty_outbox _ Ht _ _ Hr)|]. intros r' Hr'. cbn in Hr'.
  eapply yields_obind; [by apply typed_update_outbox|]. intros db' Hdb'. by apply yields_Ok.
Qed.

#[local] Hint Resolve preserves_insertOutbox preserves_insertAction preserves_lockAccountBalance
  preserves_queryBalance preserves_insertLedgerPair preserves_claim : preserves.

Lemma preserves_finalizeTransaction now id status level reason :
  preserves well_typed (finalizeTransaction now id status level reason).
Proof.
  unfold finalizeTransaction. solve_preserves. rename select (db_transactions db !! _ = _) into Hr.
  apply (yields_obind _ well_typed); [|intros db' Hdb'; by apply yields_Ok].
  apply yields_checked. intros Hck. apply yields_Ok. rename select (well_typed db) into Ht.
  destruct Ht. split; cbn; auto using refers_target; [by apply rows_insert|].
  eapply unique_update; [apply same_reference_sym|exact Hr|done|done].
Qed.
#[local] Hint Resolve preserves_finalizeTransaction : preserves.

Lemma preserves_settle event now : preserves well_typed (settle event now).
Proof.
  unfold settle, lockPendingTransaction, decide_outcome, ensureAvailableFunds, insertLedgerEntries.
  solve_preserves.
Qed.

Lemma preserves_createBody rec ev now : preserves well_typed (createBody rec ev now).
Proof. unfold createBody, insertPayment, insertIdempotencyKey. solve_preserves. Qed.

Lemma preserves_depositBody d ev now : preserves well_typed (depositBody d ev now).
Proof. unfold depositBody, insertDeposit, postDeposit, insertDepositKey. solve_preserves. Qed.

Definition typed : DB -> DB -> Prop := stable well_typed.
#[export] Instance typed_preorder : PreOrder typed := stable_preorder well_typed.
#[local] Hint Resolve typed_preorder : guar.

Lemma typed_NextPending : guar typed Outbox.NextPending.
Proof.
  cbn. unfold NextPending. solve_preserves. rename select (next_event _ _ _ = _) into Hn.
  simplify_eq. apply next_event_ok in Hn as (Hr & _).
  apply (yields_obind _ well_typed); [|intros db' Hdb'; by apply yields_Ok].
  apply typed_update_outbox; [|done]. by apply ty_outbox in Hr as [_ ?].
Qed.

Lemma typed_MarkPublished id : guar typed (Outbox.MarkPublished id).
Proof.
  cbn. unfold MarkPublished. apply guar_wrapf, guar_bind; [apply _| |intros; by apply guar_ret, _].
  solve_preserves. apply typed_update_where_status; [|done]. intros r [_ Ha]. by apply yields_Ok.
Qed.

Lemma typed_MarkFailedAttempt id n : guar typed (Outbox.MarkFailedAttempt id n).
Proof.
  cbn. unfold MarkFailedAttempt.
  apply guar_wrapf, guar_bind; [apply _| |intros; by apply guar_ret, _].
  solve_preserves. apply typed_update_where_status; [|done].
  intros r _. apply yields_int4_result. intros Ha. by apply yields_Ok.
Qed.

Lemma typed_RequeueOutbox id reason : guar typed (Operator.RequeueOutbox id reason).
Proof.
  apply guar_kept_transact; [intros now; solve_framed|]. intros now. solve_preserves.
  apply typed_update_where_status; [|done]. intros r _. apply yields_Ok. unfold int4_max. cbn. lia.
Qed.

Lemma typed_UpsertDeadLetter rec : guar typed (DeadLetters.UpsertDeadLetter rec).
Proof.
  cbn. unfold PgUpsertDeadLetter.
  apply guar_wrapf, guar_bind; [apply _| |intros; apply guar_scanDeadLetter, _].
  solve_preserves. apply typed_upsert; cbn; [lia|done..].
Qed.

Lemma typed_MarkDeadLetterPublished id t : guar typed (DeadLetters.MarkDeadLetterPublished id t).
Proof.
  cbn. unfold PgMarkDeadLetterPublished. apply guar_bind; [apply _| |intros; solve_guar].
  solve_preserves.
  match goal with Hr : db_dead_letters _ !! _ = Some _ |- _ =>
    pose proof (ty_dead_letters _ ltac:(eassumption) _ _ Hr) as (_ & _ & Hc & _);
    eapply yields_obind; [by eapply (typed_put_dead_letter _ _ _ _ Hr)|] end.
  intros db' Hdb'. by apply yields_Ok.
Qed.

Lemma typed_StartDeadLetterReplay id reason :
  guar typed (Operator.StartDeadLetterReplay id reason).
Proof.
  cbn. unfold PgStartDeadLetterReplay.
  apply guar_bind; [apply _|unfold NewID; solve_guar|]. intros attemptID.
  apply guar_kept_transact; [intros now; solve_framed|]. intros now. solve_preserves.
Qed.

Lemma typed_FinishDeadLetterReplay a id result msg :
  guar typed (Operator.FinishDeadLetterReplay a id result msg).
Proof. apply guar_kept_transact; [intros now; solve_framed|]. intros now. solve_preserves. Qed.

Lemma typed_Prune cutoff batch reason :
  guar typed (Maintenance.PruneProcessedEvents cutoff batch reason).
Proof. apply guar_kept_transact; [intros now; solve_framed|]. intros now. solve_preserves. Qed.

#[export] Instance typed_guarantees : StoreGuarantees typed anything.
Proof.
  split.
  - intros rec ev _. apply guar_kept_transact; [apply framed_createBody|apply preserves_createBody].
  - intros d ev _. apply guar_kept_transact; [apply framed_depositBody|apply preserves_depositBody].
  - intros d hash t ev _ _. apply guar_kept_transact.
    + intros now. pose proof framed_claim. solve_framed.
    + intros now. solve_preserves.
  - intros d hash event _. apply guar_kept_transact.
    + intros now. pose proof framed_claim. pose proof framed_settle. solve_framed.
    + intros now. pose proof preserves_settle. solve_preserves.
  - exact typed_NextPending.
  - exact typed_MarkPublished.
  - exact typed_MarkFailedAttempt.
  - exact typed_RequeueOutbox.
  - intros rec _. apply typed_UpsertDeadLetter.
  - exact typed_MarkDeadLetterPublished.
  - exact typed_StartDeadLetterReplay.
  - exact typed_FinishDeadLetterReplay.
  - exact typed_Prune.
Qed.
End Operations.
