(* ===== verification/Invariants.v ===== *)
(** * Invariants of the running system

    Everything here is proved by cases on [step], once, and then holds of every
    process under every schedule by [guar_run]. *)

From stdpp Require Import base strings list gmap relations.
From Stdlib Require Import ZArith Lia.
From S2P Require Import Prelude GoStrings Sha256 Runtime Domain GoJson Codec Schema DeadLetter.
From S2P Require Import StoreOutbox TransactionService StoreTransaction FundingService ConsumerLoop.
From S2P Require Import StoreConsumer StoreLedger StoreFunding StoreDeadLetter Books Guarantees System.
From S2P Require Import Typing.

Open Scope Z_scope.

(** [rtc] preserves what one step preserves. *)
Lemma rtc_stable {A} (R : A -> A -> Prop) (P : A -> Prop) x y :
  (forall a b, R a b -> P a -> P b) -> rtc R x y -> P x -> P y.
Proof. intros HR. induction 1; eauto. Qed.

Lemma rtc_preorder {A} (R Q : A -> A -> Prop) `{!PreOrder Q} x y :
  (forall a b, R a b -> Q a b) -> rtc R x y -> Q x y.
Proof. intros HR. induction 1 as [x|x y z Hxy _ IH]; [done|]. etrans; [by apply HR|done]. Qed.

(** ** Histories: what no process ever takes back *)

(** A settled transaction is final; a pending one changes only by settling. *)
Definition transaction_content (r : transaction_row)
  : string * string * option string * option string * option string * Z * string * string * Z :=
  (t_kind r, t_account_id r, t_merchant_id r, t_funding_source r, t_external_reference r,
   t_amount_cents r, t_currency r, t_correlation_id r, t_created_at r).

Definition transaction_evolves (r r' : transaction_row) : Prop :=
  r' = r \/ (t_status r = TransactionPending /\ t_status r' <> TransactionPending
             /\ transaction_content r' = transaction_content r).

#[export] Instance transaction_evolves_preorder : PreOrder transaction_evolves.
Proof.
  split; [by left|]. intros r1 r2 r3 [->|(Hp1 & Hn1 & Hc1)]; [done|].
  intros [->|(Hp2 & Hn2 & Hc2)]; [by right|congruence].
Qed.

(** An event keeps what it says; once published its row never changes. *)
Definition event_evolves (r r' : outbox_row) : Prop :=
  outbox_content r' = outbox_content r /\ (o_status r = OutboxPublished -> r' = r).

#[export] Instance event_evolves_preorder : PreOrder event_evolves.
Proof.
  split; [by intros r|]. intros r1 r2 r3 [Hc1 Hp1] [Hc2 Hp2]. split; [congruence|].
  intros Hp. rewrite (Hp1 Hp) in *. auto.
Qed.

Definition dead_letter_evolves (r r' : dead_letter_row) : Prop :=
  dead_letter_content r' = dead_letter_content r
  /\ (is_Some (d_kafka_published_at r) -> d_kafka_published_at r' = d_kafka_published_at r).

#[export] Instance dead_letter_evolves_preorder : PreOrder dead_letter_evolves.
Proof.
  split; [by intros r|]. intros r1 r2 r3 [Hc1 Hp1] [Hc2 Hp2]. split; [congruence|].
  intros Hp. specialize (Hp1 Hp). rewrite Hp2; [done|]. by rewrite Hp1.
Qed.

Record history (db db' : DB) : Prop := mk_history {
  hist_transactions : keeps transaction_evolves (db_transactions db) (db_transactions db');
  hist_ledger : keeps eq (db_ledger_entries db) (db_ledger_entries db');
  hist_idempotency : keeps eq (db_idempotency_keys db) (db_idempotency_keys db');
  hist_deposits :
    keeps eq (db_deposit_idempotency_keys db) (db_deposit_idempotency_keys db');
  hist_outbox : keeps event_evolves (db_outbox_events db) (db_outbox_events db');
  hist_dead_letters : keeps dead_letter_evolves (db_dead_letters db) (db_dead_letters db');
}.

#[export] Instance history_preorder : PreOrder history.
Proof.
  split; [by intros db|]. intros db1 db2 db3 [] []. split; by etrans.
Qed.

Lemma claim_tables now d hash claimed db db' :
  claim_effect now d hash claimed db db' ->
  exists t, db' = set_processed_events t db.
Proof. destruct claimed; [intros (h & _ & _ & _ & ->)|intros (r & _ & _ & ->)]; eauto. Qed.

Section Invariants.
Context `{UnicodeTables} `{JsonbSpec} `{Collation}.

(** Settling keeps the row but for its status, and posts fresh entries. *)
Lemma settled_history event now db db' : settled event now db db' -> history db db'.
Proof.
  intros (r & ev & p & db1 & Hset). destruct (ruling _ _) as [[outcome status] ty] eqn:Hrule.
  destruct Hset as (Hid & (Hst & _) & Hpost & _ & _ & _ & _ & _ & _ & _ & _ & Hof & ->).
  assert (Hne : status <> TransactionPending).
  { revert Hrule. unfold ruling. repeat case_match; by intros [= _ <- _]. }
  assert (Hdb1 : exists t, db1 = set_ledger_entries t db /\ keeps eq (db_ledger_entries db) t).
  { destruct (String.eqb status _).
    - destruct Hpost as (id1 & id2 & c & _ & Hl1 & Hl2 & Hne' & _ & ->).
      eexists. split; [done|]. by apply keeps_two_fresh; [apply _|..].
    - subst db1. exists (db_ledger_entries db). split; [by destruct db|done]. }
  destruct Hdb1 as (t & -> & Hl). split; cbn; try done.
  - eapply keeps_update; [apply _|exact Hid|]. right. split_and!; done.
  - by apply keeps_fresh; [apply _|].
Qed.

Lemma step_history db db' : step db db' -> history db db'.
Proof.
  intros [rec ev now ?? _ (cur & hash & json & p & _ & _ & Hf & _ & _ & _ & Hk & _ & _ & Ho & ->)
    |d ev now resp ?? _ (cur & lc & id1 & id2 & act & hash & text & json & p & _ & _ & Hf & _ & _
        & Hl1 & Hl2 & Hne & _ & _ & _ & _ & _ & _ & _ & Hk & _ & _ & Ho & ->)
    |d hash t ev now p ?? _ [tab ->]%claim_tables _ Ho
    |d hash event now ? db1 ? [tab ->]%claim_tables Hs
    |d hash now ?? [tab ->]%claim_tables
    |id r r' ? Hr Hm|id r ? Hf|id r r' ? Hr Hm|lk cutoff batch ?|t ?|t ?].
  - split; cbn; try done; by apply keeps_fresh; [apply _|].
  - split; cbn; try done; try (by apply keeps_fresh; [apply _|]).
    by apply keeps_two_fresh; [apply _|..].
  - split; cbn; try done. by apply keeps_fresh; [apply _|].
  - apply settled_history in Hs. destruct Hs as []; cbn in *. by split.
  - by split.
  - split; cbn; try done. eapply keeps_update; [apply _|exact Hr|]. split.
    + by apply outbox_step_content.
    + intros Hp. by destruct (outbox_step_published _ _ Hm).
  - split; cbn; try done. by apply keeps_fresh; [apply _|].
  - split; cbn; try done. eapply keeps_update; [apply _|exact Hr|]. split.
    + by apply dead_letter_step_content.
    + intros [t Ht]. destruct Hm; cbn; [done| |done]. by rewrite Ht.
  - by split.
  - by split.
  - by split.
Qed.

Lemma steps_history db db' : steps db db' -> history db db'.
Proof. apply rtc_preorder; [apply _|apply step_history]. Qed.

(** A step moves an event along the outbox's state machine, or leaves it. *)
Lemma step_outbox_row db db' id r :
  step db db' -> db_outbox_events db !! id = Some r ->
  db_outbox_events db' !! id = Some r
  \/ exists r', outbox_step r r' /\ db_outbox_events db' !! id = Some r'.
Proof.
  assert (Hfresh : forall (t : gmap string outbox_row) ev row,
    t !! ev = None -> t !! id = Some r -> <[ev := row]> t !! id = Some r).
  { intros t ev row Hn Hr. rewrite lookup_insert_ne; [done|congruence]. }
  intros [rec ev now ?? _ (cur & hash & json & p & _ & _ & _ & _ & _ & _ & _ & _ & _ & Ho & ->)
    |d ev now resp ?? _ (cur & lc & id1 & id2 & act & hash & text & json & p & _ & _ & _ & _ & _
        & _ & _ & _ & _ & _ & _ & _ & _ & _ & _ & _ & _ & _ & Ho & ->)
    |d hash t ev now p ?? _ [tab ->]%claim_tables _ Ho
    |d hash event now ? db1 ? [tab ->]%claim_tables Hs
    |d hash now ?? [tab ->]%claim_tables
    |id' r0 r' ? Hr' Hm| | | | | ] Hr; cbn; try (by left); try (left; by apply Hfresh).
  - left. destruct Hs as (row & ev & p & db2 & Hset). destruct (ruling _ _) as [[outcome status] ty].
    destruct Hset as (_ & _ & Hpost & _ & _ & _ & _ & _ & _ & _ & _ & Hof & ->). cbn.
    rewrite lookup_insert_ne; [|intros Heq; rewrite <- Heq in Hr; cbn in Hof; congruence]. cbn in *.
    destruct (String.eqb status _); [|by subst].
    by destruct Hpost as (? & ? & ? & _ & _ & _ & _ & _ & ->).
  - destruct (decide (id' = id)) as [->|Hne].
    + right. exists r'. rewrite lookup_insert_eq. split; [|done]. congruence.
    + left. by rewrite lookup_insert_ne.
Qed.

(** ** The books *)

Lemma step_books db db' : step db db' -> books db -> books db'.
Proof.
  intros [rec ev now ?? (_ & Hst & _) Hc
    |d ev now resp ?? (_ & Hk & Hst & _) Hd
    |d hash t ev now p ?? _ [tab ->]%claim_tables _ _
    |d hash event now ? db1 ? [tab ->]%claim_tables Hs
    |d hash now ?? [tab ->]%claim_tables
    | | | | | | ] Hbk; try (by eapply books_other; [| |exact Hbk]).
  - by eapply books_created.
  - by eapply books_deposited.
  - eapply books_settled; [|exact Hs]. by eapply books_other; [| |exact Hbk].
Qed.

Lemma steps_books db db' : steps db db' -> books db -> books db'.
Proof. apply rtc_stable, step_books. Qed.

Lemma books_empty : books empty_DB.
Proof.
  split.
  - intros w. done.
  - intros a c _. by vm_compute.
  - intros id r Hr. done.
Qed.

(** ** Announcements: the transactional outbox *)

Definition has_event (db : DB) (id ty : string) : Prop :=
  exists e r, db_outbox_events db !! e = Some r /\ o_aggregate_id r = id /\ o_event_type r = ty.

(** The event that opens a transaction, and the one that closes it. *)
Definition opening (r : transaction_row) : string :=
  if String.eqb (t_kind r) TransactionDeposit then EventFundsDeposited
  else EventTransactionCreated.

Definition closing (r : transaction_row) : option string :=
  if String.eqb (t_kind r) TransactionDeposit || String.eqb (t_status r) TransactionPending
  then None
  else Some (if String.eqb (t_status r) TransactionAuthorized then EventTransactionAuthorized
             else EventTransactionFailed).

Definition announced (db : DB) : Prop :=
  forall id r, db_transactions db !! id = Some r ->
    has_event db id (opening r)
    /\ forall ty, closing r = Some ty -> has_event db id ty.

Lemma has_event_history db db' id ty :
  history db db' -> has_event db id ty -> has_event db' id ty.
Proof.
  intros Hh (e & r & He & Ha & Ht). destruct (hist_outbox _ _ Hh _ _ He) as (r' & He' & Hc & _).
  unfold outbox_content in Hc. injection Hc as Hty Hagg _ _ _ _.
  exists e, r'. split_and!; congruence.
Qed.

Lemma has_event_new db table id row key ty :
  o_aggregate_id row = id -> o_event_type row = ty ->
  has_event (set_outbox_events (<[key := row]> table) db) id ty.
Proof. intros Ha Ht. exists key, row. split; [apply lookup_insert_eq|done]. Qed.

Lemma announced_same db db' :
  db_transactions db' = db_transactions db -> history db db' -> announced db -> announced db'.
Proof.
  intros Ht Hh Ha id r. rewrite Ht. intros [Ho Hc]%Ha. split.
  - by eapply has_event_history.
  - intros ty Hty. by eapply has_event_history, Hc.
Qed.

Lemma announced_put db db' id row :
  history db db' -> db_transactions db' = <[id := row]> (db_transactions db) ->
  has_event db' id (opening row) ->
  (forall ty, closing row = Some ty -> has_event db' id ty) ->
  announced db -> announced db'.
Proof.
  intros Hh Ht Ho Hc Ha id' r'. rewrite Ht, lookup_insert_Some.
  intros [[<- <-]|[_ Hr']]; [done|]. apply Ha in Hr' as [Ho' Hc']. split.
  - by eapply has_event_history.
  - intros ty Hty. by eapply has_event_history, Hc'.
Qed.

Lemma step_announced db db' : step db db' -> announced db -> announced db'.
Proof.
  intros Hstep. pose proof (step_history _ _ Hstep) as Hh. revert Hh.
  destruct Hstep as
    [rec ev now ?? (_ & Hst & _ & _ & _ & Hty & Hagg & _)
      (cur & hash & json & p & _ & _ & _ & _ & _ & _ & _ & _ & _ & _ & ->)
    |d ev now resp ?? (_ & Hk & Hst & _ & Hty & Hagg & _)
      (cur & lc & id1 & id2 & act & hash & text & json & p & _ & _ & _ & _ & _
        & _ & _ & _ & _ & _ & _ & _ & _ & _ & _ & _ & _ & _ & _ & ->)
    |d hash t ev now p ?? _ [tab ->]%claim_tables _ _
    |d hash event now ? db1 ? [tab ->]%claim_tables Hs
    |d hash now ?? [tab ->]%claim_tables
    | | | | | |]; intros Hh Ha; try (by eapply announced_same; [|exact Hh|exact Ha]).
  - eapply announced_put; [exact Hh|done| | |done].
    + by apply has_event_new.
    + intros ty. unfold closing. cbn. by rewrite Hst.
  - eapply announced_put; [exact Hh|done| | |done].
    + apply has_event_new; [done|]. unfold opening. cbn. by rewrite Hk.
    + intros ty. unfold closing. cbn. by rewrite Hk.
  - destruct Hs as (r & ev & p & db2 & Hset). destruct (ruling _ _) as [[outcome status] ty'] eqn:Hr.
    destruct Hset as (Hid & _ & _ & _ & Hty & Hagg & _ & _ & _ & _ & _ & _ & ->).
    assert (Hold := Hid). apply Ha in Hold as [Hop _].
    eapply announced_put; [exact Hh|done| | |done].
    + by eapply has_event_history.
    + intros ty. unfold closing. cbn. case_match eqn:Hcl; [done|]. intros [= <-].
      apply has_event_new; [done|]. cbn. rewrite Hty. revert Hr. unfold ruling.
      repeat case_match; by intros [= _ <- <-].
Qed.

Lemma steps_announced db db' : steps db db' -> announced db -> announced db'.
Proof. apply rtc_stable, step_announced. Qed.

(** ** The rely conditions of the idempotent services *)

#[local] Instance responses_grow_preorder : PreOrder responses_grow.
Proof.
  unfold responses_grow. split; [by intros db|].
  intros db1 db2 db3 [? ?] [? ?]. split; [auto|by etrans].
Qed.

#[local] Instance deposits_grow_preorder : PreOrder deposits_grow.
Proof.
  unfold deposits_grow. split; [by intros db|].
  intros db1 db2 db3 (? & ? & ?) (? & ? & ?). split_and!; [auto|by etrans|auto].
Qed.

Lemma responses_grow_same db db' :
  db_idempotency_keys db' = db_idempotency_keys db -> responses_grow db db'.
Proof.
  intros He. unfold responses_grow, responses_decode, idempotency_view. by rewrite He.
Qed.

Lemma deposits_grow_same db db' :
  db_deposit_idempotency_keys db' = db_deposit_idempotency_keys db -> history db db' ->
  deposits_grow db db'.
Proof.
  intros He Hh. unfold deposits_grow, deposit_responses_decode, deposit_view. rewrite He.
  split_and!; [done..|]. intros src ref cur (id & r & Hr & Hk & Hs & Hx & Hc).
  destruct (hist_transactions _ _ Hh _ _ Hr) as (r' & Hr' & Hev).
  assert (Hcont : transaction_content r' = transaction_content r).
  { destruct Hev as [->|(_ & _ & ?)]; done. }
  unfold transaction_content in Hcont. injection Hcont as ? _ _ ? ? _ ? _ _.
  exists id, r'. split_and!; congruence.
Qed.

Lemma step_responses db db' : step db db' -> responses_grow db db'.
Proof.
  intros [rec ev now ?? (Hst & _) Hc
    |d ev now resp ?? _ (cur & lc & id1 & id2 & act & hash & text & json & p & _ & _ & _ & _ & _
        & _ & _ & _ & _ & _ & _ & _ & _ & _ & _ & _ & _ & _ & _ & ->)
    |d hash t ev now p ?? _ [tab ->]%claim_tables _ _
    |d hash event now ? db1 ? [tab ->]%claim_tables Hs
    |d hash now ?? [tab ->]%claim_tables
    | | | | | |]; try (by apply responses_grow_same).
  - by eapply created_grows.
  - destruct Hs as (r & ev & p & db2 & Hset). destruct (ruling _ _) as [[outcome status] ty'].
    destruct Hset as (_ & _ & Hpost & _ & _ & _ & _ & _ & _ & _ & _ & _ & ->).
    apply responses_grow_same. cbn. destruct (String.eqb status _); [|by subst].
    by destruct Hpost as (? & ? & ? & _ & _ & _ & _ & _ & ->).
Qed.

Lemma step_deposits db db' : step db db' -> deposits_grow db db'.
Proof.
  intros Hstep. pose proof (step_history _ _ Hstep) as Hh. revert Hh.
  destruct Hstep as
    [rec ev now ?? _ (cur & hash & json & p & _ & _ & _ & _ & _ & _ & _ & _ & _ & _ & ->)
    |d ev now resp ?? (Hst & _) Hd
    |d hash t ev now p ?? _ [tab ->]%claim_tables _ _
    |d hash event now ? db1 ? [tab ->]%claim_tables Hs
    |d hash now ?? [tab ->]%claim_tables
    | | | | | |]; intros Hh; try (by apply deposits_grow_same).
  - by eapply deposited_grows.
  - apply deposits_grow_same; [|done].
    destruct Hs as (r & ev & p & db2 & Hset). destruct (ruling _ _) as [[outcome status] ty'].
    destruct Hset as (_ & _ & Hpost & _ & _ & _ & _ & _ & _ & _ & _ & _ & ->).
    cbn. destruct (String.eqb status _); [|by subst].
    by destruct Hpost as (? & ? & ? & _ & _ & _ & _ & _ & ->).
Qed.

Lemma steps_responses db db' : steps db db' -> responses_grow db db'.
Proof. apply rtc_preorder; [apply _|apply step_responses]. Qed.
Lemma steps_deposits db db' : steps db db' -> deposits_grow db db'.
Proof. apply rtc_preorder; [apply _|apply step_deposits]. Qed.

(** ** What an idempotency record stands for *)

(** The payment, or deposit, that the request hashed to. *)
Definition payment_of (r : transaction_row) : Transactions.CreateRequest :=
  Transactions.mk_CreateRequest (t_account_id r) (coalesce_text (t_merchant_id r))
    (t_amount_cents r) (t_currency r).
Definition deposit_of (r : transaction_row) : Funding.DepositRequest :=
  Funding.mk_DepositRequest (t_account_id r) (t_amount_cents r) (t_currency r)
    (coalesce_text (t_funding_source r)) (coalesce_text (t_external_reference r)).

(** Every recorded response names a transaction of the requested kind and
    content. *)
Definition booked (db : DB) : Prop :=
  (forall key h resp, idempotency_view db !! key = Some (h, resp) ->
     exists r, db_transactions db !! Transactions.cr_TransactionID resp = Some r
     /\ t_kind r = TransactionPayment /\ h = Transactions.hashRequest (payment_of r)
     /\ Transactions.valid_request (payment_of r))
  /\ (forall key h resp, deposit_view db !! key = Some (h, resp) ->
     exists r, db_transactions db !! Funding.dr_TransactionID resp = Some r
     /\ t_kind r = TransactionDeposit /\ h = Funding.hashRequest (deposit_of r)).

(** Both clauses follow transactions through their evolution. *)
Lemma kept_content db db' id r :
  history db db' -> db_transactions db !! id = Some r ->
  exists r', db_transactions db' !! id = Some r' /\ t_kind r' = t_kind r
  /\ payment_of r' = payment_of r /\ deposit_of r' = deposit_of r.
Proof.
  intros Hh Hr. destruct (hist_transactions _ _ Hh _ _ Hr) as (r' & Hr' & Hev).
  assert (Hc : transaction_content r' = transaction_content r).
  { destruct Hev as [->|(_ & _ & ?)]; done. }
  unfold transaction_content in Hc. injection Hc as ? ? ? ? ? ? ? _ _.
  exists r'. unfold payment_of, deposit_of. split_and!; congruence.
Qed.

Lemma booked_views db db' :
  history db db' -> idempotency_view db' = idempotency_view db ->
  deposit_view db' = deposit_view db -> booked db -> booked db'.
Proof.
  intros Hh Hv Hd [Hp Hq]. unfold booked. rewrite Hv, Hd. split.
  - intros key h resp (r & Hr & Hk & Hx & Hy)%Hp.
    destruct (kept_content _ _ _ _ Hh Hr) as (r' & Hr' & Hk' & Hp' & _).
    exists r'. rewrite Hp'. split_and!; congruence.
  - intros key h resp (r & Hr & Hk & Hx)%Hq.
    destruct (kept_content _ _ _ _ Hh Hr) as (r' & Hr' & Hk' & _ & Hd').
    exists r'. rewrite Hd'. split_and!; congruence.
Qed.

Lemma booked_payment rec ev now db db' :
  payment_request rec ev -> created rec ev now db db' -> history db db' ->
  booked db -> booked db'.
Proof.
  intros (Hst & _ & Hv & Hhash & Hid & _) Hc Hh [Hp Hq].
  destruct (created_view _ _ _ _ _ Hst Hc) as (Hnew & _ & Hother & _).
  destruct Hc as (cur & hash & json & p & Hcur & _ & _ & _ & _ & _ & _ & _ & _ & _ & Hdb').
  rewrite bpchar_currency in Hcur by apply Hv. injection Hcur as <-. split.
  - intros key h resp Hkey. destruct (decide (key = Transactions.ir_Key rec)) as [->|Hne].
    + rewrite Hnew in Hkey. apply Some_pair_inj in Hkey as [<- <-].
      exists (payment_row now (Transactions.ir_Transaction rec)
                (tx_Currency (Transactions.ir_Transaction rec))).
      rewrite Hid, Hdb'. cbn. by rewrite lookup_insert_eq.
    + assert (Hold : idempotency_view db !! key = Some (h, resp)).
      { rewrite <- Hkey. unfold idempotency_view. rewrite !lookup_omap. by rewrite Hother. }
      apply Hp in Hold as (r & Hr & Hk & Hx & Hy).
      destruct (kept_content _ _ _ _ Hh Hr) as (r' & Hr' & Hk' & Hp' & _).
      exists r'. rewrite Hp'. split_and!; congruence.
  - assert (Hd : deposit_view db' = deposit_view db) by by rewrite Hdb'.
    rewrite Hd. intros key h resp (r & Hr & Hk & Hx)%Hq.
    destruct (kept_content _ _ _ _ Hh Hr) as (r' & Hr' & Hk' & _ & Hd').
    exists r'. rewrite Hd'. split_and!; congruence.
Qed.

Lemma booked_deposit d ev now db db' resp :
  deposit_request d ev -> deposited d ev now db db' resp -> history db db' ->
  booked db -> booked db'.
Proof.
  intros (Hst & Hkind & _ & Hhash & _) Hc Hh [Hp Hq].
  destruct (deposited_view _ _ _ _ _ _ Hst Hc) as (Hnew & _ & Hother & _).
  destruct Hst as (_ & _ & _ & _ & Hcp).
  destruct Hc as (cur & lc & id1 & id2 & act & hash & text & json & p & Hcur & _ & _ & _ & _
    & _ & _ & _ & _ & Hresp & _ & _ & _ & _ & _ & _ & _ & _ & _ & Hdb').
  rewrite bpchar_currency in Hcur by done. injection Hcur as <-. split.
  - assert (Hd : idempotency_view db' = idempotency_view db) by by rewrite Hdb'.
    rewrite Hd. intros key h r0 (r & Hr & Hk & Hx & Hy)%Hp.
    destruct (kept_content _ _ _ _ Hh Hr) as (r' & Hr' & Hk' & Hp' & _).
    exists r'. rewrite Hp'. split_and!; congruence.
  - intros key h r0 Hkey. destruct (decide (key = Funding.dp_IdempotencyKey d)) as [->|Hne].
    + rewrite Hnew in Hkey. apply Some_pair_inj in Hkey as [<- <-].
      exists (deposit_row (Funding.dp_Transaction d) (tx_Currency (Funding.dp_Transaction d))).
      rewrite Hresp, Hdb'. cbn. by rewrite lookup_insert_eq.
    + assert (Hold : deposit_view db !! key = Some (h, r0)).
      { rewrite <- Hkey. unfold deposit_view. rewrite !lookup_omap. by rewrite Hother. }
      apply Hq in Hold as (r & Hr & Hk & Hx).
      destruct (kept_content _ _ _ _ Hh Hr) as (r' & Hr' & Hk' & _ & Hd').
      exists r'. rewrite Hd'. split_and!; congruence.
Qed.

Lemma step_booked db db' : step db db' -> booked db -> booked db'.
Proof.
  intros Hstep. pose proof (step_history _ _ Hstep) as Hh. revert Hh.
  destruct Hstep as
    [rec ev now ?? Hreq Hc|d ev now resp ?? Hreq Hc|d hash t ev now p ?? _ [tab ->]%claim_tables _ _
    |d hash event now ? db1 ? [tab ->]%claim_tables Hs
    |d hash now ?? [tab ->]%claim_tables
    | | | | | |]; intros Hh Hb; try (by eapply booked_views; [exact Hh|..|exact Hb]).
  - by eapply booked_payment.
  - by eapply booked_deposit.
  - destruct Hs as (r & ev & p & db2 & Hset). destruct (ruling _ _) as [[outcome status] ty'].
    destruct Hset as (_ & _ & Hpost & _ & _ & _ & _ & _ & _ & _ & _ & _ & ->).
    assert (Hsame : db_idempotency_keys db2 = db_idempotency_keys db
                    /\ db_deposit_idempotency_keys db2 = db_deposit_idempotency_keys db).
    { destruct (String.eqb status _); [|by subst].
      by destruct Hpost as (? & ? & ? & _ & _ & _ & _ & _ & ->). }
    destruct Hsame as [H1' H2']. eapply booked_views; [exact Hh|..|exact Hb].
    + unfold idempotency_view. cbn. by rewrite H1'.
    + unfold deposit_view. cbn. by rewrite H2'.
Qed.

Lemma steps_booked db db' : steps db db' -> booked db -> booked db'.
Proof. apply rtc_stable, step_booked. Qed.

Lemma booked_empty : booked empty_DB.
Proof. done. Qed.

(** ** A deposit reference is used once *)

Definition references_unique (db : DB) : Prop :=
  unique same_deposit_reference (db_transactions db).

Lemma step_references db db' : step db db' -> references_unique db -> references_unique db'.
Proof.
  intros [rec ev now ?? _ (cur & hash & json & p & _ & _ & _ & _ & _ & _ & _ & _ & _ & _ & ->)
    |d ev now resp ?? _ (cur & lc & id1 & id2 & act & hash & text & json & p & _ & _ & _ & Hfresh & _
        & _ & _ & _ & _ & _ & _ & _ & _ & _ & _ & _ & _ & _ & _ & ->)
    |d hash t ev now p ?? _ [tab ->]%claim_tables _ _
    |d hash event now ? db1 ? [tab ->]%claim_tables Hs
    |d hash now ?? [tab ->]%claim_tables
    | | | | | |] Hu; try exact Hu.
  - by apply unique_put; [apply same_reference_sym| |exact Hu].
  - apply unique_put; [apply same_reference_sym| |exact Hu]. intros id' r' _. apply Hfresh.
  - destruct Hs as (r & ev & p & db2 & Hset). destruct (ruling _ _) as [[outcome status] ty'].
    destruct Hset as (Hid & _ & _ & _ & _ & _ & _ & _ & _ & _ & _ & _ & ->).
    eapply unique_update; [apply same_reference_sym|exact Hid|done|exact Hu].
Qed.

Lemma steps_references db db' : steps db db' -> references_unique db -> references_unique db'.
Proof. apply rtc_stable, step_references. Qed.
End Invariants.
