(* ===== verification/PaymentEvents.v ===== *)
(** * Every payment's event says what the payment is

    An evaluation stored as [jsonb] and decoded by the ledger service is the
    evaluation that was made ([stored_RiskEvaluated]).  A payment
    marshalled by [domain.Transaction], stored as [jsonb] and decoded by a
    consumer is the payment that was made ([stored_payment]); hence every
    payment of a reachable database has an outbox event from which the risk
    service reads that very payment ([payments_ready]). *)

From stdpp Require Import base strings list gmap relations.
From Stdlib Require Import ZArith Lia.
From S2P Require Import Prelude GoStrings Sha256 Runtime Domain GoJson GoTime Codec Schema.
From S2P Require Import StoreOutbox TransactionService StoreTransaction FundingService ConsumerLoop.
From S2P Require Import RiskService StoreConsumer StoreLedger StoreFunding Guarantees System Invariants.

Open Scope Z_scope.

(** ** The event's payload *)

Definition plain_payment (t : Transaction) : bool :=
  plain (tx_ID t) && plain (tx_Kind t) && plain (tx_AccountID t)
  && plain (tx_MerchantID t) && nonempty (tx_MerchantID t) && in_int64 (tx_AmountCents t)
  && plain (tx_Currency t) && plain (tx_Status t) && plain (tx_CorrelationID t).

Definition payment_members (t : Transaction) : list member :=
  [(string_field "id" (tx_ID t), JStr (tx_ID t));
   (string_field "kind" (tx_Kind t), JStr (tx_Kind t));
   (string_field "account_id" (tx_AccountID t), JStr (tx_AccountID t));
   (string_field "merchant_id" (tx_MerchantID t), JStr (tx_MerchantID t));
   (int_field "amount_cents" (tx_AmountCents t), JNum (FormatInt (tx_AmountCents t)));
   (string_field "currency" (tx_Currency t), JStr (tx_Currency t));
   (string_field "status" (tx_Status t), JStr (tx_Status t));
   (string_field "correlation_id" (tx_CorrelationID t), JStr (tx_CorrelationID t));
   (time_field "created_at" (tx_CreatedAt t), JStr (format_rfc3339_nano (tx_CreatedAt t)));
   (time_field "updated_at" (tx_UpdatedAt t), JStr (format_rfc3339_nano (tx_UpdatedAt t)))].

Definition payment_updates (t : Transaction) : list (Transaction -> Transaction) :=
  let mk := mk_Transaction in
  [fun '(mk_Transaction a b c d e f g h i j k l m n) => mk (tx_ID t) b c d e f g h i j k l m n;
   fun '(mk_Transaction a b c d e f g h i j k l m n) => mk a (tx_Kind t) c d e f g h i j k l m n;
   fun '(mk_Transaction a b c d e f g h i j k l m n) =>
     mk a b (tx_AccountID t) d e f g h i j k l m n;
   fun '(mk_Transaction a b c d e f g h i j k l m n) =>
     mk a b c (tx_MerchantID t) e f g h i j k l m n;
   fun '(mk_Transaction a b c d e f g h i j k l m n) =>
     mk a b c d e f (tx_AmountCents t) h i j k l m n;
   fun '(mk_Transaction a b c d e f g h i j k l m n) =>
     mk a b c d e f g (tx_Currency t) i j k l m n;
   fun '(mk_Transaction a b c d e f g h i j k l m n) => mk a b c d e f g h (tx_Status t) j k l m n;
   fun '(mk_Transaction a b c d e f g h i j k l m n) =>
     mk a b c d e f g h i j k (tx_CorrelationID t) m n;
   fun '(mk_Transaction a b c d e f g h i j k l m n) =>
     mk a b c d e f g h i j k l (tx_CreatedAt t) n;
   fun '(mk_Transaction a b c d e f g h i j k l m n) =>
     mk a b c d e f g h i j k l m (tx_UpdatedAt t)].

Definition RiskEvaluated_updates (r : RiskEvaluated) : list (RiskEvaluated -> RiskEvaluated) :=
  [fun '(mk_RiskEvaluated a b c d e f g h) => mk_RiskEvaluated (rk_TransactionID r) b c d e f g h;
   fun '(mk_RiskEvaluated a b c d e f g h) => mk_RiskEvaluated a (rk_AccountID r) c d e f g h;
   fun '(mk_RiskEvaluated a b c d e f g h) => mk_RiskEvaluated a b (rk_AmountCents r) d e f g h;
   fun '(mk_RiskEvaluated a b c d e f g h) => mk_RiskEvaluated a b c (rk_Currency r) e f g h;
   fun '(mk_RiskEvaluated a b c d e f g h) => mk_RiskEvaluated a b c d (rk_RiskLevel r) f g h;
   fun '(mk_RiskEvaluated a b c d e f g h) => mk_RiskEvaluated a b c d e (rk_Approved r) g h;
   fun '(mk_RiskEvaluated a b c d e f g h) => mk_RiskEvaluated a b c d e f (rk_Reason r) h;
   fun '(mk_RiskEvaluated a b c d e f g h) => mk_RiskEvaluated a b c d e f g (rk_CorrelationID r)].

Section Ready.
Context `{UnicodeTables} `{JsonbSpec} `{Collation}.

(** The event of a payment decodes to the payment. *)
Lemma stored_payment t text json :
  payment_shape t -> plain_payment t = true -> marshal_Transaction t = Ok text ->
  jsonb text = Some json -> unmarshal_Transaction json = Some t.
Proof.
  intros (_ & _ & Hfs & Her & Hrl & Hrr) Ht Hm Hj. unfold plain_payment in Ht. destruct_bools.
  unfold marshal_Transaction in Hm. destruct (_ && _) eqn:Htimes; [|done]. destruct_bools.
  destruct (stored_object Transaction_struct zero_Transaction (payment_members t)
    (payment_updates t) t) as (out & Hout & Hdec);
    [solve_flat|by vm_compute|solve_performs_all|solve_commute payment_updates| |].
  { destruct t; cbn in *; congruence. }
  enough (Htext : encode_object (map member_text (payment_members t)) = text).
  { rewrite Htext, Hj in Hout. injection Hout as <-. exact Hdec. }
  injection Hm as <-. unfold omitempty. rewrite Hfs, Her, Hrl, Hrr.
  by replace (nonempty (tx_MerchantID t)) with true.
Qed.

(** An evaluation read back from the [jsonb] column is the one written. *)
Lemma stored_RiskEvaluated r json :
  plain_RiskEvaluated r = true -> jsonb (marshal_RiskEvaluated r) = Some json ->
  unmarshal_RiskEvaluated json = Some r.
Proof.
  unfold plain_RiskEvaluated. intros Hr Hj. destruct_bools.
  destruct (stored_object RiskEvaluated_struct zero_RiskEvaluated (RiskEvaluated_members r)
    (RiskEvaluated_updates r) r) as (out & Hout & Hdec);
    [solve_flat|by vm_compute|solve_performs_all| |by destruct r|].
  { solve_commute RiskEvaluated_updates. }
  change (encode_object (map member_text (RiskEvaluated_members r)))
    with (marshal_RiskEvaluated r) in Hout.
  rewrite Hj in Hout. injection Hout as <-. exact Hdec.
Qed.

(** ** The invariant *)

(** Event [ev] tells the risk service about the payment [id], stored as [r]. *)
Definition carries_payment (db : DB) (id : string) (r : transaction_row) (ev : string)
  (row : outbox_row) : Prop :=
  db_outbox_events db !! ev = Some row /\ o_event_type row = EventTransactionCreated
  /\ safeTokenPattern ev = true
  /\ exists t, unmarshal_Transaction (o_payload row) = Some t
     /\ tx_ID t = id /\ tx_AccountID t = t_account_id r /\ tx_AmountCents t = t_amount_cents r
     /\ tx_Currency t = t_currency r /\ tx_CorrelationID t = t_correlation_id r.

Definition carried (db : DB) (id : string) (r : transaction_row) : Prop :=
  t_kind r = TransactionPayment ->
  safeTokenPattern id = true /\ in_int64 (t_amount_cents r) = true
  /\ exists ev row, carries_payment db id r ev row.

Definition payments_ready (db : DB) : Prop :=
  forall id r, db_transactions db !! id = Some r -> carried db id r.

(** Events keep their content. *)
Lemma carries_payment_history db db' id r r' ev row :
  history db db' -> transaction_content r' = transaction_content r ->
  carries_payment db id r ev row ->
  exists row', carries_payment db' id r' ev row' /\ outbox_content row' = outbox_content row.
Proof.
  intros Hh Hc (He & Hty & Hsafe & t & Hdec & Hid & Ha & Hm & Hcur & Hcorr).
  unfold transaction_content in Hc. injection Hc as _ ? _ _ _ ? ? ? _.
  destruct (hist_outbox _ _ Hh _ _ He) as (row' & He' & Hcont & _). exists row'.
  split; [|exact Hcont]. unfold outbox_content in Hcont. injection Hcont as Hty' _ _ _ Hp' _.
  split_and!; [done|congruence|done|]. exists t. rewrite Hp'. split_and!; congruence.
Qed.

Lemma carried_history db db' id r r' :
  history db db' -> transaction_content r' = transaction_content r ->
  carried db id r -> carried db' id r'.
Proof.
  intros Hh Hc Hr Hk. assert (Hc' := Hc). unfold transaction_content in Hc'.
  injection Hc' as Hk' _ _ _ _ Ha' _ _ _. rewrite Hk' in Hk.
  destruct (Hr Hk) as (Hid & Ha & ev & row & Hcarries). split; [done|]. split; [by rewrite Ha'|].
  destruct (carries_payment_history _ _ _ _ _ _ _ Hh Hc Hcarries) as (row' & ? & _). eauto.
Qed.

Lemma payments_ready_same db db' :
  db_transactions db' = db_transactions db -> history db db' ->
  payments_ready db -> payments_ready db'.
Proof.
  intros Ht Hh Hp id r. rewrite Ht. intros Hr%Hp. by eapply carried_history.
Qed.

Lemma payments_ready_put db db' id row :
  history db db' -> db_transactions db' = <[id := row]> (db_transactions db) ->
  carried db' id row -> payments_ready db -> payments_ready db'.
Proof.
  intros Hh Ht Hrow Hp id' r'. rewrite Ht, lookup_insert_Some.
  intros [[<- <-]|[_ Hr'%Hp]]; [done|]. by eapply carried_history.
Qed.

(** A new payment comes with its event. *)
Lemma created_carries rec ev now db db' :
  payment_request rec ev -> created rec ev now db db' ->
  let t := Transactions.ir_Transaction rec in
  let r := payment_row now t (tx_Currency t) in
  exists row, db_transactions db' = <[tx_ID t := r]> (db_transactions db)
  /\ db_outbox_events db' = <[ev_ID ev := row]> (db_outbox_events db)
  /\ t_kind r = TransactionPayment /\ t_status r = TransactionPending
  /\ safeTokenPattern (tx_ID t) = true /\ in_int64 (t_amount_cents r) = true
  /\ db_dead_letters db' = db_dead_letters db /\ carries_payment db' (tx_ID t) r (ev_ID ev) row.
Proof.
  intros (_ & Hst & Hv & _ & _ & Hty & _ & _ & Hm & Hshape & Hsafe & Hamt)
    (cur & hash & json & p & Hcur & Hck & _ & _ & _ & _ & _ & Hp & _ & _ & ->). cbn zeta.
  rewrite bpchar_currency in Hcur by apply Hv. injection Hcur as <-.
  apply transaction_checks_inv in Hck as (_ & _ & Hcorr & _). cbn in Hcorr.
  destruct Hv as (Ha & _ & _ & Hmer & Hcurr & _). cbn in Ha, Hmer, Hcurr.
  assert (Hshape' := Hshape). destruct Hshape' as (Hk & Hid & _).
  exists (outbox_row_of now ev p). split_and!; try done.
  split; [apply lookup_insert_eq|]. split_and!; [done|done|].
  exists (Transactions.ir_Transaction rec). split_and!; [|done..].
  eapply stored_payment; [done| |exact Hm|exact Hp]. unfold plain_payment.
  rewrite Hamt, Hk, Hst, (safeToken_plain _ Hid), (safeToken_plain _ Ha),
    (safeToken_plain _ Hmer), (safeToken_plain _ Hcorr), (currency_plain _ Hcurr).
  apply safeToken_nonempty in Hmer. by destruct (tx_MerchantID (Transactions.ir_Transaction rec)).
Qed.

(** A deposit brings one transaction, which is no payment, and one event. *)
Lemma deposited_tables d ev now db db' resp :
  deposit_request d ev -> deposited d ev now db db' resp ->
  exists r row,
  db_transactions db' = <[tx_ID (Funding.dp_Transaction d) := r]> (db_transactions db)
  /\ t_kind r = TransactionDeposit
  /\ db_outbox_events db' = <[ev_ID ev := row]> (db_outbox_events db)
  /\ o_event_type row = EventFundsDeposited /\ db_dead_letters db' = db_dead_letters db.
Proof.
  intros (_ & Hk & _ & _ & Hty & _)
    (cur & lc & id1 & id2 & act & hash & text & json & p & _ & _ & _ & _ & _ & _ & _ & _ & _
     & _ & _ & _ & _ & _ & _ & _ & _ & _ & _ & ->).
  exists (deposit_row (Funding.dp_Transaction d) cur), (outbox_row_of now ev p).
  split_and!; done.
Qed.

(** A settlement finalizes the payment it names and brings one event. *)
Lemma settled_tables event now db db' :
  settled event now db db' ->
  exists r ev row outcome status ty,
  let id := rk_TransactionID event in
  let r' := finalized r status (rk_RiskLevel outcome) (rk_Reason outcome) now in
  ruling event (account_balance (t_account_id r) (t_currency r) db) = (outcome, status, ty)
  /\ db_transactions db !! id = Some r
  /\ db_transactions db' = <[id := r']> (db_transactions db)
  /\ db_outbox_events db' = <[ev := row]> (db_outbox_events db)
  /\ o_event_type row = ty /\ db_dead_letters db' = db_dead_letters db.
Proof.
  intros (r & ev & p & db1 & Hset). destruct (ruling _ _) as [[outcome status] ty] eqn:Hrule.
  destruct Hset as (Hid & _ & Hpost & _ & Hty & _ & _ & _ & _ & _ & _ & _ & ->).
  assert (db_dead_letters db1 = db_dead_letters db).
  { destruct (String.eqb status _); [|by subst].
    by destruct Hpost as (? & ? & ? & _ & _ & _ & _ & _ & ->). }
  exists r, (ev_ID ev), (outbox_row_of now ev p), outcome, status, ty. split_and!; done.
Qed.

Lemma step_payments_ready db db' : step db db' -> payments_ready db -> payments_ready db'.
Proof.
  intros Hstep. pose proof (step_history _ _ Hstep) as Hh. revert Hh.
  destruct Hstep as
    [rec ev now ?? Hreq Hc|d ev now resp ?? Hreq Hc
    |d hash t ev now p ?? _ [tab ->]%claim_tables _ _
    |d hash event now ? db1 ? [tab ->]%claim_tables Hs
    |d hash now ?? [tab ->]%claim_tables
    | | | | | |]; intros Hh Hp; try (by eapply payments_ready_same; [|exact Hh|exact Hp]).
  - destruct (created_carries _ _ _ _ _ Hreq Hc) as (row & Ht & _ & _ & _ & Hid & Hamt & _ & Hcarry).
    eapply payments_ready_put; [exact Hh|exact Ht| |exact Hp]. intros _. eauto.
  - destruct (deposited_tables _ _ _ _ _ _ Hreq Hc) as (r & row & Ht & Hk & _).
    eapply payments_ready_put; [exact Hh|exact Ht| |exact Hp]. intros Hpay.
    rewrite Hk in Hpay. discriminate Hpay.
  - destruct (settled_tables _ _ _ _ Hs) as (r & ev & row & outcome & status & ty & _ & Hid & Ht & _).
    eapply payments_ready_put; [exact Hh|exact Ht| |exact Hp].
    eapply carried_history; [exact Hh| |by apply Hp]. done.
Qed.

Lemma steps_payments_ready db db' : steps db db' -> payments_ready db -> payments_ready db'.
Proof. apply rtc_stable, step_payments_ready. Qed.

Lemma payments_ready_empty : payments_ready empty_DB.
Proof. by intros id r. Qed.
End Ready.
