(* ===== verification/Progress.v ===== *)
(** * When the consumers' database transactions succeed

    In a quiet world: which rows and fresh identifiers make the claim of an
    event, the evaluation of a payment and its settlement go through. *)

From stdpp Require Import base strings list gmap relations.
From Stdlib Require Import ZArith Lia Ascii.
From S2P Require Import Prelude GoStrings Sha256 Runtime Quiet Domain GoJson Codec Schema.
From S2P Require Import ConsumerLoop RiskService LedgerService StoreOutbox StoreConsumer StoreLedger.

Open Scope Z_scope.

(** ** Texts of an evaluation *)

Lemma clean_app s t : clean (s +:+ t) = clean s && clean t.
Proof. apply string_forall_app. Qed.
Lemma clean_quote s : clean (quote s) = clean s.
Proof.
  change (clean (String dquote (s +:+ String dquote EmptyString)) = clean s).
  cbn. fold (clean (s +:+ String dquote EmptyString)). rewrite clean_app. apply andb_true_r.
Qed.
Lemma clean_member k v : plain k = true -> clean v = true -> clean (encode_member (k, v)) = true.
Proof.
  intros Hk Hv. unfold encode_member. cbn [fst snd].
  by rewrite !clean_app, clean_quote, (plain_clean _ Hk), Hv.
Qed.
Lemma clean_string v : plain v = true -> clean (encode_string v) = true.
Proof. intros Hv. unfold encode_string. by rewrite clean_quote, escape_plain, plain_clean. Qed.
Lemma clean_int z : clean (FormatInt z) = true.
Proof. apply plain_clean, safe_plain, FormatInt_safe. Qed.
Lemma clean_bool b : clean (encode_bool b) = true.
Proof. by destruct b. Qed.

Lemma clean_evaluation r : plain_RiskEvaluated r = true -> clean (marshal_RiskEvaluated r) = true.
Proof.
  unfold plain_RiskEvaluated. intros Hr. destruct_bools.
  unfold marshal_RiskEvaluated, encode_object. cbn [map Join].
  rewrite !clean_app. unfold string_field, int_field, bool_field.
  rewrite !clean_member by (done || auto using clean_string, clean_int, clean_bool). done.
Qed.

Section Runs.
Context `{JsonbSpec}.
Implicit Types (w : World DB).

(** The delivery of an event the consumer did not process yet. *)
Record deliverable (d : Delivery) (db : DB) : Prop := mk_deliverable {
  dv_consumer : safeTokenPattern (dl_ConsumerName d) = true;
  dv_event : safeTokenPattern (dl_EventID d) = true;
  dv_topic : text_ok (dl_SourceTopic d) = true;
  dv_partition : int4_min <= dl_SourcePartition d <= int4_max;
  dv_new : db_processed_events db !! delivery_key d = None;
}.

Definition claim (now : Z) (d : Delivery) (payload : string) (db : DB) : DB :=
  set_processed_events
    (<[delivery_key d := claimed_row now d (sha256_hex payload)]> (db_processed_events db)) db.

Lemma claim_run now d payload w :
  w_sched w = [] -> deliverable d (w_store w) ->
  claimProcessedEvent now d (sha256_hex payload) w
  = (Ok true, set_store (claim now d payload (w_store w)) w).
Proof.
  intros Hq [Hcn Hev Htopic Hpart Hnew]. unfold claimProcessedEvent.
  assert (Hrun : statement (fun _ db => exec db (insert_processed now d (sha256_hex payload) db)) w
    = (Ok true, set_store (claim now d payload (w_store w)) w)).
  { apply statement_quiet; [done|]. unfold insert_processed.
    rewrite with_texts_run by (repeat constructor; auto using token_text, sha256_text).
    unfold with_int4. rewrite (proj2 (within_iff _ _ _)) by done.
    rewrite bpchar_sha256 by apply sha256_hex_pattern. cbn [obind_ok].
    rewrite checked_true by (repeat constructor; cbn; auto using sha256_hex_pattern).
    fold (delivery_key d). by rewrite Hnew. }
  by run Hrun.
Qed.

Lemma insertOutbox_run now ev json w :
  w_sched w = [] ->
  Forall (fun s => text_ok s = true)
    [ev_ID ev; ev_Type ev; ev_AggregateID ev; ev_PartitionKey ev; ev_CorrelationID ev;
     ev_Payload ev; ev_Status ev] ->
  jsonb (ev_Payload ev) = Some json ->
  Forall (fun c => c.2 = true) (outbox_checks (outbox_row_of now ev json)) ->
  db_outbox_events (w_store w) !! ev_ID ev = None ->
  insertOutbox now ev w
  = (Ok tt, set_store (set_outbox_events
       (<[ev_ID ev := outbox_row_of now ev json]> (db_outbox_events (w_store w))) (w_store w)) w).
Proof.
  intros Hq Ht Hj Hc Hf. apply statement_quiet; [done|]. rewrite with_texts_run by done.
  unfold jsonb_in. rewrite Hj. unfold insert_outbox_event. rewrite checked_true by done.
  unfold fresh_key. by rewrite Hf.
Qed.

(** The row of an event about an evaluation. *)
Definition storable_event (ev : OutboxEvent) (r : RiskEvaluated) : Prop :=
  safeTokenPattern (ev_ID ev) = true
  /\ one_of (ev_Type ev) [EventRiskEvaluated; EventTransactionAuthorized; EventTransactionFailed]
     = true
  /\ safeTokenPattern (ev_AggregateID ev) = true /\ safeTokenPattern (ev_PartitionKey ev) = true
  /\ safeTokenPattern (ev_CorrelationID ev) = true
  /\ plain_RiskEvaluated r = true /\ ev_Payload ev = marshal_RiskEvaluated r
  /\ ev_Status ev = OutboxPending.

Lemma jsonb_evaluation r : plain_RiskEvaluated r = true ->
  exists json, jsonb (marshal_RiskEvaluated r) = Some json.
Proof.
  unfold plain_RiskEvaluated. intros Hr. destruct_bools.
  destruct (jsonb_object (RiskEvaluated_members r)) as (out & _ & Hout & _);
    [solve_flat|by apply (bool_decide_unpack (NoDup _)); vm_compute|].
  by exists out.
Qed.

Lemma insert_event_run now ev r w :
  w_sched w = [] -> storable_event ev r -> db_outbox_events (w_store w) !! ev_ID ev = None ->
  exists json, insertOutbox now ev w
  = (Ok tt, set_store (set_outbox_events
       (<[ev_ID ev := outbox_row_of now ev json]> (db_outbox_events (w_store w))) (w_store w)) w).
Proof.
  intros Hq (Hid & Hty & Hagg & Hkey & Hcorr & Hr & Hp & Hst) Hf.
  destruct (jsonb_evaluation r Hr) as [json Hj]. exists json.
  assert (Htype : text_ok (ev_Type ev) = true
    /\ one_of (ev_Type ev) ["TransactionCreated"; "RiskEvaluated"; "TransactionAuthorized";
                            "TransactionFailed"; "FundsDeposited"] = true).
  { cbn in Hty. rewrite !orb_true_iff, !String.eqb_eq in Hty.
    by destruct Hty as [->|[->|[->|?]]]. }
  apply insertOutbox_run; [done| |by rewrite Hp| |done].
  - rewrite Hp, Hst. repeat constructor; auto using token_text, clean_text, clean_evaluation.
    apply Htype.
  - cbn [outbox_row_of o_attempts]. unfold outbox_checks. cbn. rewrite Hst.
    repeat constructor; [done|apply Htype].
Qed.

(** ** The risk service *)

Definition next_id (prefix : string) w (k : nat) : string :=
  id_of prefix (w_entropy w (w_drawn w + k)%nat).

Lemma next_id_safe prefix w k : prefix = "evt" \/ prefix = "le" ->
  safeTokenPattern (next_id prefix w k) = true.
Proof. by intros [->| ->]; apply id_of_safe. Qed.

Lemma SaveConsumerOutbox_run d payload ev r w :
  w_sched w = [] -> deliverable d (w_store w) -> storable_event ev r ->
  db_outbox_events (w_store w) !! ev_ID ev = None ->
  exists w', SaveConsumerOutbox d (sha256_hex payload) ev w = (Ok true, w') /\ w_sched w' = [].
Proof.
  intros Hq Hd Hev Hf. pose proof (claim_run (w_clock w) d payload w Hq Hd) as Hclaim.
  set (w1 := set_store _ w) in Hclaim.
  destruct (insert_event_run (w_clock w) ev r w1 Hq Hev Hf) as [json Hi].
  eexists. split; [|shelve]. apply transact_quiet; [done| |shelve].
  run Hclaim. cbn [negb]. run Hi. done. Unshelve. all: done.
Qed.

(** The texts of an evaluation the services can store. *)
Definition storable_evaluation (r : RiskEvaluated) : Prop :=
  safeTokenPattern (rk_TransactionID r) = true /\ safeTokenPattern (rk_AccountID r) = true
  /\ safeTokenPattern (rk_CorrelationID r) = true /\ plain_RiskEvaluated r = true.

Lemma risk_run d payload t w :
  w_sched w = [] -> deliverable d (w_store w) ->
  unmarshal_Transaction payload = Some t -> Risk.incomplete t = false ->
  storable_evaluation (Risk.evaluated t) ->
  db_outbox_events (w_store w) !! next_id "evt" w 0 = None ->
  exists w', Risk.HandleTransactionCreated d payload w = (Ok tt, w') /\ w_sched w' = [].
Proof.
  intros Hq Hd Hdec Hin (Hid & Ha & Hc & Hpl) Hf. unfold next_id in Hf. rewrite Nat.add_0_r in Hf.
  pose proof (NewOutboxEvent_run EventRiskEvaluated (tx_ID t) (tx_AccountID t)
    (tx_CorrelationID t) (marshal_RiskEvaluated (Risk.evaluated t)) w) as Hev.
  set (ev := mk_OutboxEvent _ _ _ _ _ _ _ _ _ _) in Hev.
  assert (Hs : storable_event ev (Risk.evaluated t)).
  { split_and!; try done. by apply id_of_safe. }
  destruct (SaveConsumerOutbox_run d payload ev _ (set_drawn (Datatypes.S (w_drawn w)) w) Hq Hd Hs Hf)
    as (w' & Hsave & Hq').
  exists w'. split; [|done]. unfold Risk.HandleTransactionCreated, Risk.hashPayload.
  rewrite Hdec, Hin. run Hev. by run Hsave.
Qed.

(** ** The ledger service *)

(** The next identifiers drawn are new to the tables they go to. *)
Definition fresh_draws w : Prop :=
  (forall k, (k <= 2)%nat -> db_outbox_events (w_store w) !! next_id "evt" w k = None)
  /\ (forall k, (k <= 1)%nat -> db_ledger_entries (w_store w) !! next_id "le" w k = None)
  /\ next_id "le" w 0 <> next_id "le" w 1.

(** A pending payment the event describes, without entries, on an account whose
    balance fits an [int64]. *)
Record settleable (event : RiskEvaluated) (r : transaction_row) (db : DB) : Prop := mk_settleable {
  st_row : db_transactions db !! rk_TransactionID event = Some r;
  st_match : settles event r;
  st_checks : Forall (fun c => c.2 = true) (transaction_checks r);
  st_event : storable_evaluation event;
  st_level : rk_RiskLevel event = (if rk_Approved event then RiskLow else RiskHigh);
  st_books : forall id l, db_ledger_entries db !! id = Some l ->
    l_transaction_id l <> rk_TransactionID event;
  st_balance : in_int64 (account_balance (t_account_id r) (t_currency r) db) = true;
}.

(** The columns of [r] that [lockPendingTransaction] scans. *)
Definition locked_transaction (id : string) (r : transaction_row) : Transaction :=
  mk_Transaction id EmptyString (t_account_id r) EmptyString EmptyString EmptyString
    (t_amount_cents r) (t_currency r) (t_status r) EmptyString EmptyString
    (t_correlation_id r) 0 0.

Lemma lock_run event r w :
  w_sched w = [] -> settleable event r (w_store w) ->
  lockPendingTransaction event w = (Ok (locked_transaction (rk_TransactionID event) r), w).
Proof.
  intros Hq [Hr (Hst & Ha & Hm & Hc) _ (Hid & _) _ _ _]. unfold lockPendingTransaction.
  assert (Hrun : statement (fun _ db => (with_texts [rk_TransactionID event]
      (Ok (db_transactions db !! rk_TransactionID event)), db)) w = (Ok (Some r), w)).
  { rewrite <- (set_store_same w) at 2. apply statement_quiet; [done|].
    rewrite with_texts_run by (repeat constructor; by apply token_text). by rewrite Hr. }
  run Hrun. unfold locked_transaction. cbn [tx_Status tx_AccountID tx_AmountCents tx_Currency].
  rewrite Hst, Ha, Hm, Hc, !String.eqb_refl, Z.eqb_refl. done.
Qed.

Lemma settleable_texts event r db :
  settleable event r db ->
  text_ok (rk_TransactionID event) = true /\ text_ok (t_account_id r) = true
  /\ text_ok (t_currency r) = true.
Proof.
  intros [_ _ Hck (Hid & _) _ _ _]. apply transaction_checks_inv in Hck as (Ha & _ & _ & Hc & _).
  auto using token_text, currency_text.
Qed.

Lemma funds_run event r w :
  w_sched w = [] -> settleable event r (w_store w) ->
  ensureAvailableFunds (locked_transaction (rk_TransactionID event) r) w
  = (if account_balance (t_account_id r) (t_currency r) (w_store w) <? t_amount_cents r
     then Err (ESentinel domain_ErrInsufficientFunds) else Ok tt, w).
Proof.
  intros Hq Hs. destruct (settleable_texts _ _ _ Hs) as (_ & Ha & Hc).
  unfold ensureAvailableFunds, locked_transaction. cbn [tx_AccountID tx_Currency tx_AmountCents].
  assert (Hlock : lockAccountBalance (t_account_id r) (t_currency r) w = (Ok tt, w)).
  { rewrite <- (set_store_same w) at 2. apply statement_quiet; [done|].
    by rewrite with_texts_run by auto. }
  assert (Hquery : queryBalance (t_account_id r) (t_currency r) w
    = (Ok (account_balance (t_account_id r) (t_currency r) (w_store w)), w)).
  { rewrite <- (set_store_same w) at 3. apply statement_quiet; [done|].
    rewrite with_texts_run by auto. unfold scan_int64. by rewrite (st_balance _ _ _ Hs). }
  run Hlock. run Hquery. by destruct (_ <? _).
Qed.

(** An entry of a transaction that has none for the account yet. *)
Lemma entry_run id l db :
  safeTokenPattern (l_account_id l) = true -> l_amount_cents l <> 0 ->
  currencyPattern (l_currency l) = true -> db_ledger_entries db !! id = None ->
  (forall id' l', db_ledger_entries db !! id' = Some l' ->
     l_transaction_id l <> l_transaction_id l' \/ l_account_id l <> l_account_id l') ->
  is_Some (db_transactions db !! l_transaction_id l) ->
  insert_ledger_entry id l db = Ok (set_ledger_entries (<[id := l]> (db_ledger_entries db)) db).
Proof.
  intros Ha Hm Hc Hf Hu [r Hr]. unfold insert_ledger_entry.
  rewrite checked_true.
  2: { repeat constructor; cbn; [done| |done]. by apply negb_true_iff, Z.eqb_neq. }
  unfold fresh_key. rewrite Hf. rewrite (proj2 (map_existsb_false _ _)).
  - unfold references. by rewrite Hr.
  - intros id' l' Hl'. apply andb_false_iff.
    destruct (Hu id' l' Hl') as [Hne|Hne]; [left|right]; by apply String.eqb_neq.
Qed.

Lemma pair_run now id1 id2 event r w :
  w_sched w = [] -> settleable event r (w_store w) ->
  safeTokenPattern id1 = true -> safeTokenPattern id2 = true ->
  db_ledger_entries (w_store w) !! id1 = None -> db_ledger_entries (w_store w) !! id2 = None ->
  id1 <> id2 ->
  insertLedgerPair now id1 id2 (rk_TransactionID event) (t_account_id r) (- t_amount_cents r)
    "clearing" (t_amount_cents r) (t_currency r) w
  = (Ok tt, set_store (ledger_pair now id1 id2 (rk_TransactionID event) (t_account_id r)
       (- t_amount_cents r) "clearing" (t_amount_cents r) (t_currency r) (w_store w)) w).
Proof.
  intros Hq Hs Hs1 Hs2 Hf1 Hf2 Hne. destruct (settleable_texts _ _ _ Hs) as (Hid & Ha & Hc).
  destruct Hs as [Hr _ Hck _ _ Hbooks _].
  apply transaction_checks_inv in Hck as (Hsa & Hm & _ & Hsc & Hcl & _).
  apply statement_quiet; [done|].
  rewrite with_texts_run by (repeat constructor; auto using token_text).
  rewrite bpchar_currency by done. cbn [obind_ok].
  rewrite entry_run; [|done|cbn; lia|done|done| |by exists r]; cbn [obind_ok].
  2: { intros id' l' Hl'. left. cbn. intros Heq. by apply (Hbooks id' l'). }
  rewrite entry_run; [done|done|cbn; lia|done| | |by exists r].
  - by apply lookup_insert_None.
  - intros id' l'. cbn. rewrite lookup_insert_Some. intros [[_ <-]|[_ Hl']].
    + right. cbn. congruence.
    + left. intros Heq. by apply (Hbooks id' l').
Qed.

Lemma entries_run now event r w :
  w_sched w = [] -> settleable event r (w_store w) -> fresh_draws w ->
  insertLedgerEntries now (locked_transaction (rk_TransactionID event) r) w
  = (Ok tt, set_store (ledger_pair now (next_id "le" w 0) (next_id "le" w 1)
       (rk_TransactionID event) (t_account_id r) (- t_amount_cents r) "clearing"
       (t_amount_cents r) (t_currency r) (w_store w)) (set_drawn (w_drawn w + 2)%nat w)).
Proof.
  intros Hq Hs (_ & Hf & Hne). unfold insertLedgerEntries.
  run (NewID_run "le" w). run (NewID_run "le" (set_drawn (Datatypes.S (w_drawn w)) w)).
  cbn [w_entropy w_drawn set_drawn locked_transaction tx_ID tx_AccountID tx_AmountCents tx_Currency].
  replace (id_of "le" (w_entropy w (w_drawn w))) with (next_id "le" w 0)
    by (unfold next_id; by rewrite Nat.add_0_r).
  replace (id_of "le" (w_entropy w (Datatypes.S (w_drawn w)))) with (next_id "le" w 1)
    by (unfold next_id; by rewrite Nat.add_1_r).
  assert (Hpair := pair_run now (next_id "le" w 0) (next_id "le" w 1) event r
    (set_drawn (w_drawn w + 2)%nat w)).
  replace (set_drawn (w_drawn w + 2)%nat w)
    with (set_drawn (Datatypes.S (Datatypes.S (w_drawn w))) w) in * by (f_equal; lia).
  erewrite wrapf_run; [|apply Hpair; auto using next_id_safe]. done.
Qed.

Lemma finalize_run now event r db status reason w :
  w_sched w = [] -> settleable event r db ->
  db_transactions (w_store w) !! rk_TransactionID event = Some r ->
  status = TransactionAuthorized \/ status = TransactionFailed -> text_ok reason = true ->
  let row := finalized r status (rk_RiskLevel event) reason now in
  finalizeTransaction now (rk_TransactionID event) status (rk_RiskLevel event) reason w
  = (Ok 1, set_store (set_transactions
      (<[rk_TransactionID event := row]> (db_transactions (w_store w))) (w_store w)) w).
Proof.
  intros Hq Hs Hr Hstatus Hreason row. destruct (settleable_texts _ _ _ Hs) as (Hid & _ & _).
  destruct Hs as [_ (Hst & _) Hck _ Hlevel _ _].
  assert (Hl : text_ok (rk_RiskLevel event) = true
    /\ one_of (rk_RiskLevel event) ["LOW"; "HIGH"] = true).
  { rewrite Hlevel. by destruct (rk_Approved event). }
  apply statement_quiet; [done|].
  rewrite with_texts_run.
  2: { repeat constructor; try done; [by destruct Hstatus as [->| ->]|apply Hl]. }
  rewrite Hr, Hst, String.eqb_refl. unfold update_transaction. rewrite checked_true; [done|].
  unfold transaction_checks in *. rewrite !Forall_cons in *. cbn in *.
  destruct Hck as (? & ? & ? & ? & ? & ? & ? & ? & _ & _ & _). rewrite (proj2 Hl).
  split_and!; try done. by destruct Hstatus as [->| ->].
Qed.

Lemma decide_run now event r w :
  w_sched w = [] -> settleable event r (w_store w) -> fresh_draws w ->
  exists w' k, (k = 0 \/ k = 2)%nat
  /\ decide_outcome now event (locked_transaction (rk_TransactionID event) r) w
     = (Ok (ruling event (account_balance (t_account_id r) (t_currency r) (w_store w))), w')
  /\ w_sched w' = [] /\ w_entropy w' = w_entropy w /\ w_drawn w' = (w_drawn w + k)%nat
  /\ db_transactions (w_store w') = db_transactions (w_store w)
  /\ db_outbox_events (w_store w') = db_outbox_events (w_store w).
Proof.
  intros Hq Hs Hf. pose proof (st_match _ _ _ Hs) as (_ & _ & Hm & _).
  unfold decide_outcome, ruling. rewrite <- Hm. destruct (rk_Approved event).
  2: { exists w, 0%nat. split_and!; first [done|by left|lia]. }
  run (funds_run event r w Hq Hs). destruct (_ <? _).
  - exists w, 0%nat. split_and!; first [done|by left|lia].
  - run (entries_run now event r w Hq Hs Hf). eexists _, 2%nat.
    split_and!; first [done|by right].
Qed.

(** The outcome keeps the evaluation's texts. *)
Lemma ruling_outcome event balance outcome status ty :
  ruling event balance = (outcome, status, ty) -> storable_evaluation event ->
  rk_RiskLevel outcome = rk_RiskLevel event /\ plain (rk_Reason outcome) = true
  /\ rk_CorrelationID outcome = rk_CorrelationID event /\ plain_RiskEvaluated outcome = true
  /\ (status = TransactionAuthorized \/ status = TransactionFailed)
  /\ one_of ty [EventRiskEvaluated; EventTransactionAuthorized; EventTransactionFailed] = true.
Proof.
  intros Hr (_ & _ & _ & Hpl). unfold ruling in Hr.
  assert (Hev : plain (rk_Reason event) = true).
  { unfold plain_RiskEvaluated in Hpl. by destruct_bools. }
  destruct (rk_Approved event); [destruct (_ <? _)|]; injection Hr as <- <- <-;
    split_and!; try done; try (by left); try (by right).
  unfold plain_RiskEvaluated in *. cbn. rewrite !andb_true_iff in *. by destruct_and!.
Qed.

Lemma settle_run now event r w :
  w_sched w = [] -> settleable event r (w_store w) -> fresh_draws w ->
  exists w', settle event now w = (Ok tt, w') /\ w_sched w' = [].
Proof.
  intros Hq Hs Hf. unfold settle. run (lock_run event r w Hq Hs).
  destruct (decide_run now event r w Hq Hs Hf) as (w1 & k & Hk & Hd & Hq1 & He1 & Hd1 & Ht1 & Ho1).
  run Hd. destruct (ruling event _) as [[outcome status] ty] eqn:Hrule.
  destruct (ruling_outcome _ _ _ _ _ Hrule (st_event _ _ _ Hs))
    as (Hlevel & Hreason & Hcorr & Hpl & Hstatus & Hty).
  assert (Hr1 : db_transactions (w_store w1) !! rk_TransactionID event = Some r).
  { rewrite Ht1. apply Hs. }
  rewrite Hlevel. cbn [tx_ID locked_transaction].
  run (finalize_run now event r _ status (rk_Reason outcome) w1 Hq1 Hs Hr1 Hstatus (plain_text _ Hreason)).
  set (w2 := set_store _ w1). cbn [negb Z.eqb Pos.eqb].
  pose proof (NewOutboxEvent_run ty (rk_TransactionID event) (t_account_id r)
    (rk_CorrelationID outcome) (marshal_RiskEvaluated outcome) w2) as Hev.
  cbn [tx_AccountID locked_transaction]. run Hev. set (ev := mk_OutboxEvent _ _ _ _ _ _ _ _ _ _).
  destruct (transaction_checks_inv _ (st_checks _ _ _ Hs)) as (Ha & _).
  destruct (st_event _ _ _ Hs) as (Hid & _ & Hc & _).
  destruct (insert_event_run now ev outcome (set_drawn (Datatypes.S (w_drawn w2)) w2))
    as [json Hi]; [done| | |].
  - split_and!; try done; [by apply id_of_safe|]. cbn. by rewrite Hcorr.
  - cbn. rewrite Ho1, He1, Hd1. apply Hf. lia.
  - erewrite wrapf_run by exact Hi. by eexists.
Qed.

Lemma ledger_run d payload event r w :
  w_sched w = [] -> deliverable d (w_store w) ->
  unmarshal_RiskEvaluated payload = Some event -> Ledger.incomplete event = false ->
  settleable event r (w_store w) -> fresh_draws w ->
  exists w', Ledger.HandleRiskEvaluated d payload w = (Ok tt, w') /\ w_sched w' = [].
Proof.
  intros Hq Hd Hdec Hin Hs Hf. unfold Ledger.HandleRiskEvaluated.
  rewrite Hdec, Hin, (st_level _ _ _ Hs).
  pose proof (claim_run (w_clock w) d payload w Hq Hd) as Hclaim.
  set (w1 := set_store _ w) in Hclaim.
  destruct (settle_run (w_clock w) event r w1) as (w' & Hset & Hq'); [done| |done|].
  { by destruct Hs. }
  assert (Hrun : ProcessRiskEvaluated d (sha256_hex payload) event w = (Ok true, w')).
  { apply transact_quiet; [done| |done]. run Hclaim. cbn [negb]. by run Hset. }
  exists w'. split; [|done]. destruct (rk_Approved event); cbn; by run Hrun.
Qed.
End Runs.
