(* ===== verification/Provenance.v ===== *)
(** * Where the consumers' messages come from

    When the consumers are only handed what the outbox holds ([genuine]), every
    event on the way says the truth about a stored payment, every settled
    payment was ruled by the risk policy on its own amount, and every parked
    message is one of the outbox's ([provenance]). *)

From stdpp Require Import base strings list gmap relations.
From Stdlib Require Import ZArith Lia.
From S2P Require Import Prelude GoStrings Sha256 Runtime Domain GoJson Codec Schema KafkaBus.
From S2P Require Import ConsumerLoop RiskService LedgerService DeadLetter StoreOutbox StoreConsumer.
From S2P Require Import TransactionService StoreTransaction FundingService StoreFunding.
From S2P Require Import StoreLedger StoreDeadLetter Books Guarantees System Invariants.
From S2P Require Import PaymentEvents Progress.

Open Scope Z_scope.

Section Provenance.
Context `{UnicodeTables} `{JsonbSpec} `{Collation}.

(** ** Evaluations *)

(** Event [ev] carries the evaluation of the payment [id], stored as [r]. *)
Definition carries_evaluation (db : DB) (id : string) (r : transaction_row) (ev : string)
  (row : outbox_row) : Prop :=
  db_outbox_events db !! ev = Some row /\ o_event_type row = EventRiskEvaluated
  /\ safeTokenPattern ev = true
  /\ unmarshal_RiskEvaluated (o_payload row)
     = Some (Risk.evaluated (locked_transaction id r)).

(** A payment's row, as its CHECKs leave it, makes a complete transaction. *)
Lemma evaluated_storable t id r :
  Forall (fun c => c.2 = true) (transaction_checks r) -> safeTokenPattern id = true ->
  in_int64 (t_amount_cents r) = true ->
  tx_ID t = id -> tx_AccountID t = t_account_id r -> tx_AmountCents t = t_amount_cents r ->
  tx_Currency t = t_currency r -> tx_CorrelationID t = t_correlation_id r ->
  Risk.incomplete t = false /\ storable_evaluation (Risk.evaluated t).
Proof.
  intros Hck Hid Hamt Hti Hta Htm Htc Htr.
  apply transaction_checks_inv in Hck as (Ha & Hm & Hcorr & Hcur & _). split.
  - unfold Risk.incomplete. rewrite Hti, Hta, Htm, Htc, Htr.
    apply safeToken_nonempty in Hid, Ha, Hcorr.
    assert (Hc : t_currency r <> EmptyString) by by destruct (t_currency r).
    rewrite !(proj2 (String.eqb_neq _ _)) by done. by rewrite (proj2 (Z.leb_gt _ _)) by lia.
  - unfold storable_evaluation, plain_RiskEvaluated, Risk.evaluated.
    cbn [rk_TransactionID rk_AccountID rk_AmountCents rk_Currency rk_RiskLevel rk_Reason rk_CorrelationID].
    rewrite Hti, Hta, Htm, Htc, Htr, Hamt. split_and!; try done.
    rewrite (safeToken_plain _ Hid), (safeToken_plain _ Ha), (safeToken_plain _ Hcorr),
      (currency_plain _ Hcur).
    unfold EvaluateRisk. by destruct (50000 <? t_amount_cents r).
Qed.

(** ** Sources *)

(** A message of the outbox: topic, key and value. *)
Definition from_outbox (db : DB) (topic key value : string) : Prop :=
  exists ev row, db_outbox_events db !! ev = Some row
  /\ topic = TopicFor (o_event_type row) /\ key = o_partition_key row /\ value = o_payload row.

(** Some event of type [ty] decodes to [a]. *)
Definition says {A} (ty : string) (decode : string -> option A) (db : DB) (a : A) : Prop :=
  exists ev row, db_outbox_events db !! ev = Some row
  /\ o_event_type row = ty /\ decode (o_payload row) = Some a.

Definition genuine_payment : DB -> Transaction -> Prop :=
  says EventTransactionCreated unmarshal_Transaction.
Definition genuine_ruling : DB -> RiskEvaluated -> Prop :=
  says EventRiskEvaluated unmarshal_RiskEvaluated.

Definition genuine : sources := mk_sources genuine_payment genuine_ruling from_outbox.

(** The steps of a system in which nobody else writes to Kafka. *)
Definition closed_step : DB -> DB -> Prop := step_from genuine.
Definition closed_steps : DB -> DB -> Prop := rtc closed_step.

(** An event of the outbox stays. *)
Lemma event_kept db db' ev row :
  history db db' -> db_outbox_events db !! ev = Some row ->
  exists row', db_outbox_events db' !! ev = Some row' /\ outbox_content row' = outbox_content row.
Proof. intros Hh (row' & ? & ? & _)%(hist_outbox _ _ Hh). eauto. Qed.

Lemma from_outbox_history db db' topic key value :
  history db db' -> from_outbox db topic key value -> from_outbox db' topic key value.
Proof.
  intros Hh (ev & row & Hrow & -> & -> & ->).
  destruct (event_kept _ _ _ _ Hh Hrow) as (row' & Hrow' & Hc).
  unfold outbox_content in Hc. injection Hc as ? _ ? _ ? _. exists ev, row'. split_and!; congruence.
Qed.

Lemma says_history {A} ty (decode : string -> option A) db db' a :
  history db db' -> says ty decode db a -> says ty decode db' a.
Proof.
  intros Hh (ev & row & Hrow & Hty & Hdec).
  destruct (event_kept _ _ _ _ Hh Hrow) as (row' & Hrow' & Hc).
  unfold outbox_content in Hc. injection Hc as ? _ _ _ ? _. exists ev, row'. split_and!; congruence.
Qed.

(** ** The invariant *)

(** Event [ev] tells [about] some stored payment. *)
Definition tells (about : string -> transaction_row -> string -> outbox_row -> Prop) (db : DB)
  (ev : string) (row : outbox_row) : Prop :=
  exists id r, db_transactions db !! id = Some r /\ t_kind r = TransactionPayment
  /\ safeTokenPattern id = true /\ in_int64 (t_amount_cents r) = true /\ about id r ev row.

(** What a payment's event and a ruling's event tell is so. *)
Definition event_faithful (db : DB) (ev : string) (row : outbox_row) : Prop :=
  (o_event_type row = EventTransactionCreated -> tells (carries_payment db) db ev row)
  /\ (o_event_type row = EventRiskEvaluated -> tells (carries_evaluation db) db ev row).

Definition events_faithful (db : DB) : Prop :=
  forall ev row, db_outbox_events db !! ev = Some row -> event_faithful db ev row.

(** A payment is settled as the policy rates its amount: what the policy refuses
    has failed for that reason, and what it approves is authorized, or has
    failed for want of funds. *)
Definition rated (r : transaction_row) : Prop :=
  let rating := EvaluateRisk (t_amount_cents r) in
  t_status r = TransactionPending
  \/ t_risk_level r = Some (re_Level rating)
     /\ ((t_status r = TransactionAuthorized /\ re_Approved rating = true
           /\ t_risk_reason r = Some (re_Reason rating))
         \/ (t_status r = TransactionFailed
           /\ t_risk_reason r = Some (if re_Approved rating then "insufficient funds"%string
                                      else re_Reason rating))).

Definition payments_rated (db : DB) : Prop :=
  forall id r, db_transactions db !! id = Some r -> t_kind r = TransactionPayment -> rated r.

Definition letters_genuine (db : DB) : Prop :=
  forall id r, db_dead_letters db !! id = Some r ->
  from_outbox db (d_source_topic r) (d_message_key r) (d_payload r).

Record provenance (db : DB) : Prop := mk_provenance {
  pv_books : books db;
  pv_events : events_faithful db;
  pv_rated : payments_rated db;
  pv_letters : letters_genuine db;
}.

Lemma provenance_empty : provenance empty_DB.
Proof. split; [exact books_empty|done..]. Qed.

(** *** Events *)

Lemma carries_evaluation_history db db' id r r' ev row :
  history db db' -> transaction_content r' = transaction_content r ->
  carries_evaluation db id r ev row ->
  exists row', carries_evaluation db' id r' ev row' /\ outbox_content row' = outbox_content row.
Proof.
  intros Hh Hc (He & Hty & Hsafe & Hdec). destruct (event_kept _ _ _ _ Hh He) as (row' & He' & Hcont).
  exists row'. split; [|done]. unfold outbox_content in Hcont. injection Hcont as Hty' _ _ _ Hp' _.
  unfold transaction_content in Hc. injection Hc as _ Ha _ _ _ Hm Hcur Hcorr _.
  split_and!; [done|congruence|done|]. rewrite Hp', Hdec. unfold Risk.evaluated, locked_transaction.
  cbn. by rewrite Ha, Hm, Hcur, Hcorr.
Qed.

Lemma tells_history db db' about about' ev row row' :
  history db db' ->
  (forall id r r', transaction_content r' = transaction_content r ->
   about id r ev row -> about' id r' ev row') ->
  tells about db ev row -> tells about' db' ev row'.
Proof.
  intros Hh Habout (id & r & Hr & Hk & Hid & Ha & Htold).
  destruct (hist_transactions _ _ Hh _ _ Hr) as (r' & Hr' & Hev).
  assert (Hc : transaction_content r' = transaction_content r).
  { by destruct Hev as [->|(_ & _ & ?)]. }
  pose proof (Habout _ _ _ Hc Htold) as Htold'.
  unfold transaction_content in Hc. injection Hc as Hk' _ _ _ _ Ha' _ _ _.
  exists id, r'. split_and!; congruence.
Qed.

Lemma event_faithful_history db db' ev row row' :
  history db db' -> db_outbox_events db' !! ev = Some row' ->
  outbox_content row' = outbox_content row ->
  event_faithful db ev row -> event_faithful db' ev row'.
Proof.
  intros Hh Hrow' Hcont [Hp He].
  assert (Hty : o_event_type row' = o_event_type row).
  { unfold outbox_content in Hcont. by injection Hcont. }
  split; rewrite Hty; [intros Hty'%Hp|intros Hty'%He]; eapply tells_history; try done.
  - intros id r r' Hc Hcarry.
    destruct (carries_payment_history _ _ _ _ r' _ _ Hh Hc Hcarry) as (row2 & Hcarry' & _).
    by assert (row2 = row') as <- by (destruct Hcarry'; congruence).
  - intros id r r' Hc Hcarry.
    destruct (carries_evaluation_history _ _ _ _ r' _ _ Hh Hc Hcarry) as (row2 & Hcarry' & _).
    by assert (row2 = row') as <- by (destruct Hcarry'; congruence).
Qed.

Lemma faithful_same db db' :
  history db db' -> db_outbox_events db' = db_outbox_events db ->
  events_faithful db -> events_faithful db'.
Proof.
  intros Hh Ho Hf ev row Hrow. eapply event_faithful_history; [exact Hh|exact Hrow|done|].
  apply Hf. by rewrite <- Ho.
Qed.

Lemma faithful_put db db' ev row :
  history db db' -> db_outbox_events db' = <[ev := row]> (db_outbox_events db) ->
  event_faithful db' ev row -> events_faithful db -> events_faithful db'.
Proof.
  intros Hh Ho Hnew Hf ev' row'. rewrite Ho, lookup_insert_Some.
  intros [[<- <-]|[Hne Hrow]]; [done|].
  eapply event_faithful_history; [exact Hh| |done|by apply Hf].
  by rewrite Ho, lookup_insert_ne.
Qed.

(** Other events tell the consumers nothing. *)
Lemma faithful_other db ev row ty :
  o_event_type row = ty -> ty <> EventTransactionCreated -> ty <> EventRiskEvaluated ->
  event_faithful db ev row.
Proof. intros <- Hc He. by split. Qed.

Lemma ruling_event event balance outcome status ty :
  ruling event balance = (outcome, status, ty) ->
  ty <> EventTransactionCreated /\ ty <> EventRiskEvaluated.
Proof. unfold ruling. repeat case_match; by intros [= _ _ <-]. Qed.

(** A genuine payment is evaluated as itself. *)
Lemma genuine_evaluated db db' t ev now payload :
  books db -> events_faithful db -> genuine_payment db t -> evaluation t ev ->
  jsonb (ev_Payload ev) = Some payload -> db_transactions db' = db_transactions db ->
  db_outbox_events db' = <[ev_ID ev := outbox_row_of now ev payload]> (db_outbox_events db) ->
  event_faithful db' (ev_ID ev) (outbox_row_of now ev payload).
Proof.
  intros Hb Hf (ev0 & row0 & Hrow0 & Hty0 & Hdec0) (_ & Hty & _ & _ & _ & Hpay & _ & Hsafe) Hj Ht Ho.
  split; [cbn; rewrite Hty; discriminate|intros _].
  destruct (proj1 (Hf _ _ Hrow0) Hty0) as (id & r & Hr & Hk & Hid & Ha & Hcarry).
  destruct Hcarry as (_ & _ & _ & t' & Hdec & Hti & Hta & Htm & Htc & Htr).
  rewrite Hdec0 in Hdec. injection Hdec as <-.
  destruct (books_rows _ Hb _ _ Hr) as [Hck _].
  destruct (evaluated_storable t id r) as [_ (_ & _ & _ & Hplain)]; try done.
  rewrite Hpay in Hj. exists id, r. rewrite Ht. split_and!; [done..|].
  split; [by rewrite Ho, lookup_insert_eq|]. split_and!; [done|done|].
  cbn [o_payload outbox_row_of]. rewrite (stored_RiskEvaluated _ _ Hplain Hj).
  unfold Risk.evaluated, locked_transaction. cbn. by rewrite Hti, Hta, Htm, Htc, Htr.
Qed.

Lemma closed_step_history db db' : closed_step db db' -> history db db'.
Proof. intros Hstep. by eapply step_history, step_from_step. Qed.

Lemma closed_step_events db db' :
  closed_step db db' -> books db -> events_faithful db -> events_faithful db'.
Proof.
  intros Hstep Hb. pose proof (closed_step_history _ _ Hstep) as Hh. revert Hh.
  destruct Hstep as
    [rec ev now ?? Hreq Hc|d ev now resp ?? Hreq Hc
    |d hash t ev now p ?? Hev [tab ->]%claim_tables Hj _ Hsrc
    |d hash event now ? db1 ? [tab ->]%claim_tables Hs _
    |d hash now ?? [tab ->]%claim_tables
    |id r r' ? Hr Hmove| | | | |]; intros Hh Hf; try (by eapply faithful_same; [exact Hh|..|exact Hf]).
  - destruct (created_carries _ _ _ _ _ Hreq Hc) as (row & Ht & Ho & Hk & _ & Hid & Ha & _ & Hcarry).
    eapply faithful_put; [exact Hh|exact Ho| |exact Hf]. pose proof Hcarry as (_ & Hty & _).
    split; rewrite Hty; [|discriminate]. intros _. eexists _, _. split_and!; [|done..].
    by rewrite Ht, lookup_insert_eq.
  - destruct (deposited_tables _ _ _ _ _ _ Hreq Hc) as (r & row & _ & _ & Ho & Hty & _).
    eapply faithful_put; [exact Hh|exact Ho| |exact Hf]. by eapply faithful_other.
  - eapply faithful_put; [exact Hh|done| |exact Hf]. by eapply genuine_evaluated.
  - destruct (settled_tables _ _ _ _ Hs) as (r & ev & row & outcome & status & ty & Hrule & _ & _ & Ho & Hty & _).
    destruct (ruling_event _ _ _ _ _ Hrule).
    eapply faithful_put; [exact Hh|exact Ho| |exact Hf]. by eapply faithful_other.
  - eapply faithful_put; [exact Hh|done| |exact Hf].
    eapply event_faithful_history; [exact Hh|apply lookup_insert_eq| |by apply Hf].
    by apply outbox_step_content.
Qed.

(** *** Payments *)

Lemma rated_put db db' id row :
  db_transactions db' = <[id := row]> (db_transactions db) ->
  (t_kind row = TransactionPayment -> rated row) -> payments_rated db -> payments_rated db'.
Proof.
  intros Ht Hrow Hp id' r'. rewrite Ht, lookup_insert_Some.
  intros [[<- <-]|[_ Hr']]; [done|by eapply Hp].
Qed.

Lemma rated_same db db' :
  db_transactions db' = db_transactions db -> payments_rated db -> payments_rated db'.
Proof. intros Ht Hp id r. rewrite Ht. apply Hp. Qed.

(** The ledger's ruling on a genuine evaluation is the policy's. *)
Lemma ruling_rated id r balance now outcome status ty :
  ruling (Risk.evaluated (locked_transaction id r)) balance = (outcome, status, ty) ->
  rated (finalized r status (rk_RiskLevel outcome) (rk_Reason outcome) now).
Proof.
  unfold ruling, rated. cbn. intros Hrule. right.
  destruct (re_Approved _) eqn:Happ; [destruct (balance <? _)|]; injection Hrule as <- <- _; cbn;
    split; try done; [right|left|right]; done.
Qed.

Lemma genuine_ruling_carried db event :
  events_faithful db -> genuine_ruling db event ->
  exists id r, db_transactions db !! id = Some r /\ event = Risk.evaluated (locked_transaction id r).
Proof.
  intros Hf (ev & row & Hrow & Hty & Hdec).
  destruct (proj2 (Hf _ _ Hrow) Hty) as (id & r & Hr & _ & _ & _ & _ & _ & _ & Hdec').
  rewrite Hdec in Hdec'. injection Hdec' as ->. eauto.
Qed.

Lemma closed_step_rated db db' :
  closed_step db db' -> events_faithful db -> payments_rated db -> payments_rated db'.
Proof.
  intros Hstep Hf.
  destruct Hstep as
    [rec ev now ?? Hreq Hc|d ev now resp ?? Hreq Hc
    |d hash t ev now p ?? _ [tab ->]%claim_tables _ _ _
    |d hash event now ? db1 ? [tab ->]%claim_tables Hs Hsrc
    |d hash now ?? [tab ->]%claim_tables
    | | | | | |]; intros Hp; try (by eapply rated_same; [|exact Hp]).
  - destruct (created_carries _ _ _ _ _ Hreq Hc) as (row & Ht & _ & _ & Hst & _).
    eapply rated_put; [exact Ht| |exact Hp]. intros _. by left.
  - destruct (deposited_tables _ _ _ _ _ _ Hreq Hc) as (r & row & Ht & Hk & _).
    eapply rated_put; [exact Ht| |exact Hp]. rewrite Hk. discriminate.
  - destruct (settled_tables _ _ _ _ Hs) as (r & ev & row & outcome & status & ty & Hrule & Hr & Ht & _).
    destruct (genuine_ruling_carried _ _ Hf Hsrc) as (id & r0 & Hr0 & ->).
    cbn in Hr. rewrite Hr0 in Hr. injection Hr as <-.
    eapply rated_put; [exact Ht| |exact Hp]. intros _. by eapply ruling_rated.
Qed.

(** *** Dead letters *)

Lemma letters_put db db' id row :
  history db db' -> db_dead_letters db' = <[id := row]> (db_dead_letters db) ->
  from_outbox db (d_source_topic row) (d_message_key row) (d_payload row) ->
  letters_genuine db -> letters_genuine db'.
Proof.
  intros Hh Hd Hrow Hl id' r'. rewrite Hd, lookup_insert_Some.
  intros [[<- <-]|[_ Hr'%Hl]]; by eapply from_outbox_history.
Qed.

Lemma letters_same db db' :
  history db db' -> db_dead_letters db' = db_dead_letters db ->
  letters_genuine db -> letters_genuine db'.
Proof. intros Hh Hd Hl id r. rewrite Hd. intros Hr%Hl. by eapply from_outbox_history. Qed.

Lemma closed_step_letters db db' :
  closed_step db db' -> letters_genuine db -> letters_genuine db'.
Proof.
  intros Hstep. pose proof (closed_step_history _ _ Hstep) as Hh. revert Hh.
  destruct Hstep as
    [rec ev now ?? Hreq Hc|d ev now resp ?? Hreq Hc
    |d hash t ev now p ?? _ [tab ->]%claim_tables _ _ _
    |d hash event now ? db1 ? [tab ->]%claim_tables Hs _
    |d hash now ?? [tab ->]%claim_tables
    | |id r ? Hnew Hsrc|id r r' ? Hr Hmove| | |]; intros Hh Hl;
    try (by eapply letters_same; [exact Hh|..|exact Hl]).
  - destruct (created_carries _ _ _ _ _ Hreq Hc) as (row & _ & _ & _ & _ & _ & _ & Hd & _).
    by eapply letters_same.
  - destruct (deposited_tables _ _ _ _ _ _ Hreq Hc) as (r & row & _ & _ & _ & _ & Hd).
    by eapply letters_same.
  - destruct (settled_tables _ _ _ _ Hs) as (r & ev & row & o & s & ty & _ & _ & _ & _ & _ & Hd).
    by eapply letters_same.
  - by eapply letters_put.
  - apply dead_letter_step_content in Hmove. unfold dead_letter_content in Hmove.
    injection Hmove as _ _ Htopic _ _ Hkey _ Hpayload _.
    eapply letters_put; [exact Hh|done| |exact Hl]. rewrite Htopic, Hkey, Hpayload. by eapply Hl.
Qed.

Lemma closed_step_provenance db db' : closed_step db db' -> provenance db -> provenance db'.
Proof.
  intros Hstep [Hb He Hp Hl]. split.
  - eapply step_books; [by eapply step_from_step|done].
  - by eapply closed_step_events.
  - by eapply closed_step_rated.
  - by eapply closed_step_letters.
Qed.

Lemma closed_steps_provenance db db' : closed_steps db db' -> provenance db -> provenance db'.
Proof. apply rtc_stable, closed_step_provenance. Qed.
End Provenance.
