(* ===== verification/LedgerLocks.v ===== *)
(** * Interleaved ledger transactions, and the locks that serialize them

    The rest of the development runs one database transaction at a time.  Here
    settlements and deposits run statement by statement, in any interleaving
    and under READ COMMITTED: a statement sees what is committed when it runs,
    [for update] holds the payment's row and [pg_advisory_xact_lock] the
    account until the transaction ends, and every other step of the system
    ([System.step]) may commit in between.  Inserts are private until the
    commit, which requires that their unique keys are still free (an index
    entry that blocks earlier only removes runs).  [hashtext] is PostgreSQL's
    and may collide; [locking] says whether the advisory lock is taken, as the
    code does. *)

From stdpp Require Import base strings list gmap relations.
From Stdlib Require Import ZArith Lia.
From S2P Require Import Prelude GoStrings Sha256 Runtime Domain GoJson Codec Schema ConsumerLoop.
From S2P Require Import StoreOutbox TransactionService StoreTransaction FundingService StoreConsumer.
From S2P Require Import StoreLedger StoreFunding Books Guarantees System Invariants.

Open Scope Z_scope.

(** How far a settlement has come. *)
Inductive progress :=
| Begun                                        (* BeginTx *)
| Claimed                                      (* the event was new *)
| Conflicted                                   (* on conflict do nothing *)
| Locked (r : transaction_row)                 (* select ... for update *)
| Funding_locked (r : transaction_row)         (* pg_advisory_xact_lock *)
| Balanced (r : transaction_row) (b : Z).      (* select coalesce(sum(...)) *)

Inductive session :=
| Settling (d : Delivery) (hash : string) (event : RiskEvaluated) (now : Z) (p : progress)
| Depositing (d : Funding.Deposit) (ev : OutboxEvent) (now : Z) (account_locked : bool).

(** The committed database, who holds which payment row and which account,
    and the open transactions. *)
Record conf := mk_conf {
  cf_db : DB;
  cf_rows : gmap string nat;
  cf_accounts : gmap (Z * Z) nat;
  cf_sessions : gmap nat session;
}.

Section Locks.
Context `{UnicodeTables} `{JsonbSpec} `{Collation}.
Context (hashtext : string -> Z) (locking : bool).

Definition account_key (account currency : string) : Z * Z := (hashtext account, hashtext currency).

(** A lock can be taken when nobody holds it, or is not taken at all. *)
Definition take_account (k : Z * Z) (s : nat) (held held' : gmap (Z * Z) nat) : Prop :=
  if locking then held !! k = None /\ held' = <[k := s]> held else held' = held.

(** The end of a transaction releases everything it holds. *)
Definition release {K} `{Countable K} (s : nat) (held : gmap K nat) : gmap K nat :=
  filter (fun kv => kv.2 <> s) held.

Definition finish (s : nat) (db : DB) (c : conf) : conf :=
  mk_conf db (release s (cf_rows c)) (release s (cf_accounts c)) (delete s (cf_sessions c)).

Definition become (s : nat) (x : session) (c : conf) : conf :=
  mk_conf (cf_db c) (cf_rows c) (cf_accounts c) (<[s := x]> (cf_sessions c)).

(** What a settlement commits: its claim, and its ruling on the balance read. *)
Definition settlement (d : Delivery) (hash : string) (event : RiskEvaluated) (now : Z)
  (r : transaction_row) (b : Z) (db db' : DB) : Prop :=
  exists db1, claim_effect now d hash true db db1 /\ settled_on r b event now db1 db'.

Inductive cstep : conf -> conf -> Prop :=
| c_begin_settlement s d hash event now c :
    cf_sessions c !! s = None ->
    cstep c (become s (Settling d hash event now Begun) c)
| c_claim s d hash event now c :
    cf_sessions c !! s = Some (Settling d hash event now Begun) ->
    db_processed_events (cf_db c) !! delivery_key d = None ->
    cstep c (become s (Settling d hash event now Claimed) c)
| c_conflict s d hash event now c row :
    cf_sessions c !! s = Some (Settling d hash event now Begun) ->
    db_processed_events (cf_db c) !! delivery_key d = Some row ->
    cstep c (become s (Settling d hash event now Conflicted) c)
| c_refresh s d hash event now c db' :
    cf_sessions c !! s = Some (Settling d hash event now Conflicted) ->
    claim_effect now d hash false (cf_db c) db' ->
    cstep c (finish s db' c)
| c_lock_row s d hash event now c r :
    cf_sessions c !! s = Some (Settling d hash event now Claimed) ->
    cf_rows c !! rk_TransactionID event = None ->
    db_transactions (cf_db c) !! rk_TransactionID event = Some r -> settles event r ->
    cstep c (mk_conf (cf_db c) (<[rk_TransactionID event := s]> (cf_rows c)) (cf_accounts c)
               (<[s := Settling d hash event now (Locked r)]> (cf_sessions c)))
| c_reject s d hash event now c r db' :
    cf_sessions c !! s = Some (Settling d hash event now (Locked r)) ->
    rk_Approved event = false ->
    settlement d hash event now r 0 (cf_db c) db' ->
    cstep c (finish s db' c)
| c_lock_account s d hash event now c r accounts :
    cf_sessions c !! s = Some (Settling d hash event now (Locked r)) ->
    rk_Approved event = true ->
    take_account (account_key (t_account_id r) (t_currency r)) s (cf_accounts c) accounts ->
    cstep c (mk_conf (cf_db c) (cf_rows c) accounts
               (<[s := Settling d hash event now (Funding_locked r)]> (cf_sessions c)))
| c_balance s d hash event now c r :
    cf_sessions c !! s = Some (Settling d hash event now (Funding_locked r)) ->
    cstep c (become s (Settling d hash event now
      (Balanced r (account_balance (t_account_id r) (t_currency r) (cf_db c)))) c)
| c_settle s d hash event now c r b db' :
    cf_sessions c !! s = Some (Settling d hash event now (Balanced r b)) ->
    settlement d hash event now r b (cf_db c) db' ->
    cstep c (finish s db' c)
| c_begin_deposit s d ev now c :
    cf_sessions c !! s = None -> deposit_request d ev ->
    cstep c (become s (Depositing d ev now false) c)
| c_deposit_lock s d ev now c accounts :
    cf_sessions c !! s = Some (Depositing d ev now false) ->
    take_account (account_key (tx_AccountID (Funding.dp_Transaction d))
                    (tx_Currency (Funding.dp_Transaction d))) s (cf_accounts c) accounts ->
    cstep c (mk_conf (cf_db c) (cf_rows c) accounts
               (<[s := Depositing d ev now true]> (cf_sessions c)))
| c_deposit s d ev now c resp db' :
    cf_sessions c !! s = Some (Depositing d ev now true) ->
    deposited d ev now (cf_db c) db' resp ->
    cstep c (finish s db' c)
| c_abort s c :
    cstep c (finish s (cf_db c) c)
| c_other c db' :
    step (cf_db c) db' -> db_ledger_entries db' = db_ledger_entries (cf_db c) ->
    (forall id s, cf_rows c !! id = Some s ->
       db_transactions db' !! id = db_transactions (cf_db c) !! id) ->
    cstep c (mk_conf db' (cf_rows c) (cf_accounts c) (cf_sessions c)).

Definition start (db : DB) : conf := mk_conf db ∅ ∅ ∅.
Definition csteps : conf -> conf -> Prop := rtc cstep.
End Locks.

(** ** What a commit leaves alone *)

Section Effects.
Context `{UnicodeTables} `{JsonbSpec} `{Collation}.

(** Stored currencies are compared as they are. *)
Lemma bpchar_eq_currency c c' :
  currencyPattern c = true -> currencyPattern c' = true -> bpchar_eq c c' = String.eqb c c'.
Proof.
  intros Hc Hc'. unfold bpchar_eq. by rewrite !rtrim_safe by by apply currency_safe_chars.
Qed.

(** Two entries of an account and of [other] move no other balance. *)
Lemma pair_balance now id1 id2 t a1 m1 other m2 cur db account currency :
  db_ledger_entries db !! id1 = None -> db_ledger_entries db !! id2 = None -> id1 <> id2 ->
  currencyPattern cur = true -> currencyPattern currency = true ->
  account <> other -> (account, currency) <> (a1, cur) ->
  account_balance account currency (ledger_pair now id1 id2 t a1 m1 other m2 cur db)
  = account_balance account currency db.
Proof.
  intros Hf1 Hf2 Hne Hcur Hcur' Hother Hpair.
  rewrite !account_balance_total, ledger_total_pair by done. unfold balance_weight at 1 2.
  rewrite bpchar_eq_currency by done.
  rewrite (proj2 (String.eqb_neq other account)) by congruence. cbn [andb].
  destruct (String.eqb_spec a1 account) as [->|]; cbn [andb]; [|lia].
  destruct (String.eqb_spec cur currency) as [->|]; [done|lia].
Qed.

Lemma settlement_frame d hash event now r b db db' :
  settlement d hash event now r b db db' ->
  (forall id, id <> rk_TransactionID event -> db_transactions db' !! id = db_transactions db !! id)
  /\ db_transactions db !! rk_TransactionID event = Some r
  /\ ((rk_Approved event = false \/ b < rk_AmountCents event) ->
      db_ledger_entries db' = db_ledger_entries db)
  /\ forall account currency, account <> "clearing"%string -> currencyPattern currency = true ->
       (account, currency) <> (t_account_id r, t_currency r) ->
       account_balance account currency db' = account_balance account currency db.
Proof.
  intros (db1 & Hclaim & ev & p & db2 & Hset).
  destruct Hclaim as (h & _ & _ & _ & ->).
  destruct (ruling event b) as [[outcome status] ty] eqn:Hrule.
  destruct Hset as (Hr & _ & Hpost & Hck & _ & _ & _ & _ & _ & _ & _ & _ & ->). cbn in Hr.
  pose proof (transaction_checks_inv _ Hck) as (_ & _ & _ & Hcur & _). cbn in Hcur.
  assert (Hst : status = TransactionAuthorized -> rk_Approved event = true /\ rk_AmountCents event <= b).
  { revert Hrule. unfold ruling. destruct (rk_Approved event); [|by intros [= _ <- _]].
    destruct (b <? rk_AmountCents event) eqn:Hb; [by intros [= _ <- _]|]. reflect_bools. done. }
  split_and!.
  - intros id Hid. cbn. by rewrite lookup_insert_ne.
  - done.
  - intros Hno. destruct (String.eqb_spec status TransactionAuthorized) as [Hs|_]; [|by subst db2].
    destruct (Hst Hs) as [Ha Hb]. destruct Hno; [congruence|lia].
  - intros account currency Hcl Hc Hpair.
    destruct (String.eqb_spec status TransactionAuthorized) as [Hs|_].
    2: { subst db2. done. }
    destruct Hpost as (id1 & id2 & c & Hc' & Hf1 & Hf2 & Hne & _ & ->).
    rewrite bpchar_currency in Hc' by done. injection Hc' as <-.
    exact (pair_balance _ _ _ _ _ _ _ _ _ (set_processed_events _ db) _ _ Hf1 Hf2 Hne Hcur Hc Hcl Hpair).
Qed.

Lemma deposit_frame d ev now db db' resp :
  deposited d ev now db db' resp -> currencyPattern (tx_Currency (Funding.dp_Transaction d)) = true ->
  (forall id r, db_transactions db !! id = Some r -> db_transactions db' !! id = Some r)
  /\ forall account currency, account <> "external-settlement"%string ->
       currencyPattern currency = true ->
       (account, currency) <> (tx_AccountID (Funding.dp_Transaction d),
                               tx_Currency (Funding.dp_Transaction d)) ->
       account_balance account currency db' = account_balance account currency db.
Proof.
  intros (cur & lc & id1 & id2 & act & hash & text & json & p & Hcur & Hck & Hf & _ & Hlc & Hf1
          & Hf2 & Hne & _ & _ & _ & _ & _ & _ & _ & _ & _ & _ & _ & ->) Htc.
  rewrite Hcur in Hlc. injection Hlc as <-.
  rewrite bpchar_currency in Hcur by done. injection Hcur as <-.
  pose proof (transaction_checks_inv _ Hck) as (_ & _ & _ & Hpat & _). cbn in Hpat.
  split.
  - intros id r Hr. cbn. rewrite lookup_insert_ne; [done|]. congruence.
  - intros account currency Hex Hc Hpair.
    exact (pair_balance _ _ _ _ _ _ _ _ _ (set_transactions _ db) _ _ Hf1 Hf2 Hne Hpat Hc Hex Hpair).
Qed.
End Effects.

(** ** The invariant of the open transactions *)

Section Invariant.
Context `{UnicodeTables} `{JsonbSpec} `{Collation} (hashtext : string -> Z).
Implicit Types (c : conf).

Definition row_held c s id (r : transaction_row) (event : RiskEvaluated) : Prop :=
  cf_rows c !! id = Some s /\ db_transactions (cf_db c) !! id = Some r /\ settles event r.

Definition account_held c s account currency : Prop :=
  cf_accounts c !! account_key hashtext account currency = Some s.

(** What a transaction has read is still so: it holds the lock on it. *)
Definition session_ok c s (x : session) : Prop :=
  match x with
  | Settling _ _ event _ p =>
    match p with
    | Begun | Claimed | Conflicted => True
    | Locked r => row_held c s (rk_TransactionID event) r event
    | Funding_locked r =>
      row_held c s (rk_TransactionID event) r event
      /\ account_held c s (t_account_id r) (t_currency r)
    | Balanced r b =>
      row_held c s (rk_TransactionID event) r event
      /\ account_held c s (t_account_id r) (t_currency r)
      /\ b = account_balance (t_account_id r) (t_currency r) (cf_db c)
    end
  | Depositing d ev _ locked =>
    deposit_request d ev
    /\ (locked = true -> account_held c s (tx_AccountID (Funding.dp_Transaction d))
                           (tx_Currency (Funding.dp_Transaction d)))
  end.

Record sound c : Prop := mk_sound {
  so_books : books (cf_db c);
  so_sessions s x : cf_sessions c !! s = Some x -> session_ok c s x;
}.

(** A session keeps what it knows when the rows it holds, the accounts it
    holds and their balances are as before. *)
Lemma session_ok_kept c c' s x :
  books (cf_db c) ->
  (forall id r, cf_rows c !! id = Some s -> db_transactions (cf_db c) !! id = Some r ->
     cf_rows c' !! id = Some s /\ db_transactions (cf_db c') !! id = Some r) ->
  (forall k, cf_accounts c !! k = Some s -> cf_accounts c' !! k = Some s) ->
  (forall account currency, account_held c s account currency ->
     customer account -> currencyPattern currency = true ->
     account_balance account currency (cf_db c') = account_balance account currency (cf_db c)) ->
  session_ok c s x -> session_ok c' s x.
Proof.
  intros Hbk Hrow Hacc Hbal. unfold session_ok, account_held, row_held in *.
  destruct x as [d hash event now p|d ev now locked].
  2: { intros [Hd Hl]. split; [done|]. intros Ht. by apply Hacc, Hl. }
  destruct p as [| | |r|r|r b]; try done.
  - intros (Hr & Ht & Hs). by destruct (Hrow _ _ Hr Ht).
  - intros ((Hr & Ht & Hs) & Ha). destruct (Hrow _ _ Hr Ht). auto.
  - intros ((Hr & Ht & Hs) & Ha & ->). destruct (Hrow _ _ Hr Ht) as [? ?].
    split_and!; [done..|by apply Hacc|]. symmetry.
    destruct (books_rows _ Hbk _ _ Ht) as [Hck _].
    apply transaction_checks_inv in Hck as (_ & _ & _ & ? & ? & ? & _). by apply Hbal.
Qed.

(** A session that moves on without a commit; [locks] says what it acquired. *)
Lemma sound_advance c s x rows accounts :
  sound c ->
  (forall id s', cf_rows c !! id = Some s' -> rows !! id = Some s') ->
  (forall k s', cf_accounts c !! k = Some s' -> accounts !! k = Some s') ->
  session_ok (mk_conf (cf_db c) rows accounts (<[s := x]> (cf_sessions c))) s x ->
  sound (mk_conf (cf_db c) rows accounts (<[s := x]> (cf_sessions c))).
Proof.
  intros [Hbk Hs] Hr Ha Hx. split; [done|]. cbn [cf_sessions cf_db].
  intros s' x' [[<- <-]|[Hne Hx']]%lookup_insert_Some; [done|].
  apply (session_ok_kept c); [done| |by intros; apply Ha|done|by apply Hs].
  intros id r Hid Ht. split; [by apply Hr|done].
Qed.

Lemma release_other {K} `{Countable K} (held : gmap K nat) s s' k :
  s' <> s -> held !! k = Some s' -> release s held !! k = Some s'.
Proof. intros Hne Hk. unfold release. apply map_lookup_filter_Some. done. Qed.

(** A commit (or an abort) of [s] that keeps what the others hold. *)
Lemma sound_finish c s db' :
  sound c -> books db' ->
  (forall s' id r, s' <> s -> cf_rows c !! id = Some s' ->
     db_transactions (cf_db c) !! id = Some r -> db_transactions db' !! id = Some r) ->
  (forall s' account currency, s' <> s -> account_held c s' account currency ->
     customer account -> currencyPattern currency = true ->
     account_balance account currency db' = account_balance account currency (cf_db c)) ->
  sound (finish s db' c).
Proof.
  intros [Hbk Hs] Hbk' Hrow Hbal. split; [done|]. cbn [finish cf_sessions].
  intros s' x [Hne Hx]%lookup_delete_Some.
  apply (session_ok_kept c); [done| | | |by apply Hs]; cbn [finish cf_rows cf_accounts cf_db].
  - intros id r Hid Ht. split; [by apply release_other|]. by apply (Hrow s').
  - intros k Hk. by apply release_other.
  - intros a cur Ha Hc Hp. by apply (Hbal s').
Qed.

(** ** Every interleaving is a sequence of steps *)

Lemma settled_on_balance r b b' event now db db' :
  settled_on r b event now db db' -> (rk_Approved event = true -> b = b') ->
  settled_on r b' event now db db'.
Proof.
  intros Hs Hb. destruct (rk_Approved event) eqn:Ha; [by rewrite <- Hb|].
  revert Hs. unfold settled_on, ruling. by rewrite Ha.
Qed.

(** The commit of a settlement is the atomic settlement of that moment. *)
Lemma settlement_step c d hash event now r b db' :
  settlement d hash event now r b (cf_db c) db' ->
  (rk_Approved event = true -> b = account_balance (t_account_id r) (t_currency r) (cf_db c)) ->
  step (cf_db c) db'.
Proof.
  intros (db1 & Hclaim & Hset) Hb. eapply step_settled; [done| |done]. exists r.
  eapply settled_on_balance; [done|]. intros Ha. rewrite (Hb Ha).
  destruct Hclaim as (h & _ & _ & _ & ->). done.
Qed.

Lemma held_pair c s s' a a' cur cur' :
  account_held c s a cur -> account_held c s' a' cur' -> s' <> s -> (a', cur') <> (a, cur).
Proof. unfold account_held. intros Hs Hs' Hne [= -> ->]. congruence. Qed.

(** The commit of a settlement keeps the others' knowledge. *)
Lemma sound_settlement c s d hash event now r b db' :
  sound c -> row_held c s (rk_TransactionID event) r event ->
  settlement d hash event now r b (cf_db c) db' -> books db' ->
  (rk_Approved event = true -> account_held c s (t_account_id r) (t_currency r)) ->
  sound (finish s db' c).
Proof.
  intros Hso (Hrow & _ & _) Hset Hbk' Hacc.
  destruct (settlement_frame _ _ _ _ _ _ _ _ Hset) as (Htx & _ & Hno & Hbal).
  apply sound_finish; [done|done| |].
  - intros s' id r' Hne Hid Hr'. rewrite Htx; [done|]. intros ->. congruence.
  - intros s' account currency Hne Hheld [Hcl _] Hcur. destruct (rk_Approved event) eqn:Ha.
    + apply Hbal; [done..|]. by eapply held_pair; [exact (Hacc eq_refl)| |].
    + apply account_balance_ledger, Hno. by left.
Qed.

Lemma cstep_sound c c' :
  sound c -> cstep hashtext true c c' -> steps (cf_db c) (cf_db c') /\ sound c'.
Proof.
  intros Hso Hstep. pose proof (so_sessions _ Hso) as Hss. pose proof (so_books _ Hso) as Hbk.
  destruct Hstep as
    [ s d hash event now c Hs | s d hash event now c Hs Hp | s d hash event now c row Hs Hp
    | s d hash event now c db' Hs Hcl | s d hash event now c r Hs Hfree Hr Hset
    | s d hash event now c r db' Hs Happ Hset | s d hash event now c r accounts Hs Happ [Hfree ->]
    | s d hash event now c r Hs | s d hash event now c r b db' Hs Hset
    | s d ev now c Hs Hreq | s d ev now c accounts Hs [Hfree ->] | s d ev now c resp db' Hs Hdep
    | s c | c db' Hst Hl Hrows ]; cbn [cf_db become finish].
  - split; [done|]. by apply sound_advance.
  - split; [done|]. by apply sound_advance.
  - split; [done|]. by apply sound_advance.
  - assert (Hst : step (cf_db c) db') by by eapply step_redelivered.
    split; [by apply rtc_once|]. destruct Hcl as (row & _ & _ & ->).
    apply sound_finish; try done. by eapply step_books.
  - split; [done|]. apply sound_advance; [done| |done|].
    + intros id s' Hid. rewrite lookup_insert_ne; [done|]. congruence.
    + split_and!; [apply lookup_insert_eq|done..].
  - pose proof (Hss _ _ Hs) as Hrow. assert (Hst : step (cf_db c) db').
    { eapply settlement_step; [done|]. congruence. }
    split; [by apply rtc_once|]. eapply sound_settlement; [done..| |congruence].
    by eapply step_books.
  - split; [done|]. pose proof (Hss _ _ Hs) as Hrow. apply sound_advance; [done|done| |].
    + intros k s' Hk. rewrite lookup_insert_ne; [done|]. congruence.
    + split; [done|]. apply lookup_insert_eq.
  - split; [done|]. destruct (Hss _ _ Hs) as [Hrow Hacc]. by apply sound_advance.
  - destruct (Hss _ _ Hs) as (Hrow & Hacc & ->). assert (Hst : step (cf_db c) db').
    { by eapply settlement_step. }
    split; [by apply rtc_once|]. eapply sound_settlement; [done..| |done].
    by eapply step_books.
  - split; [done|]. by apply sound_advance.
  - split; [done|]. destruct (Hss _ _ Hs) as [Hreq _]. apply sound_advance; [done|done| |].
    + intros k s' Hk. rewrite lookup_insert_ne; [done|]. congruence.
    + split; [done|]. intros _. apply lookup_insert_eq.
  - destruct (Hss _ _ Hs) as [Hreq Hacc]. specialize (Hacc eq_refl).
    assert (Hst : step (cf_db c) db') by by eapply step_deposit.
    split; [by apply rtc_once|].
    destruct (deposit_frame _ _ _ _ _ _ Hdep) as [Htx Hbal]; [by apply Hreq|].
    apply sound_finish; [done|by eapply step_books| |].
    + intros s' id r _ _ Hr. by apply Htx.
    + intros s' account currency Hne Hheld [_ Hex] Hcur. apply Hbal; [done..|].
      by eapply held_pair; [exact Hacc| |].
  - split; [done|]. by apply sound_finish.
  - split; [by apply rtc_once|]. split; [by eapply step_books|]. cbn [cf_sessions].
    intros s x Hx. apply (session_ok_kept c); [done| |done| |by apply Hss]; cbn [cf_rows cf_db].
    + intros id r Hid Hr. split; [done|]. by rewrite (Hrows _ _ Hid).
    + intros account currency _ _ _. by apply account_balance_ledger.
Qed.

Lemma csteps_sound c c' :
  csteps hashtext true c c' -> sound c -> steps (cf_db c) (cf_db c') /\ sound c'.
Proof.
  induction 1 as [c|c c1 c2 Hstep _ IH]; intros Hso; [done|].
  destruct (cstep_sound _ _ Hso Hstep) as [Hst1 Hso1]. destruct (IH Hso1) as [Hst2 Hso2].
  split; [by etrans|done].
Qed.

Lemma start_sound db : books db -> sound (start db).
Proof. intros Hbk. split; [done|]. intros s x Hx. cbn [start cf_sessions] in Hx.
  by rewrite lookup_empty in Hx.
Qed.
End Invariant.
