(* ===== verification/Instances.v ===== *)
(** * Concrete parameters, for the witnesses of the properties

    A [jsonb] that keeps every text it can parse, the byte order as collation,
    case tables that map no rune, and a world no other session disturbs. *)

From stdpp Require Import base strings list gmap relations.
From Stdlib Require Import ZArith Lia Ascii NArith.
From S2P Require Import Prelude GoStrings Sha256 Runtime Domain GoJson GoTime Codec Schema KafkaBus.
From S2P Require Import ConsumerLoop HttpApi HttpMetrics Processes Guarantees System.

Open Scope Z_scope.

#[export] Instance identity_tables_instance : UnicodeTables := identity_tables.

Definition verbatim (text : string) : option string :=
  match parse text with Some _ => Some text | None => None end.
#[export] Instance verbatim_jsonb : Jsonb := verbatim.

Lemma flat_member_ok m : flat_member m -> member_ok m.
Proof.
  intros []; [by apply string_field_ok|by apply int_field_ok|by apply bool_field_ok|].
  split; [done|apply scans_null].
Qed.

#[export] Instance verbatim_jsonb_spec : JsonbSpec.
Proof.
  intros ms Hms _. exists (encode_object (map member_text ms)), ms.
  assert (Hp : parse (encode_object (map member_text ms)) = Some (JObj (map member_json ms))).
  { destruct ms as [|m ms]; [by vm_compute|]. apply parse_encode_object; [done|].
    eapply Forall_impl; [exact Hms|]. apply flat_member_ok. }
  split; [|done]. unfold jsonb, verbatim_jsonb, verbatim. by rewrite Hp.
Qed.

#[export] Instance verbatim_jsonb_array_spec : JsonbArraySpec.
Proof.
  intros objs Hobjs. exists (encode_array (map members_text objs)), objs.
  assert (Hp : parse (encode_array (map members_text objs)) = Some (JArr (map members_json objs))).
  { apply parse_encode_array. eapply Forall_impl; [exact Hobjs|]. intros ms (Hne & Hms & _).
    split; [done|]. eapply Forall_impl; [exact Hms|]. apply flat_member_ok. }
  split_and!; [|by apply Forall2_same_length_lookup_2; [|intros; simplify_eq]|done].
  unfold jsonb, verbatim_jsonb, verbatim. by rewrite Hp.
Qed.

Definition byte_order (a b : string) : bool := String.ltb a b.
#[export] Instance byte_collation : Collation := byte_order.

Lemma string_compare_refl a : String.compare a a = Eq.
Proof.
  induction a as [|x a IH]; [done|]. cbn. unfold Ascii.compare. by rewrite N.compare_refl.
Qed.

Lemma string_compare_trans a b c :
  String.compare a b = Lt -> String.compare b c = Lt -> String.compare a c = Lt.
Proof.
  revert b c. induction a as [|x a IH]; intros [|y b] [|z c]; cbn; try done.
  unfold Ascii.compare. destruct (N.compare_spec (N_of_ascii x) (N_of_ascii y)) as [Hxy|Hxy|Hxy];
    destruct (N.compare_spec (N_of_ascii y) (N_of_ascii z)) as [Hyz|Hyz|Hyz]; try done.
  - rewrite Hxy, Hyz, N.compare_refl. apply IH.
  - intros _ _. rewrite Hxy. by rewrite (proj2 (N.compare_lt_iff _ _)).
  - intros _ _. rewrite <- Hyz. by rewrite (proj2 (N.compare_lt_iff _ _)).
  - intros _ _. rewrite (proj2 (N.compare_lt_iff _ _)); [done|]. lia.
Qed.

#[export] Instance byte_collation_spec : CollationSpec.
Proof.
  split; unfold text_ltb, byte_collation, byte_order, String.ltb.
  - intros a. by rewrite string_compare_refl.
  - intros a b c. destruct (String.compare a b) eqn:H1; try done.
    destruct (String.compare b c) eqn:H2; try done. by rewrite (string_compare_trans _ _ _ H1 H2).
  - intros a b Hne. rewrite (String.compare_antisym b a).
    destruct (String.compare a b) eqn:H1; cbn; auto.
    apply String.compare_eq_iff in H1. done.
Qed.

(** ** A quiet world *)

(** 2024-01-01T00:00:00Z *)
Definition epoch : Z := days_of_civil 2024 1 1 * seconds_per_day * ns_per_second.

Definition world (db : DB) : World DB :=
  mk_world db epoch (fun n => Z.of_nat n + 1) 0 [] [] ∅ [].

Definition genesis : World DB := world empty_DB.

(** The world a run leaves. *)
Definition after {A} (m : M DB A) (w : World DB) : World DB := (m w).2.

Lemma quiet_rely R (w : World DB) : w_sched w = [] -> sched_rely R w.
Proof. unfold sched_rely. intros ->. constructor. Qed.

(** ** A payment, end to end

    A deposit, a payment, and the processes that carry the payment to its
    settlement, one after the other. *)

Module Demo.

Definition getenv (name : string) : string :=
  if String.eqb name "TRANSACTION_API_AUTH_VALUE" then "payments"
  else if String.eqb name "FUNDING_API_AUTH_VALUE" then "funding"
  else if String.eqb name "OPERATOR_API_AUTH_VALUE" then "operators"
  else EmptyString.

(** Dotted addresses are taken as they are. *)
Definition ParseAddr (s : string) : option string :=
  if Contains s "." then Some s else None.

(** A metrics page that shows how much was recorded. *)
#[export] Instance demo_metrics_page : MetricsHandler := {
  metrics_page recorded _ :=
    Http.mk_Response 200 [] (FormatInt (Z.of_nat (length recorded)));
}.

Definition commit (_ : Message) : M DB unit := ret tt.
Definition wait (_ : Z) : M DB bool := ret true.

Lemma commit_wait_external : external commit wait.
Proof. split; intros; unfold commit, wait; apply guar_ret; apply _. Qed.

Definition header (values : list (string * string)) (name : string) : string :=
  match List.find (fun kv => String.eqb kv.1 name) values with
  | Some kv => kv.2
  | None => EmptyString
  end.

Definition post (path credential key body : string) : Http.Request :=
  Http.mk_Request "POST" path
    (header [("Authorization", "Bearer " +:+ credential); ("Idempotency-Key", key);
             ("X-Correlation-ID", "trace-1")]%string)
    (fun _ => EmptyString) body "192.0.2.1:5000".

Definition deposit_body : string :=
  encode_object [int_field "amount_cents" 5000; string_field "currency" "usd";
                 string_field "funding_source" "ach"; string_field "external_reference" "wire-1";
                 string_field "operator_reason" "initial funding"].
Definition payment_body (amount : Z) : string :=
  encode_object [string_field "account_id" "alice"; string_field "merchant_id" "shop";
                 int_field "amount_cents" amount; string_field "currency" "usd"].

Definition deposit_request : Http.Request :=
  post "/accounts/alice/deposits" "funding" "deposit-1" deposit_body.
Definition payment_request : Http.Request :=
  post "/transactions" "payments" "payment-1" (payment_body 1250).

(** What a consumer of [topic] fetches from the broker. *)
Definition fetches (topic : string) (w : World DB) : list Consumer.fetch :=
  imap (fun offset tm =>
      Consumer.Fetched (mk_message topic 0 (Z.of_nat offset) (msg_Key tm.2) (msg_Value tm.2)
                          (msg_Headers tm.2)))
    (List.filter (fun tm => String.eqb tm.1 topic) (w_broker w)).

Definition funded : World DB :=
  Eval vm_compute in after (run getenv ParseAddr commit wait (transaction_service deposit_request)) genesis.
Definition requested : World DB :=
  Eval vm_compute in after (run getenv ParseAddr commit wait (transaction_service payment_request)) funded.
Definition announced_world : World DB :=
  Eval vm_compute in after (run getenv ParseAddr commit wait (outbox_publisher 5)) requested.
Definition evaluate_process : process :=
  Eval vm_compute in risk_service (fetches TopicTransactionCreated announced_world).
Definition evaluated_world : World DB :=
  Eval vm_compute in after (run getenv ParseAddr commit wait evaluate_process) announced_world.
Definition ruled : World DB :=
  Eval vm_compute in after (run getenv ParseAddr commit wait (outbox_publisher 5)) evaluated_world.
Definition settle_process : process :=
  Eval vm_compute in ledger_service (fetches TopicRiskEvaluated ruled).
Definition settled_world : World DB :=
  Eval vm_compute in after (run getenv ParseAddr commit wait settle_process) ruled.

(** The runs that lead from one to the next. *)
Lemma run_deposit : run getenv ParseAddr commit wait (transaction_service deposit_request) genesis = (Ok tt, funded).
Proof. evaluate. Qed.
Lemma run_payment : run getenv ParseAddr commit wait (transaction_service payment_request) funded = (Ok tt, requested).
Proof. evaluate. Qed.
Lemma run_announce : run getenv ParseAddr commit wait (outbox_publisher 5) requested = (Ok tt, announced_world).
Proof. evaluate. Qed.
Lemma run_evaluate : run getenv ParseAddr commit wait evaluate_process announced_world = (Ok tt, evaluated_world).
Proof. evaluate. Qed.
Lemma run_rule : run getenv ParseAddr commit wait (outbox_publisher 5) evaluated_world = (Ok tt, ruled).
Proof. evaluate. Qed.
Lemma run_settle : run getenv ParseAddr commit wait settle_process ruled = (Ok tt, settled_world).
Proof. evaluate. Qed.

(** Every world of the chain is reachable and still quiet. *)
Definition quietly_reachable (w : World DB) : Prop :=
  steps empty_DB (w_store w) /\ w_sched w = [].

Lemma run_reachable p w r w' :
  quietly_reachable w -> run getenv ParseAddr commit wait p w = (r, w') -> w_sched w' = [] -> quietly_reachable w'.
Proof.
  intros [Hr Hq] Hrun Hq'. split; [|exact Hq']. etrans; [exact Hr|].
  apply (guar_run getenv ParseAddr commit wait p commit_wait_external w r w'); [|exact Hrun].
  by apply quiet_rely.
Qed.

Lemma genesis_reachable : quietly_reachable genesis.
Proof. split; [|done]. by cbn. Qed.
Lemma funded_reachable : quietly_reachable funded.
Proof. exact (run_reachable _ _ _ _ genesis_reachable run_deposit eq_refl). Qed.
Lemma requested_reachable : quietly_reachable requested.
Proof. exact (run_reachable _ _ _ _ funded_reachable run_payment eq_refl). Qed.
Lemma announced_reachable : quietly_reachable announced_world.
Proof. exact (run_reachable _ _ _ _ requested_reachable run_announce eq_refl). Qed.
Lemma evaluated_reachable : quietly_reachable evaluated_world.
Proof. exact (run_reachable _ _ _ _ announced_reachable run_evaluate eq_refl). Qed.
Lemma ruled_reachable : quietly_reachable ruled.
Proof. exact (run_reachable _ _ _ _ evaluated_reachable run_rule eq_refl). Qed.
Lemma settled_reachable : quietly_reachable settled_world.
Proof. exact (run_reachable _ _ _ _ ruled_reachable run_settle eq_refl). Qed.

(** The payment is authorized and the four entries are posted. *)
Example settled_payment :
  map (fun kv => (t_kind kv.2, t_status kv.2, t_amount_cents kv.2))
    (map_to_list (db_transactions (w_store settled_world)))
  = [("PAYMENT", "AUTHORIZED", 1250); ("DEPOSIT", "AUTHORIZED", 5000)]%string
  /\ size (db_ledger_entries (w_store settled_world)) = 4%nat.
Proof. by vm_compute. Qed.

End Demo.
