(* ===== verification/Shutdown.v ===== *)
(** * [cmd/transaction-service/main.go]: how the service stops

    Three parties: [main] is blocked in [ListenAndServe], a goroutine waits for
    the signal and calls [Shutdown] with five seconds, and the handlers answer
    requests.  [net/http] makes [ListenAndServe] return as soon as [Shutdown] is
    called, which closes the listener but not the connections it accepted before
    that have sent no request yet; [main] then returns and runs its deferred
    calls, those that [Startup.transaction_service_main] deferred.  Among them,
    [store.Close] lets no handler take a database connection any more and waits
    for those in use ([pgxpool]); the process ends with the handlers that still
    run. *)

From stdpp Require Import base strings list relations.
From Stdlib Require Import ZArith Lia.
From S2P Require Import Prelude GoStrings AppEnv Processes Startup Invariants Instances.

Open Scope Z_scope.

Module Shutdown.
Import Startup.

Inductive listener := Accepting | Stopped | Failed.
Inductive helper := Waiting | Draining (since : Z) | Done (since : Z).
(** [Releasing todo]: the deferred calls still to run. *)
Inductive main_state := Blocked | Releasing (todo : list resource) | Ended (e : ending).

Record state := mk_state {
  st_signalled : bool;
  st_listener : listener;
  st_helper : helper;
  st_main : main_state;
  st_pool_open : bool;
  st_accepted : nat;   (* connections without a request in work *)
  st_handling : nat;   (* handlers that hold no database connection *)
  st_holding : nat;    (* handlers that hold one *)
  st_clock : Z;
}.

Definition grace : Z := 5 * Processes.second.

Definition initial : state := mk_state false Accepting Waiting Blocked true 0 0 0 0.

Section Steps.
Context (releases : list resource).

(** Every step needs a process that has not ended. *)
Inductive step : state -> state -> Prop :=
| step_connect sg h m p o n c t :
    (forall e, m <> Ended e) ->
    step (mk_state sg Accepting h m p o n c t) (mk_state sg Accepting h m p (S o) n c t)
| step_hang_up sg l h m p o n c t :
    (forall e, m <> Ended e) ->
    step (mk_state sg l h m p (S o) n c t) (mk_state sg l h m p o n c t)
| step_request sg l h m p o n c t :
    (forall e, m <> Ended e) ->
    step (mk_state sg l h m p (S o) n c t) (mk_state sg l h m p o (S n) c t)
| step_borrow sg l h m o n c t :
    (forall e, m <> Ended e) ->
    step (mk_state sg l h m true o (S n) c t) (mk_state sg l h m true o n (S c) t)
| step_give_back sg l h m p o n c t :
    (forall e, m <> Ended e) ->
    step (mk_state sg l h m p o n (S c) t) (mk_state sg l h m p o (S n) c t)
| step_answer sg l h m p o n c t :
    (forall e, m <> Ended e) ->
    step (mk_state sg l h m p o (S n) c t) (mk_state sg l h m p o n c t)
| step_keep_alive sg h m p o n c t :
    (forall e, m <> Ended e) ->
    step (mk_state sg Accepting h m p o (S n) c t) (mk_state sg Accepting h m p (S o) n c t)
| step_time sg l h m p o n c t d :
    (forall e, m <> Ended e) -> 0 < d ->
    step (mk_state sg l h m p o n c t) (mk_state sg l h m p o n c (t + d))
| step_signal l h m p o n c t :
    (forall e, m <> Ended e) ->
    step (mk_state false l h m p o n c t) (mk_state true l h m p o n c t)
| step_shutdown m p o n c t :
    (forall e, m <> Ended e) ->
    step (mk_state true Accepting Waiting m p o n c t)
      (mk_state true Stopped (Draining t) m p o n c t)
| step_drained sg l m p o n c t since :
    (forall e, m <> Ended e) -> (o = 0 /\ n = 0 /\ c = 0)%nat \/ grace <= t - since ->
    step (mk_state sg l (Draining since) m p o n c t) (mk_state sg l (Done since) m p o n c t)
| step_listen_returns sg h p o n c t :
    step (mk_state sg Stopped h Blocked p o n c t)
      (mk_state sg Stopped h (Releasing releases) p o n c t)
| step_listen_fails sg h p o n c t :
    step (mk_state sg Accepting h Blocked p o n c t)
      (mk_state sg Failed h (Ended (Exited 1)) p o n c t)
| step_release sg l h r todo p o n c t :
    r <> the_store ->
    step (mk_state sg l h (Releasing (r :: todo)) p o n c t)
      (mk_state sg l h (Releasing todo) p o n c t)
| step_close_pool sg l h todo o n c t :
    step (mk_state sg l h (Releasing (the_store :: todo)) true o n c t)
      (mk_state sg l h (Releasing (the_store :: todo)) false o n c t)
| step_pool_closed sg l h todo o n t :
    step (mk_state sg l h (Releasing (the_store :: todo)) false o n 0 t)
      (mk_state sg l h (Releasing todo) false o n 0 t)
| step_end sg l h p o n c t :
    step (mk_state sg l h (Releasing []) p o n c t)
      (mk_state sg l h (Ended Returned) p o n c t).

Definition reachable (s : state) : Prop := rtc step initial s.

Definition helper_ok (s : state) : Prop :=
  match st_helper s with
  | Waiting => st_listener s <> Stopped
  | _ => st_signalled s = true /\ st_listener s <> Accepting
  end.

(** Once the pool is among what was released, nobody holds a connection. *)
Definition spared (released : list resource) (s : state) : Prop :=
  the_store ∈ released -> st_pool_open s = false /\ st_holding s = 0%nat.

Definition main_ok (s : state) : Prop :=
  match st_main s with
  | Blocked => True
  | Releasing todo =>
    st_listener s = Stopped /\ exists released, releases = released ++ todo /\ spared released s
  | Ended Returned => st_listener s = Stopped /\ spared releases s
  | Ended (Exited code) => code = 1 /\ st_listener s = Failed
  | Ended Panicked => False
  end.

Lemma step_helper s s' : step s s' -> helper_ok s -> helper_ok s'.
Proof.
  destruct 1; unfold helper_ok; cbn; try match goal with h : helper |- _ => destruct h; cbn end;
    intuition congruence.
Qed.

(** What the other parties do takes nothing away from a closed pool. *)
Lemma main_ok_keeps s s' :
  st_main s' = st_main s -> (forall e, st_main s <> Ended e) ->
  (st_listener s = Stopped -> st_listener s' = Stopped) ->
  (st_pool_open s = false -> st_holding s = 0%nat ->
     st_pool_open s' = false /\ st_holding s' = 0%nat) ->
  main_ok s -> main_ok s'.
Proof.
  unfold main_ok. intros -> Hne Hl Hp. destruct (st_main s) as [|todo|e]; [done| |by destruct (Hne e)].
  intros [Hs (released & Hr & Hsp)]. split; [auto|]. exists released. split; [done|].
  intros Hin. by apply Hp; apply Hsp.
Qed.

Lemma step_main s s' : step s s' -> main_ok s -> main_ok s'.
Proof.
  destruct 1; try (apply main_ok_keeps; cbn; [done|done|done|]; intros; split; congruence).
  - intros _. split; [done|]. exists []. split; [done|]. by intros ?%elem_of_nil.
  - done.
  - intros [Hl (released & -> & Hsp)]. split; [done|]. exists (released ++ [r]).
    split; [by rewrite <- app_assoc|]. intros [Hin|Hin%list_elem_of_singleton]%elem_of_app; [by apply Hsp|].
    by subst.
  - intros [Hl (released & -> & Hsp)]. split; [done|]. exists (released ++ [the_store]).
    by rewrite <- app_assoc.
  - intros [Hl (released & Hr & Hsp)]. split; [done|]. rewrite app_nil_r in Hr. by subst.
Qed.

Lemma reachable_ok s : reachable s -> helper_ok s /\ main_ok s.
Proof.
  intros Hs. eapply (rtc_stable step (fun s => helper_ok s /\ main_ok s)); [|exact Hs|done].
  intros s1 s2 Hstep [Hh Hm]. split; [by eapply step_helper|by eapply step_main].
Qed.

(** The deferred calls run through when no handler holds a connection. *)
Lemma releases_run sg l h todo p o n t :
  exists p', rtc step (mk_state sg l h (Releasing todo) p o n 0 t)
                      (mk_state sg l h (Releasing []) p' o n 0 t).
Proof.
  revert p. induction todo as [|r todo IH]; intros p; [by exists p|].
  destruct (decide (r = the_store)) as [->|Hr].
  - destruct (IH false) as [p' Hrun]. exists p'.
    assert (Hclosed : rtc step (mk_state sg l h (Releasing (the_store :: todo)) false o n 0 t)
      (mk_state sg l h (Releasing []) p' o n 0 t)) by (eapply rtc_l; [apply step_pool_closed|done]).
    destruct p; [eapply rtc_l; [apply step_close_pool|]|]; exact Hclosed.
  - destruct (IH p) as [p' Hrun]. exists p'. eapply rtc_l; [by apply step_release|done].
Qed.
End Steps.

(** ** The deferred calls of [main] *)

Section Main.
Context `{UnicodeTables} `{Pgxpool} (getenv : string -> string).

(** [main] up to the return of [ListenAndServe], and what it deferred. *)
Definition served : (unit + ending) * progress :=
  transaction_service_main getenv true (mk_progress [] []).
Definition release_order : list resource := pr_deferred served.2.

Lemma served_defers_pool : served.1 = inl tt -> the_store ∈ release_order.
Proof.
  unfold release_order, served, transaction_service_main, start, must, Open, mwhen.
  destruct (AppEnv.Must getenv "DATABASE_URL") as [url|]; [|done].
  unfold mbind, mret, mstop, act, acquire, defer. cbn.
  destruct (ParseConfig url) as [pool|]; [|done]. destruct (NewWithConfig pool); [|done].
  destruct (Ping pool); [|done]. cbn.
  destruct (metricsEnabled getenv); cbn; (destruct (Processes.router_config getenv); [|done]); cbn;
    intros _; rewrite !elem_of_cons; auto.
Qed.

(** C32. A stopping service cuts no database work off: once it serves, in every
    interleaving of [main], the signal goroutine and the handlers, when the
    process has ended by the return of [main] the signal had come, the pool was
    closed and no handler held a connection of it, for [main] defers the pool's
    closing, which waits for them; and it ends with status 1 only when its
    listener failed by itself. *)
Theorem shutdown_spares_transactions s :
  served.1 = inl tt -> reachable release_order s ->
  (st_main s = Ended Returned ->
     st_signalled s = true /\ st_pool_open s = false /\ st_holding s = 0%nat)
  /\ (forall code, st_main s = Ended (Exited code) -> code = 1 /\ st_listener s = Failed).
Proof.
  intros Hserved [Hh Hm]%reachable_ok. unfold helper_ok, main_ok in *.
  split; [|intros code He; by rewrite He in Hm].
  intros He. rewrite He in Hm. destruct Hm as [Hl Hsp].
  destruct (Hsp (served_defers_pool Hserved)) as [Hp Hc]. split_and!; [|done|done].
  by destruct (st_helper s); destruct Hh.
Qed.
End Main.

(** C33. The five seconds are not kept: [main] does not wait for [Shutdown], so
    that, whatever it deferred, the process can end, without any time having
    passed since the signal, while a request is being handled; its client gets
    no answer. *)
Theorem shutdown_cuts_requests_off releases :
  exists s, reachable releases s /\ st_main s = Ended Returned
  /\ st_handling s = 1%nat /\ st_clock s = st_clock initial.
Proof.
  destruct (releases_run releases true Stopped (Draining 0) releases true 0 1 0) as [p Hrun].
  exists (mk_state true Stopped (Draining 0) (Ended Returned) p 0 1 0 0).
  split; [|done]. unfold reachable, initial.
  eapply rtc_l; [by apply step_connect|]. eapply rtc_l; [by apply step_request|].
  eapply rtc_l; [by apply step_signal|]. eapply rtc_l; [by apply step_shutdown|].
  eapply rtc_l; [by apply step_listen_returns|].
  etrans; [exact Hrun|]. apply rtc_once, step_end.
Qed.

(** ** Witness: a request is in its transaction when the signal comes *)

Section Witness.

Definition demo_pool : Pgxpool := {|
  pool_config := unit;
  ParseConfig := fun _ => Ok tt;
  NewWithConfig := fun _ => Ok tt;
  Ping := fun _ => Ok tt;
|}.
#[local] Existing Instance demo_pool.

Definition getenv (name : string) : string :=
  if String.eqb name "DATABASE_URL" then "postgres://db/clearance" else Demo.getenv name.

Definition stopped_state : state :=
  mk_state true Stopped (Draining 0) (Ended Returned) false 0 1 0 0.

Lemma stopped_reachable : reachable (release_order getenv) stopped_state.
Proof.
  unfold reachable, initial, stopped_state.
  eapply rtc_l; [by apply step_connect|]. eapply rtc_l; [by apply step_request|].
  eapply rtc_l; [by apply step_borrow|]. eapply rtc_l; [by apply step_signal|].
  eapply rtc_l; [by apply step_shutdown|]. eapply rtc_l; [by apply step_listen_returns|].
  eapply rtc_l; [by apply step_release|]. eapply rtc_l; [by apply step_close_pool|].
  eapply rtc_l; [by apply step_give_back|]. eapply rtc_l; [by apply step_pool_closed|].
  eapply rtc_l; [by apply step_release|]. apply rtc_once, step_end.
Qed.

Lemma shutdown_spares_transactions_witness :
  st_signalled stopped_state = true /\ st_pool_open stopped_state = false
  /\ st_holding stopped_state = 0%nat.
Proof.
  by apply (shutdown_spares_transactions getenv stopped_state);
    [vm_compute|exact stopped_reachable|].
Defined.
End Witness.
End Shutdown.
