(* ===== verification/SystemProperties.v ===== *)
(** * Properties of the running system

    Each theorem speaks of one run of one process ([run]) from a reachable
    database, under any schedule whose other sessions take [steps]. *)

From stdpp Require Import base strings list gmap relations.
From Stdlib Require Import ZArith Lia.
From S2P Require Import Prelude GoStrings Sha256 Runtime Domain GoJson Codec Schema ConsumerLoop.
From S2P Require Import KafkaBus HttpApi HttpMetrics StoreOutbox TransactionService StoreTransaction.
From S2P Require Import FundingService StoreFunding StoreDeadLetter StoreLedger Books Processes.
From S2P Require Import Guarantees System Typing Invariants Instances.

Open Scope Z_scope.

(** ** Derived quantities *)

(** How many entries a transaction has, and what it moves on an account. *)
Definition entries_of (id : string) : weight :=
  fun id' _ _ _ => if String.eqb id' id then 1 else 0.
Definition movement (id account : string) : weight :=
  fun id' account' amount _ =>
    if String.eqb id' id && String.eqb account' account then amount else 0.

(** The account on the other side, and the amount credited to the customer. *)
Definition counterparty (r : transaction_row) : string :=
  if String.eqb (t_kind r) TransactionDeposit then "external-settlement" else "clearing".
Definition credited (r : transaction_row) : Z :=
  if String.eqb (t_kind r) TransactionDeposit then t_amount_cents r else - t_amount_cents r.

Definition posting (db : DB) (id : string) (r : transaction_row) : Prop :=
  if String.eqb (t_status r) TransactionAuthorized then
    ledger_total (entries_of id) db = 2
    /\ ledger_total (movement id (t_account_id r)) db = credited r
    /\ ledger_total (movement id (counterparty r)) db = - credited r
  else ledger_total (entries_of id) db = 0.

(** A measure of one transaction's entries only depends on that transaction. *)
Lemma measure_of_one (w : weight) db id r :
  balanced db -> db_transactions db !! id = Some r ->
  (forall id' a m c, id' <> id -> w id' a m c = 0) ->
  ledger_total w db = expected_entries w id r.
Proof.
  intros Hb Hr Hw. rewrite (Hb w). apply (map_sum_single _ _ _ _ Hr).
  intros id' r' Hne _. unfold expected_entries. rewrite !Hw by done. by repeat case_match.
Qed.

Lemma books_posting db id r :
  books db -> db_transactions db !! id = Some r -> posting db id r.
Proof.
  intros [Hb _ Hv] Hr. destruct (Hv _ _ Hr) as [Hck _].
  pose proof (transaction_checks_inv _ Hck) as (_ & _ & _ & _ & Hcl & Hex & _). cbn in Hcl, Hex.
  unfold posting, counterparty, credited.
  rewrite !(measure_of_one _ db id r Hb Hr)
    by (intros id' a m c Hne; unfold entries_of, movement;
        by rewrite (proj2 (String.eqb_neq _ _) Hne)).
  unfold expected_entries, entries_of, movement.
  destruct (String.eqb (t_status r) TransactionAuthorized); [|done].
  rewrite String.eqb_refl. cbn [andb].
  destruct (String.eqb (t_kind r) TransactionDeposit); rewrite ?String.eqb_refl.
  - rewrite (proj2 (String.eqb_neq "external-settlement" (t_account_id r))) by congruence.
    rewrite (proj2 (String.eqb_neq (t_account_id r) "external-settlement")) by congruence.
    split_and!; lia.
  - rewrite (proj2 (String.eqb_neq "clearing" (t_account_id r))) by congruence.
    rewrite (proj2 (String.eqb_neq (t_account_id r) "clearing")) by congruence.
    split_and!; lia.
Qed.

Lemma in_transaction_zero id currency db :
  balanced db -> ledger_total (in_transaction id currency) db = 0.
Proof.
  intros Hb. apply balanced_sum_zero; [done|]. intros. unfold in_transaction. case_match; lia.
Qed.

Lemma in_currency_zero currency db :
  balanced db -> ledger_total (in_currency currency) db = 0.
Proof.
  intros Hb. apply balanced_sum_zero; [done|]. intros. unfold in_currency. case_match; lia.
Qed.

(** ** The properties *)

Section Running.
Context `{UnicodeTables} `{JsonbSpec} `{Collation} `{MetricsHandler}.
Context (getenv : string -> string) (ParseAddr : string -> option string)
  (commit : Message -> M DB unit) (wait : Z -> M DB bool).
Implicit Types (w : World DB) (p : process).

(** One run among others: the database was reachable, and the sessions it
    meets take the system's steps. *)
Definition running p w (r : outcome error unit) w' : Prop :=
  external commit wait /\ steps empty_DB (w_store w) /\ sched_rely steps w
  /\ run getenv ParseAddr commit wait p w = (r, w').

Lemma running_steps p w r w' : running p w r w' -> steps (w_store w) (w_store w').
Proof. intros (Hx & _ & Hs & Hrun). by apply (guar_run _ _ _ _ _ Hx _ _ _ Hs Hrun). Qed.

Lemma running_books p w r w' : running p w r w' -> books (w_store w').
Proof.
  intros Hrun. eapply steps_books, steps_books, books_empty; [by eapply running_steps|].
  by destruct Hrun as (_ & ? & _).
Qed.

Lemma running_reachable p w r w' : running p w r w' -> steps empty_DB (w_store w').
Proof.
  intros Hrun. etrans; [|by eapply running_steps]. by destruct Hrun as (_ & ? & _).
Qed.

(** C1. Refinement: whatever a run of one of the five processes returns, and
    whichever of its calls fail or lose their answer, what happened to the
    database is a sequence of the abstract steps of [System.step]: each
    transaction commits all of one step or nothing. *)
Theorem processes_refine_steps p w r w' :
  external commit wait -> sched_rely steps w ->
  run getenv ParseAddr commit wait p w = (r, w') ->
  steps (w_store w) (w_store w') /\ sched_rely steps w'.
Proof. intros Hx Hs Hrun. by apply (guar_run _ _ _ _ _ Hx _ _ _ Hs Hrun). Qed.

(** C7. Double entry: in every database the system reaches, the ledger entries
    of a transaction add up to zero in every currency, and so does the whole
    ledger. *)
Theorem ledger_balances p w r w' id currency :
  running p w r w' ->
  ledger_total (in_transaction id currency) (w_store w') = 0
  /\ ledger_total (in_currency currency) (w_store w') = 0.
Proof.
  intros Hrun%running_books. split;
    [apply in_transaction_zero|apply in_currency_zero]; apply Hrun.
Qed.

(** C4. No overdraft: the balance of an account other than the two internal
    ones, as the SQL query computes it, is never negative, however payments
    and deposits interleave. *)
Theorem no_overdraft p w r w' account currency :
  running p w r w' -> customer account ->
  0 <= account_balance account currency (w_store w').
Proof. intros Hrun%running_books. apply Hrun. Qed.

(** C8. The ledger says what the transactions say: an authorized transaction
    has exactly two entries, crediting (deposit) or debiting (payment) its
    account by its amount and its counterparty by the opposite; a pending or
    failed transaction has none. *)
Theorem postings_match_status p w r w' id row :
  running p w r w' -> db_transactions (w_store w') !! id = Some row ->
  posting (w_store w') id row.
Proof. intros Hrun%running_books. by apply books_posting. Qed.

(** C14. Settlement is final: once a transaction is authorized or failed, no
    run of any process changes its row, removes or alters one of its ledger
    entries, or adds another one. *)
Theorem settlement_is_final p w r w' id row :
  running p w r w' -> db_transactions (w_store w) !! id = Some row ->
  t_status row <> TransactionPending ->
  db_transactions (w_store w') !! id = Some row
  /\ (forall e l, db_ledger_entries (w_store w) !! e = Some l ->
        db_ledger_entries (w_store w') !! e = Some l)
  /\ ledger_total (entries_of id) (w_store w') = ledger_total (entries_of id) (w_store w).
Proof.
  intros Hrun Hr Hst. pose proof (running_steps _ _ _ _ Hrun) as Hh%steps_history.
  destruct (hist_transactions _ _ Hh _ _ Hr) as (r' & Hr' & [->|[? _]]); [|done].
  split_and!; [done| |].
  - intros e l Hl. by destruct (hist_ledger _ _ Hh _ _ Hl) as (l' & ? & <-).
  - assert (Hb : books (w_store w)).
    { destruct Hrun as (_ & Hreach & _). eapply steps_books, books_empty. exact Hreach. }
    pose proof (books_posting _ _ _ (running_books _ _ _ _ Hrun) Hr') as Hp'.
    pose proof (books_posting _ _ _ Hb Hr) as Hp. unfold posting in Hp, Hp'.
    destruct (String.eqb (t_status row) _); [|congruence].
    destruct Hp as [-> _], Hp' as [-> _]. done.
Qed.

(** C24. Nothing is lost or rewritten: no process deletes a transaction, a
    ledger entry, an idempotency record, an event or a dead letter; a ledger
    entry and an idempotency record never change, an event and a dead letter
    keep their content, and the row of a published event never changes. *)
Theorem processes_keep_history p w r w' :
  external commit wait -> sched_rely steps w ->
  run getenv ParseAddr commit wait p w = (r, w') -> history (w_store w) (w_store w').
Proof.
  intros Hx Hs Hrun. by apply steps_history, (guar_run _ _ _ _ _ Hx _ _ _ Hs Hrun).
Qed.

(** C15. Transactional outbox: every transaction the system holds has the event
    that announces it (TransactionCreated or FundsDeposited), and every
    settled payment the one that announces its outcome. *)
Theorem transactions_are_announced p w r w' id row :
  running p w r w' -> db_transactions (w_store w') !! id = Some row ->
  has_event (w_store w') id (opening row)
  /\ forall ty, closing row = Some ty -> has_event (w_store w') id ty.
Proof.
  intros Hrun%running_reachable Hr. by apply (steps_announced empty_DB (w_store w')) in Hr.
Qed.

(** C16. Type preservation: a run of any process over a database whose rows
    satisfy their constraints (checks, integer widths, foreign keys, unique
    indexes) leaves such a database, whatever fails, provided the sessions it
    meets do; so every database it reaches from the empty one is well-typed. *)
Theorem runs_are_well_typed p w r w' :
  external_to typed commit wait -> sched_rely typed w -> well_typed (w_store w) ->
  run getenv ParseAddr commit wait p w = (r, w') ->
  well_typed (w_store w') /\ sched_rely typed w'.
Proof.
  intros Hx Hs Ht Hrun. destruct (guar_run _ _ _ _ _ Hx _ _ _ Hs Hrun) as [Hw Hs']. auto.
Qed.
End Running.

(** ** Witnesses *)

Section Witnesses.
Import Demo.

Definition idle_world : World DB :=
  Eval vm_compute in after (run Demo.getenv Demo.ParseAddr commit wait (outbox_publisher 5)) settled_world.

Lemma run_idle : run Demo.getenv Demo.ParseAddr commit wait (outbox_publisher 5) settled_world = (Ok tt, idle_world).
Proof. evaluate. Qed.

Lemma demo_running p w r w' :
  quietly_reachable w -> run Demo.getenv Demo.ParseAddr commit wait p w = (r, w') ->
  running Demo.getenv Demo.ParseAddr commit wait p w r w'.
Proof.
  intros [Hr Hq] Hrun. split_and!; [apply commit_wait_external|done|by apply quiet_rely|done].
Qed.

Lemma settling : running Demo.getenv Demo.ParseAddr commit wait settle_process ruled (Ok tt)
  settled_world.
Proof. exact (demo_running _ _ _ _ ruled_reachable run_settle). Qed.

Lemma publishing : running Demo.getenv Demo.ParseAddr commit wait (outbox_publisher 5)
  settled_world (Ok tt) idle_world.
Proof. exact (demo_running _ _ _ _ settled_reachable run_idle). Qed.

(** The first transaction of the demo, the payment. *)
Definition paid : string := "txn_00000000000000000000000000000006".
Definition paid_row : transaction_row :=
  Eval vm_compute in default (mk_transaction_row EmptyString EmptyString None None None 0 EmptyString
    EmptyString None None EmptyString 0 0) (db_transactions (w_store settled_world) !! paid).

Lemma processes_refine_steps_witness :
  size (db_ledger_entries (w_store settled_world)) = 4%nat
  /\ steps (w_store ruled) (w_store settled_world) /\ sched_rely steps settled_world.
Proof.
  split; [evaluate|].
  apply (processes_refine_steps Demo.getenv Demo.ParseAddr commit wait settle_process ruled (Ok tt) settled_world);
    [apply commit_wait_external|apply quiet_rely, ruled_reachable|exact run_settle].
Defined.

Lemma ledger_balances_witness :
  ledger_total (in_transaction paid "USD") (w_store settled_world) = 0
  /\ ledger_total (in_currency "USD") (w_store settled_world) = 0.
Proof. exact (ledger_balances _ _ _ _ _ _ _ _ paid "USD" settling). Defined.

Lemma no_overdraft_witness :
  account_balance "alice" "USD" (w_store settled_world) = 3750
  /\ 0 <= account_balance "alice" "USD" (w_store settled_world).
Proof. split; [evaluate|]. by apply (no_overdraft _ _ _ _ _ _ _ _ _ _ settling). Defined.

Lemma postings_match_status_witness : posting (w_store settled_world) paid paid_row.
Proof. apply (postings_match_status _ _ _ _ _ _ _ _ _ _ settling). evaluate. Defined.

Lemma settlement_is_final_witness :
  db_transactions (w_store idle_world) !! paid = Some paid_row.
Proof.
  apply (settlement_is_final _ _ _ _ _ _ _ _ paid paid_row publishing); [evaluate|done].
Defined.

Lemma processes_keep_history_witness : history (w_store ruled) (w_store settled_world).
Proof.
  apply (processes_keep_history Demo.getenv Demo.ParseAddr commit wait settle_process ruled (Ok tt) settled_world);
    [apply commit_wait_external|apply quiet_rely, ruled_reachable|exact run_settle].
Defined.

Lemma runs_are_well_typed_witness :
  size (db_operator_actions (w_store funded)) = 1%nat /\ well_typed (w_store funded).
Proof.
  split; [evaluate|].
  apply (runs_are_well_typed Demo.getenv Demo.ParseAddr commit wait
           (transaction_service deposit_request) genesis (Ok tt) funded).
  - split; intros; apply guar_ret, _.
  - by apply quiet_rely.
  - exact well_typed_empty.
  - exact run_deposit.
Defined.

Lemma transactions_are_announced_witness :
  has_event (w_store settled_world) paid EventTransactionAuthorized.
Proof.
  apply (transactions_are_announced _ _ _ _ _ _ _ _ paid paid_row settling); evaluate.
Defined.
End Witnesses.
