(* ===== verification/RequestProperties.v ===== *)
(** * Properties of accepted requests: payments and deposits

    Idempotency and durability of the two writing endpoints, over the
    PostgreSQL store and among the other sessions of the running system. *)

From stdpp Require Import base strings list gmap relations.
From Stdlib Require Import ZArith Lia.
From S2P Require Import Prelude GoStrings Sha256 Runtime Domain GoJson Codec Schema ConsumerLoop.
From S2P Require Import StoreOutbox TransactionService StoreTransaction FundingService StoreFunding.
From S2P Require Import StoreLedger HttpApi Processes Guarantees System Invariants Instances.

Open Scope Z_scope.

(** Two different texts with the same SHA-256. *)
Definition sha256_collision (a b : string) : Prop := a <> b /\ sha256_hex a = sha256_hex b.

Section Requests.
Context `{UnicodeTables} `{JsonbSpec} `{Collation}.
Implicit Types (w : World DB).

(** A call among others: a reachable database, and sessions that take the
    system's steps. *)
Definition amid w : Prop := steps empty_DB (w_store w) /\ sched_rely steps w.

Lemma amid_responses w :
  amid w -> Transactions.ts_ok (w_store w) /\ sched_rely (Transactions.ts_evolves (S := DB)) w.
Proof.
  intros [Hr Hs]. split.
  - apply (steps_responses _ _ Hr). by intros key r ?.
  - eapply sched_rely_mono; [|exact Hs]. apply steps_responses.
Qed.

Lemma amid_deposits w :
  amid w -> Funding.fs_ok (w_store w)
  /\ sched_rely (Funding.fs_evolves (S := DB)) w.
Proof.
  intros [Hr Hs]. split.
  - apply (steps_deposits _ _ Hr). by intros key r ?.
  - eapply sched_rely_mono; [|exact Hs]. apply steps_deposits.
Qed.

Lemma same_payment n1 n2 md1 md2 rq1 rq2 :
  Transactions.validate rq1 md1 = Ok n1 -> Transactions.validate rq2 md2 = Ok n2 ->
  Transactions.hashRequest n1 = Transactions.hashRequest n2 ->
  n1 = n2 \/ sha256_collision (Transactions.request_text n1) (Transactions.request_text n2).
Proof.
  intros [H1' _]%Transactions.validate_valid [H2' _]%Transactions.validate_valid Hh.
  destruct (Transactions.hashRequest_collision _ _ H1' H2' Hh) as [?|[? ?]]; [by left|by right].
Qed.

Import Transactions.

(** C9. Payments are idempotent: once a request under a key was acknowledged,
    every later request with that key that is acknowledged gets the very same
    response and asked for the same payment (or the two request texts are a
    SHA-256 collision); it is refused as a conflict only if it asks for a
    different payment.  Whatever failed in between, and whatever the other
    sessions did. *)
Theorem payment_idempotent rq1 md1 w1 resp1 w1' rq2 md2 w2 r2 w2' :
  amid w1 -> amid w2 -> steps (w_store w1') (w_store w2) ->
  md_IdempotencyKey (trimmed md1) = md_IdempotencyKey (trimmed md2) ->
  Create rq1 md1 w1 = (Ok resp1, w1') -> Create rq2 md2 w2 = (r2, w2') ->
  exists n1, validate rq1 (trimmed md1) = Ok n1 /\
  match r2 with
  | Ok resp2 => resp2 = resp1 /\ exists n2, validate rq2 (trimmed md2) = Ok n2
      /\ (n1 = n2 \/ sha256_collision (request_text n1) (request_text n2))
  | Err e => errors_Is e transaction_ErrIdempotencyConflict = true ->
      exists n2, validate rq2 (trimmed md2) = Ok n2 /\ n1 <> n2
  end.
Proof.
  intros [Hok1 Hs1]%amid_responses [_ Hs2]%amid_responses Hev Hkey Hrun1 Hrun2.
  destruct (Create_durable _ _ _ _ _ Hok1 Hs1 Hrun1) as (n1 & Hv1 & _).
  exists n1. split; [done|].
  pose proof (Create_idempotent _ _ _ _ _ _ _ _ _ _ Hok1 Hs1 Hs2 Hrun1
    (steps_responses _ _ Hev) Hkey Hrun2) as Hpost.
  destruct r2 as [resp2|e].
  - destruct Hpost as (-> & n1' & n2 & Hv1' & Hv2 & Hh). split; [done|].
    rewrite Hv1 in Hv1'. injection Hv1' as <-. exists n2. split; [done|]. by eapply same_payment.
  - intros (n1' & n2 & Hv1' & Hv2 & Hh)%Hpost. rewrite Hv1 in Hv1'. injection Hv1' as <-.
    exists n2. split; [done|]. by intros ->.
Qed.

(** An acknowledged payment exists: the transaction the response names is
    in the database, is a payment, and carries the account, merchant, amount
    and currency of the normalized request (up to a SHA-256 collision).  The
    amount is an [int64], as every decoded request's is ([create_amount]). *)
Theorem acknowledged_payment_is_booked rq md w resp w' :
  in_int64 (rq_AmountCents rq) = true -> amid w -> Create rq md w = (Ok resp, w') ->
  exists n r, validate rq (trimmed md) = Ok n
  /\ db_transactions (w_store w') !! cr_TransactionID resp = Some r
  /\ t_kind r = TransactionPayment
  /\ (payment_of r = n \/ sha256_collision (request_text (payment_of r)) (request_text n)).
Proof.
  intros Hamt Ham Hrun. destruct (amid_responses _ Ham) as [Hok Hs].
  destruct (Create_durable _ _ _ _ _ Hok Hs Hrun) as (n & Hv & Hrec).
  assert (Hbooked : booked (w_store w')).
  { eapply steps_booked, steps_booked, booked_empty; [|apply Ham].
    apply (guar_Create (R := steps) rq md Hamt w (Ok resp) w'); [apply Ham|done]. }
  apply (proj1 Hbooked) in Hrec as (r & Hr & Hk & Hh & Hvalid).
  exists n, r. split_and!; [done..|].
  destruct (validate_valid _ _ _ Hv) as [Hn _].
  destruct (hashRequest_collision _ _ Hvalid Hn (eq_sym Hh)) as [?|[? ?]]; [by left|by right].
Qed.

(** A repeated payment changes nothing: the second call leaves the database
    as the other sessions made it, and returns the recorded response or a
    failure that is not a conflict. *)
Theorem payment_replay_writes_nothing rq md w1 resp w1' w2 r w2' :
  amid w1 -> amid w2 -> steps (w_store w1') (w_store w2) ->
  Create rq md w1 = (Ok resp, w1') -> Create rq md w2 = (r, w2') ->
  w_store w2' = arrived w2
  /\ (r = Ok resp
      \/ exists e, r = Err e /\ errors_Is e transaction_ErrIdempotencyConflict = false).
Proof.
  intros [Hok1 Hs1]%amid_responses [Hok2 Hs2]%amid_responses Hev Hrun1 Hrun2.
  destruct (Create_durable _ _ _ _ _ Hok1 Hs1 Hrun1) as (n & Hv & Hrec).
  eapply Create_replay_writes_nothing; [exact Hok2|exact Hs2|exact Hv| |exact Hrun2].
  eapply lookup_weaken; [exact Hrec|]. apply (steps_responses _ _ Hev).
Qed.
End Requests.

Section Deposits.
Context `{UnicodeTables} `{JsonbSpec} `{Collation}.
Context (maxAmountCents : Z).
Implicit Types (w : World DB).

Import Funding.

(** C19. Deposits are idempotent, in the same sense. *)
Theorem deposit_idempotent rq1 md1 w1 resp1 w1' rq2 md2 w2 r2 w2' :
  maxAmountCents <= int64_max ->
  amid w1 -> amid w2 -> steps (w_store w1') (w_store w2) -> key_of md1 = key_of md2 ->
  DepositFunds maxAmountCents rq1 md1 w1 = (Ok resp1, w1') ->
  DepositFunds maxAmountCents rq2 md2 w2 = (r2, w2') ->
  match r2 with
  | Ok resp2 => resp2 = resp1
      /\ (normalized rq1 = normalized rq2
          \/ sha256_collision (request_text (normalized rq1)) (request_text (normalized rq2)))
  | Err e => errors_Is e funding_ErrIdempotencyConflict = true -> normalized rq1 <> normalized rq2
  end.
Proof.
  intros Hmax [Hok1 Hs1]%amid_deposits [_ Hs2]%amid_deposits Hev Hkey Hrun1 Hrun2.
  pose proof (Deposit_idempotent _ Hmax _ _ _ _ _ _ _ _ _ _ Hok1 Hs1 Hs2 Hrun1
    (steps_deposits _ _ Hev) Hkey Hrun2) as Hpost.
  assert (Hvalid : forall rq md w resp w',
    DepositFunds maxAmountCents rq md w = (Ok resp, w') ->
    exists m, valid_deposit maxAmountCents (normalized rq) m = true).
  { intros rq md w resp w' Hrun. unfold DepositFunds in Hrun.
    apply bind_ok in Hrun as ([n m] & w0 & (_ & _ & -> & _ & Hv)%validate_inv & _). eauto. }
  destruct r2 as [resp2|e]; [|intros He Heq; apply (Hpost He); by rewrite Heq].
  destruct Hpost as [-> Hh]. split; [done|].
  destruct (Hvalid _ _ _ _ _ Hrun1) as [m1 Hv1], (Hvalid _ _ _ _ _ Hrun2) as [m2 Hv2].
  destruct (decide (request_text (normalized rq1) = request_text (normalized rq2))) as [He|He].
  - left. by eapply deposit_text_inj.
  - right. by split.
Qed.

(** The same external reference is not credited twice: no two deposits of
    the database share source, reference and currency, whatever a deposit call
    returns. *)
Theorem deposit_references_are_unique rq md w r w' id1 id2 r1 r2 :
  maxAmountCents <= int64_max -> amid w ->
  DepositFunds maxAmountCents rq md w = (r, w') ->
  db_transactions (w_store w') !! id1 = Some r1 ->
  db_transactions (w_store w') !! id2 = Some r2 ->
  same_deposit_reference r1 r2 = true -> id1 = id2.
Proof.
  intros Hmax [Hreach Hs] Hrun. eapply (steps_references empty_DB); [|by intros ????].
  etrans; [exact Hreach|]. by apply (guar_DepositFunds (R := steps) maxAmountCents rq md Hmax w r w').
Qed.

(** A deposit is refused for its reference only when a deposit with that
    source, reference and currency is booked. *)
Theorem deposit_reference_conflict rq md w e w' :
  maxAmountCents <= int64_max -> amid w ->
  DepositFunds maxAmountCents rq md w = (Err e, w') ->
  errors_Is e funding_ErrExternalReferenceConflict = true ->
  reference_taken (w_store w') (TrimSpace (dq_FundingSource rq))
    (TrimSpace (dq_ExternalReference rq)) (ToUpper (TrimSpace (dq_Currency rq))).
Proof.
  intros Hmax [Hok Hs]%amid_deposits Hrun He.
  exact (Deposit_reference_conflict _ Hmax _ _ _ _ _ Hok Hs Hrun He).
Qed.
End Deposits.

(** ** Witnesses *)

Section Witnesses.
Import Demo.

Lemma amid_quiet w : quietly_reachable w -> amid w.
Proof. intros [Hr Hq]. split; [exact Hr|by apply quiet_rely]. Qed.

Definition payment : Transactions.CreateRequest :=
  Transactions.mk_CreateRequest "alice" "shop" 1250 "usd".
Definition payment_metadata : Transactions.RequestMetadata :=
  Transactions.mk_RequestMetadata "payment-1" "trace-1".
Definition payment_response : Transactions.CreateResponse :=
  Transactions.mk_CreateResponse "txn_00000000000000000000000000000006" "PENDING" "trace-1".
Definition paid_world : World DB :=
  Eval vm_compute in after (Transactions.Create payment payment_metadata) funded.
Definition repaid_world : World DB :=
  Eval vm_compute in after (Transactions.Create payment payment_metadata) paid_world.

Lemma pay_once :
  Transactions.Create payment payment_metadata funded = (Ok payment_response, paid_world).
Proof. evaluate. Qed.
Lemma pay_again :
  Transactions.Create payment payment_metadata paid_world = (Ok payment_response, repaid_world).
Proof. evaluate. Qed.

Lemma paid_reachable : quietly_reachable paid_world.
Proof.
  destruct funded_reachable as [Hr Hq]. split; [|done]. etrans; [exact Hr|].
  apply (guar_Create (R := steps) payment payment_metadata eq_refl funded (Ok payment_response) paid_world);
    [by apply quiet_rely|exact pay_once].
Qed.

Lemma payment_idempotent_witness :
  exists n1, Transactions.validate payment (Transactions.trimmed payment_metadata) = Ok n1 /\
  (payment_response = payment_response /\ exists n2,
    Transactions.validate payment (Transactions.trimmed payment_metadata) = Ok n2
    /\ (n1 = n2 \/ sha256_collision (Transactions.request_text n1)
                     (Transactions.request_text n2))).
Proof.
  exact (payment_idempotent payment payment_metadata funded payment_response paid_world
    payment payment_metadata paid_world (Ok payment_response) repaid_world
    (amid_quiet _ funded_reachable) (amid_quiet _ paid_reachable) (rtc_refl _ _) eq_refl
    pay_once pay_again).
Defined.

Lemma acknowledged_payment_is_booked_witness :
  exists n r, Transactions.validate payment (Transactions.trimmed payment_metadata) = Ok n
  /\ db_transactions (w_store paid_world) !! "txn_00000000000000000000000000000006"%string = Some r
  /\ t_kind r = TransactionPayment
  /\ (payment_of r = n \/ sha256_collision (Transactions.request_text (payment_of r))
                            (Transactions.request_text n)).
Proof.
  exact (acknowledged_payment_is_booked payment payment_metadata funded payment_response
    paid_world eq_refl (amid_quiet _ funded_reachable) pay_once).
Defined.

Lemma payment_replay_writes_nothing_witness : w_store repaid_world = arrived paid_world.
Proof.
  exact (proj1 (payment_replay_writes_nothing payment payment_metadata funded payment_response
    paid_world paid_world (Ok payment_response) repaid_world
    (amid_quiet _ funded_reachable) (amid_quiet _ paid_reachable) (rtc_refl _ _)
    pay_once pay_again)).
Defined.

Definition maximum : Z := 100000000.
Lemma maximum_bounded : maximum <= int64_max.
Proof. done. Qed.

Definition deposit : Funding.DepositRequest :=
  Funding.mk_DepositRequest "alice" 5000 "usd" "ach" "wire-1".
Definition deposit_metadata (key : string) : Funding.RequestMetadata :=
  Funding.mk_RequestMetadata key "trace-1" "initial funding".
Definition deposited_world : World DB :=
  Eval vm_compute in after (Funding.DepositFunds maximum deposit (deposit_metadata "d-1")) genesis.
Definition deposit_response : Funding.DepositResponse :=
  Eval vm_compute in
    match (Funding.DepositFunds maximum deposit (deposit_metadata "d-1") genesis).1 with
    | Ok r => r
    | Err _ => zero_DepositResponse
    end.
Definition redeposited_world : World DB :=
  Eval vm_compute in
    after (Funding.DepositFunds maximum deposit (deposit_metadata "d-1")) deposited_world.
Definition refused_world : World DB :=
  Eval vm_compute in
    after (Funding.DepositFunds maximum deposit (deposit_metadata "d-2")) deposited_world.
Definition refusal : error :=
  EWrap "create deposit" (ESentinel funding_ErrExternalReferenceConflict).

Lemma deposit_once : Funding.DepositFunds maximum deposit (deposit_metadata "d-1") genesis
  = (Ok deposit_response, deposited_world).
Proof. evaluate. Qed.
Lemma deposit_again : Funding.DepositFunds maximum deposit (deposit_metadata "d-1")
  deposited_world = (Ok deposit_response, redeposited_world).
Proof. evaluate. Qed.
Lemma deposit_refused : Funding.DepositFunds maximum deposit (deposit_metadata "d-2")
  deposited_world = (Err refusal, refused_world).
Proof. evaluate. Qed.

Lemma deposited_reachable : quietly_reachable deposited_world.
Proof.
  destruct genesis_reachable as [Hr Hq]. split; [|done]. etrans; [exact Hr|].
  apply (guar_DepositFunds (R := steps) maximum deposit (deposit_metadata "d-1") maximum_bounded genesis
    (Ok deposit_response) deposited_world); [by apply quiet_rely|exact deposit_once].
Qed.

Lemma deposit_idempotent_witness :
  deposit_response = deposit_response
  /\ (Funding.normalized deposit = Funding.normalized deposit
      \/ sha256_collision (Funding.request_text (Funding.normalized deposit))
           (Funding.request_text (Funding.normalized deposit))).
Proof.
  exact (deposit_idempotent maximum deposit (deposit_metadata "d-1") genesis deposit_response
    deposited_world deposit (deposit_metadata "d-1") deposited_world (Ok deposit_response)
    redeposited_world maximum_bounded (amid_quiet _ genesis_reachable)
    (amid_quiet _ deposited_reachable) (rtc_refl _ _) eq_refl deposit_once deposit_again).
Defined.

Definition deposit_id : string := "dep_00000000000000000000000000000001".
Definition booked_deposit_row : option transaction_row :=
  Eval vm_compute in db_transactions (w_store refused_world) !! deposit_id.

Lemma deposit_references_are_unique_witness : deposit_id = deposit_id.
Proof.
  destruct booked_deposit_row as [r|] eqn:Hr; [|discriminate Hr].
  apply (deposit_references_are_unique maximum deposit (deposit_metadata "d-2") deposited_world
    (Err refusal) refused_world deposit_id deposit_id r r maximum_bounded
    (amid_quiet _ deposited_reachable) deposit_refused).
  - rewrite <- Hr. evaluate.
  - rewrite <- Hr. evaluate.
  - injection Hr as <-. evaluate.
Defined.

Lemma deposit_reference_conflict_witness :
  reference_taken (w_store refused_world) "ach" "wire-1" "USD".
Proof.
  exact (deposit_reference_conflict maximum deposit (deposit_metadata "d-2") deposited_world
    refusal refused_world maximum_bounded (amid_quiet _ deposited_reachable)
    deposit_refused eq_refl).
Defined.
End Witnesses.
