(* ===== verification/ConsumerProperties.v ===== *)
(** * Properties of the two consumers

    What one delivery does to the database, whatever fails around it: all of
    one effect or nothing, and once per event. *)

From stdpp Require Import base strings list gmap relations.
From Stdlib Require Import ZArith Lia.
From S2P Require Import Prelude GoStrings Sha256 Runtime Domain GoJson Codec Schema ConsumerLoop.
From S2P Require Import KafkaBus RiskService LedgerService StoreOutbox StoreConsumer StoreLedger.
From S2P Require Import Processes Guarantees System PaymentEvents Instances.

Open Scope Z_scope.

Section Consumers.
Context `{Jsonb}.
Implicit Types (w : World DB).

(** ** What a delivery may do *)

Definition delivery_effect (d : Delivery) (payload : string) (effect : Z -> DB -> DB -> Prop)
  (r : outcome error unit) (w w' : World DB) : Prop :=
  (is_ok r = false /\ (w_store w' = w_store w \/ w_store w' = arrived w))
  \/ (exists now claimed db1,
      claim_effect now d (sha256_hex payload) claimed (arrived w) db1
      /\ if claimed then effect now db1 (w_store w') else w_store w' = db1).

(** The event the risk service derives from a transaction, added to the outbox. *)
Definition announces (t : Transaction) (now : Z) (db db' : DB) : Prop :=
  exists ev payload, ev_Type ev = EventRiskEvaluated /\ ev_AggregateID ev = tx_ID t
  /\ ev_PartitionKey ev = tx_AccountID t /\ ev_CorrelationID ev = tx_CorrelationID t
  /\ ev_Status ev = OutboxPending /\ safeTokenPattern (ev_ID ev) = true
  /\ jsonb (marshal_RiskEvaluated (Risk.evaluated t)) = Some payload
  /\ db_outbox_events db !! ev_ID ev = None
  /\ db' = set_outbox_events
       (<[ev_ID ev := outbox_row_of now ev payload]> (db_outbox_events db)) db.

Lemma risk_effect d payload w r w' :
  Risk.HandleTransactionCreated d payload w = (r, w') ->
  delivery_effect d payload (fun now db db' => exists t,
    unmarshal_Transaction payload = Some t /\ Risk.incomplete t = false
    /\ announces t now db db') r w w'.
Proof.
  unfold Risk.HandleTransactionCreated, Risk.hashPayload. intros Hrun.
  destruct (unmarshal_Transaction payload) as [t|];
    [|injection Hrun as <- <-; left; split; [done|by left]].
  destruct (Risk.incomplete t) eqn:Hin; [injection Hrun as <- <-; left; split; [done|by left]|].
  apply bind_inv in Hrun as [(ev & w1 & Hev & Hrun)|(e & Hev & _)]; [|done].
  rewrite NewOutboxEvent_run in Hev. injection Hev as <- <-.
  assert (Hsave : exists o, SaveConsumerOutbox d (sha256_hex payload)
    (mk_OutboxEvent (id_of "evt" (w_entropy w (w_drawn w))) EventRiskEvaluated (tx_ID t)
       (tx_AccountID t) (tx_CorrelationID t) (marshal_RiskEvaluated (Risk.evaluated t))
       OutboxPending 0 EmptyString (w_clock w))
    (set_drawn (Datatypes.S (w_drawn w)) w) = (o, w') /\ is_ok o = is_ok r).
  { apply bind_inv in Hrun as [(c & w2 & Hs & Hrun)|(e & Hs & ->)].
    - rewrite wrapf_ok in Hs. injection Hrun as <- <-. by eexists.
    - apply wrapf_inv in Hs as (o & Hs & Ho). exists o. split; [done|]. by destruct o. }
  clear Hrun. destruct Hsave as (o & Hs & Ho).
  apply SaveConsumerOutbox_inv in Hs as [(e & -> & Hw')|(c & now & db1 & _ & Hc & Hw')].
  - left. split; [done|]. by right.
  - right. exists now, c, db1. split; [exact Hc|]. destruct c; [|exact Hw'].
    destruct Hw' as (p & Hp & Hf & Hw'). cbn in Hf, Hw'. exists t. split_and!; [done..|].
    eexists (mk_OutboxEvent _ _ _ _ _ _ _ _ _ _), p. cbn.
    destruct Hc as (h & _ & _ & _ & ->). cbn. split_and!; try done. by apply id_of_safe.
Qed.

Lemma ledger_effect d payload w r w' :
  Ledger.HandleRiskEvaluated d payload w = (r, w') ->
  delivery_effect d payload (fun now db db' => exists event,
    unmarshal_RiskEvaluated payload = Some event /\ Ledger.incomplete event = false
    /\ rk_RiskLevel event = (if rk_Approved event then RiskLow else RiskHigh)
    /\ settled event now db db') r w w'.
Proof.
  unfold Ledger.HandleRiskEvaluated. intros Hrun.
  destruct (unmarshal_RiskEvaluated payload) as [event|];
    [|injection Hrun as <- <-; left; split; [done|by left]].
  destruct (Ledger.incomplete event) eqn:Hin;
    [injection Hrun as <- <-; left; split; [done|by left]|].
  destruct (rk_Approved event && _) eqn:Hlow;
    [injection Hrun as <- <-; left; split; [done|by left]|].
  destruct (negb (rk_Approved event) && _) eqn:Hhigh;
    [injection Hrun as <- <-; left; split; [done|by left]|].
  assert (Hlevel : rk_RiskLevel event = (if rk_Approved event then RiskLow else RiskHigh)).
  { destruct (rk_Approved event); cbn in Hlow, Hhigh; by reflect_bools. }
  assert (Hp : exists o, ProcessRiskEvaluated d (sha256_hex payload) event w = (o, w')
               /\ is_ok o = is_ok r).
  { apply bind_inv in Hrun as [(c & w2 & Hs & Hrun)|(e & Hs & ->)].
    - rewrite wrapf_ok in Hs. injection Hrun as <- <-. by eexists.
    - apply wrapf_inv in Hs as (o & Hs & Ho). exists o. split; [done|]. by destruct o. }
  destruct Hp as (o & Hs & Ho).
  apply ProcessRiskEvaluated_inv in Hs as [(e & -> & Hw')|(c & now & db1 & _ & Hc & Hw')].
  - left. split; [done|]. by right.
  - right. exists now, c, db1. split; [exact Hc|]. destruct c; [|exact Hw'].
    by exists event.
Qed.

(** A delivery whose event was claimed before. *)
Lemma delivery_again d payload effect r w w' row :
  delivery_effect d payload effect r w w' ->
  db_processed_events (arrived w) !! delivery_key d = Some row ->
  (is_ok r = false /\ (w_store w' = w_store w \/ w_store w' = arrived w))
  \/ (p_payload_sha256 row = sha256_hex payload
      /\ exists now, w_store w' = set_processed_events
           (<[delivery_key d := touch now row]> (db_processed_events (arrived w))) (arrived w)).
Proof.
  intros [?|(now & claimed & db1 & Hc & Hw)] Hrow; [by left|right].
  destruct claimed.
  - destruct Hc as (h & _ & _ & Hf & _). congruence.
  - destruct Hc as (r' & Hr' & Hh & ->). rewrite Hrow in Hr'. injection Hr' as <-. eauto.
Qed.
End Consumers.

(** ** The properties *)

Section Properties.
Context `{Jsonb}.
Implicit Types (w : World DB).

(** The delivery both mains build from a message. *)
Definition delivery_of (consumer : string) (m : Message) (id : string) : Delivery :=
  mk_Delivery consumer id (msg_Topic m) (msg_Partition m) (msg_Offset m).

Lemma deliver_inv consumer handle m w r w' :
  Processes.deliver consumer handle m w = (r, w') ->
  (is_ok r = false /\ w' = w)
  \/ exists id, EventID m = Ok id
     /\ handle (delivery_of consumer m id) (msg_Value m) w = (r, w').
Proof.
  unfold Processes.deliver. intros [(id & w1 & Hid & Hrun)|(e & Hid & ->)]%bind_inv.
  - injection Hid as Hid <-. right. eauto.
  - injection Hid as _ <-. by left.
Qed.

(** C25. A delivery to the risk service is atomic: it leaves the database alone
    and fails, or it claims the event and adds, in the same transaction, the
    RiskEvaluated event for the transaction its payload decodes to (scored by
    [EvaluateRisk]), or it finds the event claimed with the same payload and
    only refreshes the claim. *)
Theorem risk_delivery_is_atomic m w r w' :
  Processes.risk_handler m w = (r, w') ->
  (is_ok r = false /\ (w_store w' = w_store w \/ w_store w' = arrived w))
  \/ exists id, EventID m = Ok id
     /\ delivery_effect (delivery_of Risk.ConsumerName m id) (msg_Value m)
          (fun now db db' => exists t,
             unmarshal_Transaction (msg_Value m) = Some t /\ Risk.incomplete t = false
             /\ announces t now db db') r w w'.
Proof.
  intros [[Hr ->]|(id & Hid & Hrun)]%deliver_inv; [left; auto|].
  right. exists id. split; [done|]. by apply risk_effect.
Qed.

(** C10. A delivery to the ledger service is atomic, and refines the abstract
    settlement [StoreLedger.settled]: it leaves the database alone and fails,
    or it claims the event and settles the payment in the same transaction
    (status, entries and outcome event together, authorized exactly when the
    evaluation approves and the balance suffices), or it only refreshes an
    earlier claim. *)
Theorem ledger_delivery_is_atomic m w r w' :
  Processes.ledger_handler m w = (r, w') ->
  (is_ok r = false /\ (w_store w' = w_store w \/ w_store w' = arrived w))
  \/ exists id, EventID m = Ok id
     /\ delivery_effect (delivery_of Ledger.ConsumerName m id) (msg_Value m)
          (fun now db db' => exists event,
             unmarshal_RiskEvaluated (msg_Value m) = Some event
             /\ Ledger.incomplete event = false
             /\ rk_RiskLevel event = (if rk_Approved event then RiskLow else RiskHigh)
             /\ settled event now db db') r w w'.
Proof.
  intros [[Hr ->]|(id & Hid & Hrun)]%deliver_inv; [left; auto|].
  right. exists id. split; [done|]. by apply ledger_effect.
Qed.

(** The two consumers: their names and what they do with a message. *)
Definition service (consumer : string) (handle : Message -> M DB unit) : Prop :=
  (consumer = Risk.ConsumerName /\ handle = Processes.risk_handler)
  \/ (consumer = Ledger.ConsumerName /\ handle = Processes.ledger_handler).

Lemma settled_untouched event now db db' :
  settled event now db db' ->
  db_processed_events db' = db_processed_events db /\ db_dead_letters db' = db_dead_letters db.
Proof.
  intros (r & ev & p & db1 & Hs). destruct (ruling _ _) as [[outcome status] ty].
  destruct Hs as (_ & _ & Hp & _ & _ & _ & _ & _ & _ & _ & _ & _ & ->). cbn.
  destruct (String.eqb status _); [|by subst].
  by destruct Hp as (? & ? & ? & _ & _ & _ & _ & _ & ->).
Qed.

(** A run of a handler refuses the message at once, or is a delivery. *)
Lemma handler_delivers consumer handle m w r w' :
  service consumer handle -> handle m w = (r, w') ->
  (is_ok r = false /\ w' = w)
  \/ exists id effect, EventID m = Ok id
     /\ delivery_effect (delivery_of consumer m id) (msg_Value m) effect r w w'
     /\ forall now db db', effect now db db' ->
          db_processed_events db' = db_processed_events db
          /\ db_dead_letters db' = db_dead_letters db.
Proof.
  intros [[-> ->]|[-> ->]] [?|(id & Hid & Hrun)]%deliver_inv; try (by left); right.
  - eexists id, _. split_and!; [done|by apply risk_effect|].
    intros now db db' (t & _ & _ & ev & p & _ & _ & _ & _ & _ & _ & _ & _ & ->). done.
  - eexists id, _. split_and!; [done|by apply ledger_effect|].
    intros now db db' (event & _ & _ & _ & Hs). by eapply settled_untouched.
Qed.

Lemma framed_handler consumer handle m : service consumer handle -> framed (handle m).
Proof.
  pose proof framed_claim. pose proof framed_settle.
  intros [[-> ->]|[-> ->]]; unfold Processes.risk_handler, Processes.ledger_handler,
    Processes.deliver, Risk.HandleTransactionCreated, Ledger.HandleRiskEvaluated, NewOutboxEvent,
    NewID, Risk.SaveConsumerOutbox, PgRiskStore, SaveConsumerOutbox, Ledger.ProcessRiskEvaluated,
    PgLedgerStore, ProcessRiskEvaluated; solve_framed; apply framed_lift.
Qed.

(** C11. Exactly once: a message whose event its consumer has processed changes
    nothing but the time of that very claim, however often it is redelivered,
    and sends nothing; under the same event id a different payload is an error
    and changes nothing at all. *)
Theorem redelivery_has_no_effect consumer handle m id row w r w' :
  service consumer handle -> EventID m = Ok id ->
  db_processed_events (arrived w) !! (consumer, id) = Some row ->
  handle m w = (r, w') ->
  w_broker w' = w_broker w
  /\ ((is_ok r = false /\ (w_store w' = w_store w \/ w_store w' = arrived w))
      \/ (p_payload_sha256 row = sha256_hex (msg_Value m)
          /\ exists now, w_store w' = set_processed_events
               (<[(consumer, id) := touch now row]> (db_processed_events (arrived w)))
               (arrived w))).
Proof.
  intros Hsvc Hid Hrow Hrun. split; [exact (fr_broker _ _ (framed_handler _ _ _ Hsvc _ _ _ Hrun))|].
  apply (handler_delivers _ _ _ _ _ _ Hsvc) in Hrun as [[Hr ->]|(id' & effect & Hid' & Hrun & _)];
    [left; auto|].
  rewrite Hid in Hid'. injection Hid' as <-. exact (delivery_again _ _ _ _ _ _ _ Hrun Hrow).
Qed.
End Properties.

(** ** The contract between the two services *)

Section Contract.
Context `{JsonbSpec}.

(** The evaluation of a complete transaction is complete. *)
Lemma incomplete_evaluated t :
  Risk.incomplete t = false -> Ledger.incomplete (Risk.evaluated t) = false.
Proof.
  unfold Risk.incomplete, Ledger.incomplete. cbn. by intros [Hin _]%orb_false_iff.
Qed.

(** The ledger accepts what the risk service says: an evaluation of a
    complete transaction, stored as [jsonb], published and decoded again, is
    the evaluation that was made, and passes every check before the store. *)
Theorem evaluation_reaches_ledger t json d w :
  Risk.incomplete t = false -> plain_RiskEvaluated (Risk.evaluated t) = true ->
  jsonb (marshal_RiskEvaluated (Risk.evaluated t)) = Some json ->
  Ledger.HandleRiskEvaluated d json w
  = (let! _ := wrapf "process risk evaluation"
       (ProcessRiskEvaluated d (sha256_hex json) (Risk.evaluated t)) in ret tt) w.
Proof.
  intros Hin Hpl Hj. unfold Ledger.HandleRiskEvaluated.
  rewrite (stored_RiskEvaluated _ _ Hpl Hj).
  rewrite (incomplete_evaluated _ Hin).
  rewrite (Risk.evaluated_consistent t).
  by destruct (rk_Approved (Risk.evaluated t)).
Qed.
End Contract.

(** ** Witnesses *)

Section Witnesses.
Import Demo.

Definition first_fetched (fs : list Consumer.fetch) : Message :=
  match fs with
  | Consumer.Fetched m :: _ => m
  | _ => mk_message EmptyString 0 0 EmptyString EmptyString []
  end.
Definition created_message : Message :=
  Eval vm_compute in first_fetched (fetches TopicTransactionCreated announced_world).
Definition evaluated_message : Message :=
  Eval vm_compute in first_fetched (fetches TopicRiskEvaluated ruled).

Definition scored_world : World DB :=
  Eval vm_compute in after (Processes.risk_handler created_message) announced_world.
Definition rescored_world : World DB :=
  Eval vm_compute in after (Processes.risk_handler created_message) scored_world.
Definition posted_world : World DB :=
  Eval vm_compute in after (Processes.ledger_handler evaluated_message) ruled.

Lemma run_scored : Processes.risk_handler created_message announced_world = (Ok tt, scored_world).
Proof. evaluate. Qed.
Lemma run_rescored : Processes.risk_handler created_message scored_world = (Ok tt, rescored_world).
Proof. evaluate. Qed.
Lemma run_posted : Processes.ledger_handler evaluated_message ruled = (Ok tt, posted_world).
Proof. evaluate. Qed.

Lemma risk_delivery_is_atomic_witness :
  size (db_outbox_events (w_store scored_world)) = 3%nat
  /\ ((is_ok (E := error) (Ok tt) = false
       /\ (w_store scored_world = w_store announced_world
           \/ w_store scored_world = arrived announced_world))
      \/ exists id, EventID created_message = Ok id
         /\ delivery_effect (delivery_of Risk.ConsumerName created_message id)
              (msg_Value created_message)
              (fun now db db' => exists t,
                 unmarshal_Transaction (msg_Value created_message) = Some t
                 /\ Risk.incomplete t = false /\ announces t now db db')
              (Ok tt) announced_world scored_world).
Proof.
  split; [evaluate|].
  exact (risk_delivery_is_atomic created_message announced_world (Ok tt) scored_world run_scored).
Defined.

Lemma ledger_delivery_is_atomic_witness :
  size (db_ledger_entries (w_store posted_world)) = 4%nat
  /\ ((is_ok (E := error) (Ok tt) = false
       /\ (w_store posted_world = w_store ruled \/ w_store posted_world = arrived ruled))
      \/ exists id, EventID evaluated_message = Ok id
         /\ delivery_effect (delivery_of Ledger.ConsumerName evaluated_message id)
              (msg_Value evaluated_message)
              (fun now db db' => exists event,
                 unmarshal_RiskEvaluated (msg_Value evaluated_message) = Some event
                 /\ Ledger.incomplete event = false
                 /\ rk_RiskLevel event = (if rk_Approved event then RiskLow else RiskHigh)
                 /\ settled event now db db')
              (Ok tt) ruled posted_world).
Proof.
  split; [evaluate|].
  exact (ledger_delivery_is_atomic evaluated_message ruled (Ok tt) posted_world run_posted).
Defined.

Definition created_event : string := "evt_00000000000000000000000000000007".
Definition created_claim : processed_row :=
  Eval vm_compute in default (mk_processed_row EmptyString 0 None 0 0 0)
    (db_processed_events (w_store scored_world) !! (Risk.ConsumerName, created_event)).

Lemma redelivery_has_no_effect_witness :
  w_broker rescored_world = w_broker scored_world
  /\ ((is_ok (E := error) (Ok tt) = false
       /\ (w_store rescored_world = w_store scored_world
           \/ w_store rescored_world = arrived scored_world))
      \/ (p_payload_sha256 created_claim = sha256_hex (msg_Value created_message)
          /\ exists now, w_store rescored_world = set_processed_events
               (<[(Risk.ConsumerName, created_event) := touch now created_claim]>
                  (db_processed_events (arrived scored_world))) (arrived scored_world))).
Proof.
  apply (redelivery_has_no_effect Risk.ConsumerName Processes.risk_handler created_message
    created_event created_claim scored_world (Ok tt) rescored_world);
    [by left|evaluate|evaluate|exact run_rescored].
Defined.

Definition small_payment : Transaction :=
  mk_Transaction "txn_1" "PAYMENT" "alice" "shop" EmptyString EmptyString 1250 "USD" "PENDING"
    EmptyString EmptyString "trace-1" epoch epoch.

Lemma evaluation_reaches_ledger_witness :
  Ledger.HandleRiskEvaluated (delivery_of Ledger.ConsumerName evaluated_message "evt_1")
    (marshal_RiskEvaluated (Risk.evaluated small_payment)) ruled
  = (let! _ := wrapf "process risk evaluation"
       (ProcessRiskEvaluated (delivery_of Ledger.ConsumerName evaluated_message "evt_1")
          (sha256_hex (marshal_RiskEvaluated (Risk.evaluated small_payment)))
          (Risk.evaluated small_payment)) in ret tt) ruled.
Proof. apply evaluation_reaches_ledger; evaluate. Defined.
End Witnesses.
