(* ===== verification/LifecycleProperties.v ===== *)
(** * Every payment is settled once its events are delivered

    The progress of a payment through the three services: from its acceptance
    through the evaluation of the risk service to the ruling of the ledger
    service, in undisturbed runs with any activity of the system in between. *)

From stdpp Require Import base strings list gmap relations.
From Stdlib Require Import ZArith Lia.
From S2P Require Import Prelude GoStrings Sha256 Runtime Quiet Domain GoJson Codec Schema.
From S2P Require Import ConsumerLoop KafkaBus RiskService LedgerService StoreOutbox StoreConsumer.
From S2P Require Import StoreLedger Books Processes Guarantees System Invariants PaymentEvents.
From S2P Require Import Progress Provenance Instances SystemProperties ConsumerProperties.

Open Scope Z_scope.

(** ** Deliveries *)

(** The message the publisher sends for an event, as a consumer fetches it. *)
Definition delivered (partition offset : Z) (ev : string) (row : outbox_row) : Message :=
  let m := newMessage (o_partition_key row) ev (o_correlation_id row) (o_payload row) in
  mk_message (TopicFor (o_event_type row)) partition offset (msg_Key m) (msg_Value m)
    (msg_Headers m).

Lemma plain_topic ty : plain (TopicFor ty) = true.
Proof. unfold TopicFor. by repeat case_match. Qed.

Lemma EventID_delivered partition offset ev row :
  ev <> EmptyString -> EventID (delivered partition offset ev row) = Ok ev.
Proof. intros Hev. exact (EventID_newMessage (o_partition_key row) ev (o_correlation_id row) (o_payload row) Hev). Qed.

Section Lifecycle.
Context `{UnicodeTables} `{JsonbSpec} `{Collation}.
Implicit Types (w : World DB).

(** Nothing interferes with the run, the consumer did not claim the event yet
    and the identifiers drawn next are new. *)
Definition ready_for (consumer ev : string) w : Prop :=
  w_sched w = [] /\ db_processed_events (w_store w) !! (consumer, ev) = None /\ fresh_draws w.

Lemma delivery_deliverable consumer partition offset ev row db :
  safeTokenPattern consumer = true -> safeTokenPattern ev = true ->
  int4_min <= partition <= int4_max -> db_processed_events db !! (consumer, ev) = None ->
  deliverable (delivery_of consumer (delivered partition offset ev row) ev) db.
Proof. intros. split; try done. apply plain_text, plain_topic. Qed.

Lemma deliver_run consumer handle partition offset ev row w :
  safeTokenPattern ev = true ->
  Processes.deliver consumer handle (delivered partition offset ev row) w
  = handle (delivery_of consumer (delivered partition offset ev row) ev) (o_payload row) w.
Proof.
  intros Hev%safeToken_nonempty. unfold Processes.deliver.
  assert (Hid : lift (EventID (delivered partition offset ev row)) w = (Ok ev, w)).
  { by rewrite EventID_delivered. }
  by run Hid.
Qed.

Lemma risk_handler_steps m w r w' :
  w_sched w = [] -> Processes.risk_handler m w = (r, w') -> steps (w_store w) (w_store w').
Proof.
  intros Hq Hrun. eapply (guar_deliver (R := steps)); [|by apply quiet_rely|exact Hrun].
  intros. by apply guar_HandleTransactionCreated.
Qed.

(** ** The evaluation *)

Lemma evaluation_stage db id r ev row partition offset w :
  carries_payment db id r ev row ->
  Forall (fun c => c.2 = true) (transaction_checks r) -> safeTokenPattern id = true ->
  in_int64 (t_amount_cents r) = true -> int4_min <= partition <= int4_max ->
  ready_for Risk.ConsumerName ev w ->
  exists w' ev' row',
    Processes.risk_handler (delivered partition offset ev row) w = (Ok tt, w')
    /\ steps (w_store w) (w_store w') /\ carries_evaluation (w_store w') id r ev' row'.
Proof.
  intros (_ & _ & Hev & t & Hdec & Hti & Hta & Htm & Htc & Htr) Hck Hid Hamt Hpart
    (Hq & Hnew & Hfresh & _).
  destruct (evaluated_storable t id r) as [Hin Hs]; try done.
  set (m := delivered partition offset ev row).
  destruct (risk_run (delivery_of Risk.ConsumerName m ev) (o_payload row) t w)
    as (w' & Hrun & _);
    [done|by apply delivery_deliverable|done|done|done|apply Hfresh; lia|].
  assert (Hhandler : Processes.risk_handler m w = (Ok tt, w')).
  { unfold Processes.risk_handler, m. by rewrite deliver_run. }
  pose proof (risk_handler_steps _ _ _ _ Hq Hhandler) as Hsteps.
  apply risk_effect in Hrun as [[? _]|(now & claimed & db1 & Hclaim & Heff)]; [done|].
  rewrite arrived_quiet in Hclaim by done. destruct claimed.
  2: { destruct Hclaim as (r' & Hr' & _). unfold delivery_key in Hr'. cbn in Hr'. congruence. }
  destruct Heff as (t' & Hdec' & _ & (ev' & json & Hty & Hagg & Hkey & Hcorr & _ & Hsafe & Hj & _ & Hw')).
  rewrite Hdec in Hdec'. injection Hdec' as <-.
  exists w', (ev_ID ev'), (outbox_row_of now ev' json). split; [done|]. split; [done|].
  rewrite Hw'. split; [apply lookup_insert_eq|]. split; [done|]. split; [done|].
  cbn [o_payload outbox_row_of]. rewrite (stored_RiskEvaluated _ _ (proj2 (proj2 (proj2 Hs))) Hj).
  unfold Risk.evaluated, locked_transaction. cbn. by rewrite Hti, Hta, Htm, Htc, Htr.
Qed.

(** ** The settlement *)

(** A pending payment has no entries. *)
Lemma pending_unposted db id r e l :
  books db -> db_transactions db !! id = Some r -> t_status r = TransactionPending ->
  db_ledger_entries db !! e = Some l -> l_transaction_id l <> id.
Proof.
  intros Hb Hr Hst Hl Hid. pose proof (books_posting db id r Hb Hr) as Hpost.
  unfold posting in Hpost. rewrite Hst in Hpost. cbn in Hpost.
  unfold ledger_total in Hpost. rewrite (map_sum_delete _ _ _ _ Hl) in Hpost.
  assert (Hone : entry_weight (entries_of id) l = 1).
  { unfold entry_weight, entries_of. by rewrite Hid, String.eqb_refl. }
  assert (0 <= map_sum (fun _ l => entry_weight (entries_of id) l)
    (delete e (db_ledger_entries db))).
  { apply map_sum_nonneg. intros. unfold entry_weight, entries_of. case_match; lia. }
  lia.
Qed.

(** What the system decides about a payment of [amount] on an account with
    [balance]. *)
Definition verdict (amount balance : Z) : string :=
  if (amount <=? 50000) && (amount <=? balance) then TransactionAuthorized else TransactionFailed.

Lemma ruling_verdict t balance :
  (ruling (Risk.evaluated t) balance).1.2 = verdict (tx_AmountCents t) balance.
Proof.
  unfold ruling, verdict. pose proof (Risk.evaluated_approved t) as Ha. cbn [rk_AmountCents Risk.evaluated].
  destruct (rk_Approved (Risk.evaluated t)).
  - rewrite (proj2 (Z.leb_le _ _)) by by apply Ha. cbn [andb].
    destruct (balance <? _) eqn:Hlt; reflect_bools.
    + by rewrite (proj2 (Z.leb_gt _ _)).
    + by rewrite (proj2 (Z.leb_le _ _)).
  - rewrite (proj2 (Z.leb_gt _ _)); [done|]. apply Z.lt_nge. intros Hle. by apply Ha in Hle.
Qed.

Lemma settlement_stage db id r ev row partition offset w :
  steps empty_DB (w_store w) -> carries_evaluation db id r ev row ->
  db_transactions (w_store w) !! id = Some r -> t_status r = TransactionPending ->
  safeTokenPattern id = true -> in_int64 (t_amount_cents r) = true ->
  int4_min <= partition <= int4_max -> ready_for Ledger.ConsumerName ev w ->
  let balance := account_balance (t_account_id r) (t_currency r) (w_store w) in
  in_int64 balance = true ->
  exists w' r',
    Processes.ledger_handler (delivered partition offset ev row) w = (Ok tt, w')
    /\ db_transactions (w_store w') !! id = Some r'
    /\ t_status r' = verdict (t_amount_cents r) balance.
Proof.
  intros Hreach (_ & _ & Hev & Hdec) Hr Hst Hid Hamt Hpart (Hq & Hnew & Hfresh) balance Hbal.
  assert (Hbooks : books (w_store w)) by by eapply steps_books, books_empty.
  destruct (books_rows _ Hbooks _ _ Hr) as [Hck _].
  set (t := locked_transaction id r) in *.
  destruct (evaluated_storable t id r) as [Hin Hs]; try done.
  assert (Hset : settleable (Risk.evaluated t) r (w_store w)).
  { split; try done; [apply Risk.evaluated_consistent|]. intros e l Hl.
    by eapply pending_unposted. }
  assert (Hin' : Ledger.incomplete (Risk.evaluated t) = false) by by apply incomplete_evaluated.
  set (m := delivered partition offset ev row).
  destruct (ledger_run (delivery_of Ledger.ConsumerName m ev) (o_payload row) (Risk.evaluated t) r w)
    as (w' & Hrun & _); [done|by apply delivery_deliverable|done..|].
  assert (Hhandler : Processes.ledger_handler m w = (Ok tt, w')).
  { unfold Processes.ledger_handler, m. by rewrite deliver_run. }
  apply ledger_effect in Hrun as [[? _]|(now & claimed & db1 & Hclaim & Heff)]; [done|].
  rewrite arrived_quiet in Hclaim by done. destruct claimed.
  2: { destruct Hclaim as (r' & Hr' & _). unfold delivery_key in Hr'. cbn in Hr'. congruence. }
  apply claim_tables in Hclaim as [tab ->].
  destruct Heff as (event & Hdec' & _ & _ & r1 & ev' & json & db2 & Hon).
  rewrite Hdec in Hdec'. injection Hdec' as <-.
  destruct (ruling _ _) as [[outcome status] ty] eqn:Hrule.
  destruct Hon as (Hr1 & _ & _ & _ & _ & _ & _ & _ & _ & _ & _ & _ & Hw').
  cbn in Hr1. rewrite Hr in Hr1. injection Hr1 as <-.
  eexists w', _. split; [done|]. split; [rewrite Hw'; apply lookup_insert_eq|].
  cbn [t_status finalized]. change status with (outcome, status, ty).1.2. rewrite <- Hrule.
  exact (ruling_verdict t _).
Qed.

(** ** The property *)

(** C3. Payments settle: every pending payment of a reachable database has an
    event that carries it; whenever that event's message is then delivered to
    the risk service, undisturbed, the delivery succeeds and leaves an event
    with the evaluation of this payment; whenever that event's message is
    delivered to the ledger service while the payment is pending, undisturbed,
    the delivery succeeds and the payment is settled: authorized exactly when
    its amount is at most 50000 and at most the balance of its account then,
    and failed otherwise.  Between the deliveries the system does whatever it
    does. *)
Theorem payments_settle w id r :
  steps empty_DB (w_store w) -> db_transactions (w_store w) !! id = Some r ->
  t_kind r = TransactionPayment -> t_status r = TransactionPending ->
  exists ev row, carries_payment (w_store w) id r ev row
  /\ forall partition offset w1,
    int4_min <= partition <= int4_max -> steps (w_store w) (w_store w1) ->
    ready_for Risk.ConsumerName ev w1 ->
  exists w2 ev' row',
    Processes.risk_handler (delivered partition offset ev row) w1 = (Ok tt, w2)
    /\ carries_evaluation (w_store w2) id r ev' row'
  /\ forall partition' offset' w3,
    int4_min <= partition' <= int4_max -> steps (w_store w2) (w_store w3) ->
    ready_for Ledger.ConsumerName ev' w3 -> db_transactions (w_store w3) !! id = Some r ->
    let balance := account_balance (t_account_id r) (t_currency r) (w_store w3) in
    in_int64 balance = true ->
  exists w4 r',
    Processes.ledger_handler (delivered partition' offset' ev' row') w3 = (Ok tt, w4)
    /\ db_transactions (w_store w4) !! id = Some r'
    /\ t_status r' = verdict (t_amount_cents r) balance.
Proof.
  intros Hreach Hr Hk Hst.
  destruct (steps_payments_ready _ _ Hreach payments_ready_empty id r Hr Hk)
    as (Hid & Hamt & ev & row & Hcarry).
  destruct (books_rows _ (steps_books _ _ Hreach books_empty) _ _ Hr) as [Hck _].
  exists ev, row. split; [exact Hcarry|]. intros partition offset w1 Hpart Hs1 Hready.
  destruct (evaluation_stage (w_store w) id r ev row partition offset w1)
    as (w2 & ev' & row' & Hrun & Hs2 & Heval); try done.
  exists w2, ev', row'. split; [exact Hrun|]. split; [exact Heval|].
  intros partition' offset' w3 Hpart' Hs3 Hready' Hr3 balance Hbal.
  eapply settlement_stage; try done. etrans; [exact Hreach|]. etrans; [exact Hs1|]. by etrans.
Qed.
End Lifecycle.

(** ** Witness *)

Section Witness.
Import Demo.

(** The events of a type, to find the one of a concrete database. *)
Definition events_of (ty : string) (db : DB) : list (string * outbox_row) :=
  List.filter (fun kv => String.eqb (o_event_type kv.2) ty) (map_to_list (db_outbox_events db)).

Lemma event_listed db ev row ty e :
  db_outbox_events db !! ev = Some row -> o_event_type row = ty -> events_of ty db = [e] ->
  ev = e.1 /\ row = e.2.
Proof.
  intros Hrow <- Hl. assert (Hin : In (ev, row) (events_of (o_event_type row) db)).
  { apply filter_In. split; [|by apply String.eqb_refl].
    by apply list_elem_of_In, elem_of_map_to_list. }
  rewrite Hl in Hin. by destruct Hin as [->|[]].
Qed.

Definition null_event : string * outbox_row :=
  (EmptyString, mk_outbox_row EmptyString EmptyString EmptyString EmptyString EmptyString
                  EmptyString 0 None None 0 0).
Definition the_event (ty : string) (db : DB) : string * outbox_row :=
  hd null_event (events_of ty db).

Definition payment_id : string := "txn_00000000000000000000000000000006".
Definition payment_stored : transaction_row :=
  Eval vm_compute in default (mk_transaction_row EmptyString EmptyString None None None 0
    EmptyString EmptyString None None EmptyString 0 0)
    (db_transactions (w_store requested) !! payment_id).

Lemma announced_steps : steps (w_store requested) (w_store announced_world).
Proof.
  apply (guar_run getenv ParseAddr commit wait (outbox_publisher 5) commit_wait_external
    requested (Ok tt) announced_world); [by apply quiet_rely|exact run_announce].
Qed.

(** The next three draws of a concrete world. *)
Definition check_draws (w : World DB) : bool :=
  bool_decide (db_outbox_events (w_store w) !! next_id "evt" w 0 = None)
  && bool_decide (db_outbox_events (w_store w) !! next_id "evt" w 1 = None)
  && bool_decide (db_outbox_events (w_store w) !! next_id "evt" w 2 = None)
  && bool_decide (db_ledger_entries (w_store w) !! next_id "le" w 0 = None)
  && bool_decide (db_ledger_entries (w_store w) !! next_id "le" w 1 = None)
  && bool_decide (next_id "le" w 0 <> next_id "le" w 1).

Lemma check_draws_fresh w : check_draws w = true -> fresh_draws w.
Proof.
  unfold check_draws. rewrite !andb_true_iff, !bool_decide_eq_true.
  intros [[[[[H0 H1] H2] H3] H4] H5]. split; [|split; [|exact H5]].
  - intros [|[|[|k]]] Hk; [exact H0|exact H1|exact H2|lia].
  - intros [|[|k]] Hk; [exact H3|exact H4|lia].
Qed.

Lemma payments_settle_witness :
  exists w2 w4 r',
    Processes.risk_handler created_message announced_world = (Ok tt, w2)
    /\ Processes.ledger_handler
         (delivered 0 0 (the_event EventRiskEvaluated (w_store w2)).1
            (the_event EventRiskEvaluated (w_store w2)).2) w2 = (Ok tt, w4)
    /\ db_transactions (w_store w4) !! payment_id = Some r' /\ t_status r' = TransactionAuthorized.
Proof.
  destruct (payments_settle requested payment_id payment_stored (proj1 requested_reachable)
    ltac:(by vm_compute) eq_refl eq_refl) as (ev & row & (Hrow & Hty & _) & Hrisk).
  destruct (event_listed _ _ _ _ (the_event EventTransactionCreated (w_store requested)) Hrow Hty
    ltac:(by vm_compute)) as [-> ->].
  destruct (Hrisk 0 0 announced_world) as (w2 & ev' & row' & Hrun & (Hrow' & Hty' & _) & Hledger).
  { split; by vm_compute. }
  { exact announced_steps. }
  { split_and!; [done|by vm_compute|by apply check_draws_fresh; vm_compute]. }
  assert (Hw2 : w2 = scored_world).
  { pose proof run_scored as Hs. assert (Hm : delivered 0 0 (the_event EventTransactionCreated (w_store requested)).1
      (the_event EventTransactionCreated (w_store requested)).2 = created_message) by by vm_compute.
    rewrite Hm in Hrun. rewrite Hrun in Hs. by injection Hs. }
  subst w2.
  destruct (event_listed _ _ _ _ (the_event EventRiskEvaluated (w_store scored_world)) Hrow' Hty'
    ltac:(by vm_compute)) as [-> ->].
  destruct (Hledger 0 0 scored_world) as (w4 & r' & Hrun' & Hr' & Hst').
  { split; by vm_compute. }
  { reflexivity. }
  { split_and!; [done|by vm_compute|by apply check_draws_fresh; vm_compute]. }
  { by vm_compute. }
  { by vm_compute. }
  exists scored_world, w4, r'. split; [exact run_scored|]. split; [exact Hrun'|].
  split; [exact Hr'|]. rewrite Hst'. by vm_compute.
Defined.
End Witness.
