(* ===== verification/OutboxProperties.v ===== *)
(** * Properties of the outbox publisher

    What [PublishNext] does to a row and to the broker, in every case, and
    that draining the outbox ends. *)

From stdpp Require Import base strings list gmap sorting relations.
From Stdlib Require Import ZArith Lia.
From S2P Require Import Prelude GoStrings Sha256 Runtime Quiet Domain GoJson Schema KafkaBus.
From S2P Require Import OutboxPublisher StoreOutbox Footprints Processes Guarantees System Invariants.
From S2P Require Import Instances.

Open Scope Z_scope.

Section Outbox.
Context `{Jsonb} `{CollationSpec}.
Implicit Types (w : World DB) (db : DB).

(** ** Rows the store can update *)

Definition outbox_ok (db : DB) : Prop :=
  forall id r, db_outbox_events db !! id = Some r ->
    text_ok id = true /\ Forall (fun c => c.2 = true) (outbox_checks r).

Definition check_outbox (db : DB) : bool :=
  forallb (fun kv => text_ok kv.1 && forallb snd (outbox_checks kv.2))
    (map_to_list (db_outbox_events db)).

Lemma check_outbox_ok db : check_outbox db = true -> outbox_ok db.
Proof.
  intros Hc id r Hr. apply elem_of_map_to_list, list_elem_of_In in Hr.
  apply (proj1 (forallb_forall _ _) Hc) in Hr as [Ht Hck]%andb_true_iff.
  split; [done|]. apply Forall_forall. intros c Hin%list_elem_of_In.
  exact (proj1 (forallb_forall _ _) Hck c Hin).
Qed.

Lemma checks_status s r r' :
  Forall (fun c => c.2 = true) (outbox_checks r) ->
  o_attempts r' = o_attempts r -> o_correlation_id r' = o_correlation_id r ->
  o_event_type r' = o_event_type r -> o_status r' = s ->
  one_of s ["PENDING"; "PROCESSING"; "PUBLISHED"; "DEAD_LETTERED"]%string = true ->
  Forall (fun c => c.2 = true) (outbox_checks r').
Proof.
  unfold outbox_checks. rewrite !Forall_cons. cbn [snd]. intros (Ha & Hc & Ht & _ & _) -> -> -> -> Hs.
  repeat constructor; done.
Qed.

(** The oldest claimable event. *)
Lemma next_event_oldest lk now db id r :
  next_event lk now db = Some (id, r) ->
  forall id' r', db_outbox_events db !! id' = Some r' -> claimable now r' = true ->
    lk (outbox_row_key id') = false ->
    row_ltb (o_created_at r', id') (o_created_at r, id) = false.
Proof.
  unfold next_event. set (l := merge_sort _ _).
  assert (Hs : StronglySorted (asc o_created_at) l) by (apply StronglySorted_merge_sort; apply _).
  intros Hh id' r' Hr' Hc Hlk.
  assert (Hin : (id', r') ∈ filter (fun kv => negb (lk (outbox_row_key kv.1)) = true) l).
  { apply list_elem_of_filter. cbn. rewrite Hlk. split; [done|]. subst l.
    rewrite merge_sort_Permutation, list_elem_of_filter, elem_of_map_to_list. done. }
  destruct (filter _ l) as [|kv rest] eqn:Hf; [done|]. injection Hh as ->.
  assert (Hs' : StronglySorted (asc o_created_at) ((id, r) :: rest)).
  { rewrite <- Hf. clear -Hs. induction Hs as [|x l _ IH Hall]; [constructor|].
    rewrite filter_cons. case_decide; [|exact IH]. constructor; [exact IH|].
    rewrite Forall_forall in *. intros y [_ Hy]%list_elem_of_filter. by apply Hall. }
  apply elem_of_cons in Hin as [[= -> ->]|Hin].
  - apply row_ltb_irrefl.
  - apply StronglySorted_inv in Hs' as [_ Hall]. rewrite Forall_forall in Hall.
    apply Hall in Hin. exact Hin.
Qed.

Lemma next_event_None now db :
  next_event (fun _ => false) now db = None ->
  forall id r, db_outbox_events db !! id = Some r -> claimable now r = false.
Proof.
  unfold next_event. intros Hh id r Hr. destruct (claimable now r) eqn:Hc; [|done].
  apply head_None in Hh. assert (Hin : (id, r) ∈ @nil (string * outbox_row)); [|inversion Hin].
  rewrite <- Hh. apply list_elem_of_filter. split; [done|].
  rewrite merge_sort_Permutation, list_elem_of_filter, elem_of_map_to_list. done.
Qed.

(** ** One undisturbed step of the publisher *)

Definition put_event (id : string) (r : outbox_row) (db : DB) : DB :=
  set_outbox_events (<[id := r]> (db_outbox_events db)) db.

Definition claimed_row (now : Z) (r : outbox_row) : outbox_row :=
  with_status OutboxProcessing now r.

Lemma claimed_checks now r :
  Forall (fun c => c.2 = true) (outbox_checks r) ->
  Forall (fun c => c.2 = true) (outbox_checks (claimed_row now r)).
Proof. intros Hck. by eapply checks_status. Qed.

Lemma outbox_ok_put db id r :
  outbox_ok db -> is_Some (db_outbox_events db !! id) ->
  Forall (fun c => c.2 = true) (outbox_checks r) -> outbox_ok (put_event id r db).
Proof.
  intros Hok [r0 Hr0] Hck id' r'. cbn. rewrite lookup_insert_Some.
  intros [[<- <-]|[_ Hr']]; [|by apply Hok]. split; [|done]. by apply (Hok id r0).
Qed.

Lemma put_event_twice id r r' db : put_event id r' (put_event id r db) = put_event id r' db.
Proof. unfold put_event. cbn. by rewrite insert_insert_eq. Qed.

Lemma NextPending_calm w :
  next_slot w = quiet -> outbox_ok (w_store w) ->
  let now := timestamptz (w_clock w) in
  NextPending w
  = match next_event (fun _ => false) now (w_store w) with
    | None => (Ok None, pop true w)
    | Some (id, r) =>
      (Ok (Some (scan_outbox id (claimed_row now r) EmptyString)),
       set_store (put_event id (claimed_row now r) (w_store w)) (pop true w))
    end.
Proof.
  intros Hq Hok now. unfold NextPending, wrapf, round_trip. rewrite Hq.
  cbn [sl_fault quiet sl_locked].
  assert (Hst : w_store (pop true w) = w_store w) by (cbn; by rewrite Hq).
  assert (Hcl : w_clock (pop true w) = w_clock w) by (cbn; rewrite Hq; cbn; lia).
  rewrite Hst, Hcl. fold now.
  destruct (next_event _ now _) as [[id r]|] eqn:Hn; cbn [exec].
  - apply next_event_ok in Hn as (Hr & _ & _). destruct (Hok _ _ Hr) as [_ Hck].
    unfold update_outbox_event. by rewrite (checked_true _ _ (claimed_checks now r Hck)).
  - by rewrite <- Hst, set_store_same.
Qed.

Lemma NextPending_quiet w :
  w_sched w = [] -> outbox_ok (w_store w) ->
  let now := timestamptz (w_clock w) in
  NextPending w
  = match next_event (fun _ => false) now (w_store w) with
    | None => (Ok None, w)
    | Some (id, r) =>
      (Ok (Some (scan_outbox id (claimed_row now r) EmptyString)),
       set_store (put_event id (claimed_row now r) (w_store w)) w)
    end.
Proof.
  intros Hq Hok now. rewrite NextPending_calm by (done || by apply next_slot_quiet).
  by rewrite pop_quiet.
Qed.

Lemma MarkPublished_quiet w id r :
  w_sched w = [] -> outbox_ok (w_store w) -> db_outbox_events (w_store w) !! id = Some r ->
  o_status r = OutboxProcessing ->
  MarkPublished id w
  = (Ok tt, set_store (put_event id (published_row (timestamptz (w_clock w)) r) (w_store w)) w).
Proof.
  intros Hq Hok Hr Hst. destruct (Hok _ _ Hr) as [Htext Hck].
  unfold MarkPublished, wrapf, bind. rewrite round_trip_quiet by done.
  unfold with_texts. cbn [forallb]. rewrite Htext. cbn [andb].
  unfold update_where_status. rewrite Hr, Hst, String.eqb_refl. cbn [obind_ok].
  unfold update_outbox_event. rewrite checked_true; [done|]. by eapply checks_status.
Qed.

Lemma MarkFailedAttempt_quiet w id r maxAttempts :
  w_sched w = [] -> outbox_ok (w_store w) -> db_outbox_events (w_store w) !! id = Some r ->
  o_status r = OutboxProcessing -> int4_min <= maxAttempts <= int4_max ->
  o_attempts r < int4_max ->
  MarkFailedAttempt id maxAttempts w
  = (Ok tt,
     set_store (put_event id (failed_row maxAttempts (timestamptz (w_clock w)) r) (w_store w)) w).
Proof.
  intros Hq Hok Hr Hst Hmax Hatt. destruct (Hok _ _ Hr) as [Htext Hck].
  unfold MarkFailedAttempt, wrapf, bind. rewrite round_trip_quiet by done.
  unfold with_texts. cbn [forallb]. rewrite Htext. cbn [andb].
  unfold with_int4. rewrite (proj2 (within_iff _ _ _) Hmax).
  unfold update_where_status. rewrite Hr, Hst, String.eqb_refl.
  unfold int4_result.
  assert ((o_attempts r + 1 <=? int4_max) = true) as -> by (apply Z.leb_le; lia).
  cbn [obind_ok].
  unfold update_outbox_event. rewrite checked_true; [done|].
  unfold outbox_checks in *. rewrite !Forall_cons in *. cbn [snd o_attempts failed_row] in *.
  destruct Hck as (Ha & Hc & Ht & _ & _). apply Z.leb_le in Ha.
  split_and!; [apply Z.leb_le; cbn; lia|done|done| |constructor].
  cbn. by destruct (maxAttempts <=? _).
Qed.

(** The message of an event, and what publishing it adds to the world. *)
Definition message_of (id : string) (r : outbox_row) : string * Message :=
  (TopicFor (o_event_type r),
   newMessage (o_partition_key r) id (o_correlation_id r) (o_payload r)).

Lemma publish_event_quiet w e :
  w_sched w = [] ->
  Processes.publish_event e w
  = (Ok tt, set_metrics (w_metrics w ++ [KafkaPublish (TopicFor (ev_Type e)) "ok"])
       (set_broker (w_broker w ++ [(TopicFor (ev_Type e),
          newMessage (ev_PartitionKey e) (ev_ID e) (ev_CorrelationID e) (ev_Payload e))]) w)).
Proof.
  intros Hq. unfold Processes.publish_event, Publish, PublishMessage, WriteMessages, attempt.
  by rewrite (next_slot_quiet _ Hq), (pop_quiet true _ Hq).
Qed.

Lemma PublishNext_quiet w id r maxAttempts :
  w_sched w = [] -> outbox_ok (w_store w) ->
  let now := timestamptz (w_clock w) in
  next_event (fun _ => false) now (w_store w) = Some (id, r) ->
  exists w', Outbox.PublishNext Processes.publish_event maxAttempts w = (Ok true, w')
  /\ w_store w' = put_event id (published_row now (claimed_row now r)) (w_store w)
  /\ w_broker w' = w_broker w ++ [message_of id r]
  /\ w_sched w' = [] /\ w_clock w' = w_clock w.
Proof.
  intros Hq Hok now Hn. pose proof (next_event_ok _ _ _ _ _ Hn) as (Hr & _ & _).
  unfold Outbox.PublishNext. unfold bind at 1, wrapf at 1. cbn [Outbox.NextPending PgOutboxStore].
  rewrite (NextPending_quiet w Hq Hok). cbn beta. fold now. rewrite Hn. cbn beta iota.
  set (w1 := set_store _ w). unfold attempt.
  rewrite publish_event_quiet by done. cbn beta iota.
  set (w2 := set_metrics _ _). unfold bind at 1, wrapf at 1.
  cbn [Outbox.MarkPublished PgOutboxStore ev_ID scan_outbox].
  rewrite (MarkPublished_quiet w2 id (claimed_row now r)); [|done| | |done].
  - eexists. split; [reflexivity|]. cbn. split_and!; try done.
    apply put_event_twice.
  - apply outbox_ok_put; [done|by eexists|]. apply claimed_checks. by apply (Hok id).
  - cbn. apply lookup_insert_eq.
Qed.

Lemma PublishNext_refused maxAttempts w id r elapsed lk :
  w_sched w = [quiet; mk_slot (fun db => db) elapsed FailBefore lk] ->
  outbox_ok (w_store w) -> int4_min <= maxAttempts <= int4_max -> o_attempts r < int4_max ->
  let now := timestamptz (w_clock w) in
  let later := timestamptz (w_clock w + Z.of_N elapsed) in
  next_event (fun _ => false) now (w_store w) = Some (id, r) ->
  Outbox.PublishNext Processes.publish_event maxAttempts w
  = (Err (EWrap "publish outbox event" (EWrap "write kafka message" connection_lost)),
     mk_world (put_event id (failed_row maxAttempts later (claimed_row now r)) (w_store w))
       (w_clock w + Z.of_N elapsed) (w_entropy w) (w_drawn w) [] (w_broker w) (w_redis w)
       ((w_metrics w ++ [KafkaPublish (TopicFor (o_event_type r)) "error"])
          ++ [OutboxPublish (if maxAttempts <=? o_attempts r + 1
                             then "dead_lettered" else "failed_attempt")])).
Proof.
  intros Hq Hok Hmax Hatt now later Hn. pose proof (next_event_ok _ _ _ _ _ Hn) as (Hr & _ & _).
  destruct w as [st cl en dr sc br rd ms]. cbn in *. subst sc.
  unfold Outbox.PublishNext. unfold bind at 1, wrapf at 1.
  cbn [Outbox.NextPending PgOutboxStore]. rewrite NextPending_calm by done.
  cbn beta zeta. cbn [w_clock w_store]. fold now. rewrite Hn. cbn beta iota.
  unfold attempt, Processes.publish_event, Publish, PublishMessage, WriteMessages. unfold attempt.
  cbn -[timestamptz put_event failed_row MarkFailedAttempt Z.leb].
  unfold bind at 1, wrapf at 1.
  erewrite (MarkFailedAttempt_quiet _ id (claimed_row now r)); [|done| | |done|done|done].
  - cbn -[timestamptz put_event failed_row Z.leb].
    unfold fail, set_metrics, set_store, pop. cbn -[timestamptz put_event failed_row Z.leb].
    by rewrite put_event_twice, !Z.add_0_r.
  - apply outbox_ok_put; [done|by eexists|]. apply claimed_checks. by apply (Hok id).
  - cbn. apply lookup_insert_eq.
Qed.

Lemma PublishNext_idle w maxAttempts :
  w_sched w = [] -> outbox_ok (w_store w) ->
  next_event (fun _ => false) (timestamptz (w_clock w)) (w_store w) = None ->
  Outbox.PublishNext Processes.publish_event maxAttempts w = (Ok false, w).
Proof.
  intros Hq Hok Hn. unfold Outbox.PublishNext. unfold bind at 1, wrapf at 1.
  cbn [Outbox.NextPending PgOutboxStore]. rewrite (NextPending_quiet w Hq Hok). cbn beta zeta.
  by rewrite Hn.
Qed.

Lemma published_not_claimable now now' r : claimable now (published_row now' r) = false.
Proof. done. Qed.

Definition waiting (now : Z) (db : DB) : Z := count_where (claimable now) (db_outbox_events db).

Lemma drain w maxAttempts fuel :
  w_sched w = [] -> outbox_ok (w_store w) ->
  waiting (timestamptz (w_clock w)) (w_store w) < Z.of_nat fuel ->
  exists w' sent, Outbox.PublishAvailable Processes.publish_event maxAttempts fuel w
    = (Ok (Some tt), w')
  /\ w_clock w' = w_clock w /\ w_broker w' = w_broker w ++ sent
  /\ Z.of_nat (length sent) = waiting (timestamptz (w_clock w)) (w_store w)
  /\ waiting (timestamptz (w_clock w)) (w_store w') = 0.
Proof.
  revert w. induction fuel as [|fuel IH]; intros w Hq Hok Hlt.
  { pose proof (count_where_nonneg (claimable (timestamptz (w_clock w)))
      (db_outbox_events (w_store w))). unfold waiting in Hlt. lia. }
  set (now := timestamptz (w_clock w)) in *. cbn [Outbox.PublishAvailable].
  destruct (next_event (fun _ => false) now (w_store w)) as [[id r]|] eqn:Hn.
  - destruct (PublishNext_quiet w id r maxAttempts Hq Hok Hn)
      as (w1 & Hrun & Hst & Hbr & Hq1 & Hcl).
    pose proof (next_event_ok _ _ _ _ _ Hn) as (Hr & Hc & _).
    assert (Hcount : waiting now (w_store w1) = waiting now (w_store w) - 1).
    { unfold waiting. rewrite Hst. unfold put_event. cbn.
      rewrite (count_where_update _ _ _ r) by done. rewrite Hc, published_not_claimable. lia. }
    assert (Hok1 : outbox_ok (w_store w1)).
    { rewrite Hst. apply outbox_ok_put; [done|by eexists|].
      by eapply (checks_status _ r); [apply (Hok id)|..]. }
    destruct (IH w1 Hq1 Hok1) as (w' & sent & Hrest & Hcl' & Hbr' & Hlen & Hzero).
    { rewrite Hcl. fold now. lia. }
    rewrite Hcl in *. fold now in Hlen, Hzero.
    exists w', (message_of id r :: sent). unfold bind. rewrite Hrun, Hrest.
    split_and!; [done|done| | |done].
    + rewrite Hbr', Hbr. by rewrite <- app_assoc.
    + cbn [length]. lia.
  - exists w, []. unfold bind. rewrite PublishNext_idle by done.
    assert (Hz : waiting now (w_store w) = 0).
    { apply map_sum_zero. intros id r Hr. by rewrite (next_event_None _ _ Hn id r Hr). }
    split_and!; [done|done|by rewrite app_nil_r|done|done].
Qed.
End Outbox.

(** ** The publisher among other sessions *)

Section Concurrent.
Context `{Jsonb} `{Collation}.
Implicit Types (w : World DB) (db : DB).

(** What claiming an event does to the database it meets. *)
Lemma NextPending_inv w r w' :
  NextPending w = (r, w') ->
  w_broker w' = w_broker w
  /\ ((w_store w' = arrived w /\ (r = Ok None \/ is_ok r = false))
      \/ exists lk now id row,
           now = timestamptz (w_clock w') /\ next_event lk now (arrived w) = Some (id, row)
           /\ w_store w' = put_event id (claimed_row now row) (arrived w)
           /\ (r = Ok (Some (scan_outbox id (claimed_row now row) EmptyString))
               \/ is_ok r = false)).
Proof.
  intros (o & Hrun & Hr)%wrapf_inv. unfold round_trip, arrived in *.
  set (s0 := sl_env (next_slot w) (w_store w)). set (t := w_clock (pop true w)) in *.
  assert (Hf : forall lk x s', exec (w_store (pop true w))
      match next_event lk (timestamptz t) (w_store (pop true w)) with
      | Some (id, r0) =>
        obind_ok (update_outbox_event id (with_status OutboxProcessing (timestamptz t) r0)
                    (w_store (pop true w)))
          (fun db' => Ok (Some (scan_outbox id (with_status OutboxProcessing (timestamptz t) r0)
                                  EmptyString), db'))
      | None => Ok (None, w_store (pop true w))
      end = (x, s') ->
    (s' = s0 /\ (x = Ok None \/ is_ok x = false))
    \/ exists lk now id row, now = timestamptz t /\ next_event lk now s0 = Some (id, row)
       /\ s' = put_event id (claimed_row now row) s0
       /\ x = Ok (Some (scan_outbox id (claimed_row now row) EmptyString))).
  { intros lk x s'. change (w_store (pop true w)) with s0.
    destruct (next_event lk _ s0) as [[id row]|] eqn:Hn; cbn [exec];
      [|intros [= <- <-]; left; auto].
    unfold update_outbox_event, checked. destruct (first_violation _); cbn [obind_ok exec];
      intros [= <- <-]; [left; auto|]. right. exists lk, (timestamptz t), id, row. auto. }
  destruct (sl_fault (next_slot w)).
  - destruct (exec _ _) as [x s'] eqn:Hx in Hrun. injection Hrun as <- <-. split; [done|].
    apply Hf in Hx. cbn. fold t. destruct Hx as [[Hs [-> | Hx]]|(lk & now & id & row & Hx)].
    + left. auto.
    + left. split; [done|]. right. rewrite Hr. by destruct x.
    + right. exists lk, now, id, row. destruct Hx as (-> & ? & ? & ->). auto.
  - injection Hrun as <- <-. split; [done|]. left. rewrite Hr. auto.
  - destruct (exec _ _) as [x s'] eqn:Hx in Hrun. injection Hrun as <- <-. split; [done|].
    apply Hf in Hx. cbn. fold t. destruct Hx as [[Hs _]|(lk & now & id & row & Hx)].
    + left. rewrite Hr. auto.
    + right. exists lk, now, id, row. destruct Hx as (-> & ? & ? & _). rewrite Hr. auto.
Qed.
End Concurrent.

(** ** Sent before marked *)

Section Sent.
Context `{UnicodeTables} `{JsonbSpec} `{Collation}.
Implicit Types (w : World DB) (db : DB).

Definition published (db : DB) (id : string) (row : outbox_row) : Prop :=
  db_outbox_events db !! id = Some row /\ o_status row = OutboxPublished.

(** History goes on, and only events in [ids] become published. *)
Definition publishes (ids : string -> Prop) (db db' : DB) : Prop :=
  history db db'
  /\ forall id row, published db' id row -> ids id \/ exists row', published db id row'.

Definition nothing (_ : string) : Prop := False.

#[export] Instance publishes_preorder ids : PreOrder (publishes ids).
Proof.
  split; [intros db; split; [done|eauto]|]. intros db1 db2 db3 [H12 P12] [H23 P23].
  split; [by etrans|]. intros id row [?|(row' & Hp)]%P23; [by left|eauto].
Qed.

Lemma publishes_mono (ids ids' : string -> Prop) db db' :
  (forall id, ids id -> ids' id) -> publishes ids db db' -> publishes ids' db db'.
Proof. intros Hi [Hh Hp]. split; [done|]. intros id row [?|?]%Hp; eauto. Qed.

Lemma publishes_put (ids : string -> Prop) db id row row' :
  db_outbox_events db !! id = Some row -> outbox_step row row' ->
  (o_status row' = OutboxPublished -> ids id) ->
  publishes ids db (put_event id row' db).
Proof.
  intros Hr Hs Hp. split; [by eapply step_history, step_outbox|].
  intros id' r [Hl Hst]. cbn in Hl. rewrite lookup_insert_Some in Hl.
  destruct Hl as [[<- <-]|[_ Hl]]; [left; auto|]. right. by exists r.
Qed.

Lemma guar_put_where (ids : string -> Prop) id s f db n db' :
  (forall r r', o_status r = s -> f r = Ok r' ->
     outbox_step r r' /\ (o_status r' = OutboxPublished -> ids id)) ->
  update_where_status id s f db = Ok (n, db') -> publishes ids db db'.
Proof.
  intros Hf [(_ & -> & _)|(r & r' & _ & Hr & Hs & Hr' & ->)]%update_where_status_ok; [done|].
  destruct (Hf _ _ Hs Hr'). by eapply publishes_put.
Qed.

Lemma publishes_MarkPublished id : guar (publishes (eq id)) (MarkPublished id).
Proof.
  apply guar_wrapf, guar_bind; [apply _| |intros; apply guar_ret; apply _].
  apply guar_round_trip; [apply _|]. intros lk now db. apply exec_rel; [apply _|].
  intros a db' Hu%with_texts_ok. eapply guar_put_where; [|exact Hu].
  intros r r' Hs [= <-]. split; [by constructor|done].
Qed.

Lemma publishes_MarkFailedAttempt id n : guar (publishes nothing) (MarkFailedAttempt id n).
Proof.
  apply guar_wrapf, guar_bind; [apply _| |intros; apply guar_ret; apply _].
  apply guar_round_trip; [apply _|]. intros lk now db. apply exec_rel; [apply _|].
  intros a db' Hu%with_texts_ok. apply with_int4_ok in Hu as [_ Hu].
  eapply guar_put_where; [|exact Hu].
  intros r r' Hs Hr'%int4_result_ok. injection Hr' as <-. split; [by constructor|].
  cbn. by destruct (n <=? _).
Qed.

Lemma publishes_NextPending : guar (publishes nothing) NextPending.
Proof.
  apply guar_wrapf, guar_round_trip; [apply _|]. intros lk now db. apply exec_rel; [apply _|].
  intros a db'. destruct (next_event _ _ _) as [[id r]|] eqn:Hn; [|by intros [= _ <-]].
  apply next_event_ok in Hn as (Hr & Hc & _).
  intros (db1 & Hu & [= _ <-])%obind_ok_ok. unfold update_outbox_event in Hu.
  apply checked_ok in Hu as [_ [= <-]]. eapply publishes_put; [exact Hr|by constructor|done].
Qed.

(** Every published event is on the broker. *)
Definition sent w : Prop :=
  forall id row, published (w_store w) id row -> message_of id row ∈ w_broker w.

Lemma message_of_content id r r' :
  outbox_content r' = outbox_content r -> message_of id r' = message_of id r.
Proof. unfold outbox_content, message_of. by intros [= -> _ -> -> -> _]. Qed.

Lemma sent_publishes (ids : string -> Prop) w w' :
  publishes ids (w_store w) (w_store w') -> w_broker w `prefix_of` w_broker w' ->
  (forall id, ids id -> exists row, db_outbox_events (w_store w) !! id = Some row
     /\ message_of id row ∈ w_broker w') ->
  sent w -> sent w'.
Proof.
  intros [Hh Hp] [ms Hb] Hids Hsent id row Hpub.
  destruct (Hp _ _ Hpub) as [Hid|(row' & Hpub')].
  - destruct (Hids _ Hid) as (row' & Hr' & Hin).
    destruct (hist_outbox _ _ Hh _ _ Hr') as (row2 & Hr2 & Hc & _).
    destruct Hpub as [Hr _]. rewrite Hr2 in Hr. injection Hr as ->.
    by rewrite (message_of_content _ row').
  - destruct (hist_outbox _ _ Hh _ _ (proj1 Hpub')) as (row2 & Hr2 & _ & Hsame).
    destruct Hpub as [Hr _]. rewrite Hr2 in Hr. injection Hr as ->.
    rewrite (Hsame (proj2 Hpub')), Hb, elem_of_app. left. by apply Hsent.
Qed.

(** The event handed out by [NextPending] is in the table, in processing. *)
Lemma NextPending_row w e w' :
  NextPending w = (Ok (Some e), w') ->
  exists row, db_outbox_events (w_store w') !! ev_ID e = Some row
  /\ o_status row = OutboxProcessing /\ ev_Attempts e = o_attempts row
  /\ (TopicFor (ev_Type e), newMessage (ev_PartitionKey e) (ev_ID e) (ev_CorrelationID e)
        (ev_Payload e)) = message_of (ev_ID e) row.
Proof.
  intros [_ [[_ [[=]|Hr]]|(lk & now & id & row & _ & _ & Hst & [[= ->]|Hr])]]%NextPending_inv;
    try done.
  exists (claimed_row now row). rewrite Hst. cbn. by rewrite lookup_insert_eq.
Qed.

Lemma sent_same_broker w w' :
  publishes nothing (w_store w) (w_store w') -> w_broker w' = w_broker w -> sent w -> sent w'.
Proof. intros Hp Hb. eapply sent_publishes; [exact Hp|by rewrite Hb|by intros ? []]. Qed.

Lemma emit_sent mt r w w' : emit mt w = (r, w') -> sent w -> sent w'.
Proof. by intros [= _ <-]. Qed.

Lemma framed_MarkPublished id : framed (MarkPublished id).
Proof. unfold MarkPublished. solve_framed. Qed.
Lemma framed_MarkFailedAttempt id n : framed (MarkFailedAttempt id n).
Proof. unfold MarkFailedAttempt. solve_framed. Qed.

(** The mark that ends an attempt, up to the metric after it. *)
Lemma marked {A} c (m : M DB unit) mt (o : outcome error A) w r w' :
  (let! _ := wrapf c m in let! _ := emit mt in lift o) w = (r, w') ->
  exists o' w3, m w = (o', w3) /\ w_store w' = w_store w3 /\ w_broker w' = w_broker w3
    /\ w_sched w' = w_sched w3.
Proof.
  intros [([] & w3 & Hm & Hk)|(e & Hm & _)]%bind_inv;
    apply wrapf_inv in Hm as (o' & Hm & _); exists o'; eexists;
    (split; [exact Hm|]); [|done]. by injection Hk as _ <-.
Qed.

Definition relies w : Prop := sched_rely (publishes nothing) w.

Lemma PublishNext_sent maxAttempts w r w' :
  relies w -> sent w -> Outbox.PublishNext Processes.publish_event maxAttempts w = (r, w') ->
  relies w' /\ sent w'.
Proof.
  intros Hs Hsent. unfold Outbox.PublishNext.
  intros [(next & w1 & Hn & Hrun)|(e & Hn & ->)]%bind_inv;
    apply wrapf_inv in Hn as (o & Hn & Ho); cbn in Hn;
    pose proof (publishes_NextPending _ _ _ Hs Hn) as [HP1 Hs1];
    apply NextPending_inv in Hn as Hinv; destruct Hinv as [Hb1 _];
    pose proof (sent_same_broker _ _ HP1 Hb1 Hsent) as Hsent1; [|done].
  destruct o as [o|]; [injection Ho as <-|done].
  destruct next as [ev|]; [|by injection Hrun as _ <-].
  apply NextPending_row in Hn as (row & Hrow & _ & _ & Hmsg).
  apply attempt_inv in Hrun as (p & w2 & Hp & Hrun).
  unfold Processes.publish_event, Publish in Hp.
  pose proof (guar_PublishMessage (publishes nothing) _ _ _ _ _ Hs1 Hp) as [HP2 Hs2].
  apply PublishMessage_inv in Hp as (_ & Hp).
  assert (Hb2 : w_broker w1 `prefix_of` w_broker w2).
  { destruct Hp as [(_ & -> & _)|(_ & _ & [-> | ->])]; first [done|by apply prefix_app_r]. }
  assert (Hsent2 : sent w2) by (eapply sent_publishes; [exact HP2|done|by intros ? []|done]).
  destruct p as [[]|err].
  - apply (marked _ _ _ (Ok true)) in Hrun as (o & w3 & Hmark & Hst & Hbr & Hsc).
    pose proof (framed_MarkPublished _ _ _ _ Hmark) as Hfr.
    assert (Hsu : sched_rely (publishes (eq (ev_ID ev))) w2).
    { eapply sched_rely_mono; [|exact Hs2]. intros a b. by apply publishes_mono. }
    pose proof (publishes_MarkPublished _ _ _ _ Hsu Hmark) as [HP3 _].
    unfold relies, sched_rely, sent. rewrite Hst, Hbr, Hsc. split.
    { exact (sched_rely_frame _ _ _ Hfr Hs2). }
    apply (sent_publishes (eq (ev_ID ev)) w2 w3); [exact HP3|by rewrite (fr_broker _ _ Hfr)| |done].
    intros id <-. destruct (hist_outbox _ _ (proj1 HP2) _ _ Hrow) as (row2 & Hr2 & Hc & _).
    exists row2. split; [exact Hr2|]. rewrite (fr_broker _ _ Hfr), (message_of_content _ _ _ Hc).
    rewrite <- Hmsg. destruct Hp as [(_ & -> & _)|(Hf & _)]; [|done].
    rewrite elem_of_app, list_elem_of_singleton. by right.
  - apply (marked _ _ _ (Err _)) in Hrun as (o & w3 & Hmark & Hst & Hbr & Hsc).
    pose proof (framed_MarkFailedAttempt _ _ _ _ _ Hmark) as Hfr.
    pose proof (publishes_MarkFailedAttempt _ _ _ _ _ Hs2 Hmark) as [HP3 Hs3].
    unfold relies, sched_rely, sent. rewrite Hst, Hbr, Hsc. split; [exact Hs3|].
    exact (sent_same_broker _ _ HP3 (fr_broker _ _ Hfr) Hsent2).
Qed.
End Sent.

(** ** Claims *)

Section Claims.
Context `{UnicodeTables} `{JsonbSpec} `{Collation}.
Implicit Types (db : DB).

(** Between [db] and [db'] a failed attempt at publishing [id] was recorded. *)
Definition released (id : string) db db' : Prop :=
  exists db1 db2 r maxAttempts now,
  steps db db1 /\ step db1 db2 /\ steps db2 db'
  /\ db_outbox_events db1 !! id = Some r /\ o_status r = OutboxProcessing
  /\ db_outbox_events db2 !! id = Some (failed_row maxAttempts now r).

(** Claimed at [t] or later, or published. *)
Definition held_since (id : string) (t : Z) db : Prop :=
  exists r, db_outbox_events db !! id = Some r
  /\ (o_status r = OutboxProcessing /\ t <= o_updated_at r \/ o_status r = OutboxPublished).

Lemma released_later id db db1 db2 : released id db db1 -> step db1 db2 -> released id db db2.
Proof.
  intros (dba & dbb & r & mx & now & Ha & Hb & Hc & Hrest) Hs.
  exists dba, dbb, r, mx, now. split_and!; try apply Hrest; [done..|].
  etrans; [exact Hc|]. by apply rtc_once.
Qed.

(** A claim is taken over only when it is stale, and given up only by a failed
    attempt. *)
Lemma held_until_released id t db db' :
  steps db db' -> held_since id t db -> held_since id t db' \/ released id db db'.
Proof.
  intros Hsteps Hheld. revert db' Hsteps. apply rtc_ind_r; [by left|].
  intros db1 db2 Ha Hs IH. destruct IH as [(r & Hr & Hst)|Hrel]; [|right; by eapply released_later].
  destruct (step_outbox_row _ _ _ _ Hs Hr) as [Hr'|(r' & Hm & Hr')]; [left; by exists r|].
  assert (Hnp : o_status r <> OutboxPublished) by by eapply outbox_step_published.
  destruct Hst as [[Hst Ht]|Hst]; [|done].
  destruct Hm as [now r Hc|now r _|mx now r _|now r Hd].
  - left. eexists. split; [exact Hr'|]. left. split; [done|]. cbn.
    unfold claimable in Hc. rewrite Hst in Hc. cbn in Hc. apply Z.ltb_lt in Hc.
    assert (0 <= minutes 5) by by vm_compute. lia.
  - left. eexists. split; [exact Hr'|]. by right.
  - right. by exists db1, db2, r, mx, now.
  - by rewrite Hst in Hd.
Qed.

(** Nobody can claim it before the five minutes are over. *)
Lemma held_not_claimable id t db now r :
  held_since id t db -> db_outbox_events db !! id = Some r -> now <= t + minutes 5 ->
  claimable now r = false.
Proof.
  intros (r' & Hr' & Hst) Hr Hle. rewrite Hr in Hr'. injection Hr' as <-. unfold claimable.
  destruct Hst as [[-> Ht]| ->]; [|done]. cbn. apply Z.ltb_ge. lia.
Qed.
End Claims.

(** ** The properties *)

Section Properties.
Context `{UnicodeTables} `{JsonbSpec} `{CollationSpec}.
Implicit Types (w : World DB).

(** C22. Draining ends: with nobody else writing, a tick of the publisher that
    may take more rounds than events are waiting returns, has sent exactly
    one message per waiting event, and leaves nothing waiting. *)
Theorem outbox_drains getenv w fuel :
  w_sched w = [] -> outbox_ok (w_store w) ->
  waiting (timestamptz (w_clock w)) (w_store w) < Z.of_nat fuel ->
  exists w' sent, Processes.outbox_publisher getenv fuel w = (Ok (Some tt), w')
  /\ w_broker w' = w_broker w ++ sent
  /\ Z.of_nat (length sent) = waiting (timestamptz (w_clock w)) (w_store w)
  /\ waiting (timestamptz (w_clock w)) (w_store w') = 0.
Proof.
  intros Hq Hok Hlt. unfold Processes.outbox_publisher.
  destruct (drain w (Processes.outbox_attempts getenv) fuel Hq Hok Hlt)
    as (w' & sent & ? & _ & ? & ? & ?). eauto 8.
Qed.

(** C26. Oldest first: an undisturbed [PublishNext] finds nothing exactly when
    no event is claimable, and then changes nothing; otherwise it sends the
    message of the oldest claimable event to the topic of its type and marks
    that event, and no other, as published. *)
Theorem publishes_oldest_event maxAttempts w :
  w_sched w = [] -> outbox_ok (w_store w) ->
  let now := timestamptz (w_clock w) in
  (Outbox.PublishNext Processes.publish_event maxAttempts w = (Ok false, w)
   /\ forall id r, db_outbox_events (w_store w) !! id = Some r -> claimable now r = false)
  \/ exists id r w', Outbox.PublishNext Processes.publish_event maxAttempts w = (Ok true, w')
     /\ db_outbox_events (w_store w) !! id = Some r /\ claimable now r = true
     /\ (forall id' r', db_outbox_events (w_store w) !! id' = Some r' ->
           claimable now r' = true ->
           row_ltb (o_created_at r', id') (o_created_at r, id) = false)
     /\ w_broker w' = w_broker w ++ [message_of id r]
     /\ w_store w' = put_event id (published_row now (claimed_row now r)) (w_store w).
Proof.
  intros Hq Hok now.
  destruct (next_event (fun _ => false) now (w_store w)) as [[id r]|] eqn:Hn.
  - right. destruct (PublishNext_quiet w id r maxAttempts Hq Hok Hn)
      as (w' & Hrun & Hst & Hbr & _).
    pose proof (next_event_ok _ _ _ _ _ Hn) as (Hr & Hc & _).
    exists id, r, w'. split_and!; [done..| |done|done].
    intros id' r' Hr' Hc'. by eapply next_event_oldest.
  - left. split; [by apply PublishNext_idle|]. by apply next_event_None.
Qed.

(** C12. Sent before marked: as long as the other sessions publish no event, an
    event of the database is marked as published only after the broker took
    its message, whatever fails, and whenever. *)
Theorem published_means_sent getenv fuel w r w' :
  relies w -> sent w -> Processes.outbox_publisher getenv fuel w = (r, w') -> sent w'.
Proof.
  unfold Processes.outbox_publisher. generalize (Processes.outbox_attempts getenv) as n.
  intros n. revert w. induction fuel as [|fuel IH]; intros w Hs Hsent;
    cbn [Outbox.PublishAvailable]; [by intros [= _ <-]|].
  intros [(found & w1 & Hn & Hrun)|(e & Hn & _)]%bind_inv;
    destruct (PublishNext_sent _ _ _ _ Hs Hsent Hn) as [Hs1 Hsent1]; [|done].
  destruct found; [by eapply IH|by injection Hrun as _ <-].
Qed.

(** C27. Failures are counted: when the broker refuses an event, the call fails,
    the row has one attempt more, and it is dead-lettered exactly when that
    was the last attempt allowed; the metric says the same. *)
Theorem failed_publish_is_counted maxAttempts w id r elapsed lk :
  w_sched w = [quiet; mk_slot (fun db => db) elapsed FailBefore lk] ->
  outbox_ok (w_store w) -> int4_min <= maxAttempts <= int4_max -> o_attempts r < int4_max ->
  next_event (fun _ => false) (timestamptz (w_clock w)) (w_store w) = Some (id, r) ->
  let last := maxAttempts <=? o_attempts r + 1 in
  exists w' r', Outbox.PublishNext Processes.publish_event maxAttempts w
    = (Err (EWrap "publish outbox event" (EWrap "write kafka message" connection_lost)), w')
  /\ w_store w' = put_event id r' (w_store w) /\ w_broker w' = w_broker w
  /\ o_attempts r' = o_attempts r + 1
  /\ o_status r' = (if last then OutboxDeadLettered else OutboxPending)
  /\ w_metrics w' = w_metrics w
       ++ [KafkaPublish (TopicFor (o_event_type r)) "error";
           OutboxPublish (if last then "dead_lettered" else "failed_attempt")].
Proof.
  intros Hq Hok Hmax Hatt Hn last.
  pose proof (next_event_ok _ _ _ _ _ Hn) as (Hr & _ & _).
  pose proof (PublishNext_refused maxAttempts w id r elapsed lk Hq Hok Hmax Hatt Hn) as Href.
  rewrite Href. eexists _, _. split; [reflexivity|]. cbn. split_and!; try done.
  by rewrite <- app_assoc.
Qed.

(** C28. Claims are exclusive: whatever the system does after a publisher
    claimed an event, nobody claims it again within five minutes, unless in
    between a failed attempt at publishing it was recorded ([released]). *)
Theorem claim_is_exclusive w e w1 w2 e' w3 :
  NextPending w = (Ok (Some e), w1) ->
  steps (w_store w1) (arrived w2) ->
  NextPending w2 = (Ok (Some e'), w3) ->
  timestamptz (w_clock w3) <= timestamptz (w_clock w1) + minutes 5 ->
  ev_ID e' = ev_ID e -> released (ev_ID e) (w_store w1) (arrived w2).
Proof.
  intros [_ [[_ [[=]|Hr]]|(lk & now & id & row & Hnow & _ & Hst & [[= ->]|Hr])]]%NextPending_inv;
    try done.
  intros Hsteps
    [_ [[_ [[=]|Hr]]|(lk2 & now2 & id2 & row2 & Hnow2 & Hn2 & _ & [[= ->]|Hr])]]%NextPending_inv;
    try done. cbn. intros Hlt ->.
  apply next_event_ok in Hn2 as (Hr2 & Hc & _).
  destruct (held_until_released id now _ _ Hsteps) as [Hheld|Hrel]; [| |exact Hrel].
  { eexists. rewrite Hst. cbn. rewrite lookup_insert_eq. split; [done|by left]. }
  rewrite (held_not_claimable _ _ _ _ _ Hheld Hr2) in Hc; [done|lia].
Qed.
End Properties.

(** ** Witnesses *)

Section Witnesses.
Import Demo.

Lemma requested_ok : outbox_ok (w_store requested).
Proof. apply check_outbox_ok. evaluate. Qed.
Lemma requested_quiet : w_sched requested = [].
Proof. exact (proj2 requested_reachable). Qed.

Lemma outbox_drains_witness :
  waiting (timestamptz (w_clock requested)) (w_store requested) = 2
  /\ exists w' sent, Processes.outbox_publisher Demo.getenv 3 requested = (Ok (Some tt), w')
     /\ w_broker w' = w_broker requested ++ sent
     /\ Z.of_nat (length sent) = waiting (timestamptz (w_clock requested)) (w_store requested)
     /\ waiting (timestamptz (w_clock requested)) (w_store w') = 0.
Proof.
  split; [evaluate|].
  apply (outbox_drains Demo.getenv requested 3 requested_quiet requested_ok).
  apply Z.ltb_lt. evaluate.
Defined.

Definition no_event : string * outbox_row :=
  (EmptyString, mk_outbox_row EmptyString EmptyString EmptyString EmptyString EmptyString EmptyString
                  0 None None 0 0).
Definition oldest : string * outbox_row :=
  Eval vm_compute in default no_event
    (next_event (fun _ => false) (timestamptz (w_clock requested)) (w_store requested)).

Lemma publishes_oldest_event_witness :
  let now := timestamptz (w_clock requested) in
  (Outbox.PublishNext Processes.publish_event 3 requested = (Ok false, requested)
   /\ forall id r, db_outbox_events (w_store requested) !! id = Some r -> claimable now r = false)
  \/ exists id r w', Outbox.PublishNext Processes.publish_event 3 requested = (Ok true, w')
     /\ db_outbox_events (w_store requested) !! id = Some r /\ claimable now r = true
     /\ (forall id' r', db_outbox_events (w_store requested) !! id' = Some r' ->
           claimable now r' = true ->
           row_ltb (o_created_at r', id') (o_created_at r, id) = false)
     /\ w_broker w' = w_broker requested ++ [message_of id r]
     /\ w_store w' = put_event id (published_row now (claimed_row now r)) (w_store requested).
Proof. exact (publishes_oldest_event 3 requested requested_quiet requested_ok). Defined.

Lemma requested_sent : sent requested.
Proof.
  intros id r [Hr Hst]. exfalso. apply elem_of_map_to_list, list_elem_of_In in Hr.
  assert (Hnone : existsb (fun kv => String.eqb (o_status kv.2) OutboxPublished)
                    (map_to_list (db_outbox_events (w_store requested))) = false) by evaluate.
  apply not_true_iff_false in Hnone. apply Hnone, existsb_exists.
  exists (id, r). split; [done|]. by apply String.eqb_eq.
Qed.

Definition drained_world : World DB :=
  Eval vm_compute in after (Processes.outbox_publisher Demo.getenv 3) requested.
Lemma run_drained :
  Processes.outbox_publisher Demo.getenv 3 requested = (Ok (Some tt), drained_world).
Proof. evaluate. Qed.

Lemma published_means_sent_witness :
  count_where (fun r => String.eqb (o_status r) OutboxPublished)
    (db_outbox_events (w_store drained_world)) = 2
  /\ sent drained_world.
Proof.
  split; [evaluate|].
  apply (published_means_sent Demo.getenv 3 requested (Ok (Some tt))); [|exact requested_sent|].
  - apply quiet_rely, requested_quiet.
  - exact run_drained.
Defined.

(** The broker refuses the first event. *)
Definition refusing : World DB :=
  Eval vm_compute in mk_world (w_store requested) (w_clock requested) (w_entropy requested)
    (w_drawn requested) [quiet; mk_slot (fun db => db) 0%N FailBefore (fun _ => false)]
    (w_broker requested) (w_redis requested) (w_metrics requested).

Lemma failed_publish_is_counted_witness :
  exists w' r', Outbox.PublishNext Processes.publish_event 1 refusing
    = (Err (EWrap "publish outbox event" (EWrap "write kafka message" connection_lost)), w')
  /\ w_store w' = put_event oldest.1 r' (w_store refusing) /\ w_broker w' = w_broker refusing
  /\ o_attempts r' = o_attempts oldest.2 + 1
  /\ o_status r' = OutboxDeadLettered
  /\ w_metrics w' = w_metrics refusing
       ++ [KafkaPublish (TopicFor (o_event_type oldest.2)) "error"; OutboxPublish "dead_lettered"].
Proof.
  apply (failed_publish_is_counted 1 refusing oldest.1 oldest.2 0%N (fun _ => false));
    [done|exact requested_ok|by vm_compute|by vm_compute|evaluate].
Defined.

(** An event is claimed, its publication fails, and it is claimed again. *)
Definition claimed_world : World DB := Eval vm_compute in after NextPending requested.
Definition given_back : World DB :=
  Eval vm_compute in after (MarkFailedAttempt oldest.1 3) claimed_world.
Definition claimed_twice : World DB := Eval vm_compute in after NextPending given_back.
Definition claimed_event (w : World DB) : OutboxEvent :=
  match (NextPending w).1 with Ok (Some e) => e | _ => scan_outbox no_event.1 no_event.2 EmptyString end.
Definition first_claim : OutboxEvent := Eval vm_compute in claimed_event requested.
Definition second_claim : OutboxEvent := Eval vm_compute in claimed_event given_back.

Lemma given_back_steps : steps (w_store claimed_world) (arrived given_back).
Proof.
  destruct (sg_MarkFailedAttempt (R := steps) oldest.1 3 claimed_world (Ok tt) given_back)
    as [Hs _]; [apply Forall_nil_2|evaluate|exact Hs].
Qed.

Lemma claim_is_exclusive_witness :
  released (ev_ID first_claim) (w_store claimed_world) (arrived given_back).
Proof.
  apply (claim_is_exclusive requested first_claim claimed_world given_back second_claim
    claimed_twice); [evaluate|exact given_back_steps|evaluate|by vm_compute|reflexivity].
Defined.
End Witnesses.
