(* ===== verification/LoopProperties.v ===== *)
(** * Properties of the consumer loop and of dead-letter parking

    When an offset is committed, what is then durable in the database, and
    when a message is lost all the same. *)

From stdpp Require Import base strings list gmap relations.
From Stdlib Require Import ZArith Lia.
From S2P Require Import Prelude GoStrings Sha256 Runtime Quiet Domain GoJson Codec Schema ConsumerLoop.
From S2P Require Import KafkaBus RiskService LedgerService DeadLetter StoreOutbox StoreConsumer.
From S2P Require Import StoreLedger StoreDeadLetter Footprints Processes Guarantees System Invariants.
From S2P Require Import Instances ConsumerProperties.

Open Scope Z_scope.

(** ** One message through the loop *)

Section Loop.
Context {S : Type} `{Consumer.LoopEnv S}.
Implicit Types (w : World S).
Context (config : Consumer.Config) (handle : Message -> M S unit).
Import Consumer.

Definition on_retry (m : Message) : M S unit :=
  emit (IncConsumerRetry (cf_Name config) (msg_Topic m)).

(** The handler succeeded, at the first or at a later attempt. *)
Definition handled (m : Message) w w' : Prop :=
  handle m w = (Ok tt, w')
  \/ exists k e w1, (k < Z.to_nat (attempts_of config))%nat
     /\ failures (cf_RetryBaseDelay config) (attempts_of config) (handle m) (on_retry m) k 1 w e w1
     /\ handle m w1 = (Ok tt, w').

(** Every attempt failed, or the wait before one was cut short. *)
Definition gave_up (m : Message) w (e : error) w' : Prop :=
  retry (attempts_of config) (cf_RetryBaseDelay config) (handle m) (on_retry m) w
    = (Ok (Some e), w')
  /\ (failures (cf_RetryBaseDelay config) (attempts_of config) (handle m) (on_retry m)
        (Z.to_nat (attempts_of config)) 1 w e w'
      \/ e = ESentinel context_Canceled).

(** [CommitMessages] ran in [w1]; its failure is only counted. *)
Definition committed (m : Message) (result : string) w1 w' : Prop :=
  exists o w2, CommitMessages m w1 = (o, w2)
  /\ w' = set_metrics (w_metrics w2
       ++ (if is_ok o then [] else [IncOffsetCommitFailure (cf_Name config) (msg_Topic m)])
       ++ [ObserveConsumerMessage (cf_Name config) (msg_Topic m) result]) w2.

Inductive outcome_of (m : Message) w w' : Prop :=
| outcome_handled w1 :
    handled m w w1 -> committed m "processed" w1 w' -> outcome_of m w w'
| outcome_parked e w1 w2 :
    gave_up m w e w1 -> MoveToDeadLetter m e w1 = (Ok tt, w2) ->
    committed m "dlq" w2 w' -> outcome_of m w w'
| outcome_stuck e w1 err w2 :
    gave_up m w e w1 -> MoveToDeadLetter m e w1 = (Err err, w2) ->
    w' = set_metrics (w_metrics w2
           ++ [ObserveConsumerMessage (cf_Name config) (msg_Topic m) "dlq_error"]) w2 ->
    outcome_of m w w'.

Lemma attempts_positive : 0 < attempts_of config.
Proof. unfold attempts_of. case_match; reflect_bools; lia. Qed.

Lemma finish_inv m result w r w' :
  (try! committed := CommitMessages m in
   let! _ := match committed with
             | Err _ => emit (IncOffsetCommitFailure (cf_Name config) (msg_Topic m))
             | Ok _ => ret tt
             end in
   emit (ObserveConsumerMessage (cf_Name config) (msg_Topic m) result)) w = (r, w') ->
  committed m result w w'.
Proof.
  intros (o & w2 & Hc & Hrun)%attempt_inv. exists o, w2. split; [done|].
  destruct o; injection Hrun as _ <-; [done|]. destruct w2. cbn. by rewrite <- app_assoc.
Qed.

Lemma process_outcome m w w' : process config handle m w = (Ok tt, w') -> outcome_of m w w'.
Proof.
  unfold process. intros (err & w1 & Hr & Hrun)%bind_ok.
  fold (on_retry m) in Hr. pose proof Hr as Hinv. unfold retry in Hinv.
  apply retry_from_inv in Hinv; [|pose proof attempts_positive; lia].
  destruct err as [e|].
  - apply attempt_inv in Hrun as ([[]|err] & w2 & Hm & Hrun).
    + eapply outcome_parked; [split; [exact Hr|exact Hinv]|exact Hm|]. by eapply finish_inv.
    + eapply outcome_stuck; [split; [exact Hr|exact Hinv]|exact Hm|]. by injection Hrun as <-.
  - eapply outcome_handled; [exact Hinv|]. by eapply finish_inv.
Qed.

(** C30. Retries are bounded: one message takes the loop through at most
    [attempts_of config] runs of the handler and then one of three outcomes:
    handled and committed, parked and committed, or neither parked nor
    committed. *)
Theorem messages_have_three_outcomes m w w' :
  process config handle m w = (Ok tt, w') -> outcome_of m w w'.
Proof. apply process_outcome. Qed.

(** The loop was taken through [fetches]: it gave every message fetched before
    the context was done one of the three outcomes, each in the world the one
    before had left. *)
Inductive worked_off : list fetch -> World S -> World S -> Prop :=
| worked_off_end w : worked_off [] w w
| worked_off_cancelled rest w : worked_off (FetchCancelled :: rest) w w
| worked_off_failed rest w w' : worked_off rest w w' -> worked_off (FetchFailed :: rest) w w'
| worked_off_message m rest w w1 w' :
    outcome_of m w w1 -> worked_off rest w1 w' -> worked_off (Fetched m :: rest) w w'.

(** With a wait that always answers, no message stops the loop. *)
Hypothesis wait_answers : forall delay w, exists fired w', WaitTimer delay w = (Ok fired, w').

Lemma retry_from_answers n k maxAttempts base fn m last w :
  exists r w', retry_from n k maxAttempts base fn (on_retry m) last w = (Ok r, w').
Proof using All.
  revert k last w. induction n as [|n IH]; intros k last w; cbn [retry_from].
  { by eexists _, _. }
  unfold attempt. destruct (fn w) as [[[]|e] w1]; [by eexists _, _|].
  unfold bind at 1.
  assert (exists w2, (if k <? maxAttempts then on_retry m else ret tt) w1 = (Ok tt, w2))
    as [w2 ->] by (destruct (k <? maxAttempts); by eexists).
  destruct (_ <=? 0); [apply IH|]. unfold bind.
  destruct (wait_answers (wrap64 (k * base)) w2) as (fired & w3 & ->).
  destruct fired; [apply IH|by eexists _, _].
Qed.

Lemma finish_answers m result w :
  exists w', (try! committed := CommitMessages m in
   let! _ := match committed with
             | Err _ => emit (IncOffsetCommitFailure (cf_Name config) (msg_Topic m))
             | Ok _ => ret tt
             end in
   emit (ObserveConsumerMessage (cf_Name config) (msg_Topic m) result)) w = (Ok tt, w').
Proof. unfold attempt. destruct (CommitMessages m w) as [[[]|e] w1]; by eexists. Qed.

Lemma process_answers m w : exists w', process config handle m w = (Ok tt, w').
Proof using All.
  unfold process, retry. fold (on_retry m). unfold bind at 1.
  destruct (retry_from_answers (Z.to_nat (attempts_of config)) 1 (attempts_of config)
              (cf_RetryBaseDelay config) (handle m) m None w) as (r & w1 & ->).
  destruct r as [e|]; [|apply finish_answers]. unfold attempt at 1.
  destruct (MoveToDeadLetter m e w1) as [[[]|err] w2]; [apply finish_answers|by eexists].
Qed.

Lemma RunLoop_answers fetches w :
  exists w', RunLoop config handle fetches w = (Ok tt, w') /\ worked_off fetches w w'.
Proof using All.
  revert w. induction fetches as [|[m| |] rest IH]; intros w; cbn [RunLoop].
  - exists w. split; [done|constructor].
  - destruct (process_answers m w) as [w1 Hp]. destruct (IH w1) as (w' & Hrun & Hw).
    exists w'. unfold bind. rewrite Hp. split; [exact Hrun|].
    eapply worked_off_message; [by apply process_outcome|exact Hw].
  - destruct (IH w) as (w' & Hrun & Hw). exists w'. split; [exact Hrun|by constructor].
  - exists w. split; [done|constructor].
Qed.
End Loop.

(** ** Parking a message *)

Section Parking.
Context `{UnicodeTables} `{JsonbSpec} `{Collation}.
Implicit Types (w : World DB) (db : DB).
Import DeadLetters.

Definition at_source (consumer : string) (m : Message) (r : dead_letter_row) : Prop :=
  d_consumer_name r = consumer /\ d_source_topic r = msg_Topic m
  /\ d_source_partition r = msg_Partition m /\ d_source_offset r = msg_Offset m.

(** The database holds a dead letter for this consumer and message. *)
Definition parked (consumer : string) (m : Message) (db : DB) : Prop :=
  exists id r, db_dead_letters db !! id = Some r /\ at_source consumer m r.

Lemma parked_history consumer m db db' :
  history db db' -> parked consumer m db -> parked consumer m db'.
Proof.
  intros Hh (id & r & Hr & Hs). destruct (hist_dead_letters _ _ Hh _ _ Hr) as (r' & Hr' & Hc & _).
  exists id, r'. split; [done|]. unfold dead_letter_content in Hc. unfold at_source in *.
  injection Hc as -> _ -> -> -> _ _ _ _. done.
Qed.

(** The same, and the message itself is in it, or was parked before. *)
Definition copied (consumer : string) (m : Message) (before db : DB) : Prop :=
  exists id r, db_dead_letters db !! id = Some r /\ at_source consumer m r
  /\ ((id = deterministicID consumer (msg_Topic m) (msg_Partition m) (msg_Offset m)
       /\ d_message_key r = msg_Key m /\ d_payload r = msg_Value m
       /\ jsonb (encodeHeaders (msg_Headers m)) = Some (d_headers r)
       /\ d_payload_sha256 r = sha256_hex (msg_Value m))
      \/ exists r0, db_dead_letters before !! id = Some r0 /\ at_source consumer m r0).

Lemma copied_parked consumer m before db : copied consumer m before db -> parked consumer m db.
Proof. intros (id & r & Hr & Hs & _). by exists id, r. Qed.

Lemma copied_history consumer m before db db' :
  history db db' -> copied consumer m before db -> copied consumer m before db'.
Proof.
  intros Hh (id & r & Hr & Hs & Hc).
  destruct (hist_dead_letters _ _ Hh _ _ Hr) as (r' & Hr' & Hd & _).
  exists id, r'. split; [done|]. unfold dead_letter_content in Hd. unfold at_source in *.
  injection Hd as -> _ -> -> -> -> -> -> ->. done.
Qed.

Lemma same_source_spec r r' :
  same_source r r' = true <->
  d_consumer_name r' = d_consumer_name r /\ d_source_topic r' = d_source_topic r
  /\ d_source_partition r' = d_source_partition r /\ d_source_offset r' = d_source_offset r.
Proof.
  unfold same_source. rewrite !andb_true_iff, !String.eqb_eq, !Z.eqb_eq.
  split; [intros [[[-> ->] ->] ->]|intros (-> & -> & -> & ->)]; done.
Qed.

Lemma scanDeadLetter_ok id r w rec w' :
  scanDeadLetter id r w = (Ok rec, w') -> w' = w /\ re_ID rec = id.
Proof. unfold scanDeadLetter. destruct (decodeHeaders _); [|done]. by intros [= <- <-]. Qed.

Lemma Upsert_copied consumer m cause now w rec w' :
  PgUpsertDeadLetter (recordFromMessage consumer m cause now) w = (Ok rec, w') ->
  copied consumer m (arrived w) (w_store w').
Proof.
  unfold PgUpsertDeadLetter. rewrite wrapf_ok.
  intros ([id row] & w1 & Hu & [-> _]%scanDeadLetter_ok)%bind_ok. clear rec.
  apply round_trip_inv in Hu as (lk & t & _ & [Hu%exec_ok|[[=] _]]).
  apply with_texts_ok, with_int4_ok in Hu as [_ Hu].
  apply obind_ok_ok in Hu as (h & Hh & Hu). apply jsonb_in_ok in Hu as (hs & Hhs & Hu).
  apply bytea_not_null_ok in Hu as [_ [_ Hu]%bytea_not_null_ok].
  cbn [re_PayloadSHA256 re_Headers recordFromMessage] in Hh, Hhs.
  rewrite DeadLetters.parked_headers_same in Hhs.
  rewrite bpchar_sha256 in Hh by apply sha256_hex_pattern. injection Hh as <-.
  unfold upsert_dead_letter in Hu. apply checked_ok in Hu as [_ Hu].
  set (fresh := dead_letter_row_of _ _ _) in Hu.
  destruct (find_source fresh (arrived w)) as [[id' r']|] eqn:Hfind.
  - apply find_source_ok in Hfind as [Hr' Hsrc%same_source_spec].
    apply int4_result_ok, obind_ok_ok in Hu as (db1 & Hput & [= _ _ <-]).
    unfold put_dead_letter in Hput. apply checked_ok in Hput as [_ [= <-]].
    exists id', (refailed r' fresh). cbn. rewrite lookup_insert_eq. split_and!; [done|exact Hsrc|].
    right. by exists r'.
  - apply fresh_key_ok in Hu as [_ [= _ _ <-]].
    exists (re_ID (recordFromMessage consumer m cause now)), fresh. cbn.
    rewrite lookup_insert_eq. split_and!; [done|done|]. by left.
Qed.

Lemma framed_Upsert rec : framed (PgUpsertDeadLetter rec).
Proof.
  apply framed_wrapf, framed_bind; [apply framed_round_trip|]. intros. unfold scanDeadLetter.
  solve_framed.
Qed.

#[local] Hint Resolve steps_preorder dead_MarkDeadLetterPublished : guar.

(** What follows the upsert. *)
Lemma guar_publish m id :
  guar steps (let! _ := wrapf "publish dead letter" (Move m) in
              let! publishedAt := Now in
              wrapf "mark dead letter published" (MarkDeadLetterPublished id publishedAt)).
Proof. unfold Move, moveToDeadLetter. solve_guar. Qed.

(** A dead letter is durable before its copy is published, and the caller is
    told so only when it is. *)
Lemma MoveMessage_durable consumer m cause w r w' :
  sched_rely steps w -> MoveMessage Move consumer m cause w = (r, w') ->
  (is_ok r = true -> copied consumer m (arrived w) (w_store w'))
  /\ (w_broker w' = w_broker w \/ copied consumer m (arrived w) (w_store w')).
Proof.
  intros Hs. unfold MoveMessage. generalize (Some cause) as failure. intros failure.
  intros [(now & w0 & [= <- <-] & Hrun)|(e & [=] & _)]%bind_inv.
  set (record := recordFromMessage consumer m failure (w_clock w)) in Hrun.
  assert (Hf : forall stored w1, PgUpsertDeadLetter record w = (stored, w1) ->
               w_broker w1 = w_broker w).
  { intros stored w1 Hu. exact (fr_broker _ _ (framed_Upsert _ _ _ _ Hu)). }
  apply bind_inv in Hrun as [(stored & w1 & Hu & Hrun)|(e & Hu & ->)].
  - rewrite wrapf_ok in Hu. cbn [UpsertDeadLetter PgDeadLetterStore] in Hu.
    pose proof (Upsert_copied _ _ _ _ _ _ _ Hu) as Hcop.
    destruct (dead_UpsertDeadLetter _ _ _ _ Hs Hu) as [_ Hs1].
    destruct (negb _); [injection Hrun as <- <-; auto|].
    destruct (guar_publish _ _ _ _ _ Hs1 Hrun) as [Hh%steps_history _].
    split; [intros _|right]; by eapply copied_history.
  - split; [done|]. apply wrapf_inv in Hu as (o & Hu & _). left. by eapply Hf.
Qed.
End Parking.

(** ** Committed offsets *)

Section Committed.
Context `{UnicodeTables} `{JsonbSpec} `{Collation}.
Context (commit : Message -> M DB unit) (wait : Z -> M DB bool).
Implicit Types (w : World DB) (db : DB).

(** The consumer recorded the event of [m], with this payload. *)
Definition consumed (consumer : string) (m : Message) (db : DB) : Prop :=
  exists id row, EventID m = Ok id /\ db_processed_events db !! (consumer, id) = Some row
  /\ p_payload_sha256 row = sha256_hex (msg_Value m).

Definition accounted (consumer : string) (m : Message) (db : DB) : Prop :=
  consumed consumer m db \/ parked consumer m db.

Lemma claim_consumed now d hash claimed db db' :
  claim_effect now d (sha256_hex hash) claimed db db' ->
  exists row, db_processed_events db' !! delivery_key d = Some row
  /\ p_payload_sha256 row = sha256_hex hash.
Proof.
  destruct claimed; cbn.
  - intros (h & Hh & _ & _ & ->). rewrite bpchar_sha256 in Hh by apply sha256_hex_pattern.
    injection Hh as <-. eexists. cbn. by rewrite lookup_insert_eq.
  - intros (r & _ & Hr & ->). exists (touch now r). cbn. by rewrite lookup_insert_eq.
Qed.

Lemma effect_consumed consumer m id (effect : Z -> DB -> DB -> Prop) w w' :
  EventID m = Ok id ->
  delivery_effect (delivery_of consumer m id) (msg_Value m) effect (Ok tt) w w' ->
  (forall now db db', effect now db db' -> db_processed_events db' = db_processed_events db
                      /\ db_dead_letters db' = db_dead_letters db) ->
  consumed consumer m (w_store w').
Proof.
  intros Hid [[[=] _]|(now & claimed & db1 & Hc & Hw)] Hkeep.
  apply claim_consumed in Hc as (row & Hrow & Hh). exists id, row. split_and!; [done| |done].
  destruct claimed; [by rewrite (proj1 (Hkeep _ _ _ Hw))|by rewrite Hw].
Qed.

Lemma handler_consumes consumer handle m w w' :
  service consumer handle -> handle m w = (Ok tt, w') -> consumed consumer m (w_store w').
Proof.
  intros Hsvc Hrun.
  apply (handler_delivers _ _ _ _ _ _ Hsvc) in Hrun as [[[=] _]|(id & effect & Hid & Hrun & Hkeep)].
  by eapply effect_consumed.
Qed.

Hypothesis Hexternal : external commit wait.

Lemma service_guar consumer handle m : service consumer handle -> guar steps (handle m).
Proof.
  intros [[_ ->]|[_ ->]]; apply guar_deliver; intros;
    [by apply guar_HandleTransactionCreated|by apply guar_HandleRiskEvaluated].
Qed.

(** A successful [retry] ends with a successful attempt. *)
Lemma retry_last consumer (fn : M DB unit) n k maxAttempts base onRetry last w w' :
  ((0 < n)%nat \/ last <> None) ->
  @Consumer.retry_from DB (Processes.loop_env commit wait consumer)
    n k maxAttempts base fn onRetry last w = (Ok None, w') ->
  exists w0, fn w0 = (Ok tt, w').
Proof.
  revert k last w. induction n as [|n IH]; intros k last w Hn;
    cbn [Consumer.retry_from]; [by intros [= -> _]; destruct Hn; [lia|done]|].
  intros ([[]|e] & w1 & Hfn & Hrun)%attempt_inv; [injection Hrun as <-; eauto|].
  apply bind_ok in Hrun as ([] & w2 & _ & Hrun).
  destruct (_ <=? 0); [eapply IH; [|exact Hrun]; by right|].
  apply bind_ok in Hrun as (fired & w3 & _ & Hrun).
  destruct fired; [eapply IH; [|exact Hrun]; by right|discriminate Hrun].
Qed.

Lemma retry_consumes consumer handle config m w w' :
  service consumer handle ->
  @Consumer.retry DB (Processes.loop_env commit wait consumer) (Consumer.attempts_of config)
    (Consumer.cf_RetryBaseDelay config) (handle m) (on_retry config m) w = (Ok None, w') ->
  consumed consumer m (w_store w').
Proof.
  intros Hsvc Hr. apply retry_last in Hr as [w0 Hw0]; [by eapply handler_consumes|].
  left. pose proof (attempts_positive config). lia.
Qed.

Lemma retry_rely consumer handle config m w r w' :
  service consumer handle -> sched_rely steps w ->
  @Consumer.retry DB (Processes.loop_env commit wait consumer) (Consumer.attempts_of config)
    (Consumer.cf_RetryBaseDelay config) (handle m) (on_retry config m) w = (r, w') ->
  sched_rely steps w'.
Proof.
  intros Hsvc Hs Hr. eapply (guar_retry commit wait); [apply Hexternal|..|exact Hs|exact Hr].
  - by eapply service_guar.
  - apply guar_emit. apply _.
Qed.

Lemma Move_parks consumer m cause w w' :
  sched_rely steps w -> DeadLetters.MoveMessage Move consumer m cause w = (Ok tt, w') ->
  parked consumer m (w_store w').
Proof.
  intros Hs Hm. apply copied_parked with (before := arrived w).
  by eapply MoveMessage_durable; [exact Hs|exact Hm|].
Qed.

(** [commit'] is [commit] where the message is accounted for, and anything at
    all elsewhere. *)
Definition commits_like (consumer : string) (commit' : Message -> M DB unit) : Prop :=
  forall m w, accounted consumer m (w_store w) -> commit' m w = commit m w.

(** [process] asks for commits of accounted messages only. *)
Lemma process_commits_like consumer handle config commit' m w :
  service consumer handle -> sched_rely steps w -> commits_like consumer commit' ->
  @Consumer.process DB (Processes.loop_env commit' wait consumer) config handle m w
  = @Consumer.process DB (Processes.loop_env commit wait consumer) config handle m w.
Proof.
  intros Hsvc Hs Hlike. unfold Consumer.process. fold (on_retry (S := DB) config m).
  change (@Consumer.retry DB (Processes.loop_env commit' wait consumer))
    with (@Consumer.retry DB (Processes.loop_env commit wait consumer)).
  cbn [Consumer.MoveToDeadLetter Consumer.CommitMessages Processes.loop_env].
  unfold bind at 1 4. destruct (Consumer.retry _ _ _ _ w) as [[[cause|]|e] w1] eqn:Hr; [..|done].
  - unfold attempt at 1 3.
    destruct (DeadLetters.MoveMessage _ _ _ _ w1) as [[[]|e] w2] eqn:Hm; [|done].
    unfold attempt. rewrite Hlike; [done|]. right.
    eapply Move_parks, Hm. by eapply retry_rely.
  - unfold attempt. rewrite Hlike; [done|]. left. by eapply retry_consumes.
Qed.

Lemma RunLoop_commits_like consumer handle config commit' fetches w :
  service consumer handle -> sched_rely steps w -> commits_like consumer commit' ->
  @Consumer.RunLoop DB (Processes.loop_env commit' wait consumer) config handle fetches w
  = @Consumer.RunLoop DB (Processes.loop_env commit wait consumer) config handle fetches w.
Proof.
  intros Hsvc Hs Hlike. revert w Hs. induction fetches as [|[m| |] rest IH]; intros w Hs;
    cbn [Consumer.RunLoop]; [done| |by apply IH|done].
  unfold bind. rewrite process_commits_like by done.
  destruct (Consumer.process _ _ _ w) as [[[]|e] w1] eqn:Hp; [|done]. apply IH.
  eapply (guar_process (T := anything) id commit wait); [apply Hexternal..| |done|exact Hs|exact Hp].
  by eapply service_guar.
Qed.

(** C13. Commit after effect.  When the risk or the ledger service is done with
    a message, one of three things happened, each step in the world the one
    before left: the handler succeeded, the database then held the effect of
    the event (it is recorded as processed with this payload), and the offset
    was committed; or every attempt failed, the message was parked, the
    database then held its dead letter, and the offset was committed; or
    parking failed and nothing but the metric followed.  And the loop asks for
    no other commits: replacing [commit] by one that does anything else for
    messages that are neither processed nor parked changes no run of it. *)
Theorem offsets_commit_after_effect consumer handle config m w w' :
  service consumer handle -> sched_rely steps w ->
  @Consumer.process DB (Processes.loop_env commit wait consumer) config handle m w = (Ok tt, w') ->
  ((exists w1, @handled DB (Processes.loop_env commit wait consumer) config handle m w w1
      /\ consumed consumer m (w_store w1)
      /\ @committed DB (Processes.loop_env commit wait consumer) config m "processed" w1 w')
   \/ (exists e w1 w2, @gave_up DB (Processes.loop_env commit wait consumer) config handle m w e w1
      /\ DeadLetters.MoveMessage Move consumer m e w1 = (Ok tt, w2)
      /\ parked consumer m (w_store w2)
      /\ @committed DB (Processes.loop_env commit wait consumer) config m "dlq" w2 w')
   \/ (exists e w1 err w2,
      @gave_up DB (Processes.loop_env commit wait consumer) config handle m w e w1
      /\ DeadLetters.MoveMessage Move consumer m e w1 = (Err err, w2)
      /\ w' = set_metrics (w_metrics w2
           ++ [ObserveConsumerMessage (Consumer.cf_Name config) (msg_Topic m) "dlq_error"]) w2))
  /\ forall commit' fetches, commits_like consumer commit' ->
       @Consumer.RunLoop DB (Processes.loop_env commit' wait consumer) config handle fetches w
       = @Consumer.RunLoop DB (Processes.loop_env commit wait consumer) config handle fetches w.
Proof.
  intros Hsvc Hs Hrun. split; [|intros; by apply RunLoop_commits_like].
  apply process_outcome in Hrun as [w1 Hh Hc|e w1 w2 Hg Hm Hc|e w1 err w2 Hg Hm Hw].
  - left. exists w1. split_and!; [done| |done].
    destruct Hh as [Hh|(k & e & w0 & _ & _ & Hh)]; by eapply handler_consumes.
  - right; left. exists e, w1, w2. split_and!; [done..| |done].
    eapply Move_parks, Hm. eapply retry_rely; [done..|exact (proj1 Hg)].
  - right; right. by exists e, w1, err, w2.
Qed.
End Committed.

(** ** A message that can be neither handled nor parked *)

Section Refused.
Context `{UnicodeTables} `{JsonbSpec} `{Collation}.
Implicit Types (w : World DB) (db : DB).

(** [p] fails in every world and changes nothing itself. *)
Definition refused {A} (p : M DB A) : Prop :=
  (forall w, is_ok (p w).1 = false) /\ forall R, PreOrder R -> guar R p.

Lemma refused_still A (p : M DB A) : (forall w, exists e, p w = (Err e, w)) -> refused p.
Proof.
  intros Hp. split; [intros w; by destruct (Hp w) as [e ->]|].
  intros R HR w r w' Hs Hrun. destruct (Hp w) as [e He]. rewrite He in Hrun. by injection Hrun as _ <-.
Qed.
Lemma refused_bind A B (p : M DB A) (k : A -> M DB B) : refused p -> refused (bind p k).
Proof.
  intros [Hf Hg]. split.
  - intros w. specialize (Hf w). unfold bind. by destruct (p w) as [[a|e] w1].
  - intros R HR w r w' Hs [(a & w1 & Hp & _)|(e & Hp & _)]%bind_inv; [|by eapply Hg].
    specialize (Hf w). by rewrite Hp in Hf.
Qed.
Lemma refused_wrapf A c (p : M DB A) : refused p -> refused (wrapf c p).
Proof.
  intros [Hf Hg]. split; [|intros R HR; by apply guar_wrapf, Hg].
  intros w. specialize (Hf w). unfold wrapf. by destruct (p w) as [[a|e] w1].
Qed.
Lemma refused_Now A (k : Z -> M DB A) : (forall t, refused (k t)) -> refused (bind Now k).
Proof.
  intros Hk. split; [intros w; apply (Hk (w_clock w))|].
  intros R HR. apply guar_bind; [done|apply guar_Now, _|]. intros t. by apply Hk.
Qed.
Lemma refused_statement A (f : DB -> outcome error (A * DB)) :
  (forall db, is_ok (f db) = false) -> refused (round_trip (fun _ _ db => exec db (f db))).
Proof.
  intros Hf. split.
  - intros w. unfold round_trip.
    destruct (sl_fault _); [|done|]; specialize (Hf (w_store (pop true w)));
      by destruct (f (w_store (pop true w))) as [[a db']|e].
  - intros R HR. apply guar_round_trip; [done|]. intros lk now db. specialize (Hf db).
    by destruct (f db) as [[a db']|e].
Qed.

(** What [dead_letter_messages] cannot store: an empty key or value, which is
    sent as NULL, or an event id outside the pattern of its column. *)
Definition unstorable (m : Message) : Prop :=
  msg_Key m = EmptyString \/ msg_Value m = EmptyString
  \/ opt_forall safeTokenPattern
       (nullif_empty (DeadLetters.headerValue (msg_Headers m) "event_id")) = false.

Lemma unstorable_unparkable consumer m cause :
  unstorable m -> refused (DeadLetters.MoveMessage Move consumer m cause).
Proof.
  intros Hm. apply refused_Now. intros now. apply refused_bind, refused_wrapf, refused_wrapf.
  apply refused_bind, refused_statement. intros db.
  destruct (with_texts _ _) as [[row db']|e] eqn:Hu; [|done]. exfalso.
  apply with_texts_ok, with_int4_ok in Hu as [_ (h & _ & Hu)%obind_ok_ok].
  apply jsonb_in_ok in Hu as (hs & _ & [Hk [Hv Hu]%bytea_not_null_ok]%bytea_not_null_ok).
  unfold upsert_dead_letter in Hu. apply checked_ok in Hu as [Hck _].
  destruct Hm as [?|[?|Hid]]; [done..|].
  do 3 (apply Forall_cons in Hck as [_ Hck]). apply Forall_cons in Hck as [Hck _].
  cbn in Hck, Hid. congruence.
Qed.

(** What its consumer cannot decode. *)
Definition undecodable (consumer : string) (m : Message) : Prop :=
  (consumer = Risk.ConsumerName -> unmarshal_Transaction (msg_Value m) = None)
  /\ (consumer = Ledger.ConsumerName -> unmarshal_RiskEvaluated (msg_Value m) = None).

Lemma undecodable_unhandled consumer handle m :
  service consumer handle -> undecodable consumer m -> refused (handle m).
Proof.
  intros Hsvc [Hr Hl]. apply refused_still. intros w.
  destruct Hsvc as [[-> ->]|[-> ->]];
    unfold Processes.risk_handler, Processes.ledger_handler, Processes.deliver, bind, lift;
    (destruct (EventID m) as [id|e]; [|by eexists]);
    unfold Risk.HandleTransactionCreated, Ledger.HandleRiskEvaluated;
    [rewrite (Hr eq_refl)|rewrite (Hl eq_refl)]; by eexists.
Qed.

(** The message can be neither handled nor parked. *)
Definition poison (consumer : string) (handle : Message -> M DB unit) (m : Message) : Prop :=
  refused (handle m) /\ forall cause, refused (DeadLetters.MoveMessage Move consumer m cause).

Lemma undecodable_unstorable_poison consumer handle m :
  service consumer handle -> undecodable consumer m -> unstorable m -> poison consumer handle m.
Proof.
  intros. split; [by eapply undecodable_unhandled|]. intros. by apply unstorable_unparkable.
Qed.

(** A message without a value is poison to both services. *)
Lemma tombstones_are_poison consumer handle m :
  service consumer handle -> msg_Value m = EmptyString -> poison consumer handle m.
Proof.
  intros Hsvc Hm. apply undecodable_unstorable_poison; [done| |by right; left].
  split; intros _; by rewrite Hm.
Qed.
End Refused.

(** ** How such a message is lost *)

Section Lost.
Context `{UnicodeTables} `{JsonbSpec} `{Collation}.
Context (wait : Z -> M DB bool).
Hypothesis wait_answers : forall delay w, exists fired w', wait delay w = (Ok fired, w').
Hypothesis wait_idle : forall R delay, PreOrder R -> guar R (wait delay).
Implicit Types (w : World DB) (db : DB).

(** Kafka keeps one committed offset per partition and consumer group:
    committing [m'] commits [m]. *)
Definition covers (m' m : Message) : Prop :=
  msg_Topic m' = msg_Topic m /\ msg_Partition m' = msg_Partition m /\ msg_Offset m < msg_Offset m'.

(** Nobody processes or parks [m]. *)
Definition leaves_unaccounted (consumer : string) (m : Message) : DB -> DB -> Prop :=
  stable (fun db => ~ accounted consumer m db).

(** The loop gives a poisonous message up and commits nothing, whatever
    [commit] is; only the other sessions write meanwhile. *)
Lemma poison_is_passed_over consumer handle config m w :
  poison consumer handle m ->
  exists w1,
  (forall commit, @Consumer.process DB (Processes.loop_env commit wait consumer) config handle m w
    = (Ok tt, w1))
  /\ forall R, PreOrder R -> sched_rely R w -> R (w_store w) (w_store w1) /\ sched_rely R w1.
Proof using wait_answers wait_idle.
  intros [Hh Hp]. set (quietly := fun _ : Message => @ret DB unit tt).
  destruct (@retry_from_answers DB (Processes.loop_env quietly wait consumer) config handle
    wait_answers (Z.to_nat (Consumer.attempts_of config)) 1 (Consumer.attempts_of config)
    (Consumer.cf_RetryBaseDelay config) (handle m) m None w) as ([e|] & w1 & Hr).
  - destruct (DeadLetters.MoveMessage Move consumer m e w1) as [[[]|err] w2] eqn:Hm.
    { pose proof (proj1 (Hp e) w1) as Hf. by rewrite Hm in Hf. }
    eexists. split.
    + intros commit. unfold Consumer.process. etrans; [exact (bind_run _ _ _ _ _ _ _ Hr)|].
      exact (attempt_run _ _ _ _ _ _ _ Hm).
    + intros R HR Hs.
      assert (Hg : R (w_store w) (w_store w1) /\ sched_rely R w1).
      { eapply (guar_retry quietly wait); [by intros; apply wait_idle|by apply Hh| |done|exact Hr].
        by apply guar_emit. }
      destruct Hg as [HR1 Hs1]. destruct (proj2 (Hp e) R HR _ _ _ Hs1 Hm) as [HR2 Hs2].
      split; [by etrans|exact Hs2].
  - exfalso. apply (retry_last quietly) in Hr as [w0 Hw0].
    + pose proof (proj1 Hh w0) as Hf. by rewrite Hw0 in Hf.
    + left. pose proof (attempts_positive config). lia.
Qed.

(** Handling one event accounts for no message of another. *)
Lemma handler_leaves_unaccounted consumer handle m m' :
  service consumer handle -> EventID m' <> EventID m ->
  guar (leaves_unaccounted consumer m) (handle m').
Proof.
  intros Hsvc Hne w r w' Hs Hrun. split.
  2:{ eapply sched_rely_frame, Hs. by eapply framed_handler. }
  pose proof (arrived_rely (leaves_unaccounted consumer m) w Hs) as Ha.
  apply (handler_delivers _ _ _ _ _ _ Hsvc) in Hrun as [[_ ->]|(id & effect & Hid & Hrun & Hkeep)];
    [done|].
  destruct Hrun as [[_ [->| ->]]|(now & claimed & db1 & Hc & Hw)]; [done..|].
  etrans; [exact Ha|]. intros Hun Hacc. apply Hun. clear Hun Ha Hs.
  assert (Hdb1 : exists row, db1 = set_processed_events
    (<[(consumer, id) := row]> (db_processed_events (arrived w))) (arrived w)).
  { destruct claimed; [destruct Hc as (h & _ & _ & _ & ->)|destruct Hc as (row & _ & _ & ->)];
      by eexists. }
  destruct Hdb1 as [row Hdb1].
  assert (Hw' : db_processed_events (w_store w') = db_processed_events db1
    /\ db_dead_letters (w_store w') = db_dead_letters db1).
  { destruct claimed; [by eapply Hkeep|by rewrite Hw]. }
  destruct Hw' as [Hpr Hdl]. subst db1. cbn in Hpr, Hdl.
  destruct Hacc as [(id0 & row0 & Hid0 & Hrow0 & Hh0)|(id0 & r0 & Hr0 & Hat)].
  - left. exists id0, row0. split_and!; [done| |done]. rewrite Hpr, lookup_insert_ne in Hrow0; [done|].
    intros [= ->]. congruence.
  - right. exists id0, r0. by rewrite Hdl in Hr0.
Qed.
End Lost.

(** ** The properties *)

Section Properties.
Context `{UnicodeTables} `{JsonbSpec} `{Collation}.
Implicit Types (w : World DB).

(** C29. No message stops a consumer: as long as the timer between attempts
    answers, the loop of either service takes every message fetched before the
    context is done, in order, to one of its three outcomes ([outcome_of]:
    handled and committed, parked and committed, or passed over), each in the
    world the one before left, whatever the handler, the dead-letter store and
    the commits answer; it ends only with its script of fetches. *)
Theorem consumers_never_stop getenv commit wait fetches w :
  (forall delay w, exists fired w', wait delay w = (Ok fired, w')) ->
  (exists w', Processes.risk_service getenv commit wait fetches w = (Ok tt, w')
   /\ @worked_off DB (Processes.loop_env commit wait Risk.ConsumerName)
        (Processes.loop_config getenv Risk.ConsumerName) Processes.risk_handler fetches w w')
  /\ exists w', Processes.ledger_service getenv commit wait fetches w = (Ok tt, w')
   /\ @worked_off DB (Processes.loop_env commit wait Ledger.ConsumerName)
        (Processes.loop_config getenv Ledger.ConsumerName) Processes.ledger_handler fetches w w'.
Proof. intros Hw. split; by apply RunLoop_answers. Qed.

(** C23. Parking is durable first: whatever fails, when [Move] of the
    dead-letter recorder reports success, or has published anything, the
    database holds the dead letter of this consumer and source position, with
    the message's key, payload and hash (or as it was parked before). *)
Theorem dead_letters_are_durable_first consumer m cause w r w' :
  sched_rely steps w -> DeadLetters.MoveMessage Move consumer m cause w = (r, w') ->
  (is_ok r = true -> copied consumer m (arrived w) (w_store w'))
  /\ (w_broker w' = w_broker w \/ copied consumer m (arrived w) (w_store w')).
Proof. apply MoveMessage_durable. Qed.

(** C31. How a message is lost: take any message that can be neither handled nor
    parked ([poison]; an empty value is enough), at either service.  The loop
    passes it over without a commit, and as soon as a later message of the
    partition, with another event, is handled, that one's offset is committed,
    which covers the first; the first is then neither processed nor parked
    (unless another session did it), and the loop does not come back to it. *)
Theorem later_commit_passes_failure wait commit consumer handle config m1 m2 w w1 w2 :
  (forall delay w, exists fired w', wait delay w = (Ok fired, w')) ->
  (forall R delay, PreOrder R -> guar R (wait delay)) ->
  service consumer handle -> poison consumer handle m1 ->
  covers m2 m1 -> EventID m2 <> EventID m1 ->
  sched_rely (leaves_unaccounted consumer m1) w -> ~ accounted consumer m1 (w_store w) ->
  @Consumer.process DB (Processes.loop_env commit wait consumer) config handle m1 w
    = (Ok tt, w1) ->
  @Consumer.retry DB (Processes.loop_env commit wait consumer) (Consumer.attempts_of config)
    (Consumer.cf_RetryBaseDelay config) (handle m2) (on_retry config m2) w1 = (Ok None, w2) ->
  (forall commit', @Consumer.process DB (Processes.loop_env commit' wait consumer) config handle m1 w
    = (Ok tt, w1))
  /\ ~ accounted consumer m1 (w_store w2)
  /\ exists w3, @committed DB (Processes.loop_env commit wait consumer) config m2 "processed" w2 w3
     /\ forall rest,
        @Consumer.RunLoop DB (Processes.loop_env commit wait consumer) config handle
          (Consumer.Fetched m1 :: Consumer.Fetched m2 :: rest) w
        = @Consumer.RunLoop DB (Processes.loop_env commit wait consumer) config handle rest w3.
Proof.
  intros Hans Hidle Hsvc Hp _ Hne Hs Hun Hrun1 Hr2.
  destruct (poison_is_passed_over wait Hans Hidle consumer handle config m1 w Hp)
    as (w1' & Hall & Hrely).
  rewrite (Hall commit) in Hrun1. injection Hrun1 as ->. split; [exact Hall|].
  destruct (Hrely (leaves_unaccounted consumer m1) _ Hs) as [Hun1 Hs1].
  assert (Hg : leaves_unaccounted consumer m1 (w_store w1) (w_store w2)
               /\ sched_rely (leaves_unaccounted consumer m1) w2).
  { eapply (guar_retry commit wait); [by intros; apply Hidle, _| |by apply guar_emit, _|exact Hs1|exact Hr2].
    by eapply handler_leaves_unaccounted. }
  split; [by apply Hg, Hun1|].
  destruct (@finish_answers DB (Processes.loop_env commit wait consumer) config m2 "processed" w2) as [w3 Hf].
  assert (Hrun2 : @Consumer.process DB (Processes.loop_env commit wait consumer) config handle m2 w1
    = (Ok tt, w3)) by exact (eq_trans (bind_run _ _ _ _ _ _ _ Hr2) Hf).
  exists w3. split; [by eapply finish_inv|]. intros rest. cbn [Consumer.RunLoop].
  rewrite (bind_run _ _ _ _ _ _ _ (Hall commit)). exact (bind_run _ _ _ _ _ _ _ Hrun2).
Qed.
End Properties.

(** ** Witnesses, and a lost message *)

Section Witnesses.
Import Demo.

(** A message without a value: its handler fails, and PostgreSQL refuses its
    dead letter. *)
Definition tombstone : Message :=
  mk_message TopicTransactionCreated 0 0 "alice" EmptyString [mk_header "event_id" "evt_gone"].
Definition next_message : Message :=
  Eval vm_compute in mk_message TopicTransactionCreated 0 1 (msg_Key created_message)
    (msg_Value created_message) (msg_Headers created_message).

(** Commits that leave a trace. *)
Definition commit_logged (m : Message) : M DB unit :=
  emit (ObserveConsumerMessage "committed" (msg_Topic m) (FormatInt (msg_Offset m))).

(** What the loop does with the tombstone: nothing that lasts. *)
Definition risk_config : Consumer.Config := Consumer.mk_Config Risk.ConsumerName 3 100.

Definition passed_world : World DB :=
  Eval vm_compute in after (@Consumer.process DB
    (Processes.loop_env commit_logged Demo.wait Risk.ConsumerName) risk_config
    Processes.risk_handler tombstone) announced_world.
Lemma run_passed :
  @Consumer.process DB (Processes.loop_env commit_logged Demo.wait Risk.ConsumerName) risk_config
    Processes.risk_handler tombstone announced_world = (Ok tt, passed_world).
Proof. evaluate. Qed.

Definition next_world : World DB :=
  Eval vm_compute in after (Processes.risk_handler next_message) passed_world.
Lemma run_next :
  @Consumer.retry DB (Processes.loop_env commit_logged Demo.wait Risk.ConsumerName)
    (Consumer.attempts_of risk_config) (Consumer.cf_RetryBaseDelay risk_config)
    (Processes.risk_handler next_message) (on_retry risk_config next_message) passed_world
  = (Ok None, next_world).
Proof. evaluate. Qed.

Lemma tombstone_unaccounted : ~ accounted Risk.ConsumerName tombstone (w_store announced_world).
Proof.
  intros [(id & row & Hid & Hrow & _)|(id & r & Hr & _)].
  - assert (db_processed_events (w_store announced_world) = ∅) as Hn by by vm_compute.
    rewrite Hn in Hrow. by rewrite lookup_empty in Hrow.
  - assert (db_dead_letters (w_store announced_world) = ∅) as Hn by by vm_compute.
    rewrite Hn in Hr. by rewrite lookup_empty in Hr.
Qed.

(** The next message is committed, in the trace of the commits too. *)
Lemma later_commit_passes_failure_witness :
  ~ accounted Risk.ConsumerName tombstone (w_store next_world)
  /\ exists w3, @committed DB (Processes.loop_env commit_logged Demo.wait Risk.ConsumerName)
       risk_config next_message "processed" next_world w3
     /\ forall rest,
        @Consumer.RunLoop DB (Processes.loop_env commit_logged Demo.wait Risk.ConsumerName)
          risk_config Processes.risk_handler
          (Consumer.Fetched tombstone :: Consumer.Fetched next_message :: rest) announced_world
        = @Consumer.RunLoop DB (Processes.loop_env commit_logged Demo.wait Risk.ConsumerName)
            risk_config Processes.risk_handler rest w3.
Proof.
  apply (later_commit_passes_failure Demo.wait commit_logged Risk.ConsumerName
    Processes.risk_handler risk_config tombstone next_message announced_world passed_world
    next_world).
  - intros delay w. by exists true, w.
  - intros R delay HR. by apply guar_ret.
  - by left.
  - apply tombstones_are_poison; [by left|done].
  - by vm_compute.
  - by vm_compute.
  - apply Forall_nil_2.
  - exact tombstone_unaccounted.
  - exact run_passed.
  - exact run_next.
Defined.

Lemma consumers_never_stop_witness :
  (exists w', Processes.risk_service Demo.getenv Demo.commit Demo.wait
     [Consumer.Fetched tombstone; Consumer.Fetched next_message] announced_world = (Ok tt, w')
   /\ @worked_off DB (Processes.loop_env Demo.commit Demo.wait Risk.ConsumerName)
        (Processes.loop_config Demo.getenv Risk.ConsumerName) Processes.risk_handler
        [Consumer.Fetched tombstone; Consumer.Fetched next_message] announced_world w')
  /\ exists w', Processes.ledger_service Demo.getenv Demo.commit Demo.wait
     [Consumer.Fetched tombstone; Consumer.Fetched next_message] announced_world = (Ok tt, w')
   /\ @worked_off DB (Processes.loop_env Demo.commit Demo.wait Ledger.ConsumerName)
        (Processes.loop_config Demo.getenv Ledger.ConsumerName) Processes.ledger_handler
        [Consumer.Fetched tombstone; Consumer.Fetched next_message] announced_world w'.
Proof.
  apply (consumers_never_stop Demo.getenv Demo.commit Demo.wait
    [Consumer.Fetched tombstone; Consumer.Fetched next_message] announced_world).
  intros delay w. by exists true, w.
Defined.

Definition consumed_world : World DB :=
  Eval vm_compute in after (@Consumer.process DB
    (Processes.loop_env Demo.commit Demo.wait Risk.ConsumerName) risk_config
    Processes.risk_handler created_message) announced_world.
Lemma run_consumed :
  @Consumer.process DB (Processes.loop_env Demo.commit Demo.wait Risk.ConsumerName) risk_config
    Processes.risk_handler created_message announced_world = (Ok tt, consumed_world).
Proof. evaluate. Qed.

Lemma messages_have_three_outcomes_witness :
  @outcome_of DB (Processes.loop_env Demo.commit Demo.wait Risk.ConsumerName) risk_config
    Processes.risk_handler created_message announced_world consumed_world.
Proof.
  exact (@messages_have_three_outcomes DB
    (Processes.loop_env Demo.commit Demo.wait Risk.ConsumerName) risk_config
    Processes.risk_handler created_message announced_world consumed_world run_consumed).
Defined.

(** The commits of another broker that agrees on accounted messages. *)
Lemma offsets_commit_after_effect_witness :
  (exists w1, @handled DB (Processes.loop_env Demo.commit Demo.wait Risk.ConsumerName) risk_config
        Processes.risk_handler created_message announced_world w1
      /\ consumed Risk.ConsumerName created_message (w_store w1)
      /\ @committed DB (Processes.loop_env Demo.commit Demo.wait Risk.ConsumerName) risk_config
           created_message "processed" w1 consumed_world)
  \/ (exists e w1 w2, @gave_up DB (Processes.loop_env Demo.commit Demo.wait Risk.ConsumerName)
        risk_config Processes.risk_handler created_message announced_world e w1
      /\ DeadLetters.MoveMessage Move Risk.ConsumerName created_message e w1 = (Ok tt, w2)
      /\ parked Risk.ConsumerName created_message (w_store w2)
      /\ @committed DB (Processes.loop_env Demo.commit Demo.wait Risk.ConsumerName) risk_config
           created_message "dlq" w2 consumed_world)
  \/ (exists e w1 err w2, @gave_up DB (Processes.loop_env Demo.commit Demo.wait Risk.ConsumerName)
        risk_config Processes.risk_handler created_message announced_world e w1
      /\ DeadLetters.MoveMessage Move Risk.ConsumerName created_message e w1 = (Err err, w2)
      /\ consumed_world = set_metrics (w_metrics w2
           ++ [ObserveConsumerMessage (Consumer.cf_Name risk_config) (msg_Topic created_message)
                 "dlq_error"]) w2).
Proof.
  apply (offsets_commit_after_effect Demo.commit Demo.wait commit_wait_external
           Risk.ConsumerName Processes.risk_handler risk_config created_message announced_world
           consumed_world);
    [left; done|apply quiet_rely, announced_reachable|exact run_consumed].
Defined.

Definition parked_world : World DB :=
  Eval vm_compute in after (DeadLetters.MoveMessage Move Risk.ConsumerName created_message
    (EText "decode")) announced_world.
Lemma run_parked :
  DeadLetters.MoveMessage Move Risk.ConsumerName created_message (EText "decode") announced_world
  = (Ok tt, parked_world).
Proof. evaluate. Qed.

Lemma dead_letters_are_durable_first_witness :
  copied Risk.ConsumerName created_message (arrived announced_world) (w_store parked_world).
Proof.
  apply (dead_letters_are_durable_first Risk.ConsumerName created_message (EText "decode")
           announced_world (Ok tt) parked_world);
    [apply quiet_rely, announced_reachable|exact run_parked|done].
Defined.
End Witnesses.
