(* ===== verification/OperatorProperties.v ===== *)
(** * Properties of the operator's tools: replay, requeue and prune

    A replay only publishes what its guards allow; pruning keeps what those
    guards need; every change leaves an audit record in the same transaction. *)

From stdpp Require Import base strings list gmap sorting relations.
From Stdlib Require Import ZArith Lia.
From S2P Require Import Prelude GoStrings Sha256 Runtime Domain GoJson GoTime Codec Schema.
From S2P Require Import ConsumerLoop KafkaBus OutboxPublisher DeadLetter Operations Maintenance.
From S2P Require Import StoreOutbox StoreConsumer StoreDeadLetter HeaderCodec StoreMaintenance Footprints.
From S2P Require Import Processes Guarantees System Invariants Instances RiskService ConsumerProperties.
From S2P Require Import OutboxProperties LoopProperties.

Open Scope Z_scope.

Section Operator.
Context `{UnicodeTables} `{JsonbSpec} `{Collation}.
Implicit Types (w : World DB) (db : DB).
Import DeadLetters.

#[local] Hint Resolve steps_preorder operator_GetDeadLetter operator_StartDeadLetterReplay
  operator_FinishDeadLetterReplay : guar.

(** ** Reads *)

Lemma read_ok {A} (f : (row_key -> bool) -> Z -> DB -> outcome error A) w a w' :
  round_trip (fun lk now db => (f lk now db, db)) w = (Ok a, w') ->
  w_store w' = arrived w /\ exists lk now, f lk now (w_store w') = Ok a.
Proof.
  intros (lk & now & _ & [Hf|[[=] _]])%round_trip_inv. injection Hf as Hf Hst.
  rewrite <- Hst. eauto.
Qed.

(** The row a scanned record shows. *)
Definition shows (id : string) (r : dead_letter_row) (record : Rec) : Prop :=
  re_ID record = id /\ re_EventID record = coalesce_text (d_event_id r)
  /\ re_SourceTopic record = d_source_topic r /\ re_Key record = d_message_key r
  /\ re_Payload record = d_payload r /\ decodeHeaders (d_headers r) = Some (re_Headers record)
  /\ re_State record = d_state r /\ re_FirstFailedAt record = d_first_failed_at r.

Lemma scan_shows id r w record w' :
  scanDeadLetter id r w = (Ok record, w') -> w' = w /\ shows id r record.
Proof.
  unfold scanDeadLetter. destruct (decodeHeaders (d_headers r)) as [hs|] eqn:Hh; [|done].
  intros [= <- <-]. split; [done|]. by unfold shows.
Qed.

Lemma GetDeadLetter_ok id w record w' :
  PgGetDeadLetter id w = (Ok (Some record), w') ->
  exists r, db_dead_letters (w_store w') !! id = Some r /\ shows id r record.
Proof.
  unfold PgGetDeadLetter. rewrite wrapf_ok. intros (row & w1 & Hr & Hrun)%bind_ok.
  apply read_ok in Hr as (Hst & lk & now & Hr%with_texts_ok). injection Hr as Hr.
  destruct row as [r|]; [|discriminate Hrun].
  apply bind_ok in Hrun as (rec & w2 & [-> Hs]%scan_shows & [= <- <-]). by exists r.
Qed.

Lemma IsEventProcessed_false event w w' :
  IsEventProcessed event w = (Ok false, w') ->
  forall consumer, db_processed_events (w_store w') !! (consumer, event) = None.
Proof.
  unfold IsEventProcessed. rewrite wrapf_ok. intros (Hst & lk & now & Hr%with_texts_ok)%read_ok consumer.
  injection Hr as Hr. destruct (db_processed_events (w_store w') !! (consumer, event)) as [p|] eqn:Hp;
    [|done].
  assert (map_existsb (fun key _ => String.eqb key.2 event) (db_processed_events (w_store w')) = true)
    as Ht by (apply map_existsb_true; exists (consumer, event), p; split; [done|apply String.eqb_refl]).
  congruence.
Qed.

(** ** Replay attempts *)

(** [attempt] is the one pending replay of the dead letter. *)
Definition replaying (id attempt : string) (db : DB) : Prop :=
  (exists dead, db_dead_letters db !! id = Some dead /\ d_state dead = StateOpen)
  /\ (exists r, db_replay_attempts db !! attempt = Some r /\ pending_attempt id r = true)
  /\ forall a r, db_replay_attempts db !! a = Some r -> pending_attempt id r = true -> a = attempt.

Lemma insert_attempt_one attempt id reason now db db' :
  insert_attempt attempt id reason now db = Ok (1, db') -> replaying id attempt db'.
Proof.
  unfold insert_attempt. destruct (db_dead_letters db !! id) as [dead|] eqn:Hdead; [|done].
  destruct (String.eqb (d_state dead) StateOpen) eqn:Hopen; [|done]. reflect_bools.
  intros [_ Hk]%checked_ok. destruct (db_replay_attempts db !! attempt); [done|].
  destruct (map_existsb _ _) eqn:Hex; [done|]. injection Hk as <-.
  split_and!; [by exists dead| |].
  - eexists. cbn. rewrite lookup_insert_eq. split; [done|].
    unfold pending_attempt. cbn. by rewrite String.eqb_refl.
  - intros a r. cbn. rewrite lookup_insert_Some. intros [[? _]|[_ Hr]] Hp; [done|].
    by rewrite (proj1 (map_existsb_false _ _) Hex a r Hr) in Hp.
Qed.

Lemma StartReplay_ok id reason w attempt w' :
  PgStartDeadLetterReplay id reason w = (Ok attempt, w') -> replaying id attempt (w_store w').
Proof.
  intros (a & w1 & Ha & Hrun)%bind_ok. rewrite NewID_run in Ha. injection Ha as <- <-.
  apply transact_ok in Hrun as (w2 & Hrun & ->).
  apply bind_ok in Hrun as ([] & w3 & _ & Hrun).
  apply bind_ok in Hrun as (n & w4 & Hi & Hrun). rewrite wrapf_ok in Hi.
  apply statement_ok in Hi as (lk & Hi%exec_ok). apply with_texts_ok in Hi.
  destruct (n =? 1) eqn:Hn; cbn [negb] in Hrun; [|discriminate Hrun]. reflect_bools. subst n.
  injection Hrun as <- <-. by eapply insert_attempt_one.
Qed.

(** ** Replays *)

Definition replay_message (r : dead_letter_row) (headers : list Header) : string * Message :=
  (d_source_topic r, mk_message EmptyString 0 0 (d_message_key r) (d_payload r) headers).

(** The dead letter was replayed, and the audit says so. *)
Definition replay_recorded (id : string) (db : DB) : Prop :=
  (exists r, db_dead_letters db !! id = Some r /\ d_state r = StateRepublished)
  /\ exists a act, db_operator_actions db !! a = Some act
       /\ a_action_type act = "DLQ_REPLAY"%string /\ a_target_id act = id.

Lemma mark_republished_one id db db' :
  mark_republished id db = Ok (1, db') ->
  exists r, db_dead_letters db !! id = Some r /\ d_state r = StateOpen
  /\ db' = set_dead_letters (<[id := republished r]> (db_dead_letters db)) db.
Proof.
  unfold mark_republished. destruct (db_dead_letters db !! id) as [r|]; [|done].
  destruct (String.eqb (d_state r) StateOpen) eqn:Ho; [|done]. reflect_bools.
  intros (db1 & Hp & [= <-])%int4_result_ok%int4_result_ok%obind_ok_ok.
  unfold put_dead_letter in Hp. apply checked_ok in Hp as [_ [= <-]]. by exists r.
Qed.

Lemma FinishReplay_ok attempt id msg w w' :
  PgFinishDeadLetterReplay attempt id Operator.ReplayPublished msg w = (Ok tt, w') ->
  replay_recorded id (w_store w').
Proof.
  intros (w1 & Hrun & ->)%transact_ok.
  apply bind_ok in Hrun as (reason & w2 & _ & Hrun). rewrite String.eqb_refl in Hrun.
  apply bind_ok in Hrun as (n & w3 & Hm & Hrun). rewrite wrapf_ok in Hm.
  apply statement_ok in Hm as (lk & Hm%exec_ok). apply with_texts_ok in Hm.
  destruct (n =? 1) eqn:Hn; cbn [negb] in Hrun; [|discriminate Hrun]. reflect_bools. subst n.
  apply mark_republished_one in Hm as (r & _ & _ & Hst).
  apply bind_ok in Hrun as (act & w4 & Hid & Hrun). rewrite NewID_run in Hid.
  injection Hid as <- <-. rewrite wrapf_ok in Hrun. apply insertAction_ok in Hrun as [_ Hst'].
  cbn in Hst'. rewrite Hst' , Hst. split.
  - exists (republished r). cbn. by rewrite lookup_insert_eq.
  - eexists _, _. cbn. rewrite lookup_insert_eq. by split_and!.
Qed.

Lemma framed_GetDeadLetter id : framed (PgGetDeadLetter id).
Proof.
  unfold PgGetDeadLetter. apply framed_wrapf, framed_bind; [apply framed_round_trip|].
  intros [r|]; [|apply framed_ret]. unfold scanDeadLetter. solve_framed.
Qed.
Lemma framed_StartReplay id reason : framed (PgStartDeadLetterReplay id reason).
Proof. unfold PgStartDeadLetterReplay, NewID. solve_framed. Qed.
Lemma framed_FinishReplay a id result msg : framed (PgFinishDeadLetterReplay a id result msg).
Proof. unfold PgFinishDeadLetterReplay. solve_framed. Qed.
Lemma framed_IsEventProcessed e : framed (IsEventProcessed e).
Proof. unfold IsEventProcessed. solve_framed. Qed.

Lemma guar_publishReplay record attempt :
  guar steps (Operator.publishReplay PublishMessage record attempt).
Proof. unfold Operator.publishReplay. solve_guar. Qed.

(** What a replay that reached the broker went through: the reads of the dead
    letter and of the processed events, the registered attempt, and the end. *)
Definition replayed (window : Z) (id reason : string) w (r : outcome error Rec) w' : Prop :=
  exists row headers now db1 db2 db3 attempt,
    Operator.validReason reason = true
    /\ steps (w_store w) db1 /\ steps db1 db2 /\ steps db2 db3 /\ steps db3 (w_store w')
    /\ db_dead_letters db1 !! id = Some row /\ d_state row = StateOpen
    /\ w_clock w <= now /\ now - window <= d_first_failed_at row
    /\ (forall consumer event, d_event_id row = Some event -> event <> EmptyString ->
         db_processed_events db2 !! (consumer, event) = None)
    /\ replaying id attempt db3
    /\ decodeHeaders (d_headers row) = Some headers
    /\ (w_broker w' = w_broker w \/ w_broker w' = w_broker w ++ [replay_message row headers])
    /\ (is_ok r = true -> w_broker w' = w_broker w ++ [replay_message row headers]
                          /\ replay_recorded id (w_store w')).

Lemma publishReplay_inv id row record attempt w r w' :
  sched_rely steps w -> shows id row record ->
  Operator.publishReplay PublishMessage record attempt w = (r, w') ->
  steps (w_store w) (w_store w')
  /\ (w_broker w' = w_broker w
      \/ w_broker w' = w_broker w ++ [replay_message row (re_Headers record)])
  /\ (is_ok r = true -> w_broker w' = w_broker w ++ [replay_message row (re_Headers record)]
                        /\ replay_recorded id (w_store w')).
Proof.
  intros Hs (Hid & _ & Htop & Hkey & Hpay & _) Hrun.
  assert (Hmsg : (re_SourceTopic record, mk_message EmptyString 0 0 (re_Key record)
    (re_Payload record) (Operator.cloneHeaders (re_Headers record)))
    = replay_message row (re_Headers record)).
  { rewrite Operator.replayed_headers_same. unfold replay_message. congruence. }
  split; [by eapply guar_publishReplay|]. unfold Operator.publishReplay in Hrun.
  apply attempt_inv in Hrun as (o & w1 & Hp & Hrun).
  apply PublishMessage_inv in Hp as (_ & [(-> & Hb & _)|(Ho & _ & Hb)]); rewrite Hmsg in Hb.
  - assert (exists o2, PgFinishDeadLetterReplay attempt id Operator.ReplayPublished EmptyString w1
             = (o2, w') /\ is_ok o2 = is_ok r) as ([[]|e] & Hf & Hr).
    { rewrite <- Hid. apply bind_inv in Hrun as [([] & w2 & Hf & Hk)|(e & Hf & ->)];
        apply wrapf_inv in Hf as (o2 & Hf & Ho); exists o2; [|by destruct o2].
      injection Hk as <- <-. by destruct o2. }
    + rewrite (fr_broker _ _ (framed_FinishReplay _ _ _ _ _ _ _ Hf)), Hb.
      split; [by right|]. intros _. split; [done|]. by eapply FinishReplay_ok.
    + rewrite (fr_broker _ _ (framed_FinishReplay _ _ _ _ _ _ _ Hf)), Hb.
      split; [by right|]. by rewrite <- Hr.
  - destruct o as [|err]; [done|].
    apply attempt_inv in Hrun as (o2 & w2 & Hf & Hrun). injection Hrun as <- <-.
    rewrite (fr_broker _ _ (framed_FinishReplay attempt (re_ID record) Operator.ReplayFailed
                              (Operator.boundedError err) _ _ _ Hf)).
    split; [by destruct Hb as [-> | ->]; [left|right]|done].
Qed.

(** One store call of a replay: the database moves on, the broker waits. *)
Lemma replay_call {A} c (m : M DB A) w r w' :
  framed m -> guar steps m -> sched_rely steps w -> wrapf c m w = (r, w') ->
  w_broker w' = w_broker w /\ w_clock w <= w_clock w' /\ steps (w_store w) (w_store w')
  /\ sched_rely steps w' /\ (forall a, r = Ok a -> m w = (Ok a, w')).
Proof.
  intros Hf Hg Hs (o & Hrun & Hr)%wrapf_inv. pose proof (Hf _ _ _ Hrun) as Hfr.
  destruct (Hg _ _ _ Hs Hrun) as [Hst Hs'].
  split_and!; [apply Hfr|apply Hfr|done|done|]. intros a ->. destruct o; [|done].
  by injection Hr as ->.
Qed.

Lemma guar_IsEventProcessed e : guar steps (IsEventProcessed e).
Proof. unfold IsEventProcessed. solve_guar. Qed.

Lemma checked_event record w b w' :
  sched_rely steps w ->
  (if String.eqb (re_EventID record) EmptyString then ret false
   else wrapf "check processed event" (IsEventProcessed (re_EventID record))) w = (b, w') ->
  w_broker w' = w_broker w /\ steps (w_store w) (w_store w') /\ sched_rely steps w'
  /\ (b = Ok false -> re_EventID record <> EmptyString ->
      forall consumer, db_processed_events (w_store w') !! (consumer, re_EventID record) = None).
Proof.
  intros Hs. destruct (String.eqb (re_EventID record) EmptyString) eqn:He; reflect_bools.
  - intros [= <- <-]. by split_and!.
  - intros Hrun. apply replay_call in Hrun as (Hb & _ & Hst & Hs' & Hok);
      [|apply framed_IsEventProcessed|apply guar_IsEventProcessed|done].
    split_and!; [done..|]. intros ->. intros _. by eapply IsEventProcessed_false, Hok.
Qed.

Lemma ReplayDeadLetter_inv window id reason w r w' :
  sched_rely steps w ->
  Operator.ReplayDeadLetter PublishMessage window id reason w = (r, w') ->
  (is_ok r = false /\ w_broker w' = w_broker w) \/ replayed window id reason w r w'.
Proof.
  intros Hs. unfold Operator.ReplayDeadLetter.
  destruct (Operator.validReason reason) eqn:Hvalid; cbn [negb];
    [|intros [= <- <-]; by left].
  intros [(found & w1 & Hg & Hrun)|(e & Hg & ->)]%bind_inv;
    apply replay_call in Hg as (Hb1 & Hc1 & Hst1 & Hs1 & Hok);
    [|apply framed_GetDeadLetter|apply operator_GetDeadLetter|done
     |by left|apply framed_GetDeadLetter|apply operator_GetDeadLetter|done].
  specialize (Hok _ eq_refl).
  destruct found as [record|]; [|injection Hrun as <- <-; by left].
  apply GetDeadLetter_ok in Hok as (row & Hrow & Hshow).
  pose proof Hshow as (Hid & Hev & _ & _ & _ & Hhs & Hstate & Hfirst).
  destruct (String.eqb (re_State record) StateOpen) eqn:Hopen; cbn [negb] in Hrun;
    [|injection Hrun as <- <-; by left]. reflect_bools.
  apply bind_inv in Hrun as [(now & w1' & [= <- <-] & Hrun)|(e & [=] & _)].
  destruct (re_FirstFailedAt record <? _) eqn:Hwin; [injection Hrun as <- <-; by left|].
  reflect_bools.
  apply bind_inv in Hrun as [(b & w2 & Hp & Hrun)|(e & Hp & ->)];
    apply checked_event in Hp as (Hb2 & Hst2 & Hs2 & Hfree); [|done|left; split; [done|congruence]|done].
  destruct b; [injection Hrun as <- <-; left; split; [done|congruence]|].
  specialize (Hfree eq_refl).
  apply bind_inv in Hrun as [(attempt & w3 & Hstart & Hrun)|(e & Hstart & ->)];
    apply replay_call in Hstart as (Hb3 & _ & Hst3 & Hs3 & Hok);
    [|apply framed_StartReplay|apply operator_StartDeadLetterReplay|done
     |left; split; [done|congruence]|apply framed_StartReplay|apply operator_StartDeadLetterReplay|done].
  specialize (Hok _ eq_refl). apply StartReplay_ok in Hok. rewrite Hid in Hok.
  destruct (publishReplay_inv _ _ _ _ _ _ _ Hs3 Hshow Hrun) as (Hst4 & Hbr & Hrec).
  right. exists row, (re_Headers record), (w_clock w1), (w_store w1), (w_store w2), (w_store w3),
    attempt. rewrite <- Hb1, <- Hb2, <- Hb3.
  split_and!; try done; [congruence|congruence|].
  intros consumer event He Hne. rewrite He in Hev. cbn in Hev. rewrite <- Hev in *. by apply Hfree.
Qed.

(** C20. Replays are guarded: a replay of a dead letter reaches the broker at
    most once per call, and only after it read the record as open and failing
    no longer ago than the replay window, found its event unprocessed by every
    consumer, and registered itself as the one pending attempt; when it
    reports success the message was published, and the record is republished
    and the audit record written in the database it leaves. *)
Theorem replay_is_guarded window id reason w r w' :
  sched_rely steps w ->
  Operator.ReplayDeadLetter PublishMessage window id reason w = (r, w') ->
  (is_ok r = false /\ w_broker w' = w_broker w) \/ replayed window id reason w r w'.
Proof. apply ReplayDeadLetter_inv. Qed.

(** C18. A replay reproduces the message: a message whose header keys need no JSON
    escape, parked by a consumer at a source position that was not parked
    before, is, whenever it is replayed with success, published again on its
    topic with its key, its payload and its headers, whatever happened to the
    database in between. *)
Theorem replay_reproduces_message `{!JsonbArraySpec} consumer m cause window reason w w1 w2 rec w3 :
  Forall (fun h => plain (hdr_Key h) = true) (msg_Headers m) ->
  sched_rely steps w ->
  (forall i r, db_dead_letters (arrived w) !! i = Some r -> ~ at_source consumer m r) ->
  MoveMessage Move consumer m cause w = (Ok tt, w1) ->
  steps (w_store w1) (w_store w2) -> sched_rely steps w2 ->
  Operator.ReplayDeadLetter PublishMessage window
    (deterministicID consumer (msg_Topic m) (msg_Partition m) (msg_Offset m)) reason w2
  = (Ok rec, w3) ->
  w_broker w3 = w_broker w2
    ++ [(msg_Topic m, mk_message EmptyString 0 0 (msg_Key m) (msg_Value m) (msg_Headers m))].
Proof.
  intros Hkeys Hs Hnew Hmove Hst Hs2 Hreplay.
  destruct (MoveMessage_durable _ _ _ _ _ _ Hs Hmove) as [Hcop _].
  destruct (Hcop eq_refl) as (id & r & Hr & Hsrc & [(-> & Hk & Hp & Hj & _)|(r0 & Hr0 & Hsrc0)]);
    [|by destruct (Hnew _ _ Hr0)].
  destruct (ReplayDeadLetter_inv _ _ _ _ _ _ Hs2 Hreplay) as [[[=] _]|Hrep].
  destruct Hrep as (row & headers & now & db1 & db2 & db3 & attempt & _ & Hst1 & _ & _ & _ & Hrow
    & _ & _ & _ & _ & _ & Hdec & _ & Hok).
  destruct (Hok eq_refl) as [-> _]. do 2 f_equal.
  assert (Hh : history (w_store w1) db1) by (apply steps_history; by etrans).
  destruct (hist_dead_letters _ _ Hh _ _ Hr) as (r' & Hr' & Hd & _).
  replace r' with row in Hd by congruence. unfold dead_letter_content in Hd.
  injection Hd as _ _ Htop _ _ Hkey Hhead Hpay _.
  destruct (headers_round_trip _ Hkeys) as (out & Hout & Hhs).
  destruct Hsrc as (_ & Htopic & _). unfold replay_message.
  replace headers with (msg_Headers m) by congruence. congruence.
Qed.
End Operator.

(** ** Requeueing a dead-lettered event *)

Section Requeue.
Context `{Jsonb} `{Collation}.
Implicit Types (w : World DB) (db : DB).

(** The event gets another chance, with the audit record. *)
Definition requeued (id reason : string) db db' : Prop :=
  exists row act now, db_outbox_events db !! id = Some row /\ o_status row = OutboxDeadLettered
  /\ db_operator_actions db !! act = None
  /\ db' = set_operator_actions
       (<[act := mk_action_row "OUTBOX_REQUEUE" id reason now]> (db_operator_actions db))
       (set_outbox_events (<[id := requeued_row now row]> (db_outbox_events db)) db).

Lemma RequeueOutbox_inv id reason w r w' :
  RequeueOutbox id reason w = (r, w') ->
  (w_store w' = arrived w /\ is_ok r = false) \/ requeued id reason (arrived w) (w_store w').
Proof.
  intros [(e & -> & Hst)|(a & w2 & Hrun & -> & _)]%transact_inv; [by left|right].
  apply bind_ok in Hrun as (n & w3 & Hu & Hrun). rewrite wrapf_ok in Hu.
  apply statement_ok in Hu as (lk & Hu%exec_ok). apply with_texts_ok in Hu.
  apply update_where_status_ok in Hu as [(-> & _)|(row & r' & -> & Hrow & Hs & [= <-] & Hst)];
    [discriminate Hrun|]. cbn [negb Z.eqb Pos.eqb] in Hrun.
  apply bind_ok in Hrun as (act & w4 & Hid & Hrun). rewrite NewID_run in Hid.
  injection Hid as <- <-. destruct a. rewrite wrapf_ok in Hrun.
  apply insertAction_ok in Hrun as [Hfresh Hst']. cbn in Hfresh, Hst'.
  rewrite Hst in Hfresh, Hst'. rewrite Hst'. exists row. eexists _, _. by split_and!.
Qed.

(** Requeues are audited: a requeue either changes nothing, or turns one
    dead-lettered event back to pending with its attempts reset, and adds the
    operator's action with the trimmed reason in the same transaction. *)
Theorem requeue_is_audited id reason w r w' :
  Operator.RequeueDeadOutbox id reason w = (r, w') ->
  exists w1, (w_store w1 = w_store w \/ w_store w1 = arrived w)
  /\ ((is_ok r = false /\ (w_store w' = w_store w1 \/ w_store w' = arrived w1))
      \/ (Operator.validReason reason = true
          /\ requeued id (TrimSpace reason) (arrived w1) (w_store w'))).
Proof.
  unfold Operator.RequeueDeadOutbox.
  destruct (Operator.validReason reason); cbn [negb];
    [|intros [= <- <-]; exists w; split; [by left|left; split; [done|by left]]].
  intros [(found & w1 & Hg & Hrun)|(e & Hg & ->)]%bind_inv;
    apply wrapf_inv in Hg as (o & Hg & Ho);
    apply wrapf_inv in Hg as (o' & Hg & Ho');
    apply round_trip_inv in Hg as (lk & now & _ & Hg).
  - exists w1. split.
    { right. destruct Hg as [[= _ <-]|[_ [-> | ->]]]; done. }
    destruct found as [status|]; [|injection Hrun as <- <-; left; split; [done|by left]].
    destruct (negb _); [injection Hrun as <- <-; left; split; [done|by left]|].
    assert (exists o2, RequeueOutbox id (TrimSpace reason) w1 = (o2, w') /\ is_ok o2 = is_ok r)
      as (o2 & Hq & Hr).
    { apply bind_inv in Hrun as [([] & w2 & Hq & Hk)|(e & Hq & ->)];
        apply wrapf_inv in Hq as (o2 & Hq & Ho2); exists o2; [|by destruct o2].
      injection Hk as <- <-. by destruct o2. }
    apply RequeueOutbox_inv in Hq as [[Hst Ho2]|Hq]; [left|by right].
    split; [congruence|by right].
  - exists w'. split; [|left; split; [done|by left]].
    right. destruct Hg as [[= _ <-]|[_ [-> | ->]]]; done.
Qed.
End Requeue.

(** ** Pruning *)

Section Prune.
Context `{Jsonb} `{Collation}.
Implicit Types (w : World DB) (db : DB).

Lemma delete_all_notin ks t k : k ∉ ks -> delete_all ks t !! k = t !! k.
Proof.
  induction ks as [|x ks IH]; [done|]. rewrite not_elem_of_cons. intros [Hne Hk]. cbn.
  rewrite lookup_delete_ne by congruence. by apply IH.
Qed.
Lemma delete_all_in ks t k : k ∈ ks -> delete_all ks t !! k = None.
Proof.
  induction ks as [|x ks IH]; [by intros Hk%elem_of_nil|]. cbn. intros [->|Hk]%elem_of_cons.
  - apply lookup_delete_eq.
  - destruct (decide (x = k)) as [->|Hne]; [apply lookup_delete_eq|].
    rewrite lookup_delete_ne by done. by apply IH.
Qed.
Lemma delete_all_size ks t :
  NoDup ks -> (forall k, k ∈ ks -> is_Some (t !! k)) ->
  (size (delete_all ks t) + length ks = size t)%nat.
Proof.
  induction 1 as [|x ks Hx Hnd IH]; intros Hin; cbn; [lia|].
  change (foldr delete t ks) with (delete_all ks t). rewrite map_size_delete_Some.
  - specialize (IH (fun k Hk => Hin k (list_elem_of_further _ _ _ Hk))).
    assert (size (delete_all ks t) <> 0)%nat; [|lia].
    destruct (Hin x (list_elem_of_here _ _)) as [p Hp]. intros Hz%map_size_empty_inv.
    rewrite <- (delete_all_notin ks t x Hx), Hz in Hp. by rewrite lookup_empty in Hp.
  - rewrite delete_all_notin by done. apply Hin, list_elem_of_here.
Qed.

(** A dead letter of the event keeps it from being pruned. *)
Definition guarded (cutoff : Z) (event : string) (db : DB) : Prop :=
  exists id dead, db_dead_letters db !! id = Some dead /\ d_event_id dead = Some event
  /\ (d_state dead = DeadLetters.StateOpen \/ cutoff <= d_first_failed_at dead).

Lemma candidates_prunable lk cutoff batch db k :
  k ∈ map fst (prune_candidates lk cutoff batch db) ->
  exists row, db_processed_events db !! k = Some row
  /\ lk (processed_row_key k.1 k.2) = false
  /\ p_last_seen_at row < cutoff /\ ~ guarded cutoff k.2 db.
Proof.
  intros ([k' row] & -> & Hin)%list_elem_of_fmap. unfold prune_candidates in Hin.
  pose proof (elem_of_sublist _ _ _ Hin (sublist_take _ _)) as Hi.
  apply list_elem_of_filter in Hi as [Hlk Hi]. rewrite merge_sort_Permutation in Hi.
  apply list_elem_of_filter in Hi as [Hp Hi%elem_of_map_to_list].
  exists row. split; [done|]. cbn in *. apply negb_true_iff in Hlk. split; [done|].
  unfold prunable in Hp. apply andb_true_iff in Hp as [Hlt Hno]. cbn in Hlt, Hno.
  split; [by apply Z.ltb_lt|]. apply negb_true_iff in Hno.
  intros (id & dead & Hd & Hev & Hst).
  pose proof (proj1 (map_existsb_false _ _) Hno id dead Hd) as Hf. cbn in Hf.
  rewrite (bool_decide_true _ Hev) in Hf. cbn [andb] in Hf. apply orb_false_iff in Hf as [Ho Hc].
  reflect_bools. destruct Hst; [done|lia].
Qed.

Lemma candidates_nodup lk cutoff batch db :
  NoDup (map fst (prune_candidates lk cutoff batch db)).
Proof.
  apply NoDup_fmap_2_strong.
  - intros [k r] [k' r'] Hx Hy [= ->]. f_equal.
    assert (Hrow : forall r0, (k', r0) ∈ prune_candidates lk cutoff batch db ->
              db_processed_events db !! k' = Some r0).
    { intros r0 Hin. unfold prune_candidates in Hin.
      pose proof (elem_of_sublist _ _ _ Hin (sublist_take _ _)) as Hin'.
      apply list_elem_of_filter in Hin' as [_ Hi]. rewrite merge_sort_Permutation in Hi.
      by apply list_elem_of_filter in Hi as [_ Hi%elem_of_map_to_list]. }
    apply Hrow in Hx, Hy. congruence.
  - unfold prune_candidates. eapply sublist_NoDup; [|apply sublist_take].
    apply NoDup_filter. rewrite merge_sort_Permutation. apply NoDup_filter, NoDup_map_to_list.
Qed.

(** A committed prune. *)
Definition pruned (cutoff batch : Z) (reason : string) (n : Z) db db' : Prop :=
  exists lk act now, n = Z.of_nat (length (prune_candidates lk (timestamptz cutoff) batch db))
  /\ db_operator_actions db !! act = None
  /\ db' = set_operator_actions
       (<[act := mk_action_row "PROCESSED_PRUNE" (format_rfc3339 cutoff) reason now]>
          (db_operator_actions db))
       (set_processed_events
          (delete_all (map fst (prune_candidates lk (timestamptz cutoff) batch db))
             (db_processed_events db)) db).

Lemma Prune_inv cutoff batch reason w r w' :
  PgPruneProcessedEvents cutoff batch reason w = (r, w') ->
  (w_store w' = arrived w /\ is_ok r = false)
  \/ exists n, pruned cutoff batch reason n (arrived w) (w_store w')
       /\ (r = Ok n \/ is_ok r = false).
Proof.
  intros [(e & -> & Hst)|(n & w2 & Hrun & -> & Hr)]%transact_inv; [by left|right].
  exists n. split; [|destruct Hr as [-> | ->]; auto].
  apply bind_ok in Hrun as ([] & w3 & Hl & Hrun). rewrite wrapf_ok in Hl.
  apply statement_ok in Hl as (lk0 & [= Hl]). cbn in Hl. fold (arrived w) in Hl.
  apply bind_ok in Hrun as (k & w4 & Hd & Hrun). rewrite wrapf_ok in Hd.
  apply statement_ok in Hd as (lk & Hd%exec_ok). injection Hd as <- Hd.
  rewrite <- Hl in Hd.
  apply bind_ok in Hrun as (act & w5 & Hid & Hrun). rewrite NewID_run in Hid.
  injection Hid as <- <-. apply bind_ok in Hrun as ([] & w6 & Ha & Hrun).
  injection Hrun as <- <-. rewrite wrapf_ok in Ha. apply insertAction_ok in Ha as [Hf Hst].
  cbn in Hf, Hst. rewrite <- Hd in Hf, Hst. rewrite Hst. exists lk. eexists _, _.
  by rewrite <- Hl, length_map.
Qed.

(** What a prune may take. *)
Lemma pruned_safe cutoff batch reason n db db' :
  pruned cutoff batch reason n db db' ->
  (forall k row, db_processed_events db !! k = Some row ->
     db_processed_events db' !! k = Some row
     \/ (db_processed_events db' !! k = None /\ p_last_seen_at row < timestamptz cutoff
         /\ ~ guarded (timestamptz cutoff) k.2 db))
  /\ Z.of_nat (size (db_processed_events db)) = Z.of_nat (size (db_processed_events db')) + n
  /\ n <= Z.max 0 batch.
Proof.
  intros (lk & act & now & -> & _ & ->).
  set (ks := map fst (prune_candidates lk (timestamptz cutoff) batch db)). split_and!; cbn.
  - intros k row Hrow. destruct (decide (k ∈ ks)) as [Hin|Hin].
    + right. split; [by apply delete_all_in|].
      apply candidates_prunable in Hin as (row' & Hrow' & _ & Hlt & Hg).
      rewrite Hrow in Hrow'. injection Hrow' as ->. done.
    + left. by rewrite delete_all_notin.
  - pose proof (delete_all_size ks (db_processed_events db) (candidates_nodup _ _ _ _)
      (fun k Hk => match candidates_prunable _ _ _ _ k Hk with
                   | ex_intro _ row (conj Hrow _) => ex_intro _ row Hrow end)) as Hsz.
    assert (Hl : length ks = length (prune_candidates lk (timestamptz cutoff) batch db))
      by apply length_map.
    rewrite <- Hl, <- Nat2Z.inj_add. exact (f_equal Z.of_nat (eq_sym Hsz)).
  - unfold prune_candidates.
    rewrite length_take. lia.
Qed.
End Prune.

(** ** The properties *)

Section Properties.
Context `{UnicodeTables} `{JsonbSpec} `{Collation}.
Implicit Types (w : World DB).

(** C21. Pruning is safe and bounded: a prune changes nothing, or it removes at
    most a batch of processed-event records, each last seen before the cutoff
    and of an event without a dead letter that is open or failed since the
    cutoff (whose replay must still see it), keeps every other row, and adds
    its audit record; the number it reports is the number it removed. *)
Theorem prune_is_safe cutoff batch reason w r w' :
  PgPruneProcessedEvents cutoff batch reason w = (r, w') ->
  (w_store w' = arrived w /\ is_ok r = false)
  \/ exists n, pruned cutoff batch reason n (arrived w) (w_store w')
     /\ (r = Ok n \/ is_ok r = false) /\ n <= Z.max 0 batch
     /\ Z.of_nat (size (db_processed_events (arrived w)))
        = Z.of_nat (size (db_processed_events (w_store w'))) + n
     /\ forall k row, db_processed_events (arrived w) !! k = Some row ->
        db_processed_events (w_store w') !! k = Some row
        \/ (db_processed_events (w_store w') !! k = None
            /\ p_last_seen_at row < timestamptz cutoff
            /\ ~ guarded (timestamptz cutoff) k.2 (arrived w)).
Proof.
  intros [?|(n & Hp & Hr)]%Prune_inv; [by left|right]. exists n.
  destruct (pruned_safe _ _ _ _ _ _ Hp) as (? & ? & ?). by split_and!.
Qed.

(** Retention covers replays: a configuration that the prune service
    accepts (with its defaults) keeps processed events at least as long as
    dead letters can be replayed, and prunes between one and ten thousand
    records at a time. *)
Theorem retention_covers_replays config s :
  Maintenance.NewProcessedEventsService config = Ok s ->
  Operator.NewService (Maintenance.mc_ReplayWindow config) <= Maintenance.sv_retention s
  /\ 1 <= Maintenance.sv_batchSize s <= 10000.
Proof.
  unfold Maintenance.NewProcessedEventsService, Operator.NewService.
  set (retention := if Maintenance.mc_Retention config <=? 0 then _ else _).
  set (window := if Maintenance.mc_ReplayWindow config <=? 0 then _ else _).
  destruct (retention <? window) eqn:E; [done|]. intros [= <-]. cbn. reflect_bools.
  split; [done|]. repeat case_match; reflect_bools; lia.
Qed.
End Properties.

(** ** Witnesses *)

Section Witnesses.
Import Demo.

Definition letter : string :=
  Eval vm_compute in match map_to_list (db_dead_letters (w_store parked_world)) with
                     | (id, _) :: _ => id
                     | [] => EmptyString
                     end.
Definition replay_run : outcome error DeadLetters.Rec * World DB :=
  Eval vm_compute in
    Operator.ReplayDeadLetter PublishMessage (Operator.days 14) letter "bug fixed" parked_world.
Lemma run_replay :
  Operator.ReplayDeadLetter PublishMessage (Operator.days 14) letter "bug fixed" parked_world
  = (replay_run.1, replay_run.2).
Proof. evaluate. Qed.

Lemma replay_is_guarded_witness :
  is_ok replay_run.1 = true
  /\ ((is_ok replay_run.1 = false /\ w_broker replay_run.2 = w_broker parked_world)
      \/ replayed (Operator.days 14) letter "bug fixed" parked_world replay_run.1 replay_run.2).
Proof.
  split; [by vm_compute|].
  apply (replay_is_guarded (Operator.days 14) letter "bug fixed" parked_world replay_run.1
           replay_run.2); [|exact run_replay].
  by apply quiet_rely.
Defined.

Definition replayed_record : DeadLetters.Rec :=
  Eval vm_compute in match replay_run.1 with
                     | Ok record => record
                     | Err _ => DeadLetters.recordFromMessage EmptyString created_message None 0
                     end.
Lemma replay_reproduces_message_witness :
  exists w3, Operator.ReplayDeadLetter PublishMessage (Operator.days 14) letter "bug fixed" parked_world
             = (Ok replayed_record, w3)
  /\ w_broker w3 = w_broker parked_world
       ++ [(msg_Topic created_message, mk_message EmptyString 0 0 (msg_Key created_message)
              (msg_Value created_message) (msg_Headers created_message))].
Proof.
  exists replay_run.2. split; [exact run_replay|].
  apply (replay_reproduces_message Risk.ConsumerName created_message (EText "decode")
           (Operator.days 14) "bug fixed" announced_world parked_world parked_world replayed_record).
  - unfold created_message. cbn [msg_Headers]. repeat (apply Forall_cons; split; [done|]).
    by apply Forall_nil.
  - apply quiet_rely, announced_reachable.
  - intros i r Hr. assert (He : db_dead_letters (arrived announced_world) = ∅) by by vm_compute.
    rewrite He in Hr. by apply lookup_empty_Some in Hr.
  - exact run_parked.
  - done.
  - by apply quiet_rely.
  - exact run_replay.
Defined.

Definition refused_world : World DB :=
  Eval vm_compute in after (Outbox.PublishNext Processes.publish_event 1) refusing.
Definition requeued_world : World DB :=
  Eval vm_compute in after (Operator.RequeueDeadOutbox oldest.1 "broker is back") refused_world.
Lemma run_requeue :
  Operator.RequeueDeadOutbox oldest.1 "broker is back" refused_world
  = (Ok OutboxPending, requeued_world).
Proof. evaluate. Qed.

Lemma requeue_is_audited_witness :
  exists w1, (w_store w1 = w_store refused_world \/ w_store w1 = arrived refused_world)
  /\ ((is_ok (E := error) (Ok OutboxPending) = false
       /\ (w_store requeued_world = w_store w1 \/ w_store requeued_world = arrived w1))
      \/ (Operator.validReason "broker is back" = true
          /\ requeued oldest.1 (TrimSpace "broker is back") (arrived w1) (w_store requeued_world))).
Proof.
  exact (requeue_is_audited oldest.1 "broker is back" refused_world (Ok OutboxPending)
           requeued_world run_requeue).
Defined.

(** Everything processed in the demo is old by now. *)
Definition prune_cutoff : Z := Eval vm_compute in w_clock settled_world + ns_per_second.
Definition pruned_world : World DB :=
  Eval vm_compute in after (PgPruneProcessedEvents prune_cutoff 1 "retention") settled_world.
Lemma run_prune :
  PgPruneProcessedEvents prune_cutoff 1 "retention" settled_world = (Ok 1, pruned_world).
Proof. evaluate. Qed.

Lemma prune_is_safe_witness :
  (w_store pruned_world = arrived settled_world /\ is_ok (E := error) (Ok 1) = false)
  \/ exists n, pruned prune_cutoff 1 "retention" n (arrived settled_world) (w_store pruned_world)
     /\ (Ok (E := error) 1 = Ok n \/ is_ok (E := error) (Ok 1) = false) /\ n <= Z.max 0 1
     /\ Z.of_nat (size (db_processed_events (arrived settled_world)))
        = Z.of_nat (size (db_processed_events (w_store pruned_world))) + n
     /\ forall k row, db_processed_events (arrived settled_world) !! k = Some row ->
        db_processed_events (w_store pruned_world) !! k = Some row
        \/ (db_processed_events (w_store pruned_world) !! k = None
            /\ p_last_seen_at row < timestamptz prune_cutoff
            /\ ~ guarded (timestamptz prune_cutoff) k.2 (arrived settled_world)).
Proof. exact (prune_is_safe prune_cutoff 1 "retention" settled_world (Ok 1) pruned_world run_prune). Defined.

Lemma retention_covers_replays_witness :
  Operator.NewService 0 <= Operator.days 30 /\ 1 <= 1000 <= 10000.
Proof.
  exact (retention_covers_replays (Maintenance.mk_Config 0 0 0)
           (Maintenance.mk_Service (Operator.days 30) 1000) eq_refl).
Defined.
End Witnesses.
