(* ===== verification/Closed.v ===== *)
(** * What the processes write to Kafka

    [silent]: programs that write nothing.  [honest]: programs that, given a
    broker whose messages outside the dead-letter topic are the outbox's, leave
    such a broker.  Every process is honest when its consumers are handed what
    the broker holds ([honest_run]). *)

From stdpp Require Import base strings list gmap relations.
From Stdlib Require Import ZArith Lia.
From S2P Require Import Prelude GoStrings Sha256 Runtime Domain GoJson GoTime Codec Schema.
From S2P Require Import ConsumerLoop KafkaBus RiskService LedgerService OutboxPublisher.
From S2P Require Import RedisLimiter AppEnv DeadLetter Operations Maintenance QueryService.
From S2P Require Import StoreOutbox TransactionService StoreTransaction FundingService.
From S2P Require Import StoreConsumer StoreLedger StoreFunding StoreDeadLetter StoreMaintenance.
From S2P Require Import StoreQuery StoreMetrics Footprints HttpApi HttpMetrics Metrics Processes.
From S2P Require Import Guarantees System Invariants Provenance OutboxProperties OperatorProperties.

Open Scope Z_scope.

(** ** Programs that write nothing to Kafka *)

Section Silent.
Context {S : Type}.
Implicit Types (w : World S).

Definition silent {A} (m : M S A) : Prop :=
  forall w r w', m w = (r, w') -> w_broker w' = w_broker w.

Lemma silent_framed A (m : M S A) : framed m -> silent m.
Proof. intros Hm w r w' Hrun. exact (fr_broker _ _ (Hm _ _ _ Hrun)). Qed.
Lemma silent_emit mt : silent (emit mt).
Proof. by intros w r w' [= _ <-]. Qed.
Lemma silent_bind A B (m : M S A) (k : A -> M S B) :
  silent m -> (forall a, silent (k a)) -> silent (bind m k).
Proof.
  intros Hm Hk w r w' [(a & w1 & H1 & H2)|(e & H1 & _)]%bind_inv; [|by eapply Hm].
  etrans; [by eapply Hk|by eapply Hm].
Qed.
Lemma silent_attempt A B (m : M S A) (k : outcome error A -> M S B) :
  silent m -> (forall o, silent (k o)) -> silent (attempt m k).
Proof.
  intros Hm Hk w r w' (o & w1 & H1 & H2)%attempt_inv. etrans; [by eapply Hk|by eapply Hm].
Qed.
Lemma silent_wrapf A c (m : M S A) : silent m -> silent (wrapf c m).
Proof. intros Hm w r w' (o & H1 & _)%wrapf_inv. by eapply Hm. Qed.
Lemma silent_Allow l key : silent (RateLimit.Allow (S := S) l key).
Proof.
  unfold RateLimit.Allow. apply silent_bind; [apply silent_wrapf|intros count; by apply silent_framed, framed_ret].
  intros w r w'. unfold RateLimit.allowScript.
  destruct (RateLimit.live_counter _ _) as [[? ?]|]; destruct (sl_fault _); by intros [= _ <-].
Qed.
End Silent.

Create HintDb silent.
#[export] Hint Resolve silent_emit silent_Allow : silent.

(** Proves [silent m] for a program built from the combinators. *)
Ltac solve_silent :=
  repeat first
    [ progress intros
    | solve [auto with silent]
    | lazymatch goal with
      | |- silent (bind _ _) => apply silent_bind
      | |- silent (attempt _ _) => apply silent_attempt
      | |- silent (wrapf _ _) => apply silent_wrapf
      | |- silent (match _ with _ => _ end) => case_match
      end
    | solve [apply silent_framed; solve_framed] ].

(** ** Honest programs *)

Section Honest.
Context `{UnicodeTables} `{JsonbSpec} `{Collation}.
Implicit Types (w : World DB).

(** Outside the dead-letter topic the broker holds messages of the outbox. *)
Definition broker_genuine w : Prop :=
  forall topic m, (topic, m) ∈ w_broker w -> topic <> TopicDeadLetter ->
  from_outbox (w_store w) topic (msg_Key m) (msg_Value m).

(** What a consumer of [topic] is handed: messages the broker holds. *)
Definition fetched_from (topic : string) w (m : Message) : Prop :=
  msg_Topic m = topic /\ exists m0, (topic, m0) ∈ w_broker w
  /\ msg_Key m = msg_Key m0 /\ msg_Value m = msg_Value m0 /\ msg_Headers m = msg_Headers m0.

Definition fed (p : process) w : Prop :=
  match p with
  | risk_service fetches => Forall (fetched (fetched_from TopicTransactionCreated w)) fetches
  | ledger_service fetches => Forall (fetched (fetched_from TopicRiskEvaluated w)) fetches
  | _ => True
  end.

(** Offset commits and timers leave the database to the other sessions, and
    the broker alone. *)
Definition offline (commit : Message -> M DB unit) (wait : Z -> M DB bool) : Prop :=
  (forall R, PreOrder R -> external_to R commit wait)
  /\ (forall m, silent (commit m)) /\ forall d, silent (wait d).

Section From.
Context (db0 : DB).

(** What is genuine in [db0]; it stays so. *)
Definition trusted : trust :=
  mk_trust (genuine_payment db0) (genuine_ruling db0) (from_outbox db0).

Definition onward : DB -> DB -> Prop := steps_while genuine (history db0).

#[export] Instance onward_preorder : PreOrder onward.
Proof.
  apply steps_while_preorder. intros db db' Hstep Hh. etrans; [exact Hh|].
  by apply closed_step_history.
Qed.

#[export] Instance onward_guarantees : StoreGuarantees onward trusted.
Proof.
  apply while_guarantees.
  - intros db db' Hstep Hh. etrans; [exact Hh|]. by apply closed_step_history.
  - intros t db Ht Hh. by eapply says_history.
  - intros t db Ht Hh. by eapply says_history.
  - intros topic key value db Hl Hh. by eapply from_outbox_history.
Qed.

(** The run so far went [onward] and lied to nobody. *)
Record truthful w : Prop := mk_truthful {
  tf_history : history db0 (w_store w);
  tf_sched : sched_rely onward w;
  tf_broker : broker_genuine w;
  tf_letters : letters_genuine (w_store w);
}.

Definition honest {A} (m : M DB A) : Prop :=
  forall w r w', truthful w -> m w = (r, w') ->
  truthful w' /\ history (w_store w) (w_store w').

Lemma closed_steps_history db db' : closed_steps db db' -> history db db'.
Proof. apply rtc_preorder; [apply _|apply closed_step_history]. Qed.

Lemma closed_steps_letters db db' : closed_steps db db' -> letters_genuine db -> letters_genuine db'.
Proof. apply rtc_stable, closed_step_letters. Qed.

(** A run whose messages, if any, are the outbox's. *)
Lemma truthful_onward w w' sent :
  truthful w -> onward (w_store w) (w_store w') -> sched_rely onward w' ->
  w_broker w' = w_broker w ++ sent ->
  (forall topic m, (topic, m) ∈ sent -> topic <> TopicDeadLetter ->
   from_outbox (w_store w') topic (msg_Key m) (msg_Value m)) ->
  truthful w' /\ history (w_store w) (w_store w').
Proof.
  intros [Hh Hs Hb Hl] Hon Hs' Hbroker Hsent.
  pose proof (Hon Hh) as Hsteps. pose proof (closed_steps_history _ _ Hsteps) as Hh'.
  split; [|exact Hh']. split; [by etrans|exact Hs'| |by eapply closed_steps_letters].
  intros topic m. rewrite Hbroker, elem_of_app. intros [Hin|Hin] Ht; [|by apply Hsent].
  eapply from_outbox_history; [exact Hh'|]. by apply Hb.
Qed.

Lemma honest_guar A (m : M DB A) : guar onward m -> silent m -> honest m.
Proof.
  intros Hg Hq w r w' Hw Hrun. destruct (Hg _ _ _ (tf_sched _ Hw) Hrun) as [Hon Hs'].
  apply (truthful_onward w w' []); try done.
  - by rewrite (Hq _ _ _ Hrun), app_nil_r.
  - by intros ? ? ?%elem_of_nil.
Qed.

Lemma honest_bind A B (m : M DB A) (k : A -> M DB B) :
  honest m -> (forall a, honest (k a)) -> honest (bind m k).
Proof.
  intros Hm Hk w r w' Hw [(a & w1 & HA & HB)|(e & HA & _)]%bind_inv; [|by eapply Hm].
  destruct (Hm _ _ _ Hw HA) as [Hw1 Hh1]. destruct (Hk _ _ _ _ Hw1 HB) as [Hw2 Hh2].
  split; [done|by etrans].
Qed.
Lemma honest_attempt A B (m : M DB A) (k : outcome error A -> M DB B) :
  honest m -> (forall o, honest (k o)) -> honest (attempt m k).
Proof.
  intros Hm Hk w r w' Hw (o & w1 & HA & HB)%attempt_inv.
  destruct (Hm _ _ _ Hw HA) as [Hw1 Hh1]. destruct (Hk _ _ _ _ Hw1 HB) as [Hw2 Hh2].
  split; [done|by etrans].
Qed.
Lemma honest_wrapf A c (m : M DB A) : honest m -> honest (wrapf c m).
Proof. intros Hm w r w' Hw (o & HA & _)%wrapf_inv. by eapply Hm. Qed.

(** A message of the outbox, or one for the dead-letter topic, may be sent. *)
Lemma publish_honest topic m w r w' :
  truthful w ->
  (topic <> TopicDeadLetter -> from_outbox (w_store w) topic (msg_Key m) (msg_Value m)) ->
  PublishMessage topic m w = (r, w') -> truthful w' /\ history (w_store w) (w_store w').
Proof.
  intros Hw Hm Hrun.
  destruct (guar_PublishMessage onward topic m _ _ _ (tf_sched _ Hw) Hrun) as [Hon Hs'].
  apply PublishMessage_inv in Hrun as (_ & Hb).
  assert (Hsent : exists sent, w_broker w' = w_broker w ++ sent /\ (sent = [] \/ sent = [(topic, m)])).
  { destruct Hb as [(_ & Hb & _)|(_ & _ & [Hb|Hb])]; rewrite Hb; eauto.
    exists []. rewrite app_nil_r. auto. }
  destruct Hsent as (sent & Hbroker & Hsent). eapply truthful_onward; [done..|].
  intros topic' m' Hin Ht. destruct Hsent as [->| ->]; [by apply elem_of_nil in Hin|].
  apply list_elem_of_singleton in Hin. injection Hin as -> ->.
  eapply from_outbox_history; [|by apply Hm]. apply closed_steps_history, Hon, Hw.
Qed.

Lemma honest_Move m : honest (Move m).
Proof.
  intros w r w' Hw. unfold Move, moveToDeadLetter. apply publish_honest; [done|]. by intros [].
Qed.

#[local] Hint Resolve onward_preorder : guar.
Create HintDb honest.
#[local] Hint Resolve honest_Move : honest.

(** Proves [honest m] for a program built from the combinators. *)
Ltac solve_honest :=
  repeat first
    [ progress intros
    | solve [auto with honest]
    | lazymatch goal with
      | |- honest (bind _ _) => apply honest_bind
      | |- honest (attempt _ _) => apply honest_attempt
      | |- honest (wrapf _ _) => apply honest_wrapf
      | |- honest (match _ with _ => _ end) => case_match
      end
    | solve [apply honest_guar; [solve_guar|solve_silent]] ].

(** *** The consumers *)

Lemma silent_UpsertDeadLetter rec : silent (DeadLetters.UpsertDeadLetter rec).
Proof. cbn. unfold PgUpsertDeadLetter, scanDeadLetter. solve_silent. Qed.
Lemma silent_MarkDeadLetterPublished id t : silent (DeadLetters.MarkDeadLetterPublished id t).
Proof. cbn. unfold PgMarkDeadLetterPublished. solve_silent. Qed.

Lemma honest_MoveMessage name m cause :
  parkable trusted m -> honest (DeadLetters.MoveMessage Move name m cause).
Proof.
  intros Hpark. unfold DeadLetters.MoveMessage. solve_honest.
  - apply honest_guar; [by apply (sg_UpsertDeadLetter (T := trusted))|].
    apply silent_UpsertDeadLetter.
  - apply honest_guar; [apply (sg_MarkDeadLetterPublished (T := trusted))|].
    apply silent_MarkDeadLetterPublished.
Qed.

Section Loop.
Context (commit : Message -> M DB unit) (wait : Z -> M DB bool).
Hypothesis Hoffline : offline commit wait.

Lemma honest_commit m : honest (commit m).
Proof using All.
  destruct Hoffline as (Hx & Hc & _). apply honest_guar; [|apply Hc]. apply (Hx onward). apply _.
Qed.
Lemma honest_wait d : honest (wait d).
Proof using All.
  destruct Hoffline as (Hx & _ & Hw). apply honest_guar; [|apply Hw]. apply (Hx onward). apply _.
Qed.
#[local] Hint Resolve honest_commit honest_wait : honest.

Context (name : string) (config : Consumer.Config) (handle : Message -> M DB unit).

Lemma honest_retry m onRetry base :
  honest (handle m) -> honest onRetry ->
  honest (@Consumer.retry DB (Processes.loop_env commit wait name)
            (Consumer.attempts_of config) base (handle m) onRetry).
Proof using All.
  intros Hhandle Hre. unfold Consumer.retry.
  generalize (Z.to_nat (Consumer.attempts_of config)) as n. generalize 1 as attempt.
  generalize (@None error) as last. intros last attempt n.
  revert attempt last. induction n as [|n IHn]; intros attempt last; cbn [Consumer.retry_from];
    [solve_honest|].
  apply honest_attempt; [apply Hhandle|]. intros [|e]; [solve_honest|].
  apply honest_bind; [solve_honest|]. intros _. case_match; [apply IHn|].
  apply honest_bind; [apply honest_wait|]. intros []; [apply IHn|solve_honest].
Qed.

Lemma honest_RunLoop fetches :
  Forall (fetched (fun m => honest (handle m) /\ parkable trusted m)) fetches ->
  honest (@Consumer.RunLoop DB (Processes.loop_env commit wait name) config handle fetches).
Proof using All.
  induction 1 as [|f fetches Hf _ IH]; [cbn; solve_honest|].
  cbn [Consumer.RunLoop]. destruct f as [m| |]; [|done|solve_honest].
  destruct Hf as [Hhandle Hpark]. apply honest_bind; [|done]. unfold Consumer.process.
  apply honest_bind; [apply honest_retry; [done|solve_honest]|].
  pose proof (honest_MoveMessage name m) as Hmove.
  intros [cause|]; cbn [Consumer.MoveToDeadLetter Consumer.CommitMessages Processes.loop_env];
    solve_honest.
Qed.
End Loop.

Lemma honest_deliver name handle m :
  (forall d, honest (handle d (msg_Value m))) -> honest (Processes.deliver name handle m).
Proof. intros Hh. unfold Processes.deliver. solve_honest. Qed.

Lemma honest_HandleTransactionCreated d payload :
  announces_payment trusted payload -> honest (Risk.HandleTransactionCreated d payload).
Proof.
  intros Ht. apply honest_guar; [by apply guar_HandleTransactionCreated|].
  unfold Risk.HandleTransactionCreated, Risk.SaveConsumerOutbox, PgRiskStore, SaveConsumerOutbox.
  solve_silent.
Qed.

Lemma honest_HandleRiskEvaluated d payload :
  announces_ruling trusted payload -> honest (Ledger.HandleRiskEvaluated d payload).
Proof.
  intros Ht. apply honest_guar; [by apply guar_HandleRiskEvaluated|].
  pose proof framed_settle. unfold Ledger.HandleRiskEvaluated, Ledger.ProcessRiskEvaluated,
    PgLedgerStore, ProcessRiskEvaluated. solve_silent.
Qed.

(** *** The publisher *)

Lemma event_from_outbox w e w' :
  NextPending w = (Ok (Some e), w') ->
  from_outbox (w_store w') (TopicFor (ev_Type e)) (ev_PartitionKey e) (ev_Payload e).
Proof.
  intros (row & Hrow & _ & _ & Hm)%NextPending_row. exists (ev_ID e), row.
  split; [exact Hrow|]. unfold message_of, newMessage in Hm. injection Hm as Ht Hk Hp _. done.
Qed.

(** Publishing what the outbox holds, then something honest. *)
Lemma publish_then A topic m (k : outcome error unit -> M DB A) w r w' :
  truthful w ->
  (topic <> TopicDeadLetter -> from_outbox (w_store w) topic (msg_Key m) (msg_Value m)) ->
  (forall o, honest (k o)) -> attempt (PublishMessage topic m) k w = (r, w') ->
  truthful w' /\ history (w_store w) (w_store w').
Proof.
  intros Hw Hm Hk (o & w1 & Hp & Hrun)%attempt_inv.
  destruct (publish_honest _ _ _ _ _ Hw Hm Hp) as [Hw1 Hh1].
  destruct (Hk _ _ _ _ Hw1 Hrun) as [Hw2 Hh2]. split; [done|by etrans].
Qed.

Lemma honest_NextPending : honest Outbox.NextPending.
Proof.
  apply honest_guar; [apply (sg_NextPending (T := trusted))|].
  apply silent_framed. cbn. unfold NextPending. solve_framed.
Qed.
Lemma honest_MarkPublished id : honest (Outbox.MarkPublished id).
Proof.
  apply honest_guar; [apply (sg_MarkPublished (T := trusted))|].
  apply silent_framed, framed_MarkPublished.
Qed.
Lemma honest_MarkFailedAttempt id n : honest (Outbox.MarkFailedAttempt id n).
Proof.
  apply honest_guar; [apply (sg_MarkFailedAttempt (T := trusted))|].
  apply silent_framed, framed_MarkFailedAttempt.
Qed.
#[local] Hint Resolve honest_MarkPublished honest_MarkFailedAttempt : honest.

Lemma honest_PublishNext maxAttempts :
  honest (Outbox.PublishNext Processes.publish_event maxAttempts).
Proof.
  intros w r w' Hw. unfold Outbox.PublishNext.
  intros [(next & w1 & Hn & Hrun)|(e & Hn & _)]%bind_inv.
  2: { eapply (honest_wrapf _ _ _ honest_NextPending); [exact Hw|exact Hn]. }
  destruct (honest_wrapf _ _ _ honest_NextPending _ _ _ Hw Hn) as [Hw1 Hh1].
  destruct next as [event|]; [|by injection Hrun as _ <-].
  rewrite wrapf_ok in Hn. apply event_from_outbox in Hn.
  eapply publish_then in Hrun as [Hw2 Hh2]; [split; [exact Hw2|by etrans]|exact Hw1|by intros _|].
  intros []; solve_honest.
Qed.

Lemma honest_outbox_publisher getenv fuel : honest (Processes.outbox_publisher getenv fuel).
Proof.
  unfold Processes.outbox_publisher. induction fuel as [|fuel IH]; cbn; [solve_honest|].
  apply honest_bind; [apply honest_PublishNext|intros []; [done|solve_honest]].
Qed.

(** *** The operator *)

Lemma honest_GetDeadLetter id : honest (Operator.GetDeadLetter id).
Proof.
  apply honest_guar; [apply guar_GetDeadLetter, _|]. apply silent_framed, framed_GetDeadLetter.
Qed.
Lemma honest_StartReplay id reason : honest (Operator.StartDeadLetterReplay id reason).
Proof.
  apply honest_guar; [apply (sg_StartDeadLetterReplay (T := trusted))|].
  apply silent_framed, framed_StartReplay.
Qed.
Lemma honest_FinishReplay a id result msg : honest (Operator.FinishDeadLetterReplay a id result msg).
Proof.
  apply honest_guar; [apply (sg_FinishDeadLetterReplay (T := trusted))|].
  apply silent_framed, framed_FinishReplay.
Qed.
#[local] Hint Resolve honest_FinishReplay : honest.

(** Honest if a message, once found in the outbox, is there: it stays. *)
Definition honest_given (topic key value : string) {A} (m : M DB A) : Prop :=
  forall w r w', truthful w -> from_outbox (w_store w) topic key value -> m w = (r, w') ->
  truthful w' /\ history (w_store w) (w_store w').

Lemma given_honest topic key value A (m : M DB A) : honest m -> honest_given topic key value m.
Proof. intros Hm w r w' Hw _. by apply Hm. Qed.

Lemma given_bind topic key value A B (m : M DB A) (k : A -> M DB B) :
  honest m -> (forall a, honest_given topic key value (k a)) ->
  honest_given topic key value (bind m k).
Proof.
  intros Hm Hk w r w' Hw Hf [(a & w1 & HA & HB)|(e & HA & _)]%bind_inv; [|by eapply Hm].
  destruct (Hm _ _ _ Hw HA) as [Hw1 Hh1].
  destruct (Hk a w1 r w' Hw1) as [Hw2 Hh2]; [by eapply from_outbox_history|done|].
  split; [done|by etrans].
Qed.

Lemma given_publishReplay record attempt :
  honest_given (DeadLetters.re_SourceTopic record) (DeadLetters.re_Key record)
    (DeadLetters.re_Payload record) (Operator.publishReplay PublishMessage record attempt).
Proof.
  intros w r w' Hw Hf. unfold Operator.publishReplay. cbn zeta.
  eapply publish_then; [exact Hw|by intros _|]. intros []; solve_honest.
Qed.

Lemma honest_ReplayDeadLetter window id reason :
  honest (Operator.ReplayDeadLetter PublishMessage window id reason).
Proof.
  unfold Operator.ReplayDeadLetter. case_match; [solve_honest|].
  intros w r w' Hw [(found & w1 & Hg & Hrun)|(e & Hg & _)]%bind_inv.
  2: { eapply (honest_wrapf _ _ _ (honest_GetDeadLetter id)); [exact Hw|exact Hg]. }
  destruct (honest_wrapf _ _ _ (honest_GetDeadLetter id) _ _ _ Hw Hg) as [Hw1 Hh1].
  rewrite wrapf_ok in Hg. destruct found as [record|]; [|by injection Hrun as _ <-].
  apply GetDeadLetter_ok in Hg as (row & Hrow & _ & _ & Ht & Hk & Hp & _).
  pose proof (tf_letters _ Hw1 _ _ Hrow) as Hfrom. rewrite <- Ht, <- Hk, <- Hp in Hfrom.
  enough (Hrest : truthful w' /\ history (w_store w1) (w_store w')).
  { split; [apply Hrest|]. etrans; [exact Hh1|apply Hrest]. }
  refine ((_ : honest_given _ _ _ _) _ _ _ Hw1 Hfrom Hrun).
  destruct (negb (String.eqb (DeadLetters.re_State record) DeadLetters.StateOpen));
    [apply given_honest; solve_honest|].
  apply given_bind; [solve_honest|intros now].
  destruct (_ <? _); [apply given_honest; solve_honest|].
  apply given_bind; [|intros processed].
  { destruct (String.eqb _ _); [solve_honest|]. cbn. unfold IsEventProcessed. solve_honest. }
  destruct processed; [apply given_honest; solve_honest|].
  apply given_bind; [apply honest_wrapf, honest_StartReplay|intros attempt].
  apply given_publishReplay.
Qed.
#[local] Hint Resolve honest_ReplayDeadLetter : honest.

Lemma silent_scan_all rows : silent (scan_all rows).
Proof.
  induction rows as [|[id r] rows IH]; cbn [scan_all]; [solve_silent|].
  unfold scanDeadLetter. solve_silent.
Qed.

Lemma silent_ListDeadLetters state limit : silent (ListDeadLetters state limit).
Proof. pose proof silent_scan_all. unfold ListDeadLetters. solve_silent. Qed.

Lemma silent_RequeueDeadOutbox id reason : silent (Operator.RequeueDeadOutbox id reason).
Proof.
  unfold Operator.RequeueDeadOutbox, Operator.RequeueOutbox, Operator.GetOutboxStatus, PgOperationsStore,
    RequeueOutbox, GetOutboxStatus.
  solve_silent.
Qed.

Lemma silent_maintenance s reason :
  silent Maintenance.GetStats /\ silent (Maintenance.Preview s) /\ silent (Maintenance.Prune s reason).
Proof.
  unfold Maintenance.GetStats, Maintenance.Preview, Maintenance.Prune.
  cbn [Maintenance.ProcessedEventStats Maintenance.PreviewProcessedPrune
    Maintenance.PruneProcessedEvents PgMaintenanceStore].
  unfold PgProcessedEventStats, PgPreviewProcessedPrune, PgPruneProcessedEvents.
  split_and!; solve_silent.
Qed.

Lemma honest_admin_run getenv args : honest (Processes.admin_run getenv args).
Proof.
  unfold Processes.admin_run, Processes.usageError, Processes.runDLQ, Processes.runOutbox,
    Processes.runProcessed, Processes.usageError. solve_honest.
  - apply honest_guar; [apply guar_ListDeadLetters|apply silent_ListDeadLetters].
  - apply honest_GetDeadLetter.
  - apply honest_guar; unfold ListDeadOutbox; [solve_guar|solve_silent].
  - apply honest_guar; unfold GetOutboxEvent; [solve_guar|solve_silent].
  - apply honest_guar; [apply guar_RequeueDeadOutbox|apply silent_RequeueDeadOutbox].
  - apply honest_guar; [apply guar_stats|by apply (silent_maintenance a EmptyString)].
  - apply honest_guar; [apply guar_Preview|by apply (silent_maintenance a EmptyString)].
  - apply honest_guar; [apply guar_Prune|by apply silent_maintenance].
Qed.

(** *** The HTTP API and the sampler only read and record *)

Lemma silent_DepositFunds maxAmount rq md : silent (Funding.DepositFunds maxAmount rq md).
Proof.
  assert (Hfind : forall key, silent (Funding.FindDepositIdempotency key)).
  { intros. apply silent_framed, Funding.find_deposit_framed. }
  assert (Hcreate : forall d ev, silent (Funding.CreateDeposit d ev)).
  { intros. apply silent_framed, Funding.create_deposit_framed. }
  unfold Funding.DepositFunds, Funding.validate, Funding.settleDepositError. solve_silent.
Qed.

Lemma silent_serve `{MetricsHandler} getenv ParseAddr config request :
  silent (Processes.serve getenv ParseAddr config request).
Proof.
  unfold Processes.serve, HttpMetrics.ServeHTTP, Http.serveHTTP, Http.createTransaction,
    Http.getTransaction, Http.listTransactions, Http.createDeposit, Http.allowRequest,
    Queries.Get, Queries.List, Queries.ListTransactions, Queries.GetTransaction, PgQueryStore,
    PgListTransactions, PgGetTransaction.
  case_match; [by intros w r w' [= _ <-]|].
  pose proof silent_DepositFunds. solve_silent. apply silent_framed, Transactions.framed_Create.
Qed.

Lemma silent_metrics_sampler getenv pool_stat ticks :
  silent (Processes.metrics_sampler getenv pool_stat ticks).
Proof.
  assert (Hc : silent (@Metrics.collect DB (PgSnapshotProvider pool_stat))).
  { unfold Metrics.collect. cbn [Metrics.OperationalMetrics PgSnapshotProvider].
    unfold PgOperationalMetrics. solve_silent. }
  unfold Processes.metrics_sampler, Metrics.StartSampler. case_match; [|solve_silent].
  apply silent_bind; [done|]. intros _.
  induction ticks as [|ticks IH]; cbn [Metrics.on_ticks]; [solve_silent|].
  by apply silent_bind.
Qed.

(** ** Every process *)

Lemma honest_run `{MetricsHandler} getenv ParseAddr commit wait p :
  offline commit wait -> trusts_inputs trusted p ->
  honest (run getenv ParseAddr commit wait p).
Proof.
  intros Hx Ht. pose proof (proj1 Hx onward _) as Hext. destruct p; cbn [run].
  - apply honest_guar;
      [exact (guar_run_trusting getenv ParseAddr commit wait (transaction_service request) Hext Ht)|].
    destruct (Processes.router_config getenv); [|solve_silent].
    apply silent_bind; [apply silent_serve|solve_silent].
  - apply honest_RunLoop; [done|]. eapply Forall_impl; [exact Ht|].
    intros [m| |]; [|done..]. intros [Hm Hpark]. split; [|done].
    apply honest_deliver. intros d. by apply honest_HandleTransactionCreated.
  - apply honest_RunLoop; [done|]. eapply Forall_impl; [exact Ht|].
    intros [m| |]; [|done..]. intros [Hm Hpark]. split; [|done].
    apply honest_deliver. intros d. by apply honest_HandleRiskEvaluated.
  - pose proof honest_outbox_publisher. solve_honest.
  - pose proof honest_admin_run. solve_honest.
  - apply honest_guar; [apply guar_metrics_sampler|apply silent_metrics_sampler].
Qed.
End From.
End Honest.
