(* ===== verification/PipelineProperties.v ===== *)
(** * The pipeline as a whole

    The processes, their database and Kafka as one closed system, in which the
    consumers are handed what the broker holds and nobody else writes to it:
    whichever processes run, in whatever order and among whatever other
    sessions, payments are settled as the risk policy rates their amounts. *)

From stdpp Require Import base strings list gmap relations.
From Stdlib Require Import ZArith Lia.
From S2P Require Import Prelude GoStrings Sha256 Runtime Quiet Domain GoJson Codec Schema.
From S2P Require Import ConsumerLoop KafkaBus RiskService LedgerService StoreOutbox StoreConsumer.
From S2P Require Import StoreLedger HttpMetrics Processes Guarantees System Invariants PaymentEvents Progress.
From S2P Require Import Provenance Instances ConsumerProperties OutboxProperties Closed.

Open Scope Z_scope.

Section Pipeline.
Context `{UnicodeTables} `{JsonbSpec} `{Collation} `{MetricsHandler}.
Implicit Types (w : World DB).

(** ** The closed system *)

(** A process starts where another stopped, at some later time, with its own
    randomness and schedule. *)
Definition resumes w w1 : Prop :=
  w_store w1 = w_store w /\ w_broker w1 = w_broker w /\ sched_rely closed_steps w1.

(** One of the processes runs, fed from the broker. *)
Definition process_runs w w' : Prop :=
  exists w1 getenv ParseAddr commit wait p r,
  resumes w w1 /\ offline commit wait /\ fed p w1
  /\ run getenv ParseAddr commit wait p w1 = (r, w').

(** A process running at the same time, whose commits are in the schedules, has
    sent a message of the outbox or a dead letter. *)
Definition message_arrives w w' : Prop :=
  exists topic m, w' = set_broker (w_broker w ++ [(topic, m)]) w
  /\ (topic <> TopicDeadLetter -> from_outbox (w_store w) topic (msg_Key m) (msg_Value m)).

Definition turn w w' : Prop := process_runs w w' \/ message_arrives w w'.

(** What is reached from an empty database and an empty broker. *)
Definition closed w : Prop :=
  exists w0, w_store w0 = empty_DB /\ w_broker w0 = [] /\ rtc turn w0 w.

(** ** What the topics carry *)

Lemma TopicFor_created ty : TopicFor ty = TopicTransactionCreated -> ty = EventTransactionCreated.
Proof. unfold TopicFor. repeat case_match; reflect_bools; done. Qed.
Lemma TopicFor_evaluated ty : TopicFor ty = TopicRiskEvaluated -> ty = EventRiskEvaluated.
Proof. unfold TopicFor. repeat case_match; reflect_bools; done. Qed.

Lemma fetched_from_outbox topic w m :
  broker_genuine w -> topic <> TopicDeadLetter -> fetched_from topic w m ->
  from_outbox (w_store w) (msg_Topic m) (msg_Key m) (msg_Value m).
Proof.
  intros Hb Ht (-> & m0 & Hin & -> & -> & _). by apply Hb.
Qed.

Lemma fed_trusts w p : broker_genuine w -> fed p w -> trusts_inputs (trusted (w_store w)) p.
Proof.
  intros Hb. destruct p; cbn; try done; intros Hfed; (eapply Forall_impl; [exact Hfed|]);
    (intros [m| |]; [|done..]); intros Hm; cbn in Hm |- *;
    (assert (Hfrom := Hm); apply fetched_from_outbox in Hfrom; [|done..]);
    (split; [|exact Hfrom]); destruct Hm as [Ht _], Hfrom as (ev & row & Hrow & Htopic & _ & Hval);
    intros t Hdec; exists ev, row; (split; [exact Hrow|]); rewrite <- Hval;
    (split; [|exact Hdec]); rewrite Htopic in Ht.
  - by apply TopicFor_created.
  - by apply TopicFor_evaluated.
Qed.

(** ** The invariant of the closed system *)

Lemma process_runs_sound w w' :
  process_runs w w' -> provenance (w_store w) -> broker_genuine w ->
  provenance (w_store w') /\ broker_genuine w'.
Proof.
  intros (w1 & getenv & ParseAddr & commit & wait & p & r & (Hst & Hbr & Hs) & Hx & Hfed & Hrun) Hp Hb.
  assert (Hb1 : broker_genuine w1) by (unfold broker_genuine; rewrite Hst, Hbr; exact Hb).
  rewrite <- Hst in Hp. pose proof (fed_trusts _ _ Hb1 Hfed) as Ht.
  set (db0 := w_store w1) in *.
  assert (Hs1 : sched_rely (onward db0) w1) by (eapply sched_rely_mono; [|exact Hs]; by intros a b ? _).
  assert (Htf : truthful db0 w1) by (split; [done|done|done|apply Hp]).
  destruct (honest_run db0 getenv ParseAddr commit wait p Hx Ht _ _ _ Htf Hrun) as [Htf' _].
  destruct (guar_run_trusting getenv ParseAddr commit wait p (proj1 Hx (onward db0) _) Ht
    _ _ _ Hs1 Hrun) as [Hon _].
  split; [|apply Htf']. eapply closed_steps_provenance; [|exact Hp]. by apply Hon.
Qed.

Lemma closed_sound w : closed w -> provenance (w_store w) /\ broker_genuine w.
Proof.
  intros (w0 & Hst & Hbr & Hturns).
  eapply (rtc_stable turn (fun w => provenance (w_store w) /\ broker_genuine w)); [|exact Hturns|].
  - intros w1 w2 [Hrun|(topic & m & -> & Hm)] [Hp Hb]; [by eapply process_runs_sound|].
    split; [exact Hp|]. intros topic' m'. cbn. rewrite elem_of_app.
    intros [Hin|Hin%list_elem_of_singleton] Ht; [by apply Hb|]. injection Hin as -> ->. by apply Hm.
  - rewrite Hst. split; [exact provenance_empty|]. intros topic m. rewrite Hbr.
    by intros ?%elem_of_nil.
Qed.

(** ** The properties *)

(** C17. What the two inner topics say is so: a message of [transactions.created]
    decodes to a payment of the database, with its account, amount and
    currency, and a message of [risk.evaluated] to the policy's evaluation of
    one. *)
Theorem topics_tell_the_truth w topic m :
  closed w -> (topic, m) ∈ w_broker w ->
  (topic = TopicTransactionCreated ->
   exists t r, unmarshal_Transaction (msg_Value m) = Some t
   /\ db_transactions (w_store w) !! tx_ID t = Some r /\ t_kind r = TransactionPayment
   /\ tx_AccountID t = t_account_id r /\ tx_AmountCents t = t_amount_cents r
   /\ tx_Currency t = t_currency r)
  /\ (topic = TopicRiskEvaluated ->
   exists event r, unmarshal_RiskEvaluated (msg_Value m) = Some event
   /\ db_transactions (w_store w) !! rk_TransactionID event = Some r
   /\ t_kind r = TransactionPayment
   /\ event = Risk.evaluated (locked_transaction (rk_TransactionID event) r)).
Proof.
  intros [Hp Hb]%closed_sound Hin. split; intros ->; destruct (Hb _ _ Hin) as
    (ev & row & Hrow & Htopic & _ & ->); try done; destruct (pv_events _ Hp _ _ Hrow) as [Hc He].
  - destruct Hc as (id & r & Hr & Hk & _ & _ & _ & _ & _ & t & Hdec & <- & Hta & Htm & Htc & _);
      [by apply TopicFor_created|]. exists t, r. split_and!; done.
  - destruct He as (id & r & Hr & Hk & _ & _ & _ & _ & _ & Hdec); [by apply TopicFor_evaluated|].
    eexists _, r. split_and!; done.
Qed.

(** C2. The policy decides: whatever the five processes did, in whatever order and
    with whatever faults, redeliveries and replays, a settled payment carries
    the risk level the policy gives its amount; it is authorized only if that
    amount is at most 500.00, and it has failed for the policy's reason or for
    want of funds. *)
Theorem policy_decides w id r :
  closed w -> db_transactions (w_store w) !! id = Some r -> t_kind r = TransactionPayment ->
  rated r /\ (t_status r = TransactionAuthorized -> t_amount_cents r <= 50000).
Proof.
  intros [Hp _]%closed_sound Hr Hk. pose proof (pv_rated _ Hp _ _ Hr Hk) as Hrated.
  split; [exact Hrated|]. intros Hst. destruct Hrated as [Hpend|(_ & [(_ & Happ & _)|(Hf & _)])];
    [by rewrite Hst in Hpend| |by rewrite Hst in Hf].
  revert Happ. unfold EvaluateRisk. destruct (50000 <? t_amount_cents r) eqn:E; [done|].
  intros _. by apply Z.ltb_ge.
Qed.
End Pipeline.

(** ** Witnesses: a deposit, a payment, its evaluation and its settlement *)

Section Witness.
Import Demo.

Lemma commit_wait_offline : offline commit wait.
Proof.
  split_and!; [|by intros m w r w' [= _ <-]|by intros d w r w' [= _ <-]].
  intros R HR. split; intros; unfold commit, wait; by apply guar_ret.
Qed.

Lemma closed_on w p r w' :
  closed w -> w_sched w = [] -> fed p w -> run getenv ParseAddr commit wait p w = (r, w') ->
  closed w'.
Proof.
  intros (w0 & Hst & Hbr & Hturns) Hq Hfed Hrun. exists w0. split_and!; [done|done|].
  eapply rtc_r; [exact Hturns|]. left.
  exists w, getenv, ParseAddr, commit, wait, p, r. split_and!; [|exact commit_wait_offline|done..].
  split_and!; [done|done|]. unfold sched_rely. by rewrite Hq.
Qed.

(** One message, which the broker holds. *)
Lemma fed_one topic w m m0 :
  msg_Topic m = topic -> msg_Key m = msg_Key m0 -> msg_Value m = msg_Value m0 ->
  msg_Headers m = msg_Headers m0 -> bool_decide ((topic, m0) ∈ w_broker w) = true ->
  Forall (fetched (fetched_from topic w)) [Consumer.Fetched m].
Proof.
  intros. constructor; [|done]. split; [done|]. exists m0.
  split; [by apply (bool_decide_eq_true_1 _)|done].
Qed.

Lemma announced_closed : closed announced_world.
Proof.
  eapply (closed_on requested); [|reflexivity| |exact run_announce]; [|exact I].
  eapply (closed_on funded); [|reflexivity| |exact run_payment]; [|exact I].
  eapply (closed_on genesis); [|reflexivity| |exact run_deposit]; [|exact I].
  by exists genesis.
Qed.

Definition first_sent (topic : string) (w : World DB) : Message :=
  match List.filter (fun tm => String.eqb tm.1 topic) (w_broker w) with
  | tm :: _ => tm.2
  | [] => mk_message EmptyString 0 0 EmptyString EmptyString []
  end.

Lemma ruled_closed : closed ruled.
Proof.
  eapply (closed_on evaluated_world); [|reflexivity| |exact run_rule]; [|exact I].
  eapply closed_on; [exact announced_closed|reflexivity| |exact run_evaluate].
  apply (fed_one _ _ _ (first_sent TopicTransactionCreated announced_world)); by vm_compute.
Qed.

Lemma settled_closed : closed settled_world.
Proof.
  eapply closed_on; [exact ruled_closed|reflexivity| |exact run_settle].
  apply (fed_one _ _ _ (first_sent TopicRiskEvaluated ruled)); by vm_compute.
Qed.

(** The payment of the chain, once settled. *)
Definition settled_row : transaction_row :=
  Eval vm_compute in default (mk_transaction_row EmptyString EmptyString None None None 0
    EmptyString EmptyString None None EmptyString 0 0)
    (db_transactions (w_store settled_world) !! "txn_00000000000000000000000000000006"%string).

Lemma policy_decides_witness :
  rated settled_row /\ (t_status settled_row = TransactionAuthorized -> t_amount_cents settled_row <= 50000).
Proof.
  apply (policy_decides settled_world "txn_00000000000000000000000000000006");
    [exact settled_closed|by vm_compute|reflexivity].
Defined.

Definition ruling_sent : Message := Eval vm_compute in first_sent TopicRiskEvaluated ruled.

Lemma topics_tell_the_truth_witness :
  exists event r, unmarshal_RiskEvaluated (msg_Value ruling_sent) = Some event
  /\ db_transactions (w_store ruled) !! rk_TransactionID event = Some r
  /\ t_kind r = TransactionPayment
  /\ event = Risk.evaluated (locked_transaction (rk_TransactionID event) r).
Proof.
  apply (topics_tell_the_truth ruled TopicRiskEvaluated ruling_sent ruled_closed);
    [|reflexivity].
  by apply (bool_decide_eq_true_1 _); vm_compute.
Defined.
End Witness.
