(* ===== verification/HttpProperties.v ===== *)
(** * What the HTTP API promises for every request *)

From stdpp Require Import base strings list.
From Stdlib Require Import ZArith Lia.
From S2P Require Import Prelude GoStrings Sha256 Runtime Domain GoJson GoTime Codec Schema.
From S2P Require Import TransactionService FundingService QueryService StoreTransaction.
From S2P Require Import StoreFunding StoreQuery RedisLimiter HttpApi HttpMetrics Processes Instances.

Open Scope Z_scope.

Import Http.

(** ** Every handler answers *)

Definition statuses : list Z := [200; 201; 202; 204; 400; 401; 404; 409; 429; 500].
Definition path_labels : list string :=
  ["/healthz"; "/transactions"; "/transactions/{id}"; "/accounts/{id}/deposits"; "/unknown"]%string.

(** A response that [net/http] sends as it is. *)
Definition answer (r : Response) : Prop :=
  rs_Status r ∈ statuses /\ (rs_Status r = 204 -> rs_Body r = EmptyString).

Section Answers.
Context {S : Type}.
Implicit Types (w : World S) (m : M S Response).

Definition answers m : Prop := forall w, exists r w', m w = (Ok r, w') /\ answer r.

Lemma answers_ret r : answer r -> answers (ret r).
Proof. intros Hr w. by exists r, w. Qed.

Lemma answers_attempt A (m : M S A) k : (forall o, answers (k o)) -> answers (attempt m k).
Proof. intros Hk w. unfold attempt. destruct (m w) as [o w1]. apply Hk. Qed.

Lemma answers_NewID prefix (k : string -> M S Response) :
  (forall id, answers (k id)) -> answers (bind (NewID prefix) k).
Proof. intros Hk w. unfold bind. rewrite NewID_run. apply Hk. Qed.

Lemma answers_bind_ret A (a : A) (k : A -> M S Response) : answers (k a) -> answers (bind (ret a) k).
Proof. done. Qed.
End Answers.

Ltac in_statuses := apply (bool_decide_unpack _); vm_compute; exact I.

Lemma answer_json config request status body :
  status ∈ statuses -> status <> 204 -> answer (writeJSON config request status body).
Proof. intros. by split. Qed.

Lemma answer_error config request status message :
  status ∈ statuses -> status <> 204 -> answer (writeError config request status message).
Proof. intros. by split. Qed.

Lemma answer_timed config request status times body :
  status ∈ statuses -> status <> 204 -> answer (writeTimed config request status times body).
Proof. intros. unfold writeTimed. by case_match. Qed.

(** Splits a handler into its returns. *)
Ltac solve_answers :=
  repeat lazymatch goal with
  | |- answers (ret _) => apply answers_ret
  | |- answers (attempt _ _) => apply answers_attempt; intros [?|?]
  | |- answers (bind (NewID _) _) => apply answers_NewID; intros ?
  | |- answers (bind (ret _) _) => apply answers_bind_ret
  | |- _ => case_match
  end;
  unfold unauthorized, not_found, invalid_request, internal_error;
  first [apply answer_json | apply answer_error | apply answer_timed];
  first [in_statuses | done].

Section Handlers.
Context `{UnicodeTables} {S : Type} `{Transactions.TransactionStore S}
  `{Funding.FundingStore S} `{Queries.QueryStore S}.
Context (ParseAddr : string -> option string) (allow : string -> M S bool) (config : Config).
Implicit Types (w : World S).

Lemma serveHTTP_answers request : answers (serveHTTP ParseAddr allow config request).
Proof.
  unfold serveHTTP, createTransaction, getTransaction, listTransactions, createDeposit,
    allowRequest, writeServiceError.
  case_match. { apply answers_ret. split; [in_statuses|done]. }
  solve_answers.
Qed.

Lemma metricPath_label request : metricPath request ∈ path_labels.
Proof.
  unfold metricPath. case_match; reflect_bools; [|repeat case_match; in_statuses].
  apply orb_true_iff in H3 as [H3|H3]; reflect_bools; rewrite H3; in_statuses.
Qed.
End Handlers.

(** ** The properties *)

(** The wrapper passes an answer on. *)
Lemma answer_final r :
  answer r -> 200 <= rs_Status r <= 999 /\ rs_Status r <> 304
              /\ (rs_Status r = 204 -> rs_Body r = EmptyString).
Proof.
  intros [Hin Hb].
  assert (Hall : Forall (fun s => 200 <= s <= 999 /\ s <> 304) statuses) by (repeat constructor; lia).
  rewrite Forall_forall in Hall. destruct (Hall _ Hin). auto.
Qed.

Lemma recorded_answer r :
  answer r ->
  HttpMetrics.steps_of HttpMetrics.recorder_step (HttpMetrics.operations_of r)
    (HttpMetrics.mk_statusRecorder HttpMetrics.fresh_writer 0)
  = Some (HttpMetrics.mk_statusRecorder
            (HttpMetrics.mk_writer (Some (rs_Status r)) (rs_Body r)) (rs_Status r)).
Proof.
  intros (Hs & H304 & H204)%answer_final. destruct r as [status hs body]. cbn in *.
  unfold HttpMetrics.operations_of, HttpMetrics.recorder_step, HttpMetrics.WriteHeader,
    HttpMetrics.net_WriteHeader, HttpMetrics.informational. cbn.
  rewrite (proj2 (Z.ltb_ge status 100)), (proj2 (Z.ltb_ge 999 status)),
    (proj2 (Z.leb_gt status 199)), andb_false_r by lia. cbn.
  destruct body as [|c body]; [done|]. cbn. unfold HttpMetrics.Write, HttpMetrics.net_Write. cbn.
  rewrite (proj2 (Z.eqb_neq status 304)), (proj2 (Z.eqb_neq status 0)) by lia.
  rewrite (proj2 (Z.eqb_neq status 204)) by (intros ->; by specialize (H204 eq_refl)). done.
Qed.

Section Credentials.
Context (config : Config).

(** The credentials that open an endpoint. *)
Definition credentials (request : Request) : list string :=
  let path := rq_Path request in
  if String.eqb path "/transactions" then
    if String.eqb (rq_Method request) "POST" then [hc_AuthValue config]
    else [hc_OperatorAuthValue config]
  else if (transactionIDFromPath path).2 && String.eqb (rq_Method request) "GET"
  then [hc_AuthValue config; hc_OperatorAuthValue config]
  else [hc_FundingAuthValue config].
End Credentials.

Section Properties.
Context `{UnicodeTables} {S : Type} `{Transactions.TransactionStore S}
  `{Funding.FundingStore S} `{Queries.QueryStore S} `{MetricsHandler}.
Context (ParseAddr : string -> option string) (allow : string -> M S bool) (config : Config).
Implicit Types (w : World S).

(** C37. Every request is answered: the router always produces a response,
    with one of ten statuses; the metrics wrapper sends it unchanged and
    records exactly one request, under the status that was sent and one of
    five path labels.  (Only [GET /metrics], when enabled, is answered with
    the metrics page and not recorded.) *)
Theorem requests_are_answered request w r w' :
  HttpMetrics.ServeHTTP ParseAddr allow config request w = (r, w') ->
  (hc_MetricsEnabled config = true /\ rq_Path request = "/metrics"%string
   /\ rq_Method request = "GET"%string
   /\ r = Ok (metrics_page (w_metrics w) request) /\ w' = w)
  \/ exists response w1 label,
       serveHTTP ParseAddr allow config request w = (Ok response, w1)
       /\ r = Ok response /\ rs_Status response ∈ statuses /\ label ∈ path_labels
       /\ w' = set_metrics (w_metrics w1 ++
            [ObserveHTTPRequest (rq_Method request) label (FormatInt (rs_Status response))]) w1.
Proof.
  unfold HttpMetrics.ServeHTTP. case_match eqn:Hm.
  { intros [= <- <-]. left. by reflect_bools. }
  intros Hrun. right. destruct (serveHTTP_answers ParseAddr allow config request w)
    as (response & w1 & Hserve & Hans). exists response, w1, (metricPath request).
  unfold bind in Hrun. rewrite Hserve in Hrun. cbn beta iota in Hrun.
  rewrite (recorded_answer response Hans) in Hrun.
  unfold HttpMetrics.recorded_status, HttpMetrics.sent_status in Hrun. cbn in Hrun.
  destruct (answer_final response Hans) as (Hs & _ & _).
  rewrite (proj2 (Z.eqb_neq (rs_Status response) 0)) in Hrun by lia.
  injection Hrun as <- <-. destruct Hans as [Hin _].
  split_and!; [done|by destruct response|done|apply metricPath_label|done].
Qed.

(** C34. Nothing without the credential: a request whose Authorization header
    is not ["Bearer "] and a configured credential of its endpoint reaches
    neither the rate limiter nor the store; it is refused (401), or answered
    without them (no such route, a preflight, the health check). *)
Theorem unauthorized_requests_reach_nothing request w :
  Forall (fun v => v = EmptyString \/ rq_Header request "Authorization" <> bearer +:+ v)
    (credentials config request) ->
  exists response, serveHTTP ParseAddr allow config request w = (Ok response, w)
  /\ (rs_Status response = 401 \/ rs_Status response = 404
      \/ rq_Method request = "OPTIONS"%string \/ rq_Path request = "/healthz"%string).
Proof.
  intros Hcred.
  assert (Hno : Forall (fun v => authorized (rq_Header request "Authorization") v = false)
                  (credentials config request)).
  { eapply Forall_impl; [exact Hcred|]. intros v Hv. apply not_true_is_false.
    rewrite authorized_iff. intros [Hne Heq]. by destruct Hv. }
  clear Hcred. rename Hno into Hcred. unfold serveHTTP. unfold credentials in Hcred.
  destruct (String.eqb (rq_Method request) "OPTIONS") eqn:Hopt.
  { reflect_bools. eexists. split; [done|]. auto. }
  destruct (String.eqb (rq_Path request) "/healthz" && _) eqn:Hh.
  { reflect_bools. eexists. split; [done|]. auto. }
  destruct (String.eqb (rq_Path request) "/transactions") eqn:Ht.
  { destruct (String.eqb (rq_Method request) "POST").
    - apply Forall_inv in Hcred. unfold createTransaction. rewrite Hcred.
      eexists. split; [done|]. auto.
    - destruct (String.eqb (rq_Method request) "GET"); [|eexists; split; [done|]; auto].
      unfold listTransactions. destruct (hc_QueryService config); cbn [negb];
        [|eexists; split; [done|]; auto].
      apply Forall_inv in Hcred. rewrite Hcred. eexists. split; [done|]. auto. }
  destruct (transactionIDFromPath (rq_Path request)) as [id ok]. cbn [snd] in Hcred.
  destruct (ok && String.eqb (rq_Method request) "GET") eqn:Hg.
  { apply Forall_cons in Hcred as [H1' Hcred]. apply Forall_inv in Hcred.
    unfold getTransaction. destruct (hc_QueryService config); cbn [negb];
      [|eexists; split; [done|]; auto].
    rewrite H1', Hcred. eexists. split; [done|]. auto. }
  destruct (depositAccountFromPath (rq_Path request)) as [acct ok2].
  destruct (ok2 && _); [|eexists; split; [done|]; auto].
  apply Forall_inv in Hcred. unfold createDeposit.
  destruct (hc_FundingService config); [|eexists; split; [done|]; auto].
  rewrite Hcred. eexists. split; [done|]. auto.
Qed.
End Properties.

(** The method label is not bounded: for every method text there is a
    request, without any credential, that is answered 404 and recorded under
    that method, so a client chooses the series of the request counter. *)
Theorem method_label_is_open `{UnicodeTables} `{MetricsHandler} {S : Type}
  `{Transactions.TransactionStore S} `{Funding.FundingStore S} `{Queries.QueryStore S}
  ParseAddr (allow : string -> M S bool) config method :
  method <> "OPTIONS"%string ->
  exists request, rq_Method request = method
  /\ (forall name, rq_Header request name = EmptyString)
  /\ forall w : World S, exists response,
     HttpMetrics.ServeHTTP ParseAddr allow config request w
     = (Ok response, set_metrics (w_metrics w ++ [ObserveHTTPRequest method "/unknown" "404"]) w)
     /\ rs_Status response = 404.
Proof.
  intros Hm. exists (mk_Request method "/" (fun _ => EmptyString) (fun _ => EmptyString)
                       EmptyString EmptyString).
  split_and!; [done|done|]. intros w. unfold HttpMetrics.ServeHTTP, serveHTTP. cbn [rq_Path rq_Method].
  change ("/" =? "/metrics")%string with false. rewrite andb_false_r. cbn [andb].
  rewrite (proj2 (String.eqb_neq method "OPTIONS") Hm).
  change (transactionIDFromPath "/") with (EmptyString, false).
  change (depositAccountFromPath "/") with (EmptyString, false).
  eexists. split; [reflexivity|done].
Qed.

(** The recorder is transparent: whatever a handler writes, in any order
    and number, the writer behind the [statusRecorder] is left as it would be
    without it, and the recorded status is the one that is sent. *)
Lemma recorder_is_transparent ops :
  forallb HttpMetrics.final_op ops = true ->
  exists r, HttpMetrics.steps_of HttpMetrics.recorder_step ops
              (HttpMetrics.mk_statusRecorder HttpMetrics.fresh_writer 0) = Some r
  /\ HttpMetrics.steps_of HttpMetrics.writer_step ops HttpMetrics.fresh_writer
     = Some (HttpMetrics.sr_ResponseWriter r)
  /\ HttpMetrics.recorded_status r = HttpMetrics.sent_status (HttpMetrics.sr_ResponseWriter r).
Proof.
  intros Hf. destruct (HttpMetrics.steps_agree ops
    (HttpMetrics.mk_statusRecorder HttpMetrics.fresh_writer 0)) as (r & Hr & Ha & Hw); [done..|].
  exists r. by split_and!; [| |apply HttpMetrics.agrees_status].
Qed.

(** ** Witnesses *)

#[local] Existing Instance Demo.demo_metrics_page.

Definition demo_config : Config :=
  mk_Config true (Some 100000000) "payments" "funding" "operators" [] defaultMaxBodyBytes false true.

Definition demo_serve (request : Request) : M DB Response :=
  HttpMetrics.ServeHTTP Demo.ParseAddr (RateLimit.Allow (Processes.limiter Demo.getenv)) demo_config
    request.

(** A payment request with the deposit credential. *)
Definition stray : Request := Demo.post "/transactions" "funding" "payment-2" (Demo.payment_body 10).

Definition refusal : Response :=
  Eval vm_compute in match (demo_serve stray genesis).1 with
                     | Ok r => r | Err _ => mk_Response 0 [] EmptyString end.
Definition refused_world : World DB := Eval vm_compute in after (demo_serve stray) genesis.

Lemma run_stray : demo_serve stray genesis = (Ok refusal, refused_world).
Proof. evaluate. Qed.

Lemma requests_are_answered_witness :
  rs_Status refusal = 401 /\ exists response w1 label,
    serveHTTP Demo.ParseAddr (RateLimit.Allow (Processes.limiter Demo.getenv)) demo_config stray
      genesis = (Ok response, w1)
    /\ response = refusal /\ rs_Status response ∈ statuses /\ label ∈ path_labels
    /\ w_metrics refused_world = w_metrics w1
         ++ [ObserveHTTPRequest "POST" label (FormatInt (rs_Status response))].
Proof.
  split; [reflexivity|].
  destruct (requests_are_answered Demo.ParseAddr (RateLimit.Allow (Processes.limiter Demo.getenv))
              demo_config stray genesis (Ok refusal) refused_world run_stray)
    as [(_ & Hpath & _)|(response & w1 & label & Hs & [= ->] & Hst & Hl & ->)]; [done|].
  exists response, w1, label. by split_and!.
Defined.

Lemma unauthorized_requests_reach_nothing_witness :
  exists response,
    serveHTTP Demo.ParseAddr (RateLimit.Allow (Processes.limiter Demo.getenv)) demo_config stray
      genesis = (Ok response, genesis) /\ rs_Status response = 401.
Proof.
  destruct (unauthorized_requests_reach_nothing Demo.ParseAddr
              (RateLimit.Allow (Processes.limiter Demo.getenv)) demo_config stray genesis)
    as (response & Hs & Hst).
  { apply Forall_cons; split; [|apply Forall_nil; exact I]. right. by vm_compute. }
  exists response. split; [exact Hs|].
  destruct Hst as [Hst|[Hst|[Hst|Hst]]]; [exact Hst| |discriminate Hst|discriminate Hst].
  exfalso. revert Hs Hst. vm_compute. intros [= <-]. discriminate.
Defined.
