(* ===== verification/MetricsProperties.v ===== *)
(** * What the metrics page shows *)

From stdpp Require Import base strings list gmap.
From Stdlib Require Import ZArith Lia.
From S2P Require Import Prelude GoStrings Runtime GoFloat GoJson Domain Schema DeadLetter Metrics.
From S2P Require Import StoreMetrics Instances.

Open Scope Z_scope.

Import Metrics.

Definition valid_labels (calls : list (metric * Z)) : Prop :=
  Forall (fun c => Forall (fun v => valid_utf8 v = true) (label_texts c.1)) calls.

Section Properties.
Context `{ClientGolangSpec}.

(** C38. The metrics count the calls, as long as the service name and the label
    values are UTF-8: a registry can be made for the service, no call on it panics (each passes as many label values as its vector
    has labels), and afterwards each counter holds the number of calls of its
    series, each histogram the number of its observations, and each gauge its
    part of the last snapshot. *)
Theorem metrics_count_calls service calls :
  valid_utf8 service = true -> valid_labels calls ->
  exists r r', Configure service = Some r /\ run_calls calls r = Some r'
  /\ forall f ls,
     counter_value (rg_vec r' f) ls = tally (counter_of (rg_service r)) calls f ls
     /\ sample_count (rg_vec r' f) ls = tally (histogram_of (rg_service r)) calls f ls
     /\ gauge_value (rg_vec r' f) ls = last_shown (rg_service r) calls f ls None.
Proof.
  intros Hu Hl. destruct (NewRegistry_fresh service Hu) as (r & Hr & Hwf & _ & Hzero).
  destruct (run_calls_shown calls r Hwf Hl) as (r' & Hr' & _ & Hshown).
  exists r, r'. split_and!; [done|done|]. intros f ls.
  destruct (Hshown f ls) as (-> & -> & ->). destruct (Hzero f ls) as (-> & -> & ->). done.
Qed.

(** The sampler shows the database: a collection never fails; it leaves
    the gauges alone, or afterwards they show the pending and dead-lettered
    events, the age of the oldest pending one, the open dead letters and the
    processed events, as the three statements found them (the same database
    when nobody else writes). *)
Theorem sampler_shows_database pool service calls (w : World DB) r w' :
  valid_utf8 service = true -> service <> EmptyString -> valid_labels calls ->
  map fst calls = w_metrics w ->
  @collect DB (PgSnapshotProvider pool) w = (r, w') ->
  r = Ok tt
  /\ (w_metrics w' = w_metrics w
      \/ exists snapshot reg now db1 db2 db3,
        w_metrics w' = w_metrics w ++ [SetOperationalSnapshot snapshot]
        /\ obind (Configure service) (run_calls (calls ++ [(SetOperationalSnapshot snapshot, 0)]))
           = Some reg
        /\ gauge_value (rg_vec reg outboxEvents) [service; "PENDING"%string]
           = Some (float64_of_int (outbox_count OutboxPending db1))
        /\ gauge_value (rg_vec reg outboxEvents) [service; "DEAD_LETTERED"%string]
           = Some (float64_of_int (outbox_count OutboxDeadLettered db1))
        /\ gauge_value (rg_vec reg outboxOldestAge) [service] = Some (pending_age now db1)
        /\ gauge_value (rg_vec reg deadLettersOpen) [service]
           = Some (float64_of_int (open_dead_letters db2))
        /\ gauge_value (rg_vec reg processedEvents) [service]
           = Some (float64_of_int (Z.of_nat (size (db_processed_events db3))))
        /\ w_clock w <= now <= w_clock w'
        /\ db1 = arrived w /\ db3 = w_store w'
        /\ (w_sched w = [] -> db1 = w_store w /\ db2 = db1 /\ db3 = db1)).
Proof.
  intros Hu Hne Hl Hcalls. unfold collect, attempt. cbn [OperationalMetrics PgSnapshotProvider].
  destruct (PgOperationalMetrics pool w) as [o w1] eqn:E.
  apply OperationalMetrics_inv in E as (Hm & Ho).
  destruct o as [snapshot|e].
  2: { intros [= <- <-]. split; [done|by left]. }
  intros [= <- <-]. split; [done|]. right.
  destruct Ho as [Ho|(now & db1 & db2 & db3 & Hnow & Hdb1 & Hdb3 & Hq & Ho)]; [done|].
  injection Ho as ->.
  set (snapshot := mk_OperationalSnapshot _ _ _ _ _ _ _ _).
  destruct (NewRegistry_fresh service Hu) as (reg0 & Hreg0 & Hwf & Hsvc & _).
  rewrite (proj2 (String.eqb_neq service EmptyString) Hne) in Hsvc.
  destruct (run_calls_shown (calls ++ [(SetOperationalSnapshot snapshot, 0)]) reg0 Hwf)
    as (reg & Hreg & _ & Hshown).
  { apply Forall_app. split; [done|]. by repeat constructor. }
  exists snapshot, reg, now, db1, db2, db3. unfold Configure. rewrite Hreg0. cbn [obind].
  assert (Hg : forall f ls x, gauge_of service snapshot f ls = Some x ->
    gauge_value (rg_vec reg f) ls = Some x).
  { intros f ls x Hx. destruct (Hshown f ls) as (_ & _ & ->). unfold last_shown.
    rewrite fold_left_app, Hsvc. cbn [fold_left shown_by fst]. by rewrite Hx. }
  split_and!; try done; try apply Hnow; try (by rewrite <- Hm);
    apply Hg; cbn [gauge_of]; repeat case_decide; first [done | congruence].
Qed.
End Properties.

(** ** A registry to compute with *)

Module DemoRegistry.

(** What a vector keeps per label values: increments, samples, last value. *)
Record series := mk_series { se_counter : Z; se_samples : Z; se_gauge : option float64 }.

Record vec := mk_vec {
  ve_opts : Opts;
  ve_series : gmap (list string) series;
}.

Definition at_values (v : vec) (values : list string) : series :=
  default (mk_series 0 0 None) (ve_series v !! values).

Definition update (change : series -> series) (v : vec) (values : list string) : option vec :=
  if (length values =? length (op_Labels (ve_opts v)))%nat && forallb valid_utf8 values
  then Some (mk_vec (ve_opts v) (<[values := change (at_values v values)]> (ve_series v)))
  else None.

#[export] Instance client : ClientGolang := {
  Vec := vec;
  NewVec o := mk_vec o ∅;
  MustRegister vs := bool_decide (NoDup (map (fun v => op_Name (ve_opts v)) vs));
  Inc := update (fun s => mk_series (se_counter s + 1) (se_samples s) (se_gauge s));
  Observe v ls _ := update (fun s => mk_series (se_counter s) (se_samples s + 1) (se_gauge s)) v ls;
  SetGauge v ls x := update (fun s => mk_series (se_counter s) (se_samples s) (Some x)) v ls;
  counter_value v ls := se_counter (at_values v ls);
  sample_count v ls := se_samples (at_values v ls);
  gauge_value v ls := se_gauge (at_values v ls);
}.

Lemma update_ok change v ls :
  label_values (length (op_Labels (ve_opts v))) ls ->
  exists v', update change v ls = Some v' /\ ve_opts v' = ve_opts v
  /\ forall ls', at_values v' ls' = (if decide (ls' = ls) then change (at_values v ls)
                                     else at_values v ls').
Proof.
  intros [Hl Hu]. unfold update. rewrite Hl, Nat.eqb_refl.
  rewrite (proj2 (forallb_forall valid_utf8 ls)).
  2: { intros x Hx. apply list_elem_of_In in Hx. by apply (proj1 (Forall_forall _ _) Hu). }
  eexists. split_and!; [done|done|]. intros ls'. unfold at_values. cbn.
  case_decide as Hd; [subst; by rewrite lookup_insert_eq|by rewrite lookup_insert_ne].
Qed.

#[export] Instance client_spec : ClientGolangSpec.
Proof.
  refine {| arity := fun v : Vec => length (op_Labels (ve_opts v)) |}.
  - done.
  - intros os _ Hnd. cbn. rewrite map_map. by apply bool_decide_eq_true_2.
  - intros v ls (v' & Hv & Ho & Hs)%(update_ok (fun s => mk_series (se_counter s + 1) (se_samples s) (se_gauge s))).
    exists v'. split_and!; [done|by rewrite Ho|]. intros ls'. cbn. rewrite Hs.
    case_decide; subst; cbn; split_and!; done || lia.
  - intros v ls x (v' & Hv & Ho & Hs)%(update_ok (fun s => mk_series (se_counter s) (se_samples s + 1) (se_gauge s))).
    exists v'. split_and!; [done|by rewrite Ho|]. intros ls'. cbn. rewrite Hs.
    case_decide; subst; cbn; split_and!; done || lia.
  - intros v ls x (v' & Hv & Ho & Hs)%(update_ok (fun s => mk_series (se_counter s) (se_samples s) (Some x))).
    exists v'. split_and!; [done|by rewrite Ho|]. intros ls'. cbn. rewrite Hs.
    case_decide; subst; cbn; split_and!; done || lia.
Defined.
End DemoRegistry.

#[local] Existing Instances DemoRegistry.client DemoRegistry.client_spec.

(** ** Witnesses *)

Definition some_calls : list (metric * Z) :=
  [(KafkaPublish "risk.evaluated" "ok", 5); (ObserveHTTPRequest "GET" "/healthz" "200", 7);
   (KafkaPublish "risk.evaluated" "ok", 5); (KafkaPublish "risk.evaluated" "error", 9)].

Lemma some_calls_valid : valid_labels some_calls.
Proof. by repeat apply List.Forall_cons; repeat constructor. Qed.

Lemma metrics_count_calls_witness :
  exists r r', Configure "outbox-publisher" = Some r /\ run_calls some_calls r = Some r'
  /\ counter_value (rg_vec r' kafkaPublished) ["ok"; rg_service r; "risk.evaluated"]%string
     = tally (counter_of (rg_service r)) some_calls kafkaPublished
         ["ok"; rg_service r; "risk.evaluated"]%string.
Proof.
  destruct (metrics_count_calls "outbox-publisher" some_calls) as (r & r' & Hr & Hr' & Hshown);
    [reflexivity|exact some_calls_valid|].
  exists r, r'. split; [exact Hr|]. split; [exact Hr'|]. apply Hshown.
Defined.

Definition sampled_world : World DB :=
  Eval vm_compute in after (@collect DB (PgSnapshotProvider (4, 3, 1))) Demo.requested.

Lemma run_sample :
  @collect DB (PgSnapshotProvider (4, 3, 1)) Demo.requested = (Ok tt, sampled_world).
Proof. evaluate. Qed.

(** Two pending events, the deposit and the payment. *)
Lemma sampler_shows_database_witness :
  exists snapshot reg,
    w_metrics sampled_world = w_metrics Demo.requested ++ [SetOperationalSnapshot snapshot]
    /\ obind (Configure "ledger-service") (run_calls
         (map (fun m => (m, 0)) (w_metrics Demo.requested)
          ++ [(SetOperationalSnapshot snapshot, 0)])) = Some reg
    /\ gauge_value (rg_vec reg outboxEvents) ["ledger-service"; "PENDING"]%string
       = Some (float64_of_int 2).
Proof.
  destruct (sampler_shows_database (4, 3, 1) "ledger-service"
              (map (fun m => (m, 0)) (w_metrics Demo.requested)) Demo.requested (Ok tt)
              sampled_world)
    as (_ & [Hno|(snapshot & reg & now & db1 & db2 & db3 & Hm & Hreg & Hp & _ & _ & _ & _ & _ & _ & _ & Hq)]).
  - reflexivity.
  - discriminate.
  - unfold valid_labels. repeat constructor.
  - rewrite map_map. apply List.map_id.
  - exact run_sample.
  - discriminate Hno.
  - exists snapshot, reg. split; [exact Hm|]. split; [exact Hreg|]. rewrite Hp.
    destruct (Hq eq_refl) as (-> & _). evaluate.
Defined.
