(* ===== verification/QueryProperties.v ===== *)
(** * What the paged transaction list promises *)

From stdpp Require Import base strings list gmap sorting.
From Stdlib Require Import ZArith Lia.
From S2P Require Import Prelude GoStrings GoJson GoTime Base64 Codec Runtime Domain Schema.
From S2P Require Import QueryService StoreFunding StoreQuery Instances.

Open Scope Z_scope.

Import Queries.

(** ** Cursors *)

Lemma unmarshal_marshal_cursor c :
  marshalable_time (cu_CreatedAt c) = true -> plain (cu_ID c) = true ->
  unmarshal_cursor (encode_object (map member_text (cursor_members c))) = Some c.
Proof.
  intros Ht Hp. unfold unmarshal_cursor, cursor_members.
  rewrite parse_encode_object; [|done|].
  2: { rewrite time_string_field. pose proof (format_rfc3339_nano_plain (cu_CreatedAt c)).
       solve_members. }
  cbn [obind decode_struct map]. unfold_members. unfold time_field. cbn [fst].
  rewrite assign_members_cons by reflexivity. cbn [find_field].
  change (find_field cursor_struct "created_at")
    with (Some (fun '(mk_cursor a b) v => obind (set_time a v) (fun a => Some (mk_cursor a b)))).
  cbn beta iota. rewrite set_time_format by done. cbn [obind].
  decode_step. by destruct c.
Qed.

(** Cursors survive the client: the cursor of a row that can be listed is
    decoded to what was encoded. *)
Theorem cursor_round_trip c :
  marshalable_time (cu_CreatedAt c) = true -> cu_CreatedAt c <> 0 ->
  safeTokenPattern (cu_ID c) = true ->
  decodeCursor (encodeCursor c) = Some c.
Proof.
  intros Ht H0 Hs. unfold decodeCursor, encodeCursor. rewrite RawURL_roundtrip, Ht.
  cbn [obind]. rewrite unmarshal_marshal_cursor by (done || by apply safeToken_plain).
  cbn [obind]. by rewrite (proj2 (Z.eqb_neq _ _) H0), Hs.
Qed.

Lemma cursor_round_trip_witness :
  decodeCursor (encodeCursor (mk_cursor (epoch + 1234567) "txn_1")) = Some (mk_cursor (epoch + 1234567) "txn_1").
Proof. apply cursor_round_trip; [reflexivity|discriminate|reflexivity]. Defined.

(** ** The rows behind a cursor *)

Section Pages.
Context `{CollationSpec}.
Implicit Types (db : DB) (f : StoreListFilter).

Definition row_key_of (kv : string * transaction_row) : Z * string := (t_created_at kv.2, kv.1).

(** The filter that resumes after a row. *)
Definition resume_after (kv : string * transaction_row) f : StoreListFilter :=
  mk_StoreListFilter (sf_AccountID f) (sf_Status f) (sf_Kind f) (sf_Limit f)
    (t_created_at kv.2) kv.1.

Lemma matching_sorted f db : StronglySorted (desc t_created_at) (matching f db).
Proof. apply StronglySorted_merge_sort; apply _. Qed.

Lemma elem_of_matching f db kv :
  kv ∈ matching f db <-> db_transactions db !! kv.1 = Some kv.2 /\ selected f kv = true.
Proof.
  unfold matching. rewrite merge_sort_Permutation, list_elem_of_filter. destruct kv as [id r].
  rewrite elem_of_map_to_list. cbn. tauto.
Qed.

Lemma matching_NoDup f db : NoDup (matching f db).
Proof. unfold matching. rewrite merge_sort_Permutation. apply NoDup_filter, NoDup_map_to_list. Qed.

(** Two rows of a table are the same when their keys in the order are. *)
Lemma same_key db x y :
  db_transactions db !! x.1 = Some x.2 -> db_transactions db !! y.1 = Some y.2 ->
  row_key_of x = row_key_of y -> x = y.
Proof. destruct x, y. unfold row_key_of. cbn. intros Hx Hy [= _ ->]. congruence. Qed.

Lemma filter_all {A} (P : A -> Prop) `{!forall x, Decision (P x)} (l : list A) :
  (forall x, x ∈ l -> P x) -> filter P l = l.
Proof.
  induction l as [|x l IH]; intros Hall; [done|]. rewrite filter_cons_True by (apply Hall; left).
  f_equal. apply IH. intros y Hy. apply Hall. by right.
Qed.

Lemma filter_none {A} (P : A -> Prop) `{!forall x, Decision (P x)} (l : list A) :
  (forall x, x ∈ l -> ~ P x) -> filter P l = [].
Proof.
  induction l as [|x l IH]; intros Hall; [done|]. rewrite filter_cons_False by (apply Hall; left).
  apply IH. intros y Hy. apply Hall. by right.
Qed.

(** In a table sorted downwards, the rows below [x] are those after it. *)
Lemma below_are_after db pre x suf :
  StronglySorted (desc t_created_at) (pre ++ x :: suf) -> NoDup (pre ++ x :: suf) ->
  (forall kv, kv ∈ pre ++ x :: suf -> db_transactions db !! kv.1 = Some kv.2) ->
  filter (fun kv => row_ltb (row_key_of kv) (row_key_of x) = true) (pre ++ x :: suf) = suf.
Proof.
  intros Hs Hnd Hrows. rewrite filter_app, filter_cons_False by (by rewrite row_ltb_irrefl).
  rewrite filter_none, filter_all; [done| |].
  - intros y Hy. apply StronglySorted_app_1_r, StronglySorted_inv in Hs as [_ Hall].
    rewrite Forall_forall in Hall. specialize (Hall y Hy). unfold desc, asc, row_le in Hall.
    destruct (row_ltb_total (row_key_of y) (row_key_of x)) as [Hlt|Hlt]; [|done|unfold row_key_of in Hlt; congruence].
    intros Heq. apply (same_key db) in Heq as ->; [|apply Hrows; set_solver..].
    apply NoDup_app in Hnd as (_ & _ & Hnd). by apply NoDup_cons in Hnd as [? _].
  - intros y Hy. apply (StronglySorted_app_1_elem_of _ _ _ y x) in Hs; [|done|set_solver].
    unfold desc, asc, row_le in Hs. fold (row_key_of y) (row_key_of x) in Hs. congruence.
Qed.

(** A row whose time a cursor keeps. *)
Definition listable_row (kv : string * transaction_row) : Prop :=
  safeTokenPattern kv.1 = true /\ marshalable_time (t_created_at kv.2) = true
  /\ t_created_at kv.2 <> 0 /\ timestamptz (t_created_at kv.2) = t_created_at kv.2.

(** The rows a cursor selects are those after its row. *)
Lemma matching_after f db pre x suf :
  sf_BeforeCreatedAt f = 0 -> listable_row x ->
  matching f db = pre ++ x :: suf -> matching (resume_after x f) db = suf.
Proof.
  intros Hfirst (_ & _ & Hx0 & Hxt) Hm.
  pose proof (matching_sorted f db) as Hs. pose proof (matching_NoDup f db) as Hnd.
  assert (Hrows : forall kv, kv ∈ pre ++ x :: suf -> db_transactions db !! kv.1 = Some kv.2).
  { intros kv Hkv. rewrite <- Hm in Hkv. by apply elem_of_matching in Hkv as [? _]. }
  rewrite Hm in Hs, Hnd. pose proof (below_are_after db pre x suf Hs Hnd Hrows) as Hsuf.
  apply (StronglySorted_unique_strong (desc t_created_at)).
  - intros y z [Hy _]%elem_of_matching Hz Hyz Hzy. apply (same_key db); [done|apply Hrows; set_solver|].
    destruct (decide (row_key_of y = row_key_of z)) as [|Hne]; [done|].
    apply row_ltb_total in Hne. unfold desc, asc, row_le, row_key_of in *. destruct Hne; congruence.
  - apply matching_sorted.
  - apply StronglySorted_app_1_r, StronglySorted_inv in Hs as [Hs _]. exact Hs.
  - rewrite <- Hsuf at 1. rewrite <- Hm. unfold matching. rewrite !merge_sort_Permutation.
    rewrite list_filter_filter. apply Permutation_refl', list_filter_iff. intros kv.
    unfold selected, nullTime, resume_after.
    cbn [sf_AccountID sf_Status sf_Kind sf_BeforeCreatedAt sf_BeforeID].
    rewrite Hfirst, (proj2 (Z.eqb_neq _ _) Hx0), Hxt. cbn [Z.eqb].
    fold (row_key_of kv) (row_key_of x). rewrite !andb_true_iff. tauto.
Qed.
End Pages.

(** ** Walking the pages *)

Section Walk.
Context `{CollationSpec}.

Definition with_cursor (f : ListFilter) (c : string) : ListFilter :=
  mk_ListFilter (lf_AccountID f) (lf_Status f) (lf_Kind f) (lf_Limit f) c.

(** A client that asks for the next page while there is a cursor. *)
Fixpoint list_all (fuel : nat) (f : ListFilter) : M DB (option (list Detail)) :=
  match fuel with
  | O => ret None
  | S fuel =>
    let! page := List f in
    if String.eqb (pg_NextCursor page) EmptyString then ret (Some (pg_Items page)) else
    let! rest := list_all fuel (with_cursor f (pg_NextCursor page)) in
    ret (option_map (app (pg_Items page)) rest)
  end.

Definition details (rows : list (string * transaction_row)) : list Detail :=
  map (fun kv => detail_of kv.1 kv.2) rows.

Lemma store_filter_inv f sf :
  store_filter f = Some sf ->
  sf_AccountID sf = lf_AccountID f /\ sf_Status sf = lf_Status f /\ sf_Kind sf = lf_Kind f
  /\ sf_Limit sf = normalized_limit f /\ 1 <= normalized_limit f <= 100
  /\ forallb text_ok [sf_AccountID sf; sf_Status sf; sf_Kind sf; sf_BeforeID sf] = true.
Proof.
  unfold store_filter. destruct (_ || _) eqn:Hok; [done|]. reflect_bools.
  assert (Hst : text_ok (lf_Status f) = true).
  { unfold validStatus in *. rewrite !orb_true_iff, !String.eqb_eq in *.
    by destruct_or?; match goal with Hs : lf_Status f = _ |- _ => rewrite Hs end. }
  assert (Hk : text_ok (lf_Kind f) = true).
  { unfold validKind in *. rewrite !orb_true_iff, !String.eqb_eq in *.
    by destruct_or?; match goal with Hs : lf_Kind f = _ |- _ => rewrite Hs end. }
  assert (Ha : text_ok (lf_AccountID f) = true) by by apply token_text.
  destruct (String.eqb (lf_Cursor f) EmptyString).
  { intros [= <-]. cbn [forallb sf_AccountID sf_Status sf_Kind sf_Limit sf_BeforeID].
    rewrite Ha, Hst, Hk. split_and!; done || lia. }
  destruct (decodeCursor (lf_Cursor f)) as [c|] eqn:Hc; [|done]. intros [= <-].
  cbn [forallb sf_AccountID sf_Status sf_Kind sf_Limit sf_BeforeID]. rewrite Ha, Hst, Hk.
  unfold decodeCursor in Hc. destruct (RawURLDecode _); [|done]. cbn [obind] in Hc.
  destruct (unmarshal_cursor _); [|done]. cbn [obind] in Hc. case_match; [done|].
  simplify_eq. reflect_bools. rewrite token_text by done. split_and!; done || lia.
Qed.

(** The filter of the next page. *)
Lemma store_filter_next f sf kv :
  store_filter f = Some sf -> listable_row kv ->
  store_filter (with_cursor f (encodeCursor (mk_cursor (t_created_at kv.2) kv.1)))
  = Some (resume_after kv sf).
Proof.
  intros Hf (Hs & Ht & H0' & _). destruct (store_filter_inv f sf Hf) as (Ha & Hst & Hk & Hl & _).
  pose proof (cursor_round_trip (mk_cursor (t_created_at kv.2) kv.1) Ht H0' Hs) as Hc.
  unfold store_filter in *. unfold with_cursor, normalized_limit in *.
  cbn [lf_AccountID lf_Status lf_Kind lf_Limit lf_Cursor].
  destruct (_ || _); [done|]. rewrite Hc.
  destruct (String.eqb_spec (encodeCursor (mk_cursor (t_created_at kv.2) kv.1)) EmptyString) as [He|_].
  { rewrite He in Hc. discriminate Hc. }
  cbn. unfold resume_after. by rewrite Ha, Hst, Hk, Hl.
Qed.

Lemma List_quiet f sf (w : World DB) :
  w_sched w = [] -> store_filter f = Some sf ->
  exists w', List f w
    = (Ok (page_of (normalized_limit f)
             (details (take (Z.to_nat (normalized_limit f + 1)) (matching sf (w_store w))))), w')
  /\ w_store w' = w_store w /\ w_sched w' = [].
Proof.
  intros Hw Hf. destruct (store_filter_inv f sf Hf) as (_ & _ & _ & Hl & _ & Htext).
  unfold List. rewrite Hf. cbn [ListTransactions PgQueryStore]. unfold PgListTransactions, with_texts.
  rewrite Htext, Hl. assert (Hq : next_slot w = quiet) by (unfold next_slot; by rewrite Hw).
  unfold bind, wrapf, round_trip, pop. rewrite Hq, Hw. cbn.
  eexists. split; [reflexivity|]. done.
Qed.

(** The split of a page that is not the last. *)
Lemma page_of_more n (rows : list (string * transaction_row)) :
  (0 < n)%nat -> (n < length rows)%nat ->
  exists init kv rest, rows = init ++ kv :: rest /\ length init = pred n
  /\ page_of (Z.of_nat n) (details (take (S n) rows))
     = mk_Page (details (init ++ [kv])) (encodeCursor (mk_cursor (t_created_at kv.2) kv.1)).
Proof.
  intros Hn Hlen. destruct (lookup_lt_is_Some_2 rows (pred n)) as [kv Hkv]; [lia|].
  exists (take (pred n) rows), kv, (drop n rows).
  replace n with (S (pred n)) at 2 by lia. split_and!; [by rewrite take_drop_middle|rewrite length_take; lia|].
  unfold page_of, details. rewrite length_map, length_take.
  rewrite (proj2 (Z.ltb_lt _ _)) by lia. rewrite Nat2Z.id.
  rewrite firstn_map, take_take, Nat.min_l by lia.
  assert (take n rows = take (pred n) rows ++ [kv]) as ->.
  { rewrite <- (take_S_r _ _ kv) by done. f_equal. lia. }
  rewrite map_app. cbn [map]. by rewrite last_snoc.
Qed.

Lemma list_all_spec db base :
  sf_BeforeCreatedAt base = 0 -> Forall listable_row (matching base db) ->
  forall fuel f sf pre suf (w : World DB),
  w_sched w = [] -> w_store w = db -> store_filter f = Some sf ->
  matching base db = pre ++ suf -> matching sf db = suf ->
  (forall kv, resume_after kv sf = resume_after kv base) ->
  (length suf < fuel)%nat ->
  (list_all fuel f w).1 = Ok (Some (details suf)).
Proof.
  intros Hb Hrows. induction fuel as [|fuel IH]; intros f sf pre suf w Hw Hdb Hf Hbase Hsf Hres Hfuel;
    [lia|]. cbn [list_all].
  destruct (List_quiet f sf w Hw Hf) as (w' & Hl & Hst' & Hw'). unfold bind at 1. rewrite Hl, Hdb, Hsf.
  destruct (store_filter_inv f sf Hf) as (_ & _ & _ & _ & Hlim & _).
  set (n := Z.to_nat (normalized_limit f)).
  assert (Hn : normalized_limit f = Z.of_nat n) by lia.
  replace (Z.to_nat (normalized_limit f + 1)) with (S n) by lia. rewrite Hn.
  destruct (decide (n < length suf)%nat) as [Hmore|Hlast].
  - destruct (page_of_more n suf) as (init & kv & rest & Hsuf & Hinit & ->); [lia|done|].
    cbn [pg_NextCursor pg_Items].
    assert (Hkv : listable_row kv).
    { rewrite Forall_forall in Hrows. apply Hrows. rewrite Hbase, Hsuf, !elem_of_app. right. right. left. }
    destruct (String.eqb_spec (encodeCursor (mk_cursor (t_created_at kv.2) kv.1)) EmptyString) as [He|_].
    { destruct Hkv as (Hs & Ht & H0' & _).
      pose proof (cursor_round_trip (mk_cursor (t_created_at kv.2) kv.1) Ht H0' Hs) as Hc.
      rewrite He in Hc. discriminate Hc. }
    pose proof (store_filter_next f sf kv Hf Hkv) as Hnext.
    specialize (IH _ _ (pre ++ init ++ [kv]) rest w' Hw' (eq_trans Hst' Hdb) Hnext).
    unfold bind. destruct (list_all _ _ w') as [o w2] eqn:E. cbn [fst] in IH. rewrite IH.
    + cbn [fst ret option_map]. unfold details. rewrite Hsuf, <- map_app, <- !app_assoc. done.
    + rewrite Hbase, Hsuf, <- !app_assoc. done.
    + rewrite Hres. apply (matching_after base db (pre ++ init)); [done..|].
      by rewrite Hbase, Hsuf, <- app_assoc.
    + intros kv'. rewrite Hres. unfold resume_after. done.
    + apply (f_equal length) in Hsuf. rewrite length_app in Hsuf. cbn in Hsuf. lia.
  - unfold page_of, details. rewrite length_map, length_take.
    rewrite (proj2 (Z.ltb_ge _ _)) by lia. cbn [pg_NextCursor pg_Items].
    rewrite take_ge by lia. done.
Qed.

(** C35. The pages are complete: while nobody writes, a client that follows the
    cursors from the first page gets every transaction of its account, status
    and kind exactly once, newest first, whatever the page size. *)
Theorem pages_are_complete f sf fuel (w : World DB) :
  w_sched w = [] -> lf_Cursor f = EmptyString -> store_filter f = Some sf ->
  (forall id r, db_transactions (w_store w) !! id = Some r -> listable_row (id, r)) ->
  (size (db_transactions (w_store w)) < fuel)%nat ->
  exists rows, (list_all fuel f w).1 = Ok (Some (details rows))
  /\ NoDup rows /\ StronglySorted (desc t_created_at) rows
  /\ forall id r, (id, r) ∈ rows <->
       db_transactions (w_store w) !! id = Some r /\ t_account_id r = lf_AccountID f
       /\ (lf_Status f = EmptyString \/ t_status r = lf_Status f)
       /\ (lf_Kind f = EmptyString \/ t_kind r = lf_Kind f).
Proof.
  intros Hw Hc Hf Hrows Hfuel. exists (matching sf (w_store w)).
  destruct (store_filter_inv f sf Hf) as (Ha & Hs & Hk & _).
  assert (Hb : sf_BeforeCreatedAt sf = 0).
  { unfold store_filter in Hf. destruct (_ || _); [done|]. rewrite Hc in Hf. by injection Hf as <-. }
  split_and!; [|apply matching_NoDup|apply matching_sorted|].
  - apply (list_all_spec (w_store w) sf Hb) with (sf := sf) (pre := []); try done.
    + rewrite Forall_forall. intros [id r] [Hr _]%elem_of_matching. by apply Hrows.
    + unfold matching. rewrite merge_sort_Permutation.
      eapply Nat.le_lt_trans; [apply length_filter|]. by rewrite length_map_to_list.
  - intros id r. rewrite elem_of_matching. cbn [fst snd]. unfold selected, nullTime. rewrite Hb. cbn.
    rewrite !andb_true_iff, !orb_true_iff, !String.eqb_eq, Ha, Hs, Hk. tauto.
Qed.
End Walk.

(** ** Witness: two transactions, one per page *)

Definition listable_rowb (kv : string * transaction_row) : bool :=
  safeTokenPattern kv.1 && marshalable_time (t_created_at kv.2)
  && negb (t_created_at kv.2 =? 0) && (timestamptz (t_created_at kv.2) =? t_created_at kv.2).

Lemma listable_rowb_true kv : listable_rowb kv = true -> listable_row kv.
Proof. unfold listable_rowb. intros Hkv. by reflect_bools. Qed.

Lemma settled_listable :
  map_existsb (fun id r => negb (listable_rowb (id, r))) (db_transactions (w_store Demo.settled_world))
  = false.
Proof. evaluate. Qed.

Definition alice_filter : ListFilter := mk_ListFilter "alice" EmptyString EmptyString 1 EmptyString.

Lemma pages_are_complete_witness :
  exists rows, (list_all 5 alice_filter Demo.settled_world).1 = Ok (Some (details rows))
  /\ StronglySorted (desc t_created_at) rows.
Proof.
  destruct (pages_are_complete alice_filter
              (mk_StoreListFilter "alice" EmptyString EmptyString 1 0 EmptyString) 5
              Demo.settled_world) as (rows & Hl & _ & Hs & _).
  - reflexivity.
  - reflexivity.
  - reflexivity.
  - intros id r Hr. apply listable_rowb_true, negb_false_iff.
    exact (proj1 (map_existsb_false _ _) settled_listable id r Hr).
  - apply Nat.ltb_lt. evaluate.
  - exists rows. split; [exact Hl|exact Hs].
Defined.
