(* ===== verification/EdgeProperties.v ===== *)
(** * At the edge: what the shared rate limit allows *)

From stdpp Require Import base strings list gmap.
From Stdlib Require Import ZArith Lia.
From S2P Require Import Prelude GoStrings Sha256 Runtime GoJson RedisLimiter Schema Instances.

Open Scope Z_scope.

Import RateLimit.

(** ** The fixed window *)

Section Window.
Context {S : Type}.
Implicit Types (w : World S).

Definition window_ns (l : Limiter) : Z := lm_window l / 1000000 * 1000000.

Lemma Allow_clock l key w r w' : Allow l key w = (r, w') -> w_clock (pop true w) <= w_clock w'.
Proof.
  unfold Allow, wrapf, bind, allowScript.
  destruct (live_counter _ _) as [[? ?]|]; destruct (sl_fault _); intros [= _ <-]; cbn; lia.
Qed.

Lemma allowed_clock l key n : forall w total w',
  allowed_of l key n w = (total, w') -> w_clock w <= w_clock w'.
Proof.
  induction n as [|n IH]; intros w total w'; cbn [allowed_of]; [intros [= _ <-]; lia|].
  destruct (Allow l key w) as [r w1] eqn:HA. destruct (allowed_of l key n w1) as [c w2] eqn:Hr.
  intros [= _ <-]. apply IH in Hr. apply Allow_clock in HA. cbn in HA. lia.
Qed.

(** The first check of a new window starts the counter, unless Redis was not
    reached. *)
Lemma Allow_fresh l key w r w' :
  live_counter (redisKey key) (pop true w) = None -> Allow l key w = (r, w') ->
  (w_redis w' !! redisKey key = Some (1, w_clock (pop true w) + window_ns l)
   /\ (r = Ok (1 <=? lm_limit l) \/ is_ok r = false))
  \/ (w_redis w' = w_redis w /\ w_clock w' = w_clock (pop true w) /\ is_ok r = false).
Proof.
  unfold Allow, wrapf, bind, allowScript, window_ns. intros ->.
  destruct (sl_fault (next_slot w)); intros [= <- <-]; cbn; rewrite ?lookup_insert_eq; auto.
Qed.

(** No live counter, and none while the time only goes on. *)
Lemma live_counter_later key w w' :
  live_counter key (pop true w) = None -> w_redis w' = w_redis w ->
  w_clock w' = w_clock (pop true w) -> live_counter key (pop true w') = None.
Proof.
  unfold live_counter. cbn [w_redis w_clock pop]. change (w_redis (pop true ?x)) with (w_redis x).
  intros Hn -> Hc. destruct (w_redis w !! key) as [[c e]|]; [|done].
  destruct (e <=? _) eqn:E in Hn; [|done]. reflect_bools.
  rewrite (proj2 (Z.leb_le _ _)); [done|]. cbn in *. lia.
Qed.

Lemma fresh_bound l key n : forall w total w',
  0 < lm_limit l ->
  live_counter (redisKey key) (pop true w) = None ->
  allowed_of l key n w = (total, w') -> w_clock w' < w_clock w + window_ns l ->
  0 <= total <= lm_limit l.
Proof.
  induction n as [|n IH]; intros w total w' Hlim Hnone Hrun Hend; [injection Hrun as <- <-; lia|].
  cbn [allowed_of] in Hrun. destruct (Allow l key w) as [r w1] eqn:HA.
  destruct (allowed_of l key n w1) as [count w2] eqn:Hrest. injection Hrun as <- <-.
  pose proof (Allow_clock _ _ _ _ _ HA) as Hc1. cbn in Hc1.
  destruct (Allow_fresh _ _ _ _ _ Hnone HA) as [[Hr Hres]|(Hr & Hc & Hf)].
  - pose proof (window_bound l key n w1 _ _ _ _ Hr Hrest ltac:(cbn; lia)) as Hb.
    destruct Hres as [->|Hf]; [|destruct r as [[]|]; [done..|lia]].
    rewrite (proj2 (Z.leb_le _ _)) by lia. lia.
  - assert (Hn1 : live_counter (redisKey key) (pop true w1) = None) by by eapply live_counter_later.
    specialize (IH _ _ _ Hlim Hn1 Hrest ltac:(lia)). destruct r as [[]|]; [done..|lia].
Qed.

Lemma span_bound l key n : forall w total w',
  0 < lm_limit l -> 0 < window_ns l ->
  (forall c e, w_redis w !! redisKey key = Some (c, e) -> 0 <= c) ->
  allowed_of l key n w = (total, w') -> w_clock w' < w_clock w + window_ns l ->
  total <= lm_limit l + match live_counter (redisKey key) (pop true w) with
                        | Some (c, _) => Z.max 0 (lm_limit l - c) | None => 0 end.
Proof.
  induction n as [|n IH]; intros w total w' Hlim Hwin Hpos Hrun Hend.
  { injection Hrun as <- <-. destruct (live_counter _ _) as [[]|]; lia. }
  destruct (live_counter (redisKey key) (pop true w)) as [[c e]|] eqn:Hl.
  2: { pose proof (fresh_bound _ _ _ _ _ _ Hlim Hl Hrun Hend). lia. }
  cbn [allowed_of] in Hrun. destruct (Allow l key w) as [r w1] eqn:HA.
  destruct (allowed_of l key n w1) as [count w2] eqn:Hrest. injection Hrun as <- <-.
  destruct (proj1 (live_counter_pop _ _ _ _) Hl) as [Hr0 _].
  pose proof (Hpos _ _ Hr0) as Hc0.
  destruct (Allow_live _ _ _ _ _ _ _ Hl HA) as (Hclk & Hcase).
  assert (Hend1 : w_clock w2 < w_clock w1 + window_ns l) by lia.
  destruct Hcase as [[Hr1 Hres]|[Hr1 Hf]].
  - specialize (IH w1 count w2 Hlim Hwin ltac:(intros ? ? Hx; rewrite Hr1 in Hx; injection Hx as <- <-; lia) Hrest Hend1).
    assert (Hlive1 : match live_counter (redisKey key) (pop true w1) with
                     | Some (c', _) => c' = c + 1 | None => True end).
    { destruct (live_counter (redisKey key) (pop true w1)) as [[c' e']|] eqn:Hl1; [|done].
      apply live_counter_pop in Hl1 as [Hl1 _]. rewrite Hr1 in Hl1. by injection Hl1 as <- <-. }
    destruct Hres as [->|Hf].
    + destruct (c + 1 <=? lm_limit l) eqn:Hle; reflect_bools;
        destruct (live_counter _ _) as [[? ?]|]; lia.
    + destruct r as [[]|]; [done..|]. destruct (live_counter _ _) as [[? ?]|]; lia.
  - specialize (IH w1 count w2 Hlim Hwin ltac:(intros ? ? Hx; rewrite Hr1 in Hx; injection Hx as <- <-; lia) Hrest Hend1).
    destruct r as [[]|]; [done..|].
    destruct (live_counter (redisKey key) (pop true w1)) as [[c' e']|] eqn:Hl1; [|lia].
    apply live_counter_pop in Hl1 as [Hl1 _]. rewrite Hr1 in Hl1. injection Hl1 as <- <-. lia.
Qed.
End Window.

(** ** The properties *)

(** C36. The rate limit holds: in any run of checks of one client that takes
    less than a window at most twice the limit is allowed, and at most the
    limit when the run opens a window; the limit of an opened limiter is
    positive.  (Windows below a millisecond have no length in Redis.) *)
Theorem rate_limit_holds {S} limit window key n (w : World S) total w' :
  0 < window_ns (OpenLimiter limit window) ->
  (forall c e, w_redis w !! redisKey key = Some (c, e) -> 0 <= c) ->
  allowed_of (OpenLimiter limit window) key n w = (total, w') ->
  w_clock w' < w_clock w + window_ns (OpenLimiter limit window) ->
  0 < lm_limit (OpenLimiter limit window)
  /\ total <= 2 * lm_limit (OpenLimiter limit window)
  /\ (live_counter (redisKey key) (pop true w) = None ->
      total <= lm_limit (OpenLimiter limit window)).
Proof.
  intros Hwin Hpos Hrun Hend. set (l := OpenLimiter limit window) in *.
  assert (Hlim : 0 < lm_limit l).
  { unfold l, OpenLimiter. cbn. case_match; reflect_bools; lia. }
  split_and!; [done| |].
  - pose proof (span_bound _ _ _ _ _ _ Hlim Hwin Hpos Hrun Hend) as Hb.
    destruct (live_counter _ _) as [[c e]|] eqn:Hl; [|lia].
    apply live_counter_pop in Hl as [Hr _]. specialize (Hpos _ _ Hr). lia.
  - intros Hnone. pose proof (fresh_bound _ _ _ _ _ _ Hlim Hnone Hrun Hend). lia.
Qed.

Definition limited_world : World DB :=
  Eval vm_compute in (allowed_of (OpenLimiter 2 1000000000) "192.0.2.1" 5 genesis).2.

Lemma run_limited :
  allowed_of (OpenLimiter 2 1000000000) "192.0.2.1" 5 genesis = (2, limited_world).
Proof. evaluate. Qed.

Lemma rate_limit_holds_witness :
  allowed_of (OpenLimiter 2 1000000000) "192.0.2.1" 5 genesis = (2, limited_world) /\ 2 <= 2 * 2.
Proof.
  split; [exact run_limited|].
  apply (rate_limit_holds 2 1000000000 "192.0.2.1" 5 genesis 2 limited_world).
  - reflexivity.
  - intros c e Hr. discriminate Hr.
  - exact run_limited.
  - apply Z.ltb_lt. evaluate.
Defined.
