(* ===== verification/LockProperties.v ===== *)
(** * Properties of interleaved ledger transactions

    With the advisory lock every interleaving is a sequence of atomic steps;
    without it two settlements overdraw an account. *)

From stdpp Require Import base strings list gmap relations.
From Stdlib Require Import ZArith Lia.
From S2P Require Import Prelude GoStrings Sha256 Runtime Domain GoJson Codec Schema ConsumerLoop.
From S2P Require Import StoreOutbox TransactionService StoreTransaction FundingService StoreConsumer.
From S2P Require Import StoreLedger StoreFunding HttpApi HttpMetrics Books Processes Guarantees System Invariants LedgerLocks.
From S2P Require Import RiskService Instances.

Open Scope Z_scope.

Section Properties.
Context `{UnicodeTables} `{JsonbSpec} `{Collation}.

(** C5. Interleavings serialize: settlements and deposits that run statement
    by statement, in any order, with any other step in between and any of them
    aborted at any point, leave a database that a sequence of atomic steps
    leaves; so no account is overdrawn, whatever [hashtext] is. *)
Theorem interleavings_serialize hashtext db c :
  books db -> csteps hashtext true (start db) c ->
  steps db (cf_db c) /\ solvent (cf_db c).
Proof.
  intros Hbk Hrun. destruct (csteps_sound hashtext _ _ Hrun (start_sound hashtext db Hbk)) as [Hst [Hbk' _]].
  split; [exact Hst|]. apply Hbk'.
Qed.
End Properties.

(** ** One settlement up to its balance, nothing in between *)

Section Session.
Context `{UnicodeTables} `{JsonbSpec} `{Collation}.
Implicit Types (c : conf).

Lemma session_reads hashtext locking s d hash event now c r accounts :
  cf_sessions c !! s = None ->
  db_processed_events (cf_db c) !! delivery_key d = None ->
  cf_rows c !! rk_TransactionID event = None ->
  db_transactions (cf_db c) !! rk_TransactionID event = Some r -> settles event r ->
  rk_Approved event = true ->
  take_account locking (account_key hashtext (t_account_id r) (t_currency r)) s
    (cf_accounts c) accounts ->
  csteps hashtext locking c
    (mk_conf (cf_db c) (<[rk_TransactionID event := s]> (cf_rows c)) accounts
       (<[s := Settling d hash event now
            (Balanced r (account_balance (t_account_id r) (t_currency r) (cf_db c)))]>
          (cf_sessions c))).
Proof.
  intros Hs Hp Hrow Hr Hset Happ Hacc. unfold csteps.
  eapply rtc_l; [by apply (c_begin_settlement _ _ s d hash event now)|].
  eapply rtc_l; [apply (c_claim _ _ s d hash event now); [apply lookup_insert_eq|done]|].
  eapply rtc_l; [by apply (c_lock_row _ _ s d hash event now _ r); [apply lookup_insert_eq|..]|].
  eapply rtc_l; [by apply (c_lock_account _ _ s d hash event now _ r accounts);
                 [apply lookup_insert_eq|..]|].
  eapply rtc_l; [apply (c_balance _ _ s d hash event now _ r), lookup_insert_eq|].
  unfold become. cbn [cf_db cf_rows cf_accounts cf_sessions]. rewrite !insert_insert_eq. done.
Qed.

(** An authorized settlement, from what it finds and the identifiers it draws. *)
Lemma settlement_intro d hash h event now r b ev payload id1 id2 cur db :
  let id := rk_TransactionID event in
  let db1 := set_processed_events
    (<[delivery_key d := claimed_row now d h]> (db_processed_events db)) db in
  let row := finalized r TransactionAuthorized (rk_RiskLevel event) (rk_Reason event) now in
  bpchar 64 hash = Ok h -> sha256HexPattern h = true ->
  db_processed_events db !! delivery_key d = None ->
  db_transactions db !! id = Some r -> settles event r ->
  rk_Approved event = true -> (b <? rk_AmountCents event) = false ->
  bpchar 3 (t_currency r) = Ok cur ->
  db_ledger_entries db !! id1 = None -> db_ledger_entries db !! id2 = None -> id1 <> id2 ->
  List.forallb (fun kv => negb (String.eqb (l_transaction_id kv.2) id))
    (map_to_list (db_ledger_entries db)) = true ->
  List.forallb snd (transaction_checks row) = true ->
  ev = mk_OutboxEvent (ev_ID ev) EventTransactionAuthorized id (t_account_id r)
         (rk_CorrelationID event) (marshal_RiskEvaluated event) OutboxPending
         (ev_Attempts ev) (ev_LastError ev) (ev_CreatedAt ev) ->
  jsonb (ev_Payload ev) = Some payload -> db_outbox_events db !! ev_ID ev = None ->
  settlement d hash event now r b db
    (set_outbox_events (<[ev_ID ev := outbox_row_of now ev payload]> (db_outbox_events db))
      (set_transactions (<[id := row]> (db_transactions db))
        (ledger_pair now id1 id2 id (t_account_id r) (- t_amount_cents r) "clearing"
           (t_amount_cents r) cur db1))).
Proof.
  intros id db1 row Hh Hhex Hp Hr Hset Happ Hb Hcur Hf1 Hf2 Hne Hnone Hck Hev Hj Hfresh.
  exists db1. split; [by exists h|]. unfold settled_on, ruling. rewrite Happ, Hb.
  rewrite String.eqb_refl. eexists ev, payload, _. split_and!; try done.
  - exists id1, id2, cur. split_and!; try done. intros i l Hl Ht.
    rewrite List.forallb_forall in Hnone.
    specialize (Hnone (i, l)). rewrite <- list_elem_of_In, elem_of_map_to_list in Hnone.
    specialize (Hnone Hl). cbn in Hnone. rewrite Ht, String.eqb_refl in Hnone. done.
  - apply Forall_forall. intros x Hx%list_elem_of_In.
    rewrite List.forallb_forall in Hck. by apply Hck.
  - by rewrite Hev.
  - by rewrite Hev.
  - by rewrite Hev.
  - by rewrite Hev.
  - by rewrite Hev.
  - by rewrite Hev.
Qed.
End Session.

(** ** Two payments of 4000 from an account that holds 5000 *)

Module Race.
Import Demo.

Definition request (key : string) : Http.Request :=
  post "/transactions" "payments" key (payment_body 4000).
Definition one : World DB :=
  Eval vm_compute in after (run getenv ParseAddr commit wait (transaction_service (request "race-1"))) funded.
Definition both : World DB :=
  Eval vm_compute in after (run getenv ParseAddr commit wait (transaction_service (request "race-2"))) one.
Definition db0 : DB := w_store both.

Lemma run_one : run getenv ParseAddr commit wait (transaction_service (request "race-1")) funded = (Ok tt, one).
Proof. evaluate. Qed.
Lemma run_both : run getenv ParseAddr commit wait (transaction_service (request "race-2")) one = (Ok tt, both).
Proof. evaluate. Qed.
Lemma books_db0 : books db0.
Proof.
  pose proof (run_reachable _ _ _ _ funded_reachable run_one eq_refl) as Hone.
  destruct (run_reachable _ _ _ _ Hone run_both eq_refl) as [Hst _].
  eapply steps_books; [exact Hst|apply books_empty].
Qed.

Definition first : string := "txn_00000000000000000000000000000006".
Definition second : string := "txn_00000000000000000000000000000008".
Definition approved (id : string) : RiskEvaluated :=
  mk_RiskEvaluated id "alice" 4000 "USD" "LOW" true "within policy limits" "trace-1".
Definition delivery (id : string) : Delivery :=
  mk_Delivery "ledger-service" id "risk.evaluated" 0 1.
Definition hash (id : string) : string := Risk.hashPayload (marshal_RiskEvaluated (approved id)).
Definition row (id : string) : transaction_row :=
  default (mk_transaction_row "" "" None None None 0 "" "" None None "" 0 0)%string
    (db_transactions db0 !! id).
Definition outcome (id evid : string) : OutboxEvent :=
  mk_OutboxEvent evid EventTransactionAuthorized id "alice" "trace-1"
    (marshal_RiskEvaluated (approved id)) OutboxPending 0 EmptyString epoch.

(** What the settlement of [id] commits when it read a balance of 5000. *)
Definition posted_db (id evid id1 id2 : string) (db : DB) : DB :=
  set_outbox_events
    (<[evid := outbox_row_of epoch (outcome id evid) (marshal_RiskEvaluated (approved id))]>
      (db_outbox_events db))
    (set_transactions
      (<[id := finalized (row id) TransactionAuthorized "LOW" "within policy limits" epoch]>
        (db_transactions db))
      (ledger_pair epoch id1 id2 id "alice" (- 4000) "clearing" 4000 "USD"
        (set_processed_events
          (<[delivery_key (delivery id) := claimed_row epoch (delivery id) (hash id)]>
            (db_processed_events db)) db))).
Definition db1 : DB :=
  posted_db first "evt_0000000000000000000000000000000a" "le_0000000000000000000000000000000c"
    "le_0000000000000000000000000000000d" db0.
Definition db2 : DB :=
  posted_db second "evt_0000000000000000000000000000000b" "le_0000000000000000000000000000000e"
    "le_0000000000000000000000000000000f" db1.

Lemma settles_row id : id = first \/ id = second -> settles (approved id) (row id).
Proof. intros [-> | ->]; vm_compute; auto. Qed.

Lemma settlement_first :
  settlement (delivery first) (hash first) (approved first) epoch (row first) 5000 db0 db1.
Proof.
  refine (settlement_intro (delivery first) (hash first) (hash first) (approved first) epoch
    (row first) 5000 (outcome first "evt_0000000000000000000000000000000a") _ _ _ "USD" db0
    _ _ _ _ (settles_row first (or_introl eq_refl)) _ _ _ _ _ _ _ _ _ _ _); by vm_compute.
Qed.

Lemma settlement_second :
  settlement (delivery second) (hash second) (approved second) epoch (row second) 5000 db1 db2.
Proof.
  refine (settlement_intro (delivery second) (hash second) (hash second) (approved second) epoch
    (row second) 5000 (outcome second "evt_0000000000000000000000000000000b") _ _ _ "USD" db1
    _ _ _ _ (settles_row second (or_intror eq_refl)) _ _ _ _ _ _ _ _ _ _ _); by vm_compute.
Qed.

(** A lock table in which every account collides. *)
Definition colliding (_ : string) : Z := 0.

(** The first settlement alone, with its locks. *)
Definition serial : conf :=
  finish 0 db1 (mk_conf db0 {[first := 0%nat]} {[(0, 0) := 0%nat]}
    {[0%nat := Settling (delivery first) (hash first) (approved first) epoch (Balanced (row first) 5000)]}).

Lemma serial_run : csteps colliding true (start db0) serial.
Proof.
  eapply rtc_r.
  - apply (session_reads colliding true 0 (delivery first) (hash first) (approved first) epoch
             (start db0) (row first) {[(0, 0) := 0%nat]}); [done|by vm_compute|done|by vm_compute| |done|].
    + apply settles_row. by left.
    + done.
  - apply (c_settle _ _ 0 (delivery first) (hash first) (approved first) epoch _ (row first) 5000);
      [|exact settlement_first].
    cbn [start cf_sessions cf_db]. rewrite lookup_insert_eq. do 2 f_equal.
Qed.

(** Without locks: both read the balance, then both commit. *)
Lemma racing_run hashtext : exists c, csteps hashtext false (start db0) c /\ cf_db c = db2.
Proof.
  assert (Hfirst := session_reads hashtext false 0 (delivery first) (hash first) (approved first)
    epoch (start db0) (row first) ∅).
  assert (Hsecond := fun c => session_reads hashtext false 1 (delivery second) (hash second)
    (approved second) epoch c (row second) ∅).
  eexists. split.
  - etrans; [apply Hfirst; [done|by vm_compute|done|by vm_compute| |done|done]|].
    { apply settles_row. by left. }
    etrans; [apply Hsecond; [done|by vm_compute|done|by vm_compute| |done|done]|].
    { apply settles_row. by right. }
    eapply rtc_l.
    { apply (c_settle _ _ 0 (delivery first) (hash first) (approved first) epoch _ (row first) 5000);
        [|exact settlement_first].
      cbn [cf_sessions cf_db start]. rewrite lookup_insert_ne, lookup_insert_eq by done. do 2 f_equal. }
    eapply rtc_l; [|apply rtc_refl].
    apply (c_settle _ _ 1 (delivery second) (hash second) (approved second) epoch _ (row second) 5000);
      [|exact settlement_second].
    unfold finish. cbn [cf_sessions cf_db start].
    rewrite lookup_delete_ne, lookup_insert_eq by done. do 2 f_equal.
  - done.
Qed.
End Race.

Section Overdraft.
Import Demo Race.

(** C6. The advisory lock is needed: without it, whatever [hashtext] is, two
    settlements that interleave their statements over a sound database leave a
    negative balance. *)
Theorem advisory_lock_is_needed hashtext :
  exists db c, books db /\ csteps hashtext false (start db) c
  /\ account_balance "alice" "USD" db = 5000
  /\ account_balance "alice" "USD" (cf_db c) = - 3000.
Proof.
  destruct (racing_run hashtext) as (c & Hrun & Hdb). exists db0, c.
  split; [exact books_db0|]. split; [exact Hrun|]. rewrite Hdb. by vm_compute.
Qed.

Lemma interleavings_serialize_witness :
  size (db_ledger_entries (cf_db serial)) = 4%nat
  /\ steps db0 (cf_db serial) /\ solvent (cf_db serial).
Proof.
  split; [by vm_compute|].
  exact (interleavings_serialize colliding db0 serial books_db0 serial_run).
Defined.
End Overdraft.
